(** * NeRF sample (samples/general/nerf/nerf.cpp): a shallow embedding

    The renderer object [Nerf] is a record, its member functions are
    computations in a state-and-halt monad, containers are lists and finite
    maps, [float] is IEEE binary32 and [int] is a 32-bit integer. *)

From Stdlib Require Import ZArith List String Bool Lia QArith Qcanon.
From Stdlib Require Import Floats.SpecFloat.
From Stdlib Require Import Strings.Byte Numbers.DecimalString.
From stdpp Require Import base option list gmap strings.

Local Open Scope string_scope.
Local Open Scope list_scope.
Local Open Scope Z_scope.

(** ** Machine integers *)

Module Int.
Definition INT_MIN : Z := -2147483648.
Definition INT_MAX : Z := 2147483647.

Definition in_range (z : Z) : bool := (INT_MIN <=? z) && (z <=? INT_MAX).

(** Two's complement wrap-around to 32 bits, signed and unsigned. *)
Definition wrap (z : Z) : Z := (z + 2147483648) mod 4294967296 - 2147483648.
Definition uwrap (z : Z) : Z := z mod 4294967296.

(** [a * b] on [int]. *)
Definition mul (a b : Z) : Z := wrap (a * b).

Lemma wrap_in_range z : in_range z = true → wrap z = z.
Proof.
  unfold in_range, wrap, INT_MIN, INT_MAX.
  intros [H1 H2]%andb_prop.
  apply Z.leb_le in H1, H2.
  rewrite Z.mod_small by lia. lia.
Qed.

Lemma uwrap_small z : 0 ≤ z < 4294967296 → uwrap z = z.
Proof. intros. unfold uwrap. apply Z.mod_small. lia. Qed.
End Int.

(** ** IEEE binary32, the C++ [float] *)

Module F32.
Definition prec : Z := 24.
Definition emax : Z := 128.
Definition float : Type := spec_float.

Definition zero : float := S754_zero false.
(** The literal [0.5f]. *)
Definition half : float := S754_finite false 8388608 (-24).
Definition neg : float → float := SFopp.
Definition add : float → float → float := SFadd prec emax.
Definition mul : float → float → float := SFmul prec emax.
Definition sub : float → float → float := SFsub prec emax.
Definition leb : float → float → bool := SFleb.
Definition eqb : float → float → bool := SFeqb.

(** Conversion [int] to [float] (round to nearest, ties to even). *)
Definition of_int (z : Z) : float := binary_normalize prec emax z 0 false.

(** The value of a finite float rounded toward zero. *)
Definition trunc (f : float) : option Z :=
  match f with
  | S754_zero _ => Some 0
  | S754_finite s m e =>
      let a := if 0 <=? e then Zpos m * 2 ^ e else Zpos m / 2 ^ (- e) in
      Some (if s then - a else a)
  | _ => None
  end.

(** Conversion [float] to [int]: truncation. C++ leaves the conversion of
    NaN, of an infinity and of a value outside [int] undefined; the model
    returns what the x86-64 instruction cvttss2si returns, INT_MIN. *)
Definition to_int (f : float) : Z :=
  match trunc f with
  | Some z => if Int.in_range z then z else Int.INT_MIN
  | None => Int.INT_MIN
  end.

(** Rounding never turns a non-negative mantissa into a negative one. *)
Lemma shr_1_nonneg r : 0 ≤ shr_m r → 0 ≤ shr_m (shr_1 r).
Proof.
  destruct r as [m rb sb]. simpl.
  destruct m as [|p|p]; simpl; try lia.
  - destruct p; simpl; lia.
Qed.

Lemma iter_shr_1_nonneg n r :
  0 ≤ shr_m r → 0 ≤ shr_m (SpecFloat.iter_pos shr_1 n r).
Proof.
  revert r. induction n as [n IH|n IH|]; intros r Hr; simpl.
  - apply IH, IH, shr_1_nonneg, Hr.
  - apply IH, IH, Hr.
  - apply shr_1_nonneg, Hr.
Qed.

Lemma shr_nonneg r e n : 0 ≤ shr_m r → 0 ≤ shr_m (fst (shr r e n)).
Proof.
  intros Hr. unfold shr. destruct n; simpl; try assumption.
  apply iter_shr_1_nonneg, Hr.
Qed.

Lemma shr_fexp_nonneg m e l :
  0 ≤ m → 0 ≤ shr_m (fst (shr_fexp prec emax m e l)).
Proof.
  intros Hm. unfold shr_fexp. apply shr_nonneg.
  unfold shr_record_of_loc. destruct l as [|[]]; simpl; exact Hm.
Qed.

Lemma round_nearest_even_nonneg m l : 0 ≤ m → 0 ≤ round_nearest_even m l.
Proof.
  intros Hm. unfold round_nearest_even.
  destruct l as [|[]]; try lia. destruct (Z.even m); lia.
Qed.

(** The sign of a float: [Some s] unless it is a NaN. *)
Definition sign_of (f : float) : option bool :=
  match f with
  | S754_zero s | S754_infinity s | S754_finite s _ _ => Some s
  | S754_nan => None
  end.

Lemma binary_round_aux_sign s m e l :
  0 ≤ m → sign_of (binary_round_aux prec emax s m e l) = Some s.
Proof.
  intros Hm. unfold binary_round_aux.
  pose proof (shr_fexp_nonneg m e l Hm) as H1.
  destruct (shr_fexp prec emax m e l) as [r1 e1]. simpl in H1.
  pose proof (round_nearest_even_nonneg (shr_m r1) (loc_of_shr_record r1) H1) as H2.
  pose proof (shr_fexp_nonneg _ e1 loc_Exact H2) as H3.
  destruct (shr_fexp prec emax _ e1 loc_Exact) as [r2 e2]. simpl in H3.
  destruct (shr_m r2) as [|p|p]; simpl; try reflexivity; try lia.
  destruct (e2 <=? emax - prec); reflexivity.
Qed.

Lemma binary_round_sign s m e :
  sign_of (binary_round prec emax s m e) = Some s.
Proof.
  unfold binary_round.
  destruct (shl_align m e _) as [mz ez].
  apply binary_round_aux_sign. lia.
Qed.

(** A float of sign [true] or a zero is [<= 0.f]. *)
Lemma leb_zero_of_sign f :
  sign_of f = Some true → leb f zero = true.
Proof. destruct f as [s|s| |s m e]; simpl; intros [= ->]; reflexivity. Qed.

Lemma of_int_nonpos z : z ≤ 0 → leb (of_int z) zero = true.
Proof.
  intros Hz. unfold of_int, binary_normalize.
  destruct z as [|p|p]; [reflexivity | lia |].
  apply leb_zero_of_sign, binary_round_sign.
Qed.

Lemma to_int_nonpos f : leb f zero = true → to_int f ≤ 0.
Proof.
  unfold to_int, trunc, leb, SFleb, zero.
  destruct f as [s|s| |[] m e]; simpl; intros Hle;
    try discriminate; try (unfold Int.INT_MIN; lia).
  match goal with |- context [Int.in_range ?a] =>
    destruct (Int.in_range a) eqn:Hr; [| unfold Int.INT_MIN; lia] end.
  destruct (0 <=? e).
  - pose proof (Z.pow_nonneg 2 e). lia.
  - pose proof (Z.pow_nonneg 2 (- e)).
    pose proof (Z.div_pos (Zpos m) (2 ^ (- e))).
    destruct (Z.eq_dec (2 ^ (- e)) 0) as [E|E].
    + rewrite E, Z.div_0_r. lia.
    + lia.
Qed.

(** An [int] that is not positive is still not positive after the round
    trip through [float] that [glm::vec3(int, int, int)] makes. *)
Lemma to_int_of_int_nonpos z : z ≤ 0 → to_int (of_int z) ≤ 0.
Proof. intros. apply to_int_nonpos, of_int_nonpos. assumption. Qed.
End F32.

(** ** Computations that can stop the process

    A member function runs on the object's state and either returns or halts:
    [exit(1)], a failed [assert], an exception that nothing in this file
    catches, or an operation the language leaves undefined (a vector read
    past the end). *)

Inductive halt : Type :=
| Exit (code : Z)
| AssertFailed
| Thrown (what : string)
| Undefined (what : string).

Inductive res (S A : Type) : Type :=
| Ok (a : A) (s : S)
| Halt (h : halt) (s : S).
Arguments Ok {S A} a s.
Arguments Halt {S A} h s.

Definition M (S A : Type) : Type := S → res S A.

Definition ret {S A} (a : A) : M S A := λ s, Ok a s.
Definition bind {S A B} (c : M S A) (k : A → M S B) : M S B :=
  λ s, match c s with
       | Ok a s' => k a s'
       | Halt h s' => Halt h s'
       end.
Definition get {S} : M S S := λ s, Ok s s.
Definition gets {S A} (f : S → A) : M S A := λ s, Ok (f s) s.
Definition modify {S} (f : S → S) : M S unit := λ s, Ok tt (f s).
Definition stop {S A} (h : halt) : M S A := λ s, Halt h s.

#[global] Instance M_ret {S} : MRet (M S) := @ret S.
#[global] Instance M_bind {S} : MBind (M S) := λ A B k c, bind c k.

(** [for (int i = lo; i < lo + cnt; i++) body(i)] *)
Fixpoint for_range {St} (cnt : nat) (i : nat) (body : nat → M St unit) : M St unit :=
  match cnt with
  | O => ret tt
  | S c => bind (body i) (λ _, for_range c (S i) body)
  end.

(** [for (auto &x : xs) body(x)] *)
Fixpoint for_each {S A} (xs : list A) (body : A → M S unit) : M S unit :=
  match xs with
  | [] => ret tt
  | x :: xs' => bind (body x) (λ _, for_each xs' body)
  end.

(** [v[i]] on a [std::vector]: undefined when [i] is not below [v.size()]. *)
Definition vec_at {S A} (v : list A) (i : nat) : M S A :=
  match v !! i with
  | Some a => ret a
  | None => stop (Undefined "vector subscript out of range")
  end.

(** The final state of a run, whether it returned or halted. *)
Definition final {S A} (r : res S A) : S :=
  match r with Ok _ s | Halt _ s => s end.

Definition halted {S A} (r : res S A) : option halt :=
  match r with Ok _ _ => None | Halt h _ => Some h end.

Lemma bind_Ok {S A B} (c : M S A) (k : A → M S B) s a s' :
  c s = Ok a s' → bind c k s = k a s'.
Proof. unfold bind. intros ->. reflexivity. Qed.

Lemma bind_Halt {S A B} (c : M S A) (k : A → M S B) s h s' :
  c s = Halt h s' → bind c k s = Halt h s'.
Proof. unfold bind. intros ->. reflexivity. Qed.

(** ** The JSON documents the sample reads (nlohmann::json)

    A number is an integer or a floating-point value; a floating-point
    number carries the binary32 value that [get<float>()] yields. *)

#[local] Set Warnings "-register-all".

Inductive json : Type :=
| JNull
| JBool (b : bool)
| JInt (z : Z)
| JFloat (f : F32.float)
| JString (s : string)
| JArray (l : list json)
| JObject (m : list (string * json)).

(** The result of a JSON accessor: a value or the exception it throws. *)
Inductive jres (A : Type) : Type :=
| JOk (a : A)
| JThrow (what : string).
Arguments JOk {A} a.
Arguments JThrow {A} what.

(** An exception of the JSON library leaves the member function: nothing in
    this file catches it. *)
Definition lift {S A} (r : jres A) : M S A :=
  match r with
  | JOk a => ret a
  | JThrow what => stop (Thrown what)
  end.

Module Json.
Definition type_error_302 : string := "json.exception.type_error.302".
Definition type_error_305 : string := "json.exception.type_error.305".

Fixpoint assoc (k : string) (m : list (string * json)) : option json :=
  match m with
  | [] => None
  | (k', v) :: m' => if String.eqb k k' then Some v else assoc k m'
  end.

(** [j[key]]: a missing key, or any key of null, reads as null; indexing
    anything else than an object or null by a key throws. *)
Definition at_key (j : json) (k : string) : jres json :=
  match j with
  | JObject m => JOk (default JNull (assoc k m))
  | JNull => JOk JNull
  | _ => JThrow type_error_305
  end.

(** [j[i]]: an index past the end, or any index of null, reads as null. *)
Definition at_idx (j : json) (i : nat) : jres json :=
  match j with
  | JArray l => JOk (default JNull (l !! i))
  | JNull => JOk JNull
  | _ => JThrow type_error_305
  end.

Definition is_null (j : json) : bool :=
  match j with JNull => true | _ => false end.
Definition is_array (j : json) : bool :=
  match j with JArray _ => true | _ => false end.
Definition size (j : json) : nat :=
  match j with
  | JNull => 0
  | JArray l => length l
  | JObject m => length m
  | _ => 1
  end.

Definition get_string (j : json) : jres string :=
  match j with
  | JString s => JOk s
  | _ => JThrow type_error_302
  end.
Definition get_bool (j : json) : jres bool :=
  match j with
  | JBool b => JOk b
  | _ => JThrow type_error_302
  end.
(** [get<int>()]: a static_cast of the stored number. *)
Definition get_int (j : json) : jres Z :=
  match j with
  | JInt z => JOk (Int.wrap z)
  | JFloat f => JOk (F32.to_int f)
  | JBool b => JOk (if b then 1 else 0)
  | _ => JThrow type_error_302
  end.
(** [get<float>()] *)
Definition get_float (j : json) : jres F32.float :=
  match j with
  | JInt z => JOk (F32.of_int z)
  | JFloat f => JOk f
  | JBool b => JOk (F32.of_int (if b then 1 else 0))
  | _ => JThrow type_error_302
  end.

Fixpoint mapM {A B} (f : A → jres B) (l : list A) : jres (list B) :=
  match l with
  | [] => JOk []
  | a :: l' =>
      match f a with
      | JThrow e => JThrow e
      | JOk b =>
          match mapM f l' with
          | JThrow e => JThrow e
          | JOk bs => JOk (b :: bs)
          end
      end
  end.

(** [get<std::vector<float>>()] *)
Definition get_float_vector (j : json) : jres (list F32.float) :=
  match j with
  | JArray l => mapM get_float l
  | _ => JThrow type_error_302
  end.
(** [get<std::vector<std::vector<float>>>()] *)
Definition get_float_matrix (j : json) : jres (list (list F32.float)) :=
  match j with
  | JArray l => mapM get_float_vector l
  | _ => JThrow type_error_302
  end.

(** [j[key].get<T>()] *)
Definition key_as {A} (get : json → jres A) (j : json) (k : string) : jres A :=
  match at_key j k with
  | JOk v => get v
  | JThrow e => JThrow e
  end.
Definition idx_as {A} (get : json → jres A) (j : json) (i : nat) : jres A :=
  match at_idx j i with
  | JOk v => get v
  | JThrow e => JThrow e
  end.
End Json.

(** ** Vectors of the glm library *)

Module glm.
Record tvec3 (T : Type) : Type := Vec3 { x : T; y : T; z : T }.
Arguments Vec3 {T} x y z.
Arguments x {T} _.
Arguments y {T} _.
Arguments z {T} _.

Definition vec3 : Type := tvec3 F32.float.
Definition ivec3 : Type := tvec3 Z.
Definition vec2 : Type := (F32.float * F32.float)%type.

Definition map3 {A B} (f : A → B) (v : tvec3 A) : tvec3 B :=
  Vec3 (f (x v)) (f (y v)) (f (z v)).

(** [glm::vec3(a, b, c)] of three [int]s, and the conversion of a
    [vec3] to an [ivec3]. *)
Definition vec3_of_ints (a b c : Z) : vec3 :=
  Vec3 (F32.of_int a) (F32.of_int b) (F32.of_int c).
Definition ivec3_of_vec3 (v : vec3) : ivec3 := map3 F32.to_int v.
End glm.

(** ** The Vulkan structures the sample fills in *)

Module Vk.
Inductive VkFormat : Type :=
| VK_FORMAT_UNDEFINED
| VK_FORMAT_R8G8B8A8_UNORM
| VK_FORMAT_R16G16B16A16_SFLOAT
| VK_FORMAT_R32G32B32A32_SFLOAT
| VK_FORMAT_of_device (code : Z).

Inductive VkAttachmentLoadOp : Type :=
| VK_ATTACHMENT_LOAD_OP_LOAD
| VK_ATTACHMENT_LOAD_OP_CLEAR
| VK_ATTACHMENT_LOAD_OP_DONT_CARE.

Inductive VkAttachmentStoreOp : Type :=
| VK_ATTACHMENT_STORE_OP_STORE
| VK_ATTACHMENT_STORE_OP_DONT_CARE.

Inductive VkImageLayout : Type :=
| VK_IMAGE_LAYOUT_UNDEFINED
| VK_IMAGE_LAYOUT_GENERAL
| VK_IMAGE_LAYOUT_COLOR_ATTACHMENT_OPTIMAL
| VK_IMAGE_LAYOUT_DEPTH_STENCIL_ATTACHMENT_OPTIMAL
| VK_IMAGE_LAYOUT_SHADER_READ_ONLY_OPTIMAL
| VK_IMAGE_LAYOUT_PRESENT_SRC_KHR.

Record VkAttachmentDescription : Type := {
  format : VkFormat;
  samples : Z;
  loadOp : VkAttachmentLoadOp;
  storeOp : VkAttachmentStoreOp;
  stencilLoadOp : VkAttachmentLoadOp;
  stencilStoreOp : VkAttachmentStoreOp;
  initialLayout : VkImageLayout;
  finalLayout : VkImageLayout
}.

Record VkAttachmentReference : Type := {
  attachment : Z;
  layout : VkImageLayout
}.

(** A count and the array it counts are one list. *)
Record VkSubpassDescription : Type := {
  pColorAttachments : list VkAttachmentReference;
  pDepthStencilAttachment : option VkAttachmentReference;
  pInputAttachments : list VkAttachmentReference;
  pPreserveAttachments : list Z;
  pResolveAttachments : option (list VkAttachmentReference)
}.
Definition colorAttachmentCount (s : VkSubpassDescription) : nat :=
  length (pColorAttachments s).
Definition inputAttachmentCount (s : VkSubpassDescription) : nat :=
  length (pInputAttachments s).

(** Pipeline stage, access and dependency flags, as in vulkan_core.h. *)
Definition VK_PIPELINE_STAGE_EARLY_FRAGMENT_TESTS_BIT : Z := 0x100.
Definition VK_PIPELINE_STAGE_FRAGMENT_SHADER_BIT : Z := 0x80.
Definition VK_PIPELINE_STAGE_COLOR_ATTACHMENT_OUTPUT_BIT : Z := 0x400.
Definition VK_PIPELINE_STAGE_BOTTOM_OF_PIPE_BIT : Z := 0x2000.
Definition VK_ACCESS_NONE : Z := 0.
Definition VK_ACCESS_INPUT_ATTACHMENT_READ_BIT : Z := 0x10.
Definition VK_ACCESS_COLOR_ATTACHMENT_WRITE_BIT : Z := 0x100.
Definition VK_ACCESS_DEPTH_STENCIL_ATTACHMENT_WRITE_BIT : Z := 0x400.
Definition VK_DEPENDENCY_BY_REGION_BIT : Z := 1.

(** A subpass index; [None] is VK_SUBPASS_EXTERNAL. *)
Record VkSubpassDependency : Type := {
  srcSubpass : option nat;
  dstSubpass : option nat;
  srcStageMask : Z;
  dstStageMask : Z;
  srcAccessMask : Z;
  dstAccessMask : Z;
  dependencyFlags : Z
}.

Record VkRenderPassCreateInfo : Type := {
  pAttachments : list VkAttachmentDescription;
  pSubpasses : list VkSubpassDescription;
  pDependencies : list VkSubpassDependency
}.
Definition attachmentCount (i : VkRenderPassCreateInfo) : nat :=
  length (pAttachments i).
Definition subpassCount (i : VkRenderPassCreateInfo) : nat :=
  length (pSubpasses i).

Inductive VkDescriptorType : Type :=
| VK_DESCRIPTOR_TYPE_COMBINED_IMAGE_SAMPLER
| VK_DESCRIPTOR_TYPE_UNIFORM_BUFFER
| VK_DESCRIPTOR_TYPE_INPUT_ATTACHMENT.

Inductive VkShaderStage : Type :=
| VK_SHADER_STAGE_VERTEX_BIT
| VK_SHADER_STAGE_FRAGMENT_BIT.

(** [vkb::initializers::descriptor_set_layout_binding(type, stage, binding)] *)
Record VkDescriptorSetLayoutBinding : Type := {
  descriptorType : VkDescriptorType;
  stageFlags : VkShaderStage;
  binding : Z
}.

Definition is_input_attachment (b : VkDescriptorSetLayoutBinding) : bool :=
  match descriptorType b with
  | VK_DESCRIPTOR_TYPE_INPUT_ATTACHMENT => true
  | _ => false
  end.

(** How many input attachments a descriptor set layout asks for. *)
Definition input_attachments_required (l : list VkDescriptorSetLayoutBinding) : nat :=
  length (filter (λ b, is_input_attachment b = true) l).

Inductive pipeline_ref : Type :=
| pipeline_first_pass (model : nat)
| pipeline_baseline.

Inductive descriptor_set_ref : Type :=
| descriptor_set_first_pass (model : nat) (descriptorIndex : Z)
| descriptor_set_baseline (frame : nat).

Inductive buffer_ref : Type :=
| vertex_buffer (model : nat)
| index_buffer (model : nat)
| instance_buffer_ref.

Inductive pass_ref : Type :=
| render_pass_nerf_ref
| render_pass_ui.

(** What is recorded into a command buffer. *)
Inductive command : Type :=
| vkCmdBeginRenderPass (pass : pass_ref) (framebuffer : nat) (clearValueCount : nat)
| vkCmdSetViewport (width height : Z)
| vkCmdSetScissor (width height : Z)
| vkCmdBindPipeline (p : pipeline_ref)
| vkCmdBindDescriptorSets (set : descriptor_set_ref)
| vkCmdBindVertexBuffers (firstBinding : Z) (b : buffer_ref)
| vkCmdBindIndexBuffer (b : buffer_ref)
| vkCmdDrawIndexed (indexCount instanceCount firstIndex vertexOffset firstInstance : Z)
| vkCmdNextSubpass
| vkCmdDraw (vertexCount instanceCount firstVertex firstInstance : Z)
| vkCmdEndRenderPass
| draw_ui.

(** The calls that create a GPU resource, in the order they are made. *)
Inductive call : Type :=
| framework_prepare
| update_render_pass_flags
| load_shader (name : string)
| vkCreateRenderPass (info : VkRenderPassCreateInfo)
| setup_attachment (f : VkFormat)
| vkCreateFramebuffer (attachmentCount : nat)
| load_scene_file (model_index sub_model_index : nat)
| create_texture (model_index sub_model_index : nat)
| create_buffer (what : string) (size : Z)
| vkCreateDescriptorSetLayout (bindings : list VkDescriptorSetLayoutBinding)
| vkCreatePipelineLayout
| vkCreateDescriptorPool
| vkAllocateDescriptorSets (set : descriptor_set_ref)
| vkCreateGraphicsPipelines (p : pipeline_ref).
End Vk.

(** ** The renderer object *)

Definition float : Type := F32.float.

Record InstancingInfo : Type := {
  dim : glm.ivec3;
  interval : glm.vec3
}.

Record InstanceData : Type := { pos_offset : glm.vec3 }.

Record Vertex : Type := {
  position : glm.vec3;
  tex_coord : glm.vec2
}.

Record Model : Type := {
  model_index : Z;
  sub_model_num : Z;
  vertices : list Vertex;
  indices : list (Z * Z * Z)
}.

(** The array [float data[...]] of the struct MLP_Weights. *)
Record MLP_Weights : Type := { data : list float }.

Inductive CameraType : Type := FirstPerson | LookAt.

Record Camera : Type := {
  type : CameraType;
  cam_position : glm.vec3;
  cam_rotation : glm.vec3
}.

Inductive log_level : Type := LOGI | LOGW | LOGE.

(** A log line: its level, its format string and the integers it prints. *)
Record log_entry : Type := Log {
  level : log_level;
  message : string;
  args : list Z
}.

Record Nerf : Type := {
  (* the resolved scene *)
  combo_mode : bool;
  model_path : list string;
  using_original_nerf_models : list bool;
  feature_map_format : Vk.VkFormat;
  use_deferred : bool;
  do_rotation : bool;
  view_port_width : Z;
  view_port_height : Z;
  use_native_screen_size : bool;
  camera_pos : glm.vec3;
  instancing_info : InstancingInfo;
  (* the models and their MLPs *)
  mlp_weight_vector : list MLP_Weights;
  models : list Model;
  (* the pass topology *)
  render_pass_nerf : option Vk.VkRenderPassCreateInfo;
  descriptor_set_first_pass_layout : option (list Vk.VkDescriptorSetLayoutBinding);
  descriptor_set_layout_baseline : option (list Vk.VkDescriptorSetLayoutBinding);
  (* per-frame state *)
  weights_buffers : list (list float);
  instance_buffer : option (list InstanceData);
  draw_cmd_buffers : list (list Vk.command);
  camera : Camera;
  prepared : bool;
  (* what the run has logged and created so far *)
  log : list log_entry;
  gpu : list Vk.call
}.

(** Assignments to the members of the object. *)

Definition set_combo_mode (v : _) (n : Nerf) : Nerf :=
  {| combo_mode := v; model_path := model_path n;
     using_original_nerf_models := using_original_nerf_models n;
     feature_map_format := feature_map_format n; use_deferred := use_deferred n;
     do_rotation := do_rotation n; view_port_width := view_port_width n;
     view_port_height := view_port_height n;
     use_native_screen_size := use_native_screen_size n; camera_pos := camera_pos n;
     instancing_info := instancing_info n; mlp_weight_vector := mlp_weight_vector n;
     models := models n; render_pass_nerf := render_pass_nerf n;
     descriptor_set_first_pass_layout := descriptor_set_first_pass_layout n;
     descriptor_set_layout_baseline := descriptor_set_layout_baseline n;
     weights_buffers := weights_buffers n; instance_buffer := instance_buffer n;
     draw_cmd_buffers := draw_cmd_buffers n; camera := camera n; prepared := prepared n;
     log := log n; gpu := gpu n |}.
Definition set_model_path (v : _) (n : Nerf) : Nerf :=
  {| combo_mode := combo_mode n; model_path := v;
     using_original_nerf_models := using_original_nerf_models n;
     feature_map_format := feature_map_format n; use_deferred := use_deferred n;
     do_rotation := do_rotation n; view_port_width := view_port_width n;
     view_port_height := view_port_height n;
     use_native_screen_size := use_native_screen_size n; camera_pos := camera_pos n;
     instancing_info := instancing_info n; mlp_weight_vector := mlp_weight_vector n;
     models := models n; render_pass_nerf := render_pass_nerf n;
     descriptor_set_first_pass_layout := descriptor_set_first_pass_layout n;
     descriptor_set_layout_baseline := descriptor_set_layout_baseline n;
     weights_buffers := weights_buffers n; instance_buffer := instance_buffer n;
     draw_cmd_buffers := draw_cmd_buffers n; camera := camera n; prepared := prepared n;
     log := log n; gpu := gpu n |}.
Definition set_using_original_nerf_models (v : _) (n : Nerf) : Nerf :=
  {| combo_mode := combo_mode n; model_path := model_path n; using_original_nerf_models := v;
     feature_map_format := feature_map_format n; use_deferred := use_deferred n;
     do_rotation := do_rotation n; view_port_width := view_port_width n;
     view_port_height := view_port_height n;
     use_native_screen_size := use_native_screen_size n; camera_pos := camera_pos n;
     instancing_info := instancing_info n; mlp_weight_vector := mlp_weight_vector n;
     models := models n; render_pass_nerf := render_pass_nerf n;
     descriptor_set_first_pass_layout := descriptor_set_first_pass_layout n;
     descriptor_set_layout_baseline := descriptor_set_layout_baseline n;
     weights_buffers := weights_buffers n; instance_buffer := instance_buffer n;
     draw_cmd_buffers := draw_cmd_buffers n; camera := camera n; prepared := prepared n;
     log := log n; gpu := gpu n |}.
Definition set_feature_map_format (v : _) (n : Nerf) : Nerf :=
  {| combo_mode := combo_mode n; model_path := model_path n;
     using_original_nerf_models := using_original_nerf_models n; feature_map_format := v;
     use_deferred := use_deferred n; do_rotation := do_rotation n;
     view_port_width := view_port_width n; view_port_height := view_port_height n;
     use_native_screen_size := use_native_screen_size n; camera_pos := camera_pos n;
     instancing_info := instancing_info n; mlp_weight_vector := mlp_weight_vector n;
     models := models n; render_pass_nerf := render_pass_nerf n;
     descriptor_set_first_pass_layout := descriptor_set_first_pass_layout n;
     descriptor_set_layout_baseline := descriptor_set_layout_baseline n;
     weights_buffers := weights_buffers n; instance_buffer := instance_buffer n;
     draw_cmd_buffers := draw_cmd_buffers n; camera := camera n; prepared := prepared n;
     log := log n; gpu := gpu n |}.
Definition set_use_deferred (v : _) (n : Nerf) : Nerf :=
  {| combo_mode := combo_mode n; model_path := model_path n;
     using_original_nerf_models := using_original_nerf_models n;
     feature_map_format := feature_map_format n; use_deferred := v;
     do_rotation := do_rotation n; view_port_width := view_port_width n;
     view_port_height := view_port_height n;
     use_native_screen_size := use_native_screen_size n; camera_pos := camera_pos n;
     instancing_info := instancing_info n; mlp_weight_vector := mlp_weight_vector n;
     models := models n; render_pass_nerf := render_pass_nerf n;
     descriptor_set_first_pass_layout := descriptor_set_first_pass_layout n;
     descriptor_set_layout_baseline := descriptor_set_layout_baseline n;
     weights_buffers := weights_buffers n; instance_buffer := instance_buffer n;
     draw_cmd_buffers := draw_cmd_buffers n; camera := camera n; prepared := prepared n;
     log := log n; gpu := gpu n |}.
Definition set_do_rotation (v : _) (n : Nerf) : Nerf :=
  {| combo_mode := combo_mode n; model_path := model_path n;
     using_original_nerf_models := using_original_nerf_models n;
     feature_map_format := feature_map_format n; use_deferred := use_deferred n;
     do_rotation := v; view_port_width := view_port_width n;
     view_port_height := view_port_height n;
     use_native_screen_size := use_native_screen_size n; camera_pos := camera_pos n;
     instancing_info := instancing_info n; mlp_weight_vector := mlp_weight_vector n;
     models := models n; render_pass_nerf := render_pass_nerf n;
     descriptor_set_first_pass_layout := descriptor_set_first_pass_layout n;
     descriptor_set_layout_baseline := descriptor_set_layout_baseline n;
     weights_buffers := weights_buffers n; instance_buffer := instance_buffer n;
     draw_cmd_buffers := draw_cmd_buffers n; camera := camera n; prepared := prepared n;
     log := log n; gpu := gpu n |}.
Definition set_view_port_width (v : _) (n : Nerf) : Nerf :=
  {| combo_mode := combo_mode n; model_path := model_path n;
     using_original_nerf_models := using_original_nerf_models n;
     feature_map_format := feature_map_format n; use_deferred := use_deferred n;
     do_rotation := do_rotation n; view_port_width := v;
     view_port_height := view_port_height n;
     use_native_screen_size := use_native_screen_size n; camera_pos := camera_pos n;
     instancing_info := instancing_info n; mlp_weight_vector := mlp_weight_vector n;
     models := models n; render_pass_nerf := render_pass_nerf n;
     descriptor_set_first_pass_layout := descriptor_set_first_pass_layout n;
     descriptor_set_layout_baseline := descriptor_set_layout_baseline n;
     weights_buffers := weights_buffers n; instance_buffer := instance_buffer n;
     draw_cmd_buffers := draw_cmd_buffers n; camera := camera n; prepared := prepared n;
     log := log n; gpu := gpu n |}.
Definition set_view_port_height (v : _) (n : Nerf) : Nerf :=
  {| combo_mode := combo_mode n; model_path := model_path n;
     using_original_nerf_models := using_original_nerf_models n;
     feature_map_format := feature_map_format n; use_deferred := use_deferred n;
     do_rotation := do_rotation n; view_port_width := view_port_width n; view_port_height := v;
     use_native_screen_size := use_native_screen_size n; camera_pos := camera_pos n;
     instancing_info := instancing_info n; mlp_weight_vector := mlp_weight_vector n;
     models := models n; render_pass_nerf := render_pass_nerf n;
     descriptor_set_first_pass_layout := descriptor_set_first_pass_layout n;
     descriptor_set_layout_baseline := descriptor_set_layout_baseline n;
     weights_buffers := weights_buffers n; instance_buffer := instance_buffer n;
     draw_cmd_buffers := draw_cmd_buffers n; camera := camera n; prepared := prepared n;
     log := log n; gpu := gpu n |}.
Definition set_use_native_screen_size (v : _) (n : Nerf) : Nerf :=
  {| combo_mode := combo_mode n; model_path := model_path n;
     using_original_nerf_models := using_original_nerf_models n;
     feature_map_format := feature_map_format n; use_deferred := use_deferred n;
     do_rotation := do_rotation n; view_port_width := view_port_width n;
     view_port_height := view_port_height n; use_native_screen_size := v;
     camera_pos := camera_pos n; instancing_info := instancing_info n;
     mlp_weight_vector := mlp_weight_vector n; models := models n;
     render_pass_nerf := render_pass_nerf n;
     descriptor_set_first_pass_layout := descriptor_set_first_pass_layout n;
     descriptor_set_layout_baseline := descriptor_set_layout_baseline n;
     weights_buffers := weights_buffers n; instance_buffer := instance_buffer n;
     draw_cmd_buffers := draw_cmd_buffers n; camera := camera n; prepared := prepared n;
     log := log n; gpu := gpu n |}.
Definition set_camera_pos (v : _) (n : Nerf) : Nerf :=
  {| combo_mode := combo_mode n; model_path := model_path n;
     using_original_nerf_models := using_original_nerf_models n;
     feature_map_format := feature_map_format n; use_deferred := use_deferred n;
     do_rotation := do_rotation n; view_port_width := view_port_width n;
     view_port_height := view_port_height n;
     use_native_screen_size := use_native_screen_size n; camera_pos := v;
     instancing_info := instancing_info n; mlp_weight_vector := mlp_weight_vector n;
     models := models n; render_pass_nerf := render_pass_nerf n;
     descriptor_set_first_pass_layout := descriptor_set_first_pass_layout n;
     descriptor_set_layout_baseline := descriptor_set_layout_baseline n;
     weights_buffers := weights_buffers n; instance_buffer := instance_buffer n;
     draw_cmd_buffers := draw_cmd_buffers n; camera := camera n; prepared := prepared n;
     log := log n; gpu := gpu n |}.
Definition set_instancing_info (v : _) (n : Nerf) : Nerf :=
  {| combo_mode := combo_mode n; model_path := model_path n;
     using_original_nerf_models := using_original_nerf_models n;
     feature_map_format := feature_map_format n; use_deferred := use_deferred n;
     do_rotation := do_rotation n; view_port_width := view_port_width n;
     view_port_height := view_port_height n;
     use_native_screen_size := use_native_screen_size n; camera_pos := camera_pos n;
     instancing_info := v; mlp_weight_vector := mlp_weight_vector n; models := models n;
     render_pass_nerf := render_pass_nerf n;
     descriptor_set_first_pass_layout := descriptor_set_first_pass_layout n;
     descriptor_set_layout_baseline := descriptor_set_layout_baseline n;
     weights_buffers := weights_buffers n; instance_buffer := instance_buffer n;
     draw_cmd_buffers := draw_cmd_buffers n; camera := camera n; prepared := prepared n;
     log := log n; gpu := gpu n |}.
Definition set_mlp_weight_vector (v : _) (n : Nerf) : Nerf :=
  {| combo_mode := combo_mode n; model_path := model_path n;
     using_original_nerf_models := using_original_nerf_models n;
     feature_map_format := feature_map_format n; use_deferred := use_deferred n;
     do_rotation := do_rotation n; view_port_width := view_port_width n;
     view_port_height := view_port_height n;
     use_native_screen_size := use_native_screen_size n; camera_pos := camera_pos n;
     instancing_info := instancing_info n; mlp_weight_vector := v; models := models n;
     render_pass_nerf := render_pass_nerf n;
     descriptor_set_first_pass_layout := descriptor_set_first_pass_layout n;
     descriptor_set_layout_baseline := descriptor_set_layout_baseline n;
     weights_buffers := weights_buffers n; instance_buffer := instance_buffer n;
     draw_cmd_buffers := draw_cmd_buffers n; camera := camera n; prepared := prepared n;
     log := log n; gpu := gpu n |}.
Definition set_models (v : _) (n : Nerf) : Nerf :=
  {| combo_mode := combo_mode n; model_path := model_path n;
     using_original_nerf_models := using_original_nerf_models n;
     feature_map_format := feature_map_format n; use_deferred := use_deferred n;
     do_rotation := do_rotation n; view_port_width := view_port_width n;
     view_port_height := view_port_height n;
     use_native_screen_size := use_native_screen_size n; camera_pos := camera_pos n;
     instancing_info := instancing_info n; mlp_weight_vector := mlp_weight_vector n;
     models := v; render_pass_nerf := render_pass_nerf n;
     descriptor_set_first_pass_layout := descriptor_set_first_pass_layout n;
     descriptor_set_layout_baseline := descriptor_set_layout_baseline n;
     weights_buffers := weights_buffers n; instance_buffer := instance_buffer n;
     draw_cmd_buffers := draw_cmd_buffers n; camera := camera n; prepared := prepared n;
     log := log n; gpu := gpu n |}.
Definition set_render_pass_nerf (v : _) (n : Nerf) : Nerf :=
  {| combo_mode := combo_mode n; model_path := model_path n;
     using_original_nerf_models := using_original_nerf_models n;
     feature_map_format := feature_map_format n; use_deferred := use_deferred n;
     do_rotation := do_rotation n; view_port_width := view_port_width n;
     view_port_height := view_port_height n;
     use_native_screen_size := use_native_screen_size n; camera_pos := camera_pos n;
     instancing_info := instancing_info n; mlp_weight_vector := mlp_weight_vector n;
     models := models n; render_pass_nerf := v;
     descriptor_set_first_pass_layout := descriptor_set_first_pass_layout n;
     descriptor_set_layout_baseline := descriptor_set_layout_baseline n;
     weights_buffers := weights_buffers n; instance_buffer := instance_buffer n;
     draw_cmd_buffers := draw_cmd_buffers n; camera := camera n; prepared := prepared n;
     log := log n; gpu := gpu n |}.
Definition set_descriptor_set_first_pass_layout (v : _) (n : Nerf) : Nerf :=
  {| combo_mode := combo_mode n; model_path := model_path n;
     using_original_nerf_models := using_original_nerf_models n;
     feature_map_format := feature_map_format n; use_deferred := use_deferred n;
     do_rotation := do_rotation n; view_port_width := view_port_width n;
     view_port_height := view_port_height n;
     use_native_screen_size := use_native_screen_size n; camera_pos := camera_pos n;
     instancing_info := instancing_info n; mlp_weight_vector := mlp_weight_vector n;
     models := models n; render_pass_nerf := render_pass_nerf n;
     descriptor_set_first_pass_layout := v;
     descriptor_set_layout_baseline := descriptor_set_layout_baseline n;
     weights_buffers := weights_buffers n; instance_buffer := instance_buffer n;
     draw_cmd_buffers := draw_cmd_buffers n; camera := camera n; prepared := prepared n;
     log := log n; gpu := gpu n |}.
Definition set_descriptor_set_layout_baseline (v : _) (n : Nerf) : Nerf :=
  {| combo_mode := combo_mode n; model_path := model_path n;
     using_original_nerf_models := using_original_nerf_models n;
     feature_map_format := feature_map_format n; use_deferred := use_deferred n;
     do_rotation := do_rotation n; view_port_width := view_port_width n;
     view_port_height := view_port_height n;
     use_native_screen_size := use_native_screen_size n; camera_pos := camera_pos n;
     instancing_info := instancing_info n; mlp_weight_vector := mlp_weight_vector n;
     models := models n; render_pass_nerf := render_pass_nerf n;
     descriptor_set_first_pass_layout := descriptor_set_first_pass_layout n;
     descriptor_set_layout_baseline := v; weights_buffers := weights_buffers n;
     instance_buffer := instance_buffer n; draw_cmd_buffers := draw_cmd_buffers n;
     camera := camera n; prepared := prepared n; log := log n; gpu := gpu n |}.
Definition set_weights_buffers (v : _) (n : Nerf) : Nerf :=
  {| combo_mode := combo_mode n; model_path := model_path n;
     using_original_nerf_models := using_original_nerf_models n;
     feature_map_format := feature_map_format n; use_deferred := use_deferred n;
     do_rotation := do_rotation n; view_port_width := view_port_width n;
     view_port_height := view_port_height n;
     use_native_screen_size := use_native_screen_size n; camera_pos := camera_pos n;
     instancing_info := instancing_info n; mlp_weight_vector := mlp_weight_vector n;
     models := models n; render_pass_nerf := render_pass_nerf n;
     descriptor_set_first_pass_layout := descriptor_set_first_pass_layout n;
     descriptor_set_layout_baseline := descriptor_set_layout_baseline n; weights_buffers := v;
     instance_buffer := instance_buffer n; draw_cmd_buffers := draw_cmd_buffers n;
     camera := camera n; prepared := prepared n; log := log n; gpu := gpu n |}.
Definition set_instance_buffer (v : _) (n : Nerf) : Nerf :=
  {| combo_mode := combo_mode n; model_path := model_path n;
     using_original_nerf_models := using_original_nerf_models n;
     feature_map_format := feature_map_format n; use_deferred := use_deferred n;
     do_rotation := do_rotation n; view_port_width := view_port_width n;
     view_port_height := view_port_height n;
     use_native_screen_size := use_native_screen_size n; camera_pos := camera_pos n;
     instancing_info := instancing_info n; mlp_weight_vector := mlp_weight_vector n;
     models := models n; render_pass_nerf := render_pass_nerf n;
     descriptor_set_first_pass_layout := descriptor_set_first_pass_layout n;
     descriptor_set_layout_baseline := descriptor_set_layout_baseline n;
     weights_buffers := weights_buffers n; instance_buffer := v;
     draw_cmd_buffers := draw_cmd_buffers n; camera := camera n; prepared := prepared n;
     log := log n; gpu := gpu n |}.
Definition set_draw_cmd_buffers (v : _) (n : Nerf) : Nerf :=
  {| combo_mode := combo_mode n; model_path := model_path n;
     using_original_nerf_models := using_original_nerf_models n;
     feature_map_format := feature_map_format n; use_deferred := use_deferred n;
     do_rotation := do_rotation n; view_port_width := view_port_width n;
     view_port_height := view_port_height n;
     use_native_screen_size := use_native_screen_size n; camera_pos := camera_pos n;
     instancing_info := instancing_info n; mlp_weight_vector := mlp_weight_vector n;
     models := models n; render_pass_nerf := render_pass_nerf n;
     descriptor_set_first_pass_layout := descriptor_set_first_pass_layout n;
     descriptor_set_layout_baseline := descriptor_set_layout_baseline n;
     weights_buffers := weights_buffers n; instance_buffer := instance_buffer n;
     draw_cmd_buffers := v; camera := camera n; prepared := prepared n; log := log n;
     gpu := gpu n |}.
Definition set_camera (v : _) (n : Nerf) : Nerf :=
  {| combo_mode := combo_mode n; model_path := model_path n;
     using_original_nerf_models := using_original_nerf_models n;
     feature_map_format := feature_map_format n; use_deferred := use_deferred n;
     do_rotation := do_rotation n; view_port_width := view_port_width n;
     view_port_height := view_port_height n;
     use_native_screen_size := use_native_screen_size n; camera_pos := camera_pos n;
     instancing_info := instancing_info n; mlp_weight_vector := mlp_weight_vector n;
     models := models n; render_pass_nerf := render_pass_nerf n;
     descriptor_set_first_pass_layout := descriptor_set_first_pass_layout n;
     descriptor_set_layout_baseline := descriptor_set_layout_baseline n;
     weights_buffers := weights_buffers n; instance_buffer := instance_buffer n;
     draw_cmd_buffers := draw_cmd_buffers n; camera := v; prepared := prepared n; log := log n;
     gpu := gpu n |}.
Definition set_prepared (v : _) (n : Nerf) : Nerf :=
  {| combo_mode := combo_mode n; model_path := model_path n;
     using_original_nerf_models := using_original_nerf_models n;
     feature_map_format := feature_map_format n; use_deferred := use_deferred n;
     do_rotation := do_rotation n; view_port_width := view_port_width n;
     view_port_height := view_port_height n;
     use_native_screen_size := use_native_screen_size n; camera_pos := camera_pos n;
     instancing_info := instancing_info n; mlp_weight_vector := mlp_weight_vector n;
     models := models n; render_pass_nerf := render_pass_nerf n;
     descriptor_set_first_pass_layout := descriptor_set_first_pass_layout n;
     descriptor_set_layout_baseline := descriptor_set_layout_baseline n;
     weights_buffers := weights_buffers n; instance_buffer := instance_buffer n;
     draw_cmd_buffers := draw_cmd_buffers n; camera := camera n; prepared := v; log := log n;
     gpu := gpu n |}.
Definition set_log (v : _) (n : Nerf) : Nerf :=
  {| combo_mode := combo_mode n; model_path := model_path n;
     using_original_nerf_models := using_original_nerf_models n;
     feature_map_format := feature_map_format n; use_deferred := use_deferred n;
     do_rotation := do_rotation n; view_port_width := view_port_width n;
     view_port_height := view_port_height n;
     use_native_screen_size := use_native_screen_size n; camera_pos := camera_pos n;
     instancing_info := instancing_info n; mlp_weight_vector := mlp_weight_vector n;
     models := models n; render_pass_nerf := render_pass_nerf n;
     descriptor_set_first_pass_layout := descriptor_set_first_pass_layout n;
     descriptor_set_layout_baseline := descriptor_set_layout_baseline n;
     weights_buffers := weights_buffers n; instance_buffer := instance_buffer n;
     draw_cmd_buffers := draw_cmd_buffers n; camera := camera n; prepared := prepared n;
     log := v; gpu := gpu n |}.
Definition set_gpu (v : _) (n : Nerf) : Nerf :=
  {| combo_mode := combo_mode n; model_path := model_path n;
     using_original_nerf_models := using_original_nerf_models n;
     feature_map_format := feature_map_format n; use_deferred := use_deferred n;
     do_rotation := do_rotation n; view_port_width := view_port_width n;
     view_port_height := view_port_height n;
     use_native_screen_size := use_native_screen_size n; camera_pos := camera_pos n;
     instancing_info := instancing_info n; mlp_weight_vector := mlp_weight_vector n;
     models := models n; render_pass_nerf := render_pass_nerf n;
     descriptor_set_first_pass_layout := descriptor_set_first_pass_layout n;
     descriptor_set_layout_baseline := descriptor_set_layout_baseline n;
     weights_buffers := weights_buffers n; instance_buffer := instance_buffer n;
     draw_cmd_buffers := draw_cmd_buffers n; camera := camera n; prepared := prepared n;
     log := log n; gpu := v |}.


(** ** CopyBuffer *)

(** A [vkb::core::Buffer] as [CopyBuffer] sees it: the bytes it holds and
    whether it is mapped, that is whether [get_data()] is not null. *)
Record Buffer : Type := {
  contents : list Byte.byte;
  mapped : bool
}.

Definition get_size (b : Buffer) : nat := length (contents b).
Definition buffer_map (b : Buffer) : Buffer := {| contents := contents b; mapped := true |}.
Definition buffer_unmap (b : Buffer) : Buffer := {| contents := contents b; mapped := false |}.

(** An element type [T] of the template: its size, the value a resize puts
    in, and the value that [sizeof(T)] bytes stand for. *)
Class Pod (T : Type) : Type := {
  sizeof : nat;
  value_initialized : T;
  of_bytes : list Byte.byte → T
}.

(** [cnt] consecutive blocks of [size] elements each. *)
Fixpoint chunks {A} (cnt size : nat) (l : list A) : list (list A) :=
  match cnt with
  | O => []
  | S c => take size l :: chunks c size (drop size l)
  end.

(** Lines 48-76. [out[0]] needs an element to exist, and [memcpy] writes
    [sz] bytes whatever room [out] has. *)
Definition CopyBuffer {T} `{Pod T} (buffer_name : string) : M (gmap string Buffer) (list T) :=
  buffers ← get;
  match buffers !! buffer_name with
  | None => ret []
  | Some buffer =>
      let sz := get_size buffer in
      let out := replicate (sz / sizeof) value_initialized in
      let already_mapped := mapped buffer in
      (if negb already_mapped then modify (alter buffer_map buffer_name) else ret tt);;
      (if decide (length out = 0)%nat
       then stop (Undefined "vector subscript out of range") else ret tt);;
      (if decide (length out * sizeof < sz)%nat
       then stop (Undefined "memcpy past the end of the vector") else ret tt);;
      let out := map of_bytes (chunks (length out) sizeof (contents buffer)) in
      (if negb already_mapped then modify (alter buffer_unmap buffer_name) else ret tt);;
      ret out
  end.

(** ** The scene a glTF file holds (vkb::sg), as [load_scene] reads it *)

(** The unsigned number that bytes stand for, the first byte the lowest
    (the byte order of the platforms the sample is built for). *)
Fixpoint le_number (l : list Byte.byte) : Z :=
  match l with
  | [] => 0
  | b :: l' => Z.of_N (Byte.to_N b) + 256 * le_number l'
  end.

(** The [float] whose IEEE binary32 representation is the number [bits]. *)
Definition float_of_bits (bits : Z) : float :=
  let sign := Z.odd (bits / 2147483648) in
  let exponent := (bits / 8388608) mod 256 in
  let mantissa := bits mod 8388608 in
  if exponent =? 0 then
    match mantissa with
    | Zpos m => S754_finite sign m (-149)
    | _ => S754_zero sign
    end
  else if exponent =? 255 then
    if mantissa =? 0 then S754_infinity sign else S754_nan
  else
    S754_finite sign (Z.to_pos (mantissa + 8388608)) (exponent - 150).

Definition float_of_bytes (l : list Byte.byte) : float := float_of_bits (le_number l).

(** [glm::vec3] and [glm::vec2] as element types. *)
Definition Pod_vec3 : Pod glm.vec3 :=
  {| sizeof := 12;
     value_initialized := glm.Vec3 F32.zero F32.zero F32.zero;
     of_bytes := λ l, glm.Vec3 (float_of_bytes (take 4 l))
                               (float_of_bytes (take 4 (drop 4 l)))
                               (float_of_bytes (take 4 (drop 8 l))) |}.

Definition Pod_vec2 : Pod glm.vec2 :=
  {| sizeof := 8;
     value_initialized := (F32.zero, F32.zero);
     of_bytes := λ l, (float_of_bytes (take 4 l), float_of_bytes (take 4 (drop 4 l))) |}.

Inductive VkIndexType : Type :=
| VK_INDEX_TYPE_UINT16
| VK_INDEX_TYPE_UINT32
| VK_INDEX_TYPE_NONE_KHR
| VK_INDEX_TYPE_UINT8_EXT.

#[global] Instance VkIndexType_eq_dec : EqDecision VkIndexType.
Proof. solve_decision. Defined.

Module sg.
(** [vkb::sg::SubMesh]: the members that [load_scene] reads. *)
Record SubMesh : Type := {
  vertex_buffers : gmap string Buffer;
  index_buffer : option Buffer;
  index_type : VkIndexType
}.

(** [vkb::sg::Mesh::get_submeshes()] *)
Record Mesh : Type := { get_submeshes : list SubMesh }.

(** [vkb::sg::Scene::get_components<vkb::sg::Mesh>()] *)
Record Scene : Type := { meshes : list Mesh }.
End sg.

(** ** What the sample takes from outside this file *)

(** The element counts that nerf.h defines as macros. The header is not part
    of the sources at hand, so the counts are parameters of the model. *)
Class NerfHeader : Type := {
  WEIGHTS_0_COUNT : nat;
  WEIGHTS_1_COUNT : nat;
  WEIGHTS_2_COUNT : nat;
  BIAS_0_COUNT : nat;
  BIAS_1_COUNT : nat;
  BIAS_2_COUNT : nat
}.

(** The files, the window system and the libraries the sample calls. *)
Record Env : Type := {
  (** [vkb::fs::path::get(vkb::fs::path::Type::Assets)] *)
  asset_base : string;
  (** With NERF_JSON_FILE defined, the parsed scenes/mobile_nerf_models.json
      ([Some None]: the file cannot be opened); without it, [None]. *)
  nerf_json_file : option (option json);
  (** The parsed content of a file, [None] when it cannot be opened. *)
  read_json_file : string → option json;
  (** Whether [ApiVulkanSample::prepare] succeeds, and what it sets up. *)
  framework_prepare_ok : bool;
  width : Z;
  height : Z;
  swapchain_image_count : nat;
  depth_format : Vk.VkFormat;
  swapchain_format : Vk.VkFormat;
  (** [sizeof(global_uniform)], a struct that nerf.h declares. *)
  sizeof_global_uniform : Z;
  (** [vkb::GLTFLoader::read_scene_from_file]: the scene of a file, [None]
      when the loader gives a null pointer. *)
  read_scene_from_file : string → option sg.Scene;
  (** [glm::lookAt] followed by [glm::decompose]: the Euler angles of the
      orientation and the translation of the view matrix. *)
  look_at_decompose : glm.vec3 → glm.vec3 → glm.vec3 → glm.vec3 * glm.vec3
}.

Definition logf (lvl : log_level) (msg : string) (a : list Z) : M Nerf unit :=
  modify (λ n, set_log (log n ++ [Log lvl msg a]) n).

Definition gpu_call (c : Vk.call) : M Nerf unit :=
  modify (λ n, set_gpu (gpu n ++ [c]) n).

(** [v.resize(n)] with value-initialised new elements. *)
Definition resize {A} (n : nat) (dflt : A) (v : list A) : list A :=
  take n v ++ replicate (n - length v) dflt.

(** ** MLPWeightPacker: [Nerf::initialize_mlp_uniform_buffers] *)

Section MLP.
Context `{NerfHeader}.
Variable env : Env.

(** The length of [MLP_Weights::data]. *)
Definition MLP_TOTAL : nat :=
  WEIGHTS_0_COUNT + WEIGHTS_1_COUNT + WEIGHTS_2_COUNT +
  BIAS_0_COUNT + BIAS_1_COUNT + BIAS_2_COUNT.

(** A value-initialised [MLP_Weights]. *)
Definition MLP_Weights_zero : MLP_Weights :=
  {| data := replicate MLP_TOTAL F32.zero |}.

Definition Model_zero : Model :=
  {| model_index := 0; sub_model_num := 0; vertices := []; indices := [] |}.

(** [model_mlp->data[i] = v] *)
Definition data_set (i : nat) (v : float) : M MLP_Weights unit :=
  modify (λ w, {| data := <[i := v]> (data w) |}).

(** [for (ii = 0; ii < count; ii++) model_mlp->data[offset + ii] = src[ii];] *)
Definition copy_verbatim (count offset : nat) (src : list float) : M MLP_Weights unit :=
  for_range count 0 (λ ii,
    v ← vec_at src ii;
    data_set (offset + ii) v).

(** Lines 1345-1356: the layer-2 weights, a zero at every 4th position,
    the rest taken from the source through the counter [raw_weight_cnt]. *)
Definition pad_weights_2 (weights_2_array : list float) : M MLP_Weights unit :=
  λ w,
    match
      for_range WEIGHTS_2_COUNT 0 (λ ii,
        if decide ((ii + 1) mod 4 = 0)%nat then
          modify (λ '(w, raw_weight_cnt),
            ({| data := <[(WEIGHTS_0_COUNT + WEIGHTS_1_COUNT + ii)%nat := F32.zero]> (data w) |},
             raw_weight_cnt))
        else
          '(w, raw_weight_cnt) ← get;
          v ← vec_at weights_2_array raw_weight_cnt;
          modify (λ _,
            ({| data := <[(WEIGHTS_0_COUNT + WEIGHTS_1_COUNT + ii)%nat := v]> (data w) |},
             S raw_weight_cnt)))
        (w, 0%nat)
    with
    | Ok _ (w', _) => Ok tt w'
    | Halt h (w', _) => Halt h w'
    end.

(** Lines 1370-1382: the layer-2 bias, a zero at every 4th position, the
    rest taken from the source at the position's own index [ii]. *)
Definition pad_bias_2 (bias_2_array : list float) : M MLP_Weights unit :=
  for_range BIAS_2_COUNT 0 (λ ii,
    if decide ((ii + 1) mod 4 = 0)%nat then
      data_set (WEIGHTS_0_COUNT + WEIGHTS_1_COUNT + WEIGHTS_2_COUNT +
                BIAS_0_COUNT + BIAS_1_COUNT + ii) F32.zero
    else
      v ← vec_at bias_2_array ii;
      data_set (WEIGHTS_0_COUNT + WEIGHTS_1_COUNT + WEIGHTS_2_COUNT +
                BIAS_0_COUNT + BIAS_1_COUNT + ii) v).

(** The six arrays of an MLP description, the weight matrices flattened
    row by row. *)
Record MLPArrays : Type := {
  weights_0_array : list float;
  bias_0_array : list float;
  weights_1_array : list float;
  bias_1_array : list float;
  weights_2_array : list float;
  bias_2_array : list float
}.

(** Lines 1331-1382: the six loops that fill [model_mlp->data]. *)
Definition pack_mlp (a : MLPArrays) : M MLP_Weights unit :=
  copy_verbatim WEIGHTS_0_COUNT 0 (weights_0_array a);;
  copy_verbatim WEIGHTS_1_COUNT WEIGHTS_0_COUNT (weights_1_array a);;
  pad_weights_2 (weights_2_array a);;
  copy_verbatim BIAS_0_COUNT
    (WEIGHTS_0_COUNT + WEIGHTS_1_COUNT + WEIGHTS_2_COUNT) (bias_0_array a);;
  copy_verbatim BIAS_1_COUNT
    (WEIGHTS_0_COUNT + WEIGHTS_1_COUNT + WEIGHTS_2_COUNT + BIAS_0_COUNT) (bias_1_array a);;
  pad_bias_2 (bias_2_array a).

(** Run a computation on [mlp_weight_vector[model_index]] in place. *)
Definition on_model_mlp (model_index : nat) (c : M MLP_Weights unit) : M Nerf unit :=
  λ n,
    match mlp_weight_vector n !! model_index with
    | None => Halt (Undefined "vector subscript out of range") n
    | Some w =>
        match c w with
        | Ok _ w' => Ok tt (set_mlp_weight_vector (<[model_index := w']> (mlp_weight_vector n)) n)
        | Halt h w' => Halt h (set_mlp_weight_vector (<[model_index := w']> (mlp_weight_vector n)) n)
        end
    end.

(** An [int] converted to [size_t] for a comparison with [size()]. *)
Definition to_size_t (z : Z) : Z := z mod 18446744073709551616.

(** The count check of one array: a mismatch is logged, nothing else. *)
Definition check_count (size : nat) (expected : Z) (msg : string) (shown : nat) : M Nerf unit :=
  if decide (Z.of_nat size ≠ to_size_t expected)
  then logf LOGE msg [Z.of_nat size; Z.of_nat shown]
  else ret tt.

Definition set_model_index (v : Z) (m : Model) : Model :=
  {| model_index := v; sub_model_num := sub_model_num m;
     vertices := vertices m; indices := indices m |}.
Definition set_sub_model_num (v : Z) (m : Model) : Model :=
  {| model_index := model_index m; sub_model_num := v;
     vertices := vertices m; indices := indices m |}.

(** [models[i].f = v] *)
Definition models_update (i : nat) (f : Model → Model) : M Nerf unit :=
  n ← get;
  m ← vec_at (models n) i;
  modify (set_models (<[i := f m]> (models n))).

Definition initialize_mlp_uniform_buffers (model_index : nat) : M Nerf unit :=
  n ← get;
  path ← vec_at (model_path n) model_index;
  let mlpJsonPath := asset_base env +:+ path +:+ "mlp.json" in
  match read_json_file env mlpJsonPath with
  | None => logf LOGE "Failed to open mlp data" [];; stop AssertFailed
  | Some data =>
      logf LOGI "Parsing mlp data {}" [];;
      (* Record a index of the first sub-model *)
      let first_sub_model := length (models n) in
      obj_num ← lift (Json.key_as Json.get_int data "obj_num");
      (* Here we know the actual number of sub models *)
      let next_sub_model_index := length (models n) in
      (if decide (Z.of_nat (length (models n)) + obj_num < 0)
       then stop (Thrown "std::length_error")
       else modify (set_models
              (resize (Z.to_nat (Z.of_nat (length (models n)) + obj_num)) Model_zero (models n))));;
      n1 ← get;
      for_range (length (models n1) - next_sub_model_index) next_sub_model_index (λ i,
        models_update i (set_model_index (Z.of_nat model_index)));;
      weights_0_array_raw ← lift (Json.key_as Json.get_float_matrix data "0_weights");
      let weights_0_array := concat weights_0_array_raw in
      check_count (length weights_0_array) (Z.of_nat WEIGHTS_0_COUNT)
        "MLP data layer 0 weights count is {}, rather than {}" WEIGHTS_0_COUNT;;
      bias_0_array ← lift (Json.key_as Json.get_float_vector data "0_bias");
      check_count (length bias_0_array) (Z.of_nat BIAS_0_COUNT)
        "MLP data layer 0 bias count is {}, rather than {}" BIAS_0_COUNT;;
      weights_1_array_raw ← lift (Json.key_as Json.get_float_matrix data "1_weights");
      let weights_1_array := concat weights_1_array_raw in
      check_count (length weights_1_array) (Z.of_nat WEIGHTS_1_COUNT)
        "MLP data layer 1 weights count is {}, rather than {}" WEIGHTS_1_COUNT;;
      bias_1_array ← lift (Json.key_as Json.get_float_vector data "1_bias");
      check_count (length bias_1_array) (Z.of_nat BIAS_1_COUNT)
        "MLP data layer 1 bias count is {}, rather than {}" BIAS_1_COUNT;;
      weights_2_array_raw ← lift (Json.key_as Json.get_float_matrix data "2_weights");
      let weights_2_array := concat weights_2_array_raw in
      (* We need to pad the layer 2's weights with 16 zeros *)
      check_count (length weights_2_array) (Z.of_nat WEIGHTS_2_COUNT - 16)
        "MLP data layer 2 weights count is {}, rather than {}" WEIGHTS_2_COUNT;;
      bias_2_array ← lift (Json.key_as Json.get_float_vector data "2_bias");
      check_count (length bias_2_array) (Z.of_nat BIAS_2_COUNT - 1)
        "MLP data layer 2 bias count is {}, rather than {}" BIAS_2_COUNT;;
      (* Each sub model will share the same mlp weights data *)
      on_model_mlp model_index
        (pack_mlp {| weights_0_array := weights_0_array; bias_0_array := bias_0_array;
                     weights_1_array := weights_1_array; bias_1_array := bias_1_array;
                     weights_2_array := weights_2_array; bias_2_array := bias_2_array |});;
      (* Update all sub model with the same mlp weight *)
      for_range (Z.to_nat obj_num) 0 (λ i,
        models_update (first_sub_model + i) (set_sub_model_num obj_num))
  end.
End MLP.

(** ** SceneCatalog: [Nerf::read_json_map] *)

(** A binary32 literal of the sources. *)
Definition f32 (negative : bool) (mantissa : positive) (exponent : Z) : float :=
  S754_finite negative mantissa exponent.

(** The configuration that is compiled in when NERF_JSON_FILE is not
    defined (lines 199-270). *)
Definition scene_entry (path : string) : json :=
  JObject [ ("path", JString path);
            ("num_sub_model", JInt 1);
            ("original", JBool false);
            ("camera", JArray [JInt (-1); JInt 1; JInt 1]);
            ("instancing",
             JObject [ ("dim", JArray [JInt 1; JInt 1; JInt 1]);
                       ("interval", JArray [JFloat (f32 false 8388608 (-22));
                                            JFloat (f32 false 8388608 (-22));
                                            JFloat (f32 false 8388608 (-22))]) ]) ].

Definition nerf_obj_json : json :=
  JObject [
    ("width", JInt 0);
    ("height", JInt 0);
    ("texture_type", JString "8bit");
    ("target_model", JString "lego_combo");
    ("deferred", JBool false);
    ("rotation", JBool true);
    ("lego_ball", scene_entry "scenes/morpheus_team/lego_ball_phone/");
    ("lego_boba_fett", scene_entry "scenes/morpheus_team/lego_boba_fett_phone/");
    ("lego_monster_truck", scene_entry "scenes/morpheus_team/lego_monster_truck_phone/");
    ("lego_tractor", scene_entry "scenes/morpheus_team/lego_tractor_phone/");
    ("lego_combo",
     JObject [ ("combo", JBool true);
               ("models", JArray [ JString "scenes/morpheus_team/lego_ball_phone/";
                                   JString "scenes/morpheus_team/lego_boba_fett_phone/";
                                   JString "scenes/morpheus_team/lego_monster_truck_phone/";
                                   JString "scenes/morpheus_team/lego_tractor_phone/" ]);
               ("original", JArray [JBool false; JBool false; JBool false; JBool false]);
               ("camera", JArray [ JFloat (f32 true 10239551 (-28));
                                   JFloat (f32 false 15450642 (-23));
                                   JFloat (f32 true 12729209 (-23)) ]);
               ("instancing",
                JObject [ ("dim", JArray [JInt 2; JInt 2; JInt 2]);
                          ("interval", JArray [ JFloat (f32 false 12582912 (-23));
                                                JFloat (f32 false 12582912 (-23));
                                                JFloat (f32 false 12582912 (-23)) ]) ]) ])
  ].

Section Scene.
Variable env : Env.

(** Lines 183-274: the configuration document. A failed [assert(0)] stops
    the run. *)
Definition load_raw_asset_map : M Nerf json :=
  match nerf_json_file env with
  | Some None => logf LOGE "Failed to open nerf obj map data" [];; stop AssertFailed
  | Some (Some raw_asset_map) =>
      logf LOGI "Parsing nerf obj map data {}" [];; ret raw_asset_map
  | None => ret nerf_obj_json
  end.

(** Lines 306-332. The second test for "8bit" can never succeed. *)
Definition feature_map_format_of (textureType : string) : M Nerf unit :=
  if String.eqb textureType "8bit" then
    logf LOGI "Using VK_FORMAT_R8G8B8A8_UNORM for feature texture" [];;
    modify (set_feature_map_format Vk.VK_FORMAT_R8G8B8A8_UNORM)
  else if String.eqb textureType "16bit" then
    logf LOGI "Using VK_FORMAT_R16G16B16A16_SFLOAT for feature texture" [];;
    modify (set_feature_map_format Vk.VK_FORMAT_R16G16B16A16_SFLOAT)
  else if String.eqb textureType "32bit" then
    logf LOGI "Using VK_FORMAT_R32G32B32A32_SFLOAT for feature texture" [];;
    modify (set_feature_map_format Vk.VK_FORMAT_R32G32B32A32_SFLOAT)
  else if String.eqb textureType "8bit" then
    logf LOGI "Using VK_FORMAT_R8G8B8A8_UNORM for feature texture" [];;
    modify (set_feature_map_format Vk.VK_FORMAT_R8G8B8A8_UNORM)
  else
    logf LOGW "Unrecognized feature texture type, using VK_FORMAT_R32G32B32A32_SFLOAT" [];;
    modify (set_feature_map_format Vk.VK_FORMAT_R32G32B32A32_SFLOAT).

(** [j.is_array() && j.size() == 3] *)
Definition is_array_of_3 (j : json) : bool :=
  Json.is_array j && bool_decide (Json.size j = 3%nat).

(** Lines 276-346: everything [read_json_map] resolves before the
    instancing parameters. It returns [asset_map]. *)
Definition read_scene : M Nerf json :=
  logf LOGI "Base assets path: {}" [];;
  raw_asset_map ← load_raw_asset_map;
  target_model ← lift (Json.key_as Json.get_string raw_asset_map "target_model");
  asset_map ← lift (Json.at_key raw_asset_map target_model);
  (* Load combo models or a single model *)
  combo ← lift (Json.at_key asset_map "combo");
  (if negb (Json.is_null combo)
   then b ← lift (Json.get_bool combo); modify (set_combo_mode b)
   else modify (set_combo_mode false));;
  n ← get;
  (if combo_mode n then
     models_j ← lift (Json.at_key asset_map "models");
     modify (λ n, set_model_path (resize (Json.size models_j) "" (model_path n)) n);;
     modify (λ n, set_using_original_nerf_models
                    (resize (Json.size models_j) false (using_original_nerf_models n)) n);;
     for_range (Json.size models_j) 0 (λ i,
       path ← lift (Json.idx_as Json.get_string models_j i);
       modify (λ n, set_model_path (<[i := path]> (model_path n)) n);;
       original_j ← lift (Json.at_key asset_map "original");
       original ← lift (Json.idx_as Json.get_bool original_j i);
       modify (λ n, set_using_original_nerf_models
                      (<[i := original]> (using_original_nerf_models n)) n);;
       logf LOGI "Target model: {}, asset path: {}" [])
   else
     modify (λ n, set_model_path (resize 1 "" (model_path n)) n);;
     path ← lift (Json.key_as Json.get_string asset_map "path");
     modify (λ n, set_model_path (<[0%nat := path]> (model_path n)) n);;
     modify (λ n, set_using_original_nerf_models
                    (resize 1 false (using_original_nerf_models n)) n);;
     original ← lift (Json.key_as Json.get_bool asset_map "original");
     modify (λ n, set_using_original_nerf_models
                    (<[0%nat := original]> (using_original_nerf_models n)) n);;
     logf LOGI "Target model: {}, asset path: {}" []);;
  textureType ← lift (Json.key_as Json.get_string raw_asset_map "texture_type");
  feature_map_format_of textureType;;
  deferred ← lift (Json.key_as Json.get_bool raw_asset_map "deferred");
  modify (set_use_deferred deferred);;
  rotation ← lift (Json.key_as Json.get_bool raw_asset_map "rotation");
  modify (set_do_rotation rotation);;
  w ← lift (Json.key_as Json.get_int raw_asset_map "width");
  modify (set_view_port_width w);;
  h ← lift (Json.key_as Json.get_int raw_asset_map "height");
  modify (set_view_port_height h);;
  camera_j ← lift (Json.at_key asset_map "camera");
  (if is_array_of_3 camera_j then
     cx ← lift (Json.idx_as Json.get_float camera_j 0);
     cy ← lift (Json.idx_as Json.get_float camera_j 1);
     cz ← lift (Json.idx_as Json.get_float camera_j 2);
     modify (set_camera_pos (glm.Vec3 cx cy cz))
   else
     logf LOGW "Fail to read camera position. Use defualt value." []);;
  ret asset_map.

(** Lines 348-373: the instancing parameters and their checks. *)
Definition read_instancing (asset_map : json) : M Nerf unit :=
  instacing_map ← lift (Json.at_key asset_map "instancing");
  dim_j ← lift (Json.at_key instacing_map "dim");
  (if is_array_of_3 dim_j then
     dx ← lift (Json.idx_as Json.get_int dim_j 0);
     dy ← lift (Json.idx_as Json.get_int dim_j 1);
     dz ← lift (Json.idx_as Json.get_int dim_j 2);
     modify (λ n, set_instancing_info
               {| dim := glm.ivec3_of_vec3 (glm.vec3_of_ints dx dy dz);
                  interval := interval (instancing_info n) |} n)
   else
     logf LOGE "Wrong instancing dimension. Terminating..." [];;
     stop (Exit 1));;
  interval_j ← lift (Json.at_key instacing_map "interval");
  (if is_array_of_3 interval_j then
     ix ← lift (Json.idx_as Json.get_float interval_j 0);
     iy ← lift (Json.idx_as Json.get_float interval_j 1);
     iz ← lift (Json.idx_as Json.get_float interval_j 2);
     modify (λ n, set_instancing_info
               {| dim := dim (instancing_info n);
                  interval := glm.Vec3 ix iy iz |} n)
   else
     logf LOGE "Wrong instancing interval. Terminating..." [];;
     stop (Exit 1));;
  n ← get;
  let ii := instancing_info n in
  if (glm.x (dim ii) <=? 0) || (glm.y (dim ii) <=? 0) || (glm.z (dim ii) <=? 0)
     || F32.leb (glm.x (interval ii)) F32.zero
     || F32.leb (glm.y (interval ii)) F32.zero
     || F32.leb (glm.z (interval ii)) F32.zero
  then
    logf LOGE "Instancing settings must be positive. Terminating..." [];;
    stop (Exit 1)
  else ret tt.

Definition read_json_map : M Nerf unit :=
  asset_map ← read_scene;
  read_instancing asset_map.
End Scene.

(** ** InstancingGrid: [Nerf::prepare_instance_data] *)

(** The arithmetic the lattice is computed with. The program computes in
    binary32; the same computation over the rationals tells what it would
    give without rounding. *)
Class Scalar (F : Type) : Type := {
  s_half : F;
  s_neg : F → F;
  s_add : F → F → F;
  s_mul : F → F → F;
  s_of_int : Z → F;
  s_eqb : F → F → bool
}.

#[global] Instance F32_scalar : Scalar F32.float :=
  {| s_half := F32.half; s_neg := F32.neg; s_add := F32.add; s_mul := F32.mul;
     s_of_int := F32.of_int; s_eqb := F32.eqb |}.

#[global] Instance Qc_scalar : Scalar Qc :=
  {| s_half := Q2Qc (1 # 2); s_neg := Qcopp; s_add := Qcplus; s_mul := Qcmult;
     s_of_int := λ z, Q2Qc (inject_Z z); s_eqb := Qc_eq_bool |}.

(** [v[i] = a] on a [std::vector]: undefined when [i] is not below [v.size()]. *)
Definition vec_set {St A} (get_v : St → list A) (set_v : list A → St → St)
    (i : nat) (a : A) : M St unit :=
  λ s, if decide (i < length (get_v s))%nat
       then Ok tt (set_v (<[i := a]> (get_v s)) s)
       else Halt (Undefined "vector subscript out of range") s.

(** [v[idx++] = a], on the vector and the running index. *)
Definition write_next {A} (a : A) : M (list A * nat) unit :=
  '(_, idx) ← get;
  vec_set fst (λ v s, (v, snd s)) idx a;;
  modify (λ s, (fst s, S (snd s))).

Section Lattice.
Context {F : Type} `{Scalar F}.

(** [corner_pos = -ii.interval * 0.5f * (glm::vec3(ii.dim - 1))], one
    component. *)
Definition corner (d : F) (n : Z) : F :=
  s_mul (s_mul (s_neg d) s_half) (s_of_int (Int.wrap (n - 1))).

(** [corner_pos.x + ii.interval.x * x], one component. *)
Definition offset_component (d : F) (n : Z) (x : nat) : F :=
  s_add (corner d n) (s_mul d (s_of_int (Z.of_nat x))).

Definition pos_offset_at (dim : glm.ivec3) (interval : glm.tvec3 F) (x y z : nat)
    : glm.tvec3 F :=
  glm.Vec3 (offset_component (glm.x interval) (glm.x dim) x)
           (offset_component (glm.y interval) (glm.y dim) y)
           (offset_component (glm.z interval) (glm.z dim) z).

(** [ii.dim.x * ii.dim.y * ii.dim.z] on [int]. *)
Definition lattice_size (dim : glm.ivec3) : Z :=
  Int.mul (Int.mul (glm.x dim) (glm.y dim)) (glm.z dim).

(** Lines 1422-1439: the vector of offsets, filled through the running
    index [idx]. The vector is resized to the [int] product converted to
    [size_t]; a negative product asks for more than a vector can hold. *)
Definition instance_offsets (dim : glm.ivec3) (interval : glm.tvec3 F) (dflt : glm.tvec3 F)
    : res (list (glm.tvec3 F) * nat) unit :=
  if decide (lattice_size dim < 0) then
    Halt (Thrown "std::length_error") ([], 0%nat)
  else
    for_range (Z.to_nat (glm.x dim)) 0 (λ x,
      for_range (Z.to_nat (glm.y dim)) 0 (λ y,
        for_range (Z.to_nat (glm.z dim)) 0 (λ z,
          write_next (pos_offset_at dim interval x y z))))
      (replicate (Z.to_nat (lattice_size dim)) dflt, 0%nat).

(** The lattice as a list comprehension, [x] outermost and [z] innermost. *)
Definition lattice (dim : glm.ivec3) (interval : glm.tvec3 F) : list (glm.tvec3 F) :=
  flat_map (λ x,
    flat_map (λ y,
      map (λ z, pos_offset_at dim interval x y z) (seq 0 (Z.to_nat (glm.z dim))))
      (seq 0 (Z.to_nat (glm.y dim))))
    (seq 0 (Z.to_nat (glm.x dim))).

Definition vec3_eqb (p q : glm.tvec3 F) : bool :=
  s_eqb (glm.x p) (glm.x q) && s_eqb (glm.y p) (glm.y q) && s_eqb (glm.z p) (glm.z q).

(** The negation of every offset is an offset again, compared with [==]. *)
Definition symmetric_about_origin (offsets : list (glm.tvec3 F)) : bool :=
  forallb (λ p, existsb (vec3_eqb (glm.map3 s_neg p)) offsets) offsets.
End Lattice.

Section PrepareInstanceData.
Variable env : Env.

Definition vec3_zero : glm.vec3 := glm.Vec3 F32.zero F32.zero F32.zero.

(** [sizeof(InstanceData)] *)
Definition sizeof_InstanceData : Z := 12.

Definition prepare_instance_data : M Nerf unit :=
  n ← get;
  let ii := instancing_info n in
  match instance_offsets (dim ii) (interval ii) vec3_zero with
  | Halt h _ => stop h
  | Ok _ (offsets, _) =>
      let instance_data := map (λ p, {| pos_offset := p |}) offsets in
      let instance_buffer_size := Z.of_nat (length instance_data) * sizeof_InstanceData in
      (* Create a staging buffer, copy the data over, transfer to the end buffer *)
      gpu_call (Vk.create_buffer "staging_instance_buffer" instance_buffer_size);;
      gpu_call (Vk.create_buffer "instance_buffer" instance_buffer_size);;
      modify (set_instance_buffer (Some instance_data))
  end.
End PrepareInstanceData.

(** ** RenderGraphBuilder: the two pass topologies *)

Section RenderGraph.
Variable env : Env.
Import Vk.

(** Lines 1626-1678. *)
Definition render_pass_nerf_forward_info : VkRenderPassCreateInfo :=
  (* For merged shaders, we need 2 attachments (as opposed to 5) *)
  let attachments :=
    [ (* Depth attachment *)
      {| format := depth_format env; samples := 1;
         loadOp := VK_ATTACHMENT_LOAD_OP_CLEAR;
         storeOp := VK_ATTACHMENT_STORE_OP_DONT_CARE;
         stencilLoadOp := VK_ATTACHMENT_LOAD_OP_DONT_CARE;
         stencilStoreOp := VK_ATTACHMENT_STORE_OP_STORE;
         initialLayout := VK_IMAGE_LAYOUT_UNDEFINED;
         finalLayout := VK_IMAGE_LAYOUT_DEPTH_STENCIL_ATTACHMENT_OPTIMAL |};
      (* Swapchain attachment *)
      {| format := swapchain_format env; samples := 1;
         loadOp := VK_ATTACHMENT_LOAD_OP_CLEAR;
         storeOp := VK_ATTACHMENT_STORE_OP_STORE;
         stencilLoadOp := VK_ATTACHMENT_LOAD_OP_DONT_CARE;
         stencilStoreOp := VK_ATTACHMENT_STORE_OP_DONT_CARE;
         initialLayout := VK_IMAGE_LAYOUT_UNDEFINED;
         finalLayout := VK_IMAGE_LAYOUT_PRESENT_SRC_KHR |} ] in
  let depth_reference :=
    {| attachment := 0; layout := VK_IMAGE_LAYOUT_DEPTH_STENCIL_ATTACHMENT_OPTIMAL |} in
  let swapchain_reference :=
    {| attachment := 1; layout := VK_IMAGE_LAYOUT_COLOR_ATTACHMENT_OPTIMAL |} in
  let subpass :=
    {| pColorAttachments := [swapchain_reference];
       pDepthStencilAttachment := Some depth_reference;
       pInputAttachments := [];
       pPreserveAttachments := [];
       pResolveAttachments := None |} in
  {| pAttachments := attachments; pSubpasses := [subpass]; pDependencies := [] |}.

Definition update_render_pass_nerf_forward : M Nerf unit :=
  gpu_call (vkCreateRenderPass render_pass_nerf_forward_info);;
  modify (set_render_pass_nerf (Some render_pass_nerf_forward_info)).

(** Lines 1680-1816. *)
Definition render_pass_nerf_baseline_info (feature_map_format : VkFormat)
    : VkRenderPassCreateInfo :=
  let color_attachment (f : VkFormat) :=
    {| format := f; samples := 1;
       loadOp := VK_ATTACHMENT_LOAD_OP_CLEAR;
       storeOp := VK_ATTACHMENT_STORE_OP_DONT_CARE;
       stencilLoadOp := VK_ATTACHMENT_LOAD_OP_DONT_CARE;
       stencilStoreOp := VK_ATTACHMENT_STORE_OP_DONT_CARE;
       initialLayout := VK_IMAGE_LAYOUT_UNDEFINED;
       finalLayout := VK_IMAGE_LAYOUT_COLOR_ATTACHMENT_OPTIMAL |} in
  let attachments :=
    [ (* Color attachment 1 *) color_attachment feature_map_format;
      (* Color attachment 2 *) color_attachment feature_map_format;
      (* Color attachment 3 *) color_attachment VK_FORMAT_R16G16B16A16_SFLOAT;
      (* Depth attachment *)
      {| format := depth_format env; samples := 1;
         loadOp := VK_ATTACHMENT_LOAD_OP_CLEAR;
         storeOp := VK_ATTACHMENT_STORE_OP_DONT_CARE;
         stencilLoadOp := VK_ATTACHMENT_LOAD_OP_DONT_CARE;
         stencilStoreOp := VK_ATTACHMENT_STORE_OP_STORE;
         initialLayout := VK_IMAGE_LAYOUT_UNDEFINED;
         finalLayout := VK_IMAGE_LAYOUT_DEPTH_STENCIL_ATTACHMENT_OPTIMAL |};
      (* Swapchain attachment *)
      {| format := swapchain_format env; samples := 1;
         loadOp := VK_ATTACHMENT_LOAD_OP_CLEAR;
         storeOp := VK_ATTACHMENT_STORE_OP_STORE;
         stencilLoadOp := VK_ATTACHMENT_LOAD_OP_DONT_CARE;
         stencilStoreOp := VK_ATTACHMENT_STORE_OP_DONT_CARE;
         initialLayout := VK_IMAGE_LAYOUT_UNDEFINED;
         finalLayout := VK_IMAGE_LAYOUT_PRESENT_SRC_KHR |} ] in
  let color_reference_0 :=
    {| attachment := 0; layout := VK_IMAGE_LAYOUT_COLOR_ATTACHMENT_OPTIMAL |} in
  let color_reference_1 :=
    {| attachment := 1; layout := VK_IMAGE_LAYOUT_COLOR_ATTACHMENT_OPTIMAL |} in
  let color_reference_2 :=
    {| attachment := 2; layout := VK_IMAGE_LAYOUT_COLOR_ATTACHMENT_OPTIMAL |} in
  let depth_reference :=
    {| attachment := 3; layout := VK_IMAGE_LAYOUT_DEPTH_STENCIL_ATTACHMENT_OPTIMAL |} in
  let color_references_feature_maps :=
    [color_reference_0; color_reference_1; color_reference_2] in
  let swapchain_reference :=
    {| attachment := 4; layout := VK_IMAGE_LAYOUT_COLOR_ATTACHMENT_OPTIMAL |} in
  (* Color attachments written to in first sub pass will be used as input
     attachments to be read in the fragment shader *)
  let inputReferences :=
    [ {| attachment := 0; layout := VK_IMAGE_LAYOUT_SHADER_READ_ONLY_OPTIMAL |};
      {| attachment := 1; layout := VK_IMAGE_LAYOUT_SHADER_READ_ONLY_OPTIMAL |};
      {| attachment := 2; layout := VK_IMAGE_LAYOUT_SHADER_READ_ONLY_OPTIMAL |} ] in
  let subpassDescriptions :=
    [ {| pColorAttachments := color_references_feature_maps;
         pDepthStencilAttachment := Some depth_reference;
         pInputAttachments := [];
         pPreserveAttachments := [];
         pResolveAttachments := None |};
      {| pColorAttachments := [swapchain_reference];
         pDepthStencilAttachment := None;
         pInputAttachments := inputReferences;
         pPreserveAttachments := [];
         pResolveAttachments := None |} ] in
  (* Subpass dependencies for layout transitions *)
  let dependencies :=
    [ {| srcSubpass := None; dstSubpass := Some 0%nat;
         srcStageMask := VK_PIPELINE_STAGE_BOTTOM_OF_PIPE_BIT;
         dstStageMask := Z.lor VK_PIPELINE_STAGE_COLOR_ATTACHMENT_OUTPUT_BIT
                               VK_PIPELINE_STAGE_EARLY_FRAGMENT_TESTS_BIT;
         srcAccessMask := VK_ACCESS_NONE;
         dstAccessMask := Z.lor VK_ACCESS_COLOR_ATTACHMENT_WRITE_BIT
                                VK_ACCESS_DEPTH_STENCIL_ATTACHMENT_WRITE_BIT;
         dependencyFlags := VK_DEPENDENCY_BY_REGION_BIT |};
      {| srcSubpass := Some 0%nat; dstSubpass := Some 1%nat;
         srcStageMask := VK_PIPELINE_STAGE_COLOR_ATTACHMENT_OUTPUT_BIT;
         dstStageMask := VK_PIPELINE_STAGE_FRAGMENT_SHADER_BIT;
         srcAccessMask := VK_ACCESS_COLOR_ATTACHMENT_WRITE_BIT;
         dstAccessMask := VK_ACCESS_INPUT_ATTACHMENT_READ_BIT;
         dependencyFlags := VK_DEPENDENCY_BY_REGION_BIT |};
      {| srcSubpass := Some 1%nat; dstSubpass := None;
         srcStageMask := VK_PIPELINE_STAGE_COLOR_ATTACHMENT_OUTPUT_BIT;
         dstStageMask := VK_PIPELINE_STAGE_BOTTOM_OF_PIPE_BIT;
         srcAccessMask := VK_ACCESS_COLOR_ATTACHMENT_WRITE_BIT;
         dstAccessMask := VK_ACCESS_NONE;
         dependencyFlags := VK_DEPENDENCY_BY_REGION_BIT |} ] in
  {| pAttachments := attachments; pSubpasses := subpassDescriptions;
     pDependencies := dependencies |}.

Definition update_render_pass_nerf_baseline : M Nerf unit :=
  n ← get;
  let info := render_pass_nerf_baseline_info (feature_map_format n) in
  gpu_call (vkCreateRenderPass info);;
  modify (set_render_pass_nerf (Some info)).

(** Lines 429-436 of [prepare]: the topology is chosen by the flag. *)
Definition update_render_pass_nerf : M Nerf unit :=
  n ← get;
  if use_deferred n then update_render_pass_nerf_baseline
  else update_render_pass_nerf_forward.

(** Lines 926-951. *)
Definition create_pipeline_layout_fist_pass : M Nerf unit :=
  n ← get;
  let set_layout_bindings :=
    [ {| descriptorType := VK_DESCRIPTOR_TYPE_COMBINED_IMAGE_SAMPLER;
         stageFlags := VK_SHADER_STAGE_FRAGMENT_BIT; binding := 0 |};
      {| descriptorType := VK_DESCRIPTOR_TYPE_COMBINED_IMAGE_SAMPLER;
         stageFlags := VK_SHADER_STAGE_FRAGMENT_BIT; binding := 1 |};
      {| descriptorType := VK_DESCRIPTOR_TYPE_UNIFORM_BUFFER;
         stageFlags := VK_SHADER_STAGE_VERTEX_BIT; binding := 2 |} ] in
  (* If use forward, add uniform buffer descriptor for the weights *)
  let set_layout_bindings :=
    if negb (use_deferred n) then
      set_layout_bindings ++
        [ {| descriptorType := VK_DESCRIPTOR_TYPE_UNIFORM_BUFFER;
             stageFlags := VK_SHADER_STAGE_FRAGMENT_BIT; binding := 3 |} ]
    else set_layout_bindings in
  gpu_call (vkCreateDescriptorSetLayout set_layout_bindings);;
  modify (set_descriptor_set_first_pass_layout (Some set_layout_bindings));;
  gpu_call vkCreatePipelineLayout.

(** Lines 953-975. *)
Definition create_pipeline_layout_baseline : M Nerf unit :=
  let set_layout_bindings :=
    [ (* Two output color from the first pass and ray direction *)
      {| descriptorType := VK_DESCRIPTOR_TYPE_INPUT_ATTACHMENT;
         stageFlags := VK_SHADER_STAGE_FRAGMENT_BIT; binding := 0 |};
      {| descriptorType := VK_DESCRIPTOR_TYPE_INPUT_ATTACHMENT;
         stageFlags := VK_SHADER_STAGE_FRAGMENT_BIT; binding := 1 |};
      {| descriptorType := VK_DESCRIPTOR_TYPE_INPUT_ATTACHMENT;
         stageFlags := VK_SHADER_STAGE_FRAGMENT_BIT; binding := 2 |};
      (* MLP weights *)
      {| descriptorType := VK_DESCRIPTOR_TYPE_UNIFORM_BUFFER;
         stageFlags := VK_SHADER_STAGE_FRAGMENT_BIT; binding := 3 |} ] in
  gpu_call (vkCreateDescriptorSetLayout set_layout_bindings);;
  modify (set_descriptor_set_layout_baseline (Some set_layout_bindings));;
  gpu_call vkCreatePipelineLayout.

(** Lines 466-471 of [prepare]: the second-pass layout exists only in the
    deferred topology. *)
Definition create_pipeline_layouts : M Nerf unit :=
  create_pipeline_layout_fist_pass;;
  n ← get;
  if use_deferred n then create_pipeline_layout_baseline else ret tt.

(** The input attachments of the pass and of the descriptor layouts that
    are built. *)
Definition pass_input_attachments (info : VkRenderPassCreateInfo) : nat :=
  list_sum (map inputAttachmentCount (pSubpasses info)).

Definition layout_input_attachments (n : Nerf) : nat :=
  input_attachments_required (default [] (descriptor_set_first_pass_layout n)) +
  input_attachments_required (default [] (descriptor_set_layout_baseline n)).
End RenderGraph.

(** ** The camera *)

Definition Camera_set_type (t : CameraType) (c : Camera) : Camera :=
  {| type := t; cam_position := cam_position c; cam_rotation := cam_rotation c |}.
Definition Camera_set_position (p : glm.vec3) (c : Camera) : Camera :=
  {| type := type c; cam_position := p; cam_rotation := cam_rotation c |}.
Definition Camera_set_rotation (r : glm.vec3) (c : Camera) : Camera :=
  {| type := type c; cam_position := cam_position c; cam_rotation := r |}.

Definition f32_one : float := S754_finite false 8388608 (-23).

(** ** The renderer: [Nerf::prepare] and what it calls *)

(** The object as its constructor leaves it (lines 95-103): nothing is
    resolved, loaded or created yet. *)
Definition Nerf_new : Nerf :=
  {| combo_mode := false; model_path := []; using_original_nerf_models := [];
     feature_map_format := Vk.VK_FORMAT_UNDEFINED; use_deferred := false;
     do_rotation := false; view_port_width := 0; view_port_height := 0;
     use_native_screen_size := false;
     camera_pos := glm.Vec3 F32.zero F32.zero F32.zero;
     instancing_info := {| dim := glm.Vec3 0 0 0;
                           interval := glm.Vec3 F32.zero F32.zero F32.zero |};
     mlp_weight_vector := []; models := [];
     render_pass_nerf := None; descriptor_set_first_pass_layout := None;
     descriptor_set_layout_baseline := None;
     weights_buffers := []; instance_buffer := None; draw_cmd_buffers := [];
     camera := {| type := FirstPerson;
                  cam_position := glm.Vec3 F32.zero F32.zero F32.zero;
                  cam_rotation := glm.Vec3 F32.zero F32.zero F32.zero |};
     prepared := false; log := []; gpu := [] |}.

Definition set_vertices (v : list Vertex) (m : Model) : Model :=
  {| model_index := model_index m; sub_model_num := sub_model_num m;
     vertices := v; indices := indices m |}.
Definition set_indices (v : list (Z * Z * Z)) (m : Model) : Model :=
  {| model_index := model_index m; sub_model_num := sub_model_num m;
     vertices := vertices m; indices := v |}.

(** A value-initialised [Vertex]. *)
Definition Vertex_zero : Vertex :=
  {| position := glm.Vec3 F32.zero F32.zero F32.zero; tex_coord := (F32.zero, F32.zero) |}.

(** [std::to_string] of an [int] that is not negative. *)
Definition to_string (i : nat) : string := NilEmpty.string_of_uint (Nat.to_uint i).

(** [v[i]] with an [int] index: converted to [size_t], a negative index is
    past the end of every vector. *)
Definition vec_at_int {S A} (v : list A) (i : Z) : M S A :=
  if i <? 0 then stop (Undefined "vector subscript out of range") else vec_at v (Z.to_nat i).

(** The call of a function object on a local variable [t]: its result and
    what it leaves in [t]. *)
Definition call_on {S T A} (t : T) (c : M T A) : M S (A * T) :=
  λ s, match c t with
       | Ok a t' => Ok (a, t') s
       | Halt h _ => Halt h s
       end.

(** Run a computation on [models[models_entry]] in place, through the
    reference [Model &model]. *)
Definition on_model (models_entry : nat) (c : M Model unit) : M Nerf unit :=
  λ n,
    match models n !! models_entry with
    | None => Halt (Undefined "vector subscript out of range") n
    | Some m =>
        match c m with
        | Ok _ m' => Ok tt (set_models (<[models_entry := m']> (models n)) n)
        | Halt h m' => Halt h (set_models (<[models_entry := m']> (models n)) n)
        end
    end.

(** A loop that carries a local variable along. *)
Fixpoint for_range_with {St A} (cnt i : nat) (body : nat → A → M St A) (a : A) : M St A :=
  match cnt with
  | O => ret a
  | S c => bind (body i a) (for_range_with c (S i) body)
  end.

Section Prepare.
Context `{NerfHeader}.
Variable env : Env.
Import Vk.

(** Lines 78-91. *)
Definition camera_set_look_at (camera : Camera) (look up : glm.vec3) : Camera :=
  let '(rotation, translation) := look_at_decompose env (cam_position camera) look up in
  Camera_set_position translation (Camera_set_rotation rotation camera).

(** Lines 376-401. *)
Definition load_shaders : M Nerf unit :=
  n ← get;
  if use_deferred n then
    (* Loading first pass shaders *)
    gpu_call (load_shader "nerf/raster.vert");;
    original ← vec_at (using_original_nerf_models n) 0;
    gpu_call (load_shader (if original : bool then "nerf/raster.frag"
                           else "nerf/raster_morpheus.frag"));;
    (* Loading second pass shaders *)
    gpu_call (load_shader "nerf/quad.vert");;
    gpu_call (load_shader (if original : bool then "nerf/mlp.frag"
                           else "nerf/mlp_morpheus.frag"))
  else
    (* Loading one pass shaders *)
    gpu_call (load_shader "nerf/raster.vert");;
    original ← vec_at (using_original_nerf_models n) 0;
    gpu_call (load_shader (if original : bool then "nerf/merged.frag"
                           else "nerf/merged_morpheus.frag")).

(** Lines 603-672. The render context has as many frames as the swapchain
    has images. *)
Definition setup_nerf_framebuffer_baseline : M Nerf unit :=
  n ← get;
  (if use_deferred n then
     for_range (swapchain_image_count env) 0 (λ _,
       gpu_call (setup_attachment (feature_map_format n));;
       gpu_call (setup_attachment (feature_map_format n));;
       gpu_call (setup_attachment VK_FORMAT_R16G16B16A16_SFLOAT))
   else ret tt);;
  let views := if use_deferred n then 5%nat else 2%nat in
  for_range (swapchain_image_count env) 0 (λ _, gpu_call (vkCreateFramebuffer views)).

(** Lines 674-703: descriptors are written, nothing is created. *)
Definition update_descriptor_sets_baseline : M Nerf unit := ret tt.

(** Lines 860-867, "Copy vertex data". *)
Definition copy_vertex_data (pts_ : list glm.vec3) (texcoord_ : list glm.vec2)
    (vertex_start_index : nat) : M Model unit :=
  model ← get;
  modify (set_vertices
            (resize (vertex_start_index + length pts_) Vertex_zero (vertices model)));;
  for_range (length pts_) 0 (λ i,
    p ← vec_at pts_ i;
    model ← get;
    v ← vec_at (vertices model) (vertex_start_index + i);
    modify (set_vertices (<[(vertex_start_index + i)%nat :=
                             {| position := p; tex_coord := tex_coord v |}]>
                            (vertices model)));;
    t ← vec_at texcoord_ i;
    model ← get;
    v ← vec_at (vertices model) (vertex_start_index + i);
    modify (set_vertices (<[(vertex_start_index + i)%nat :=
                             {| position := position v;
                                tex_coord := (t.1, F32.sub f32_one t.2) |}]>
                            (vertices model)))).

(** Lines 870-890, "Copy index data". *)
Definition copy_index_data (sub_mesh : sg.SubMesh) (vertex_start_index : nat)
    : M Model unit :=
  match sg.index_buffer sub_mesh with
  | None => ret tt
  | Some index_buffer_ =>
      (if decide (sg.index_type sub_mesh = VK_INDEX_TYPE_UINT32)
       then ret tt else stop AssertFailed);;
      let sz := get_size index_buffer_ in
      let nTriangles := (sz / 4 / 3)%nat in
      model ← get;
      let triangle_start_index :=
        Z.to_nat (Int.uwrap (Z.of_nat (length (indices model)))) in
      modify (set_indices
                (resize (triangle_start_index + nTriangles) (0, 0, 0) (indices model)));;
      (if mapped index_buffer_ then ret tt else stop AssertFailed);;
      (* std::vector<uint32_t> tempBuffer(nTriangles * 3);
         memcpy(&tempBuffer[0], ptr, sz); *)
      (if decide (nTriangles * 3 = 0)%nat
       then stop (Undefined "vector subscript out of range") else ret tt);;
      (if decide (nTriangles * 3 * 4 < sz)%nat
       then stop (Undefined "memcpy past the end of the vector") else ret tt);;
      let tempBuffer :=
        map le_number (chunks (nTriangles * 3) 4 (contents index_buffer_)) in
      for_range nTriangles 0 (λ i,
        a ← vec_at tempBuffer (3 * i);
        b ← vec_at tempBuffer (3 * i + 1);
        c ← vec_at tempBuffer (3 * i + 2);
        model ← get;
        _ ← vec_at (indices model) (triangle_start_index + i);
        modify (set_indices (<[(triangle_start_index + i)%nat :=
                                (Int.uwrap (Z.of_nat vertex_start_index + a),
                                 Int.uwrap (Z.of_nat vertex_start_index + b),
                                 Int.uwrap (Z.of_nat vertex_start_index + c))]>
                               (indices model))))
  end.

(** Lines 853-894: the vertices and the triangles of one sub-mesh are
    added to [model]. *)
Definition load_sub_mesh (sub_mesh : sg.SubMesh) : M Model unit :=
  '(pts_, buffers) ← call_on (sg.vertex_buffers sub_mesh)
                       (CopyBuffer (H := Pod_vec3) "position");
  '(texcoord_, _) ← call_on buffers (CopyBuffer (H := Pod_vec2) "texcoord_0");
  model ← get;
  let vertex_start_index := Z.to_nat (Int.uwrap (Z.of_nat (length (vertices model)))) in
  copy_vertex_data pts_ texcoord_ vertex_start_index;;
  copy_index_data sub_mesh vertex_start_index.

(** The file of a sub-model, or of one of the eight parts of a sub-model
    of an original NeRF model. *)
Definition inputfile (path : string) (sub_model_index total_sub_sub_model sub_model : nat)
    : string :=
  path +:+ "shape" +:+ to_string sub_model_index +:+
  (if (1 <? total_sub_sub_model)%nat
   then "_" +:+ to_string sub_model +:+ ".gltf" else ".gltf").

(** Lines 833-896. The loader reads one file for a sub-model, or eight for
    an original NeRF model; the vertices and triangles of every sub-mesh
    of every mesh of the scene it gives are added to the model. The scene
    is used as the loader gives it, a null pointer included. *)
Definition load_scene (model_index sub_model_index models_entry : nat) : M Nerf unit :=
  n ← get;
  _ ← vec_at (models n) models_entry;
  original ← vec_at (using_original_nerf_models n) model_index;
  let total_sub_sub_model := if original : bool then 8%nat else 1%nat in
  for_range total_sub_sub_model 0 (λ sub_model,
    path ← vec_at (model_path n) model_index;
    logf LOGI "Parsing nerf obj {}" [];;
    gpu_call (load_scene_file model_index sub_model_index);;
    match read_scene_from_file env
            (inputfile path sub_model_index total_sub_sub_model sub_model) with
    | None => stop (Undefined "null pointer dereferenced")
    | Some scene =>
        for_each (sg.meshes scene) (λ mesh,
          for_each (sg.get_submeshes mesh) (λ sub_mesh,
            on_model models_entry (load_sub_mesh sub_mesh)))
    end).

(** Lines 1489-1505. *)
Definition create_texture (model_index sub_model_index models_entry : nat) : M Nerf unit :=
  n ← get;
  _ ← vec_at (model_path n) model_index;
  logf LOGI "Creating feature texture 0" [];;
  _ ← vec_at (models n) models_entry;
  gpu_call (Vk.create_texture model_index sub_model_index);;
  logf LOGI "Done Creating feature texture 0" [];;
  logf LOGI "Creating feature texture 1" [];;
  gpu_call (Vk.create_texture model_index sub_model_index);;
  logf LOGI "Done Creating feature texture 0" [].

Definition sizeof_Vertex : Z := 20.
Definition sizeof_triangle : Z := 12.

(** Lines 1163-1204. *)
Definition create_static_object_buffers (model_index sub_model_index models_entry : nat)
    : M Nerf unit :=
  logf LOGI "Creating static object buffers" [];;
  n ← get;
  model ← vec_at (models n) models_entry;
  let vertex_buffer_size := Z.of_nat (length (vertices model)) * sizeof_Vertex in
  let index_buffer_size := Z.of_nat (length (indices model)) * sizeof_triangle in
  (* Create a staging buffer *)
  gpu_call (create_buffer "staging_vertex_buffer" vertex_buffer_size);;
  gpu_call (create_buffer "staging_index_buffer" index_buffer_size);;
  (* now transfer over to the end buffer *)
  gpu_call (create_buffer "vertex_buffer" vertex_buffer_size);;
  gpu_call (create_buffer "index_buffer" index_buffer_size);;
  logf LOGI "Done Creating static object buffers" [].

(** The translations of [model_translation[4]], a hard-coded scene
    setting for the lego_combo. *)
Definition model_translation : list glm.vec3 :=
  [ glm.Vec3 F32.half (S754_finite false 12582912 (-24)) F32.zero;
    glm.Vec3 F32.half (S754_finite false 8388608 (-25)) F32.zero;
    glm.Vec3 F32.zero (S754_finite true 8388608 (-25)) F32.half;
    glm.Vec3 F32.zero (S754_finite true 12582912 (-24)) (F32.neg F32.half) ].

(** Lines 1391-1416: the weights of every model go to its uniform buffer.
    [uniform_buffers] and [weights_buffers] are resized together and so
    have the same size; of a combination scene the model matrix is read
    from [model_translation]. *)
Definition update_uniform_buffers : M Nerf unit :=
  n ← get;
  (* assert(uniform_buffers[0]) *)
  _ ← vec_at (weights_buffers n) 0;
  for_range (length (model_path n)) 0 (λ i,
    n ← get;
    (if combo_mode n then _ ← vec_at model_translation i; ret tt else ret tt);;
    (* uniform_buffers[i]->update *)
    _ ← vec_at (weights_buffers n) i;
    (* weights_buffers[i]->update *)
    _ ← vec_at (weights_buffers n) i;
    w ← vec_at (mlp_weight_vector n) i;
    modify (set_weights_buffers (<[i := data w]> (weights_buffers n)))).

(** Lines 1206-1234. *)
Definition create_uniforms : M Nerf unit :=
  modify (λ n, set_weights_buffers
                 (resize (length (model_path n)) [] (weights_buffers n)) n);;
  n ← get;
  for_range (length (model_path n)) 0 (λ i,
    logf LOGI "Creating camera view uniform buffer for model {}" [Z.of_nat i];;
    gpu_call (create_buffer "uniform_buffer" (sizeof_global_uniform env));;
    logf LOGI "Creating mlp weights uniform buffer for model {}" [Z.of_nat i];;
    gpu_call (create_buffer "weights_buffer" (4 * Z.of_nat MLP_TOTAL)));;
  (* Record a referce to vulkan buffer for each one of the models *)
  n ← get;
  for_each (models n) (λ model,
    (* &uniform_buffers[model.model_index] *)
    _ ← vec_at_int (weights_buffers n) (model_index model);
    (* &weights_buffers[model.model_index] *)
    _ ← vec_at_int (weights_buffers n) (model_index model);
    ret tt);;
  update_uniform_buffers.

(** Lines 898-924. *)
Definition create_descriptor_pool : M Nerf unit := gpu_call vkCreateDescriptorPool.

(** Lines 977-1025, for the model at place [k] of [models]. *)
Definition create_descriptor_sets_first_pass (k : nat) : M Nerf unit :=
  n ← get;
  let numDescriptorPerModel :=
    if use_deferred n then 1%nat else swapchain_image_count env in
  for_range numDescriptorPerModel 0 (λ i,
    gpu_call (vkAllocateDescriptorSets (descriptor_set_first_pass k (Z.of_nat i)))).

(** Lines 1027-1067. *)
Definition create_descriptor_sets_baseline : M Nerf unit :=
  for_range (swapchain_image_count env) 0 (λ i,
    gpu_call (vkAllocateDescriptorSets (descriptor_set_baseline i));;
    n ← get;
    _ ← vec_at (models n) 0;
    ret tt).

(** Lines 1069-1161. *)
Definition prepare_pipelines : M Nerf unit :=
  n ← get;
  (* Each model will have its own pipeline *)
  for_range (length (models n)) 0 (λ k,
    gpu_call (vkCreateGraphicsPipelines (pipeline_first_pass k)));;
  if use_deferred n then gpu_call (vkCreateGraphicsPipelines pipeline_baseline)
  else ret tt.

(** *** FrameRecorder: [Nerf::build_command_buffers_baseline] *)

(** A command recorded into [draw_cmd_buffers[i]]. *)
Definition cmd (i : nat) (c : command) : M Nerf unit :=
  modify (λ n, set_draw_cmd_buffers (alter (λ b, b ++ [c]) i (draw_cmd_buffers n)) n).

(** Recording starts from an empty buffer. *)
Definition vkBeginCommandBuffer (i : nat) : M Nerf unit :=
  modify (λ n, set_draw_cmd_buffers (<[i := []]> (draw_cmd_buffers n)) n).

(** Lines 715-831. *)
Definition build_command_buffers_baseline : M Nerf unit :=
  n ← get;
  (* In case the screen is resized, need to update the storage image size
     and descriptor set *)
  (if negb (prepared n) then
     setup_nerf_framebuffer_baseline;;
     (if use_deferred n then update_descriptor_sets_baseline else ret tt)
   else ret tt);;
  let clear_values := if use_deferred n then 5%nat else 2%nat in
  for_range (length (draw_cmd_buffers n)) 0 (λ i,
    vkBeginCommandBuffer i;;
    cmd i (vkCmdBeginRenderPass render_pass_nerf_ref i clear_values);;
    (* First sub pass: fills the attachments *)
    cmd i (vkCmdSetViewport (width env) (height env));;
    cmd i (vkCmdSetScissor (width env) (height env));;
    let ii := instancing_info n in
    for_each (imap (λ k model, (k, model)) (models n)) (λ '(k, model),
      cmd i (vkCmdBindPipeline (pipeline_first_pass k));;
      (* If deferred, only use the first descriptor bounded with the model.
         If forward, each model has the swapchan number of descriptor *)
      let descriptorIndex := if use_deferred n then 0 else Z.of_nat i in
      cmd i (vkCmdBindDescriptorSets (descriptor_set_first_pass k descriptorIndex));;
      cmd i (vkCmdBindVertexBuffers 0 (vertex_buffer k));;
      cmd i (vkCmdBindVertexBuffers 1 instance_buffer_ref);;
      cmd i (vkCmdBindIndexBuffer (index_buffer k));;
      cmd i (vkCmdDrawIndexed
               (Int.uwrap (Int.uwrap (Z.of_nat (length (indices model))) * 3))
               (Int.uwrap (lattice_size (dim ii))) 0 0 0));;
    (if use_deferred n then
       (* Second sub pass: a full screen quad that reads the attachments
          written before as input attachments *)
       cmd i vkCmdNextSubpass;;
       cmd i (vkCmdBindPipeline pipeline_baseline);;
       cmd i (vkCmdBindDescriptorSets (descriptor_set_baseline i));;
       cmd i (vkCmdDraw 3 1 0 0);;
       cmd i vkCmdEndRenderPass
     else
       cmd i vkCmdEndRenderPass);;
    (* Render UI *)
    cmd i (vkCmdBeginRenderPass render_pass_ui i 2);;
    cmd i draw_ui;;
    cmd i vkCmdEndRenderPass).

(** Lines 705-713. *)
Definition build_command_buffers : M Nerf unit :=
  n ← get;
  (if use_native_screen_size n then
     modify (set_view_port_height (height env));;
     modify (set_view_port_width (width env))
   else ret tt);;
  build_command_buffers_baseline.

(** *** [Nerf::prepare], lines 403-489 *)

(** Lines 405-413. *)
Definition load_mlps : M Nerf unit :=
  (* Load the mlp for each model *)
  modify (λ n, set_mlp_weight_vector
                 (resize (length (model_path n)) MLP_Weights_zero (mlp_weight_vector n)) n);;
  n ← get;
  for_range (length (model_path n)) 0 (λ i, initialize_mlp_uniform_buffers env i).

(** Lines 443-445: the camera is put where the configuration says, the
    y coordinate negated. *)
Definition place_camera : M Nerf unit :=
  modify (λ n, set_camera (Camera_set_type LookAt (camera n)) n);;
  (* flip y to keep consistency of the init pos between rayquery and
     rasterization *)
  modify (λ n, set_camera_pos
                 (glm.Vec3 (glm.x (camera_pos n)) (F32.neg (glm.y (camera_pos n)))
                           (glm.z (camera_pos n))) n);;
  modify (λ n, set_camera (Camera_set_position (camera_pos n) (camera n)) n).

(** Line 446. *)
Definition look_at_origin : M Nerf unit :=
  modify (λ n, set_camera
                 (camera_set_look_at (camera n)
                    (glm.Vec3 F32.zero F32.zero F32.zero)
                    (glm.Vec3 F32.zero f32_one F32.zero)) n).

(** Lines 450-464. *)
Definition load_models : M Nerf unit :=
  n ← get;
  for_range_with (length (model_path n)) 0 (λ model_index models_entry,
    n ← get;
    m ← vec_at (models n) models_entry;
    let num_sub_model := sub_model_num m in
    for_range_with (Z.to_nat num_sub_model) 0 (λ sub_model_index models_entry,
      load_scene model_index sub_model_index models_entry;;
      create_texture model_index sub_model_index models_entry;;
      create_static_object_buffers model_index sub_model_index models_entry;;
      ret (S models_entry)) models_entry) 0%nat;;
  ret tt.

Definition prepare : M Nerf bool :=
  read_json_map env;;
  load_mlps;;
  gpu_call framework_prepare;;
  if negb (framework_prepare_ok env) then ret false
  else
    modify (set_draw_cmd_buffers (replicate (swapchain_image_count env) []));;
    n ← get;
    (if (view_port_width n =? 0) || (view_port_height n =? 0) then
       modify (set_view_port_width (width env));;
       modify (set_view_port_height (height env));;
       modify (set_use_native_screen_size true)
     else ret tt);;
    load_shaders;;
    update_render_pass_nerf env;;
    setup_nerf_framebuffer_baseline;;
    (* Because we have our own customized render pass, the UI render pass
       need to be updated with load on load so it won't clear out the
       written color attachment *)
    gpu_call update_render_pass_flags;;
    place_camera;;
    look_at_origin;;
    load_models;;
    create_uniforms;;
    prepare_instance_data;;
    create_pipeline_layouts;;
    create_descriptor_pool;;
    n ← get;
    for_range (length (models n)) 0 create_descriptor_sets_first_pass;;
    (if use_deferred n then create_descriptor_sets_baseline else ret tt);;
    prepare_pipelines;;
    build_command_buffers;;
    modify (set_prepared true);;
    logf LOGI "Prepare Done!" [];;
    ret true.
End Prepare.

(** *** Loops *)

(** Linear arithmetic with quotients and remainders: each [a / b] and
    [a mod b] is replaced by a variable and its defining equations. *)
Ltac div_mod_eqs :=
  repeat match goal with
  | |- context [Nat.div ?a ?b] =>
      let q := fresh "q" in let r := fresh "r" in
      pose proof (Nat.div_mod_eq a b); pose proof (Nat.mod_upper_bound a b);
      set (q := Nat.div a b) in *; set (r := Nat.modulo a b) in *; clearbody q r
  | _ : context [Nat.div ?a ?b] |- _ =>
      let q := fresh "q" in let r := fresh "r" in
      pose proof (Nat.div_mod_eq a b); pose proof (Nat.mod_upper_bound a b);
      set (q := Nat.div a b) in *; set (r := Nat.modulo a b) in *; clearbody q r
  | |- context [Nat.modulo ?a ?b] =>
      let q := fresh "q" in let r := fresh "r" in
      pose proof (Nat.div_mod_eq a b); pose proof (Nat.mod_upper_bound a b);
      set (q := Nat.div a b) in *; set (r := Nat.modulo a b) in *; clearbody q r
  | _ : context [Nat.modulo ?a ?b] |- _ =>
      let q := fresh "q" in let r := fresh "r" in
      pose proof (Nat.div_mod_eq a b); pose proof (Nat.mod_upper_bound a b);
      set (q := Nat.div a b) in *; set (r := Nat.modulo a b) in *; clearbody q r
  end.
Ltac dlia := div_mod_eqs; lia.

(** A loop whose body keeps an invariant returns, and the invariant holds
    at the exit. *)
Lemma for_range_inv {St} (P : nat → St → Prop) (body : nat → M St unit) cnt i s :
  P i s →
  (∀ j t, (i ≤ j < i + cnt)%nat → P j t → ∃ t', body j t = Ok tt t' ∧ P (S j) t') →
  ∃ s', for_range cnt i body s = Ok tt s' ∧ P (i + cnt)%nat s'.
Proof.
  revert i s. induction cnt as [|cnt IH]; intros i s Hi Hstep; simpl.
  - exists s. rewrite Nat.add_0_r. split; [reflexivity | assumption].
  - destruct (Hstep i s) as (t & Hb & Ht); [lia | assumption |].
    destruct (IH (S i) t) as (s' & Hr & Hs'); [assumption | |].
    + intros j u Hj Hu. apply Hstep; [lia | assumption].
    + exists s'. split.
      * erewrite bind_Ok by eassumption. exact Hr.
      * replace (i + S cnt)%nat with (S i + cnt)%nat by lia. exact Hs'.
Qed.

(** A loop halts where its body first halts. *)
Lemma for_range_halts {St} (P : nat → St → Prop) (body : nat → M St unit) cnt i s k h :
  P i s →
  (i ≤ k < i + cnt)%nat →
  (∀ j t, (i ≤ j < k)%nat → P j t → ∃ t', body j t = Ok tt t' ∧ P (S j) t') →
  (∀ t, P k t → ∃ t', body k t = Halt h t') →
  ∃ s', for_range cnt i body s = Halt h s'.
Proof.
  revert i s. induction cnt as [|cnt IH]; intros i s Hi Hk Hstep Hhalt; simpl.
  - lia.
  - destruct (decide (i = k)) as [->|Hne].
    + destruct (Hhalt s Hi) as (t' & Hb). exists t'.
      erewrite bind_Halt by eassumption. reflexivity.
    + destruct (Hstep i s) as (t & Hb & Ht); [lia | assumption |].
      destruct (IH (S i) t) as (s' & Hr); [assumption | lia | | assumption |].
      * intros j u Hj Hu. apply Hstep; [lia | assumption].
      * exists s'. erewrite bind_Ok by eassumption. exact Hr.
Qed.

(** A loop whose body works at [base + j] is the loop that starts at [base]. *)
Lemma for_range_shift {St} (body : nat → M St unit) base cnt i s :
  for_range cnt i (λ j, body (base + j)%nat) s = for_range cnt (base + i) body s.
Proof.
  revert i s. induction cnt as [|cnt IH]; intros i s; simpl; [reflexivity |].
  unfold bind. destruct (body (base + i)%nat s) as [[] s'|h s']; [| reflexivity].
  rewrite IH. replace (base + S i)%nat with (S (base + i)) by lia. reflexivity.
Qed.

Section MLPFacts.
Context `{NerfHeader}.

(** The elements [off .. off + cnt - 1] of an array. *)
Definition segment (off cnt : nat) (d : list float) : list float :=
  take cnt (drop off d).

(** What a loop writes: at position [ii] of its segment, the value [val ii]. *)
Definition written (val : nat → option float) (cnt : nat) : list float :=
  map (λ ii, default F32.zero (val ii)) (seq 0 cnt).

Lemma written_length val cnt : length (written val cnt) = cnt.
Proof. unfold written. rewrite length_map, length_seq. reflexivity. Qed.

Lemma written_S val cnt :
  written val (S cnt) = written val cnt ++ [default F32.zero (val cnt)].
Proof. unfold written. rewrite seq_S, map_app. reflexivity. Qed.

Lemma written_lookup val cnt ii :
  (ii < cnt)%nat → written val cnt !! ii = Some (default F32.zero (val ii)).
Proof.
  intros Hii. unfold written. rewrite list_lookup_fmap.
  rewrite lookup_seq_lt by assumption. reflexivity.
Qed.

(** One more write extends the written part by one element. *)
Lemma insert_written (pre rest : list float) val j v :
  (j < length rest)%nat →
  val j = Some v →
  <[(length pre + j)%nat := v]> (pre ++ written val j ++ drop j rest)
  = pre ++ written val (S j) ++ drop (S j) rest.
Proof.
  intros Hj Hv.
  rewrite insert_app_r.
  f_equal.
  pose proof (written_length val j) as Hlen.
  rewrite <- Hlen at 1. rewrite <- (Nat.add_0_r (length (written val j))).
  rewrite insert_app_r.
  destruct (lookup_lt_is_Some_2 rest j Hj) as [x Hx].
  rewrite (drop_S rest x j Hx).
  rewrite written_S, Hv, <- app_assoc. reflexivity.
Qed.

(** The loops that write [val ii] at [off + ii], or halt when [val ii] is
    not defined. *)
Definition writes_val (val : nat → option float) (off : nat)
    (body : nat → M MLP_Weights unit) : Prop :=
  ∀ ii w,
    body ii w =
      match val ii with
      | Some v => Ok tt {| data := <[(off + ii)%nat := v]> (data w) |}
      | None => Halt (Undefined "vector subscript out of range") w
      end.

Lemma region_loop val off cnt body (pre rest : list float) w :
  writes_val val off body →
  data w = pre ++ rest →
  length pre = off →
  (cnt ≤ length rest)%nat →
  (∀ ii, (ii < cnt)%nat → is_Some (val ii)) →
  for_range cnt 0 body w
  = Ok tt {| data := pre ++ written val cnt ++ drop cnt rest |}.
Proof.
  intros Hbody Hd Hpre Hcnt Hval.
  destruct (for_range_inv
    (λ j w', data w' = pre ++ written val j ++ drop j rest) body cnt 0%nat w)
    as (w' & Hrun & Hw').
  - rewrite Hd. reflexivity.
  - intros j t Hj Ht. rewrite Hbody.
    destruct (Hval j) as [v Hv]; [lia |]. rewrite Hv.
    eexists. split; [reflexivity |]. simpl.
    rewrite Ht, <- Hpre. apply insert_written; [lia | assumption].
  - rewrite Hrun. f_equal. destruct w' as [d']. simpl in Hw'.
    rewrite Hw'. reflexivity.
Qed.

Lemma region_loop_halts val off cnt body (pre rest : list float) w k :
  writes_val val off body →
  data w = pre ++ rest →
  length pre = off →
  (cnt ≤ length rest)%nat →
  (k < cnt)%nat →
  (∀ ii, (ii < k)%nat → is_Some (val ii)) →
  val k = None →
  ∃ w', for_range cnt 0 body w
        = Halt (Undefined "vector subscript out of range") w'.
Proof.
  intros Hbody Hd Hpre Hcnt Hk Hval Hnone.
  apply (for_range_halts
    (λ j w', data w' = pre ++ written val j ++ drop j rest) body cnt 0%nat w k).
  - rewrite Hd. reflexivity.
  - lia.
  - intros j t Hj Ht. rewrite Hbody.
    destruct (Hval j) as [v Hv]; [lia |]. rewrite Hv.
    eexists. split; [reflexivity |]. simpl.
    rewrite Ht, <- Hpre. apply insert_written; [lia | assumption].
  - intros t _. rewrite Hbody, Hnone. eexists. reflexivity.
Qed.

(** What each of the three kinds of loop writes. *)
Definition val_verbatim (src : list float) (ii : nat) : option float := src !! ii.
Definition val_pad_counter (src : list float) (ii : nat) : option float :=
  if decide ((ii + 1) mod 4 = 0)%nat then Some F32.zero else src !! (ii - ii / 4)%nat.
Definition val_pad_index (src : list float) (ii : nat) : option float :=
  if decide ((ii + 1) mod 4 = 0)%nat then Some F32.zero else src !! ii.

Lemma copy_verbatim_writes offset src :
  writes_val (val_verbatim src) offset
    (λ ii, v ← vec_at src ii; data_set (offset + ii) v).
Proof.
  intros ii w. unfold val_verbatim, vec_at, mbind, M_bind, bind, data_set, modify.
  destruct (src !! ii); reflexivity.
Qed.

Lemma pad_bias_2_writes src :
  writes_val (val_pad_index src)
    (WEIGHTS_0_COUNT + WEIGHTS_1_COUNT + WEIGHTS_2_COUNT + BIAS_0_COUNT + BIAS_1_COUNT)
    (λ ii,
      if decide ((ii + 1) mod 4 = 0)%nat then
        data_set (WEIGHTS_0_COUNT + WEIGHTS_1_COUNT + WEIGHTS_2_COUNT +
                  BIAS_0_COUNT + BIAS_1_COUNT + ii) F32.zero
      else
        v ← vec_at src ii;
        data_set (WEIGHTS_0_COUNT + WEIGHTS_1_COUNT + WEIGHTS_2_COUNT +
                  BIAS_0_COUNT + BIAS_1_COUNT + ii) v).
Proof.
  intros ii w. unfold val_pad_index.
  destruct (decide ((ii + 1) mod 4 = 0)%nat); [reflexivity |].
  unfold vec_at, mbind, M_bind, bind, data_set, modify.
  destruct (src !! ii); reflexivity.
Qed.

Lemma copy_verbatim_spec count offset src (pre rest : list float) w :
  data w = pre ++ rest →
  length pre = offset →
  (count ≤ length rest)%nat →
  (count ≤ length src)%nat →
  copy_verbatim count offset src w
  = Ok tt {| data := pre ++ written (val_verbatim src) count ++ drop count rest |}.
Proof.
  intros Hd Hpre Hrest Hsrc. unfold copy_verbatim.
  eapply region_loop; [apply copy_verbatim_writes | assumption .. |].
  - intros ii Hii. apply lookup_lt_is_Some_2. lia.
Qed.

Lemma pad_bias_2_spec src (pre rest : list float) w :
  data w = pre ++ rest →
  length pre = (WEIGHTS_0_COUNT + WEIGHTS_1_COUNT + WEIGHTS_2_COUNT
                + BIAS_0_COUNT + BIAS_1_COUNT)%nat →
  (BIAS_2_COUNT ≤ length rest)%nat →
  (∀ ii, (ii < BIAS_2_COUNT)%nat → ((ii + 1) mod 4 ≠ 0)%nat → (ii < length src)%nat) →
  pad_bias_2 src w
  = Ok tt {| data := pre ++ written (val_pad_index src) BIAS_2_COUNT
                     ++ drop BIAS_2_COUNT rest |}.
Proof.
  intros Hd Hpre Hrest Hsrc. unfold pad_bias_2.
  eapply region_loop; [apply pad_bias_2_writes | assumption .. |].
  - intros ii Hii. unfold val_pad_index.
    destruct (decide ((ii + 1) mod 4 = 0)%nat); [eexists; reflexivity |].
    apply lookup_lt_is_Some_2, Hsrc; assumption.
Qed.

(** The weights loop keeps, besides the written part, its counter: before
    iteration [ii] it has consumed [ii - ii / 4] source elements. *)
Lemma pad_weights_2_spec src (pre rest : list float) w :
  data w = pre ++ rest →
  length pre = (WEIGHTS_0_COUNT + WEIGHTS_1_COUNT)%nat →
  (WEIGHTS_2_COUNT ≤ length rest)%nat →
  (WEIGHTS_2_COUNT - WEIGHTS_2_COUNT / 4 ≤ length src)%nat →
  pad_weights_2 src w
  = Ok tt {| data := pre ++ written (val_pad_counter src) WEIGHTS_2_COUNT
                     ++ drop WEIGHTS_2_COUNT rest |}.
Proof.
  intros Hd Hpre Hrest Hsrc. unfold pad_weights_2.
  match goal with |- context [for_range _ _ ?b _] => set (body := b) end.
  destruct (for_range_inv
    (λ j '(w', c), c = (j - j / 4)%nat ∧
       data w' = pre ++ written (val_pad_counter src) j ++ drop j rest)
    body WEIGHTS_2_COUNT 0%nat (w, 0%nat)) as ([w' c] & Hrun & Hc & Hw').
  - split; [reflexivity | rewrite Hd; reflexivity].
  - intros j [t c] Hj [Hc Ht]. subst body. cbv beta.
    destruct (decide ((j + 1) mod 4 = 0)%nat) as [Hpad|Hpad].
    + eexists (_, _). split; [reflexivity |]. split; [clear -Hc Hpad; dlia |]. cbn [data].
      rewrite Ht, <- Hpre. apply insert_written; [lia |].
      unfold val_pad_counter. rewrite decide_True by assumption. reflexivity.
    + assert (c < length src)%nat as Hlt by (clear -Hc Hpad Hj Hsrc; dlia).
      destruct (lookup_lt_is_Some_2 src c Hlt) as [v Hv].
      unfold mbind, M_bind, bind, get, vec_at, modify. rewrite Hv.
      eexists (_, _). split; [reflexivity |]. split; [clear -Hc Hpad; dlia |]. cbn [data].
      rewrite Ht, <- Hpre. apply insert_written; [lia |].
      unfold val_pad_counter. rewrite decide_False by assumption.
      rewrite <- Hc. exact Hv.
  - rewrite Hrun. f_equal. destruct w' as [d']. simpl in Hw'. rewrite Hw'.
    reflexivity.
Qed.
End MLPFacts.

(** *** The packed buffer *)

(** The padding rule in the words of the specification: a zero after every
    three source elements, and its inverse, which drops every 4th element. *)
Fixpoint insert_zero_every_4th (src : list float) : list float :=
  match src with
  | a :: b :: c :: rest => a :: b :: c :: F32.zero :: insert_zero_every_4th rest
  | _ => src
  end.

Fixpoint drop_every_4th (l : list float) : list float :=
  match l with
  | a :: b :: c :: _ :: rest => a :: b :: c :: drop_every_4th rest
  | _ => l
  end.

(** Induction on lists three elements at a time. *)
Lemma list_ind3 {A} (P : list A → Prop) :
  P [] → (∀ a, P [a]) → (∀ a b, P [a; b]) →
  (∀ a b c l, P l → P (a :: b :: c :: l)) →
  ∀ l, P l.
Proof.
  intros H0 H1 H2 H3.
  assert (∀ l, P l ∧ (∀ a, P (a :: l)) ∧ (∀ a b, P (a :: b :: l))) as Hall.
  { induction l as [|x l (IH0 & IH1 & IH2)]; [auto |].
    split; [apply IH1 |]. split; [intros a; apply IH2 |].
    intros a b. apply H3, IH0. }
  intros l. apply Hall.
Qed.

Lemma drop_insert_every_4th (src : list float) :
  drop_every_4th (insert_zero_every_4th src) = src.
Proof.
  induction src as [| | |a b c l IH] using list_ind3; try reflexivity.
  simpl. rewrite IH. reflexivity.
Qed.

Lemma insert_zero_every_4th_length (src : list float) k :
  length src = (3 * k)%nat → length (insert_zero_every_4th src) = (4 * k)%nat.
Proof.
  revert k. induction src as [| | |a b c l IH] using list_ind3; intros k Hk;
    simpl in *; try lia.
  destruct k as [|k]; [lia |]. rewrite (IH k) by lia. lia.
Qed.

Lemma drop_every_4th_length (l : list float) :
  (length (drop_every_4th l) ≤ length l)%nat.
Proof.
  assert (∀ n l, (length l ≤ n)%nat → (length (drop_every_4th l) ≤ length l)%nat) as Hn.
  { clear l. induction n as [|n IH]; intros l Hl.
    - destruct l; simpl in *; lia.
    - destruct l as [|a [|b [|c [|d l]]]]; simpl in *; try lia.
      specialize (IH l). lia. }
  apply (Hn (length l)). lia.
Qed.

Section Packed.
Context `{NerfHeader}.

(** Every read of the six loops is within its source array. *)
Definition reads_in_range (a : MLPArrays) : Prop :=
  (WEIGHTS_0_COUNT ≤ length (weights_0_array a))%nat ∧
  (WEIGHTS_1_COUNT ≤ length (weights_1_array a))%nat ∧
  (WEIGHTS_2_COUNT - WEIGHTS_2_COUNT / 4 ≤ length (weights_2_array a))%nat ∧
  (BIAS_0_COUNT ≤ length (bias_0_array a))%nat ∧
  (BIAS_1_COUNT ≤ length (bias_1_array a))%nat ∧
  (∀ ii, (ii < BIAS_2_COUNT)%nat → ((ii + 1) mod 4 ≠ 0)%nat →
         (ii < length (bias_2_array a))%nat).

(** The buffer the six loops leave. *)
Definition packed (a : MLPArrays) : list float :=
  written (val_verbatim (weights_0_array a)) WEIGHTS_0_COUNT ++
  written (val_verbatim (weights_1_array a)) WEIGHTS_1_COUNT ++
  written (val_pad_counter (weights_2_array a)) WEIGHTS_2_COUNT ++
  written (val_verbatim (bias_0_array a)) BIAS_0_COUNT ++
  written (val_verbatim (bias_1_array a)) BIAS_1_COUNT ++
  written (val_pad_index (bias_2_array a)) BIAS_2_COUNT.

Lemma packed_length a : length (packed a) = MLP_TOTAL.
Proof.
  unfold packed, MLP_TOTAL. rewrite !length_app, !written_length. lia.
Qed.

Lemma pack_mlp_spec a w :
  length (data w) = MLP_TOTAL →
  reads_in_range a →
  pack_mlp a w = Ok tt {| data := packed a |}.
Proof.
  intros Hlen (H0 & H1 & H2 & H3 & H4 & H5).
  unfold MLP_TOTAL in Hlen. unfold pack_mlp, mbind, M_bind.
  set (s0 := written (val_verbatim (weights_0_array a)) WEIGHTS_0_COUNT).
  set (s1 := written (val_verbatim (weights_1_array a)) WEIGHTS_1_COUNT).
  set (s2 := written (val_pad_counter (weights_2_array a)) WEIGHTS_2_COUNT).
  set (s3 := written (val_verbatim (bias_0_array a)) BIAS_0_COUNT).
  set (s4 := written (val_verbatim (bias_1_array a)) BIAS_1_COUNT).
  set (s5 := written (val_pad_index (bias_2_array a)) BIAS_2_COUNT).
  assert (length s0 = WEIGHTS_0_COUNT) as L0 by apply written_length.
  assert (length s1 = WEIGHTS_1_COUNT) as L1 by apply written_length.
  assert (length s2 = WEIGHTS_2_COUNT) as L2 by apply written_length.
  assert (length s3 = BIAS_0_COUNT) as L3 by apply written_length.
  assert (length s4 = BIAS_1_COUNT) as L4 by apply written_length.
  set (r0 := data w) in *.
  set (r1 := drop WEIGHTS_0_COUNT r0).
  set (r2 := drop WEIGHTS_1_COUNT r1).
  set (r3 := drop WEIGHTS_2_COUNT r2).
  set (r4 := drop BIAS_0_COUNT r3).
  set (r5 := drop BIAS_1_COUNT r4).
  assert (length r1 = length r0 - WEIGHTS_0_COUNT)%nat as R1 by apply length_drop.
  assert (length r2 = length r1 - WEIGHTS_1_COUNT)%nat as R2 by apply length_drop.
  assert (length r3 = length r2 - WEIGHTS_2_COUNT)%nat as R3 by apply length_drop.
  assert (length r4 = length r3 - BIAS_0_COUNT)%nat as R4 by apply length_drop.
  assert (length r5 = length r4 - BIAS_1_COUNT)%nat as R5 by apply length_drop.
  erewrite bind_Ok;
    [| apply (copy_verbatim_spec _ _ _ [] r0); [reflexivity | reflexivity | lia | lia]].
  erewrite bind_Ok;
    [| apply (copy_verbatim_spec _ _ _ s0 r1); [reflexivity | lia | lia | lia]].
  erewrite bind_Ok;
    [| apply (pad_weights_2_spec _ (s0 ++ s1) r2);
       [cbn [data]; rewrite <- app_assoc; reflexivity
       | rewrite length_app; lia | lia | lia]].
  erewrite bind_Ok;
    [| apply (copy_verbatim_spec _ _ _ ((s0 ++ s1) ++ s2) r3);
       [cbn [data]; rewrite <- !app_assoc; reflexivity
       | rewrite !length_app; lia | lia | lia]].
  erewrite bind_Ok;
    [| apply (copy_verbatim_spec _ _ _ (((s0 ++ s1) ++ s2) ++ s3) r4);
       [cbn [data]; rewrite <- !app_assoc; reflexivity
       | rewrite !length_app; lia | lia | lia]].
  rewrite (pad_bias_2_spec _ ((((s0 ++ s1) ++ s2) ++ s3) ++ s4) r5);
    [| cbn [data]; rewrite <- !app_assoc; reflexivity
     | rewrite !length_app; lia | lia | assumption].
  rewrite (drop_ge r5) by lia.
  unfold packed. fold s0 s1 s2 s3 s4 s5.
  rewrite app_nil_r, <- !app_assoc. reflexivity.
Qed.

(** The loops stop with an undefined read as soon as a source array is too
    short; here, the layer-2 weights. *)
Lemma pad_weights_2_short src (pre rest : list float) w :
  data w = pre ++ rest →
  length pre = (WEIGHTS_0_COUNT + WEIGHTS_1_COUNT)%nat →
  (WEIGHTS_2_COUNT ≤ length rest)%nat →
  (length src < WEIGHTS_2_COUNT - WEIGHTS_2_COUNT / 4)%nat →
  ∃ w', pad_weights_2 src w = Halt (Undefined "vector subscript out of range") w'.
Proof.
  intros Hd Hpre Hrest Hsrc. unfold pad_weights_2.
  match goal with |- context [for_range _ _ ?b _] => set (body := b) end.
  set (k := (length src + length src / 3)%nat).
  destruct (for_range_halts
    (λ j '(w', c), c = (j - j / 4)%nat ∧
       data w' = pre ++ written (val_pad_counter src) j ++ drop j rest)
    body WEIGHTS_2_COUNT 0%nat (w, 0%nat) k
    (Undefined "vector subscript out of range")) as ([w' c] & Hrun).
  - split; [reflexivity | rewrite Hd; reflexivity].
  - subst k. clear -Hsrc. dlia.
  - intros j [t c] Hj [Hc Ht]. subst body. cbv beta.
    destruct (decide ((j + 1) mod 4 = 0)%nat) as [Hpad|Hpad].
    + eexists (_, _). split; [reflexivity |]. split; [clear -Hc Hpad; dlia |]. cbn [data].
      rewrite Ht, <- Hpre. apply insert_written; [subst k; clear -Hj Hsrc Hrest; dlia |].
      unfold val_pad_counter. rewrite decide_True by assumption. reflexivity.
    + assert (c < length src)%nat as Hlt by (subst k; clear -Hc Hpad Hj; dlia).
      destruct (lookup_lt_is_Some_2 src c Hlt) as [v Hv].
      unfold mbind, M_bind, bind, get, vec_at, modify. rewrite Hv.
      eexists (_, _). split; [reflexivity |]. split; [clear -Hc Hpad; dlia |]. cbn [data].
      rewrite Ht, <- Hpre. apply insert_written; [subst k; clear -Hj Hsrc Hrest; dlia |].
      unfold val_pad_counter. rewrite decide_False by assumption.
      rewrite <- Hc. exact Hv.
  - intros [t c] [Hc Ht]. subst body. cbv beta.
    rewrite decide_False by (subst k; clear; dlia).
    unfold mbind, M_bind, bind, get, vec_at, modify.
    rewrite (lookup_ge_None_2 src c) by (subst k; clear -Hc; dlia).
    eexists. reflexivity.
  - rewrite Hrun. exists w'. reflexivity.
Qed.

(** The segments of the packed buffer. *)
Definition WEIGHTS_2_OFFSET : nat := WEIGHTS_0_COUNT + WEIGHTS_1_COUNT.
Definition BIAS_0_OFFSET : nat := WEIGHTS_0_COUNT + WEIGHTS_1_COUNT + WEIGHTS_2_COUNT.
Definition BIAS_1_OFFSET : nat := BIAS_0_OFFSET + BIAS_0_COUNT.
Definition BIAS_2_OFFSET : nat := BIAS_1_OFFSET + BIAS_1_COUNT.

Lemma segment_app (pre s post : list float) off cnt :
  length pre = off → length s = cnt → segment off cnt (pre ++ s ++ post) = s.
Proof.
  intros Hpre Hs. unfold segment.
  rewrite drop_app_length' by (symmetry; assumption).
  apply take_app_length'. symmetry. assumption.
Qed.

Lemma packed_segments a :
  segment 0 WEIGHTS_0_COUNT (packed a)
    = written (val_verbatim (weights_0_array a)) WEIGHTS_0_COUNT ∧
  segment WEIGHTS_0_COUNT WEIGHTS_1_COUNT (packed a)
    = written (val_verbatim (weights_1_array a)) WEIGHTS_1_COUNT ∧
  segment WEIGHTS_2_OFFSET WEIGHTS_2_COUNT (packed a)
    = written (val_pad_counter (weights_2_array a)) WEIGHTS_2_COUNT ∧
  segment BIAS_0_OFFSET BIAS_0_COUNT (packed a)
    = written (val_verbatim (bias_0_array a)) BIAS_0_COUNT ∧
  segment BIAS_1_OFFSET BIAS_1_COUNT (packed a)
    = written (val_verbatim (bias_1_array a)) BIAS_1_COUNT ∧
  segment BIAS_2_OFFSET BIAS_2_COUNT (packed a)
    = written (val_pad_index (bias_2_array a)) BIAS_2_COUNT.
Proof.
  unfold packed, WEIGHTS_2_OFFSET, BIAS_2_OFFSET, BIAS_1_OFFSET, BIAS_0_OFFSET.
  set (s0 := written _ WEIGHTS_0_COUNT).
  set (s1 := written _ WEIGHTS_1_COUNT).
  set (s2 := written _ WEIGHTS_2_COUNT).
  set (s3 := written _ BIAS_0_COUNT).
  set (s4 := written _ BIAS_1_COUNT).
  set (s5 := written _ BIAS_2_COUNT).
  assert (length s0 = WEIGHTS_0_COUNT) as L0 by apply written_length.
  assert (length s1 = WEIGHTS_1_COUNT) as L1 by apply written_length.
  assert (length s2 = WEIGHTS_2_COUNT) as L2 by apply written_length.
  assert (length s3 = BIAS_0_COUNT) as L3 by apply written_length.
  assert (length s4 = BIAS_1_COUNT) as L4 by apply written_length.
  assert (length s5 = BIAS_2_COUNT) as L5 by apply written_length.
  repeat split.
  - apply (segment_app [] s0); [reflexivity | assumption].
  - apply (segment_app s0 s1); assumption.
  - rewrite (app_assoc s0 s1). apply segment_app; [rewrite length_app; lia | assumption].
  - rewrite (app_assoc s0 s1), (app_assoc _ s2).
    apply segment_app; [rewrite !length_app; lia | assumption].
  - rewrite (app_assoc s0 s1), (app_assoc _ s2), (app_assoc _ s3).
    apply segment_app; [rewrite !length_app; lia | assumption].
  - rewrite (app_assoc s0 s1), (app_assoc _ s2), (app_assoc _ s3), (app_assoc _ s4).
    rewrite <- (app_nil_r s5) at 1.
    apply segment_app; [rewrite !length_app; lia | assumption].
Qed.

(** A verbatim copy of [count] elements is the first [count] elements. *)
Lemma written_verbatim src count :
  (count ≤ length src)%nat → written (val_verbatim src) count = take count src.
Proof.
  intros Hc. apply list_eq. intros i.
  destruct (decide (i < count)%nat) as [Hi|Hi].
  - rewrite written_lookup, lookup_take_lt by assumption.
    unfold val_verbatim.
    destruct (lookup_lt_is_Some_2 src i) as [x ->]; [lia | reflexivity].
  - rewrite lookup_take_ge by lia.
    apply lookup_ge_None_2. rewrite written_length. lia.
Qed.

(** With a source of [3 k] elements, the counter loop over [4 k]
    positions computes the padding rule of the specification. *)
Lemma written_pad_counter_shift (pre src : list float) m cnt :
  length pre = (3 * m)%nat →
  map (λ ii, default F32.zero (val_pad_counter (pre ++ src) ii)) (seq (4 * m) cnt)
  = map (λ ii, default F32.zero (val_pad_counter src ii)) (seq 0 cnt).
Proof.
  intros Hpre. apply list_eq. intros i.
  rewrite !list_lookup_fmap.
  destruct (decide (i < cnt)%nat) as [Hi|Hi].
  - rewrite !lookup_seq_lt by assumption.
    unfold fmap, option_fmap, option_map. rewrite Nat.add_0_l. f_equal.
    unfold val_pad_counter.
    destruct (decide ((4 * m + i + 1) mod 4 = 0)%nat) as [Hp|Hp];
      destruct (decide ((i + 1) mod 4 = 0)%nat) as [Hq|Hq];
      try reflexivity; try (exfalso; clear -Hp Hq; dlia).
    replace (4 * m + i - (4 * m + i) / 4)%nat with (length pre + (i - i / 4))%nat
      by (clear -Hpre Hq; dlia).
    rewrite lookup_app_r by lia.
    replace (length pre + (i - i / 4) - length pre)%nat with (i - i / 4)%nat by lia.
    reflexivity.
  - rewrite !lookup_seq_ge by lia. reflexivity.
Qed.

Lemma written_pad_counter src k :
  length src = (3 * k)%nat →
  written (val_pad_counter src) (4 * k) = insert_zero_every_4th src.
Proof.
  revert k. induction src as [| | |a b c l IH] using list_ind3; intros k Hk.
  - destruct k; [reflexivity | simpl in Hk; lia].
  - simpl in Hk. lia.
  - simpl in Hk. lia.
  - destruct k as [|k]; [simpl in Hk; lia |].
    assert (length l = (3 * k)%nat) as Hl by (simpl in Hk; lia).
    replace (4 * S k)%nat with (4 + 4 * k)%nat by lia.
    unfold written. rewrite seq_app, map_app.
    change (seq 0 4) with [0; 1; 2; 3]%nat.
    change (0 + 4)%nat with (4 * 1)%nat.
    rewrite (written_pad_counter_shift [a; b; c] l 1) by reflexivity.
    fold (written (val_pad_counter l) (4 * k)).
    rewrite (IH k) by assumption. reflexivity.
Qed.
End Packed.

(** *** The claims about the packed buffer *)

(** The layer-2 rule as the specification words it, for a source array
    [src] and the segment [out] it is packed into: [out] has
    [L + ceil(L/3)] elements, every 4th of them (counting from 1) is zero,
    and the source elements sit, in their order, at the other positions. *)
Definition layer2_rule (src out : list float) : Prop :=
  length out = (length src + (length src + 2) / 3)%nat ∧
  (∀ i, (i < length out)%nat → ((i + 1) mod 4 = 0)%nat → out !! i = Some F32.zero) ∧
  (∀ j x, src !! j = Some x → out !! (j + j / 3)%nat = Some x).

(** Two headers to run the packer with. The first has the layer-2 counts
    that lines 1318-1329 check against, 48 weights padded with 16 zeros and
    3 biases padded with one; the second is small enough for the example of
    the specification, six layer-2 weights. *)
Definition mobile_nerf_h : NerfHeader :=
  {| WEIGHTS_0_COUNT := 176; WEIGHTS_1_COUNT := 256; WEIGHTS_2_COUNT := 64;
     BIAS_0_COUNT := 16; BIAS_1_COUNT := 16; BIAS_2_COUNT := 4 |}.

Definition small_h : NerfHeader :=
  {| WEIGHTS_0_COUNT := 2; WEIGHTS_1_COUNT := 2; WEIGHTS_2_COUNT := 8;
     BIAS_0_COUNT := 1; BIAS_1_COUNT := 1; BIAS_2_COUNT := 4 |}.

(** The floats 1.0f, 2.0f, ... *)
Definition floats (zs : list Z) : list float := map F32.of_int zs.

Definition small_arrays : MLPArrays :=
  {| weights_0_array := floats [11; 12]; bias_0_array := floats [31];
     weights_1_array := floats [21; 22]; bias_1_array := floats [41];
     weights_2_array := floats [1; 2; 3; 4; 5; 6];
     bias_2_array := floats [7; 8; 9] |}.

(** Arrays of the expected counts, except that the layer-0 weights have
    [extra_0] more elements and the layer-2 weights [extra_2] more. *)
Definition arrays_with_extra `{NerfHeader} (extra_0 extra_2 : nat) : MLPArrays :=
  {| weights_0_array := replicate (WEIGHTS_0_COUNT + extra_0) F32.zero;
     bias_0_array := replicate BIAS_0_COUNT F32.zero;
     weights_1_array := replicate WEIGHTS_1_COUNT F32.zero;
     bias_1_array := replicate BIAS_1_COUNT F32.zero;
     weights_2_array := replicate (WEIGHTS_2_COUNT + extra_2) F32.zero;
     bias_2_array := replicate BIAS_2_COUNT F32.zero |}.

Section PackedClaims.
Context `{NerfHeader}.

Lemma arrays_with_extra_in_range e0 e2 : reads_in_range (arrays_with_extra e0 e2).
Proof.
  unfold reads_in_range, arrays_with_extra. simpl.
  rewrite !length_replicate. repeat split; try lia.
Qed.

Lemma MLP_Weights_zero_length : length (data MLP_Weights_zero) = MLP_TOTAL.
Proof. apply length_replicate. Qed.

(** Whatever writes zero at every 4th position of [4 k] and the source
    elements, through the counter, at the others follows the rule. *)
Lemma layer2_rule_written val src k :
  length src = (3 * k)%nat →
  (∀ i, (i < 4 * k)%nat → val i = val_pad_counter src i) →
  layer2_rule src (written val (4 * k)).
Proof.
  intros Hsrc Hval. unfold layer2_rule. rewrite written_length.
  split; [clear -Hsrc; dlia |]. split.
  - intros i Hi Hpad. rewrite written_lookup, Hval by assumption.
    unfold val_pad_counter. rewrite decide_True by assumption. reflexivity.
  - intros j x Hj. pose proof (lookup_lt_Some _ _ _ Hj) as Hlt.
    assert (j + j / 3 < 4 * k)%nat as Hi by (clear -Hlt Hsrc; dlia).
    rewrite written_lookup, Hval by assumption.
    unfold val_pad_counter. rewrite decide_False by (clear; dlia).
    replace (j + j / 3 - (j + j / 3) / 4)%nat with j by (clear; dlia).
    rewrite Hj. reflexivity.
Qed.

(** With one padded group, taking the source at the position's own index
    is the same as taking it through a counter. *)
Lemma val_pad_index_counter src i :
  (i < 4)%nat → val_pad_index src i = val_pad_counter src i.
Proof.
  intros Hi. unfold val_pad_index, val_pad_counter.
  destruct (decide ((i + 1) mod 4 = 0)%nat); [reflexivity |].
  replace (i - i / 4)%nat with i by (clear -Hi; dlia). reflexivity.
Qed.

Lemma written_pad_index_4 src :
  length src = 3%nat →
  written (val_pad_index src) 4 = insert_zero_every_4th src.
Proof.
  intros Hsrc. destruct src as [|x [|y [|z [|]]]]; try discriminate.
  reflexivity.
Qed.

(** With more than one group the two differ: the bias loop skips the
    source element that sits at the index of each padding position. *)
Lemma val_pad_index_skips src :
  val_pad_index src 4 = src !! 4%nat ∧ val_pad_counter src 4 = src !! 3%nat.
Proof. split; reflexivity. Qed.

(** C1 (as amended): for every description whose arrays are long enough to
    be read and whose layer-2 weights have the [3 k] elements that the
    fixed segment of [WEIGHTS_2_COUNT = 4 k] holds, and whose layer-2 bias
    has 3 elements for a segment of [BIAS_2_COUNT = 4], the packer returns,
    and each of the two layer-2 segments has [L + ceil(L/3)] elements,
    zero at every 4th position and the source elements in their order at
    the other positions: it is the source with a zero inserted after
    every three elements. *)
Theorem layer_2_padding_rule (a : MLPArrays) (w : MLP_Weights) (k : nat) :
  length (data w) = MLP_TOTAL →
  reads_in_range a →
  WEIGHTS_2_COUNT = (4 * k)%nat →
  length (weights_2_array a) = (3 * k)%nat →
  BIAS_2_COUNT = 4%nat →
  length (bias_2_array a) = 3%nat →
  ∃ w', pack_mlp a w = Ok tt w' ∧
    let out_w := segment WEIGHTS_2_OFFSET WEIGHTS_2_COUNT (data w') in
    let out_b := segment BIAS_2_OFFSET BIAS_2_COUNT (data w') in
    layer2_rule (weights_2_array a) out_w ∧
    layer2_rule (bias_2_array a) out_b ∧
    out_w = insert_zero_every_4th (weights_2_array a) ∧
    out_b = insert_zero_every_4th (bias_2_array a).
Proof.
  intros Hlen Hrange Hw2 Hsrc Hb2 Hbias.
  exists {| data := packed a |}. split; [apply pack_mlp_spec; assumption |].
  cbn [data].
  destruct (packed_segments a) as (_ & _ & -> & _ & _ & ->).
  rewrite Hw2, Hb2.
  split; [apply layer2_rule_written; [assumption | reflexivity] |].
  split; [apply (layer2_rule_written _ _ 1);
          [assumption | intros i Hi; apply val_pad_index_counter; lia] |].
  split; [apply written_pad_counter; assumption |].
  apply written_pad_index_4; assumption.
Qed.

(** C5 (as amended): for every description whose arrays are long enough to
    be read and whose layer-2 arrays have the element counts the fixed
    segments hold ([3 k] weights for [WEIGHTS_2_COUNT = 4 k], 3 biases for
    [BIAS_2_COUNT = 4]), dropping every 4th element of a packed layer-2
    segment gives back the source array. *)
Theorem layer_2_round_trip (a : MLPArrays) (w : MLP_Weights) (k : nat) :
  length (data w) = MLP_TOTAL →
  reads_in_range a →
  WEIGHTS_2_COUNT = (4 * k)%nat →
  length (weights_2_array a) = (3 * k)%nat →
  BIAS_2_COUNT = 4%nat →
  length (bias_2_array a) = 3%nat →
  ∃ w', pack_mlp a w = Ok tt w' ∧
    drop_every_4th (segment WEIGHTS_2_OFFSET WEIGHTS_2_COUNT (data w'))
      = weights_2_array a ∧
    drop_every_4th (segment BIAS_2_OFFSET BIAS_2_COUNT (data w'))
      = bias_2_array a.
Proof.
  intros Hlen Hrange Hw2 Hsrc Hb2 Hbias.
  exists {| data := packed a |}. split; [apply pack_mlp_spec; assumption |].
  cbn [data].
  destruct (packed_segments a) as (_ & _ & -> & _ & _ & ->).
  rewrite Hw2, Hb2.
  rewrite written_pad_counter by assumption.
  rewrite written_pad_index_4 by assumption.
  split; apply drop_insert_every_4th.
Qed.

(** C6 (as amended): for every description whose layer-0 and layer-1
    weight matrices, flattened row by row, and bias vectors have the
    expected element counts (and whose layer-2 arrays are long enough to be
    read), the packer returns and the first four of those arrays are in the
    buffer verbatim: each segment is its source array, element for
    element, nothing inserted, as many elements as the source has. *)
Theorem layers_0_1_verbatim
    (weights_0_array_raw weights_1_array_raw : list (list float))
    (bias_0 bias_1 weights_2 bias_2 : list float) (w : MLP_Weights) :
  let a := {| weights_0_array := concat weights_0_array_raw; bias_0_array := bias_0;
              weights_1_array := concat weights_1_array_raw; bias_1_array := bias_1;
              weights_2_array := weights_2; bias_2_array := bias_2 |} in
  length (data w) = MLP_TOTAL →
  reads_in_range a →
  length (concat weights_0_array_raw) = WEIGHTS_0_COUNT →
  length (concat weights_1_array_raw) = WEIGHTS_1_COUNT →
  length bias_0 = BIAS_0_COUNT →
  length bias_1 = BIAS_1_COUNT →
  ∃ w', pack_mlp a w = Ok tt w' ∧
    segment 0 WEIGHTS_0_COUNT (data w') = concat weights_0_array_raw ∧
    segment WEIGHTS_0_COUNT WEIGHTS_1_COUNT (data w') = concat weights_1_array_raw ∧
    segment BIAS_0_OFFSET BIAS_0_COUNT (data w') = bias_0 ∧
    segment BIAS_1_OFFSET BIAS_1_COUNT (data w') = bias_1 ∧
    length (data w') = length (data w).
Proof.
  intros a Hlen Hrange H0 H1 H2 H3.
  exists {| data := packed a |}. split; [apply pack_mlp_spec; assumption |].
  cbn [data].
  destruct (packed_segments a) as (-> & -> & _ & -> & -> & _).
  rewrite !written_verbatim by (subst a; cbn; lia).
  subst a. cbn [weights_0_array weights_1_array bias_0_array bias_1_array].
  rewrite <- H0 at 1. rewrite <- H1 at 1. rewrite <- H2 at 1. rewrite <- H3 at 1.
  rewrite !firstn_all, packed_length. auto.
Qed.
End PackedClaims.

(** *** The claims as they are stated, and where they fail *)

(** The arrays of the layers 0 and 1 are long enough to be read. *)
Definition layers_0_1_in_range `{NerfHeader} (a : MLPArrays) : Prop :=
  (WEIGHTS_0_COUNT ≤ length (weights_0_array a))%nat ∧
  (WEIGHTS_1_COUNT ≤ length (weights_1_array a))%nat ∧
  (BIAS_0_COUNT ≤ length (bias_0_array a))%nat ∧
  (BIAS_1_COUNT ≤ length (bias_1_array a))%nat.

(** C1 read for every layer-2 source array, whatever its length. *)
Definition layer_2_padding_as_stated (Hd : NerfHeader) : Prop :=
  ∀ (a : MLPArrays) (w : MLP_Weights),
    length (data w) = MLP_TOTAL →
    layers_0_1_in_range a →
    ∃ w', pack_mlp a w = Ok tt w' ∧
      layer2_rule (weights_2_array a)
        (segment WEIGHTS_2_OFFSET WEIGHTS_2_COUNT (data w')) ∧
      layer2_rule (bias_2_array a)
        (segment BIAS_2_OFFSET BIAS_2_COUNT (data w')).

(** C5 read for every layer-2 source array. *)
Definition layer_2_round_trip_as_stated (Hd : NerfHeader) : Prop :=
  ∀ (a : MLPArrays) (w : MLP_Weights),
    length (data w) = MLP_TOTAL →
    layers_0_1_in_range a →
    ∃ w', pack_mlp a w = Ok tt w' ∧
      drop_every_4th (segment WEIGHTS_2_OFFSET WEIGHTS_2_COUNT (data w'))
        = weights_2_array a ∧
      drop_every_4th (segment BIAS_2_OFFSET BIAS_2_COUNT (data w'))
        = bias_2_array a.

(** C6 read for every description. *)
Definition layers_0_1_verbatim_as_stated (Hd : NerfHeader) : Prop :=
  ∀ (a : MLPArrays) (w : MLP_Weights),
    length (data w) = MLP_TOTAL →
    reads_in_range a →
    ∃ w', pack_mlp a w = Ok tt w' ∧
      segment 0 WEIGHTS_0_COUNT (data w') = weights_0_array a ∧
      segment WEIGHTS_0_COUNT WEIGHTS_1_COUNT (data w') = weights_1_array a ∧
      segment BIAS_0_OFFSET BIAS_0_COUNT (data w') = bias_0_array a ∧
      segment BIAS_1_OFFSET BIAS_1_COUNT (data w') = bias_1_array a.

Lemma arrays_with_extra_layers_0_1 `{NerfHeader} e0 e2 :
  layers_0_1_in_range (arrays_with_extra e0 e2).
Proof.
  destruct (arrays_with_extra_in_range e0 e2) as (H0 & H1 & _ & H3 & H4 & _).
  repeat split; assumption.
Qed.

(** The description of the MobileNeRF counts whose layer-2 weights are the
    six-element example of the specification. *)
Definition six_weights : MLPArrays :=
  {| weights_0_array := replicate 176 F32.zero; bias_0_array := replicate 16 F32.zero;
     weights_1_array := replicate 256 F32.zero; bias_1_array := replicate 16 F32.zero;
     weights_2_array := floats [1; 2; 3; 4; 5; 6];
     bias_2_array := floats [7; 8; 9] |}.

(** The same with 49 layer-2 weights, one more than the segment holds. *)
Definition forty_nine_weights : MLPArrays :=
  {| weights_0_array := replicate 176 F32.zero; bias_0_array := replicate 16 F32.zero;
     weights_1_array := replicate 256 F32.zero; bias_1_array := replicate 16 F32.zero;
     weights_2_array := floats (map Z.of_nat (seq 1 49));
     bias_2_array := floats [7; 8; 9] |}.

(** C1 fails as stated. No choice of the counts makes the rule hold for
    every source length: the segment has the fixed length WEIGHTS_2_COUNT.
    With the MobileNeRF counts, the six-element example of the specification
    is not packed at all (the loop reads past its end), and a source of 49
    elements is packed into 64 elements, not into 49 + 17. *)
Lemma layer_2_padding_counterexample :
  (¬ ∃ Hd : NerfHeader, layer_2_padding_as_stated Hd) ∧
  halted (@pack_mlp mobile_nerf_h six_weights (@MLP_Weights_zero mobile_nerf_h))
    = Some (Undefined "vector subscript out of range") ∧
  (∃ w', @pack_mlp mobile_nerf_h forty_nine_weights (@MLP_Weights_zero mobile_nerf_h)
           = Ok tt w' ∧
         length (segment (@WEIGHTS_2_OFFSET mobile_nerf_h) 64 (data w')) = 64%nat ∧
         length (weights_2_array forty_nine_weights) = 49%nat).
Proof.
  split; [| split].
  - intros [Hd Has].
    destruct (Has (arrays_with_extra 0 1) MLP_Weights_zero)
      as (w' & Hrun & (Hlen & _) & _).
    + apply MLP_Weights_zero_length.
    + apply arrays_with_extra_layers_0_1.
    + rewrite pack_mlp_spec in Hrun
        by (apply MLP_Weights_zero_length || apply arrays_with_extra_in_range).
      injection Hrun as <-. cbn [data] in Hlen.
      destruct (packed_segments (arrays_with_extra 0 1)) as (_ & _ & E & _).
      rewrite E, written_length in Hlen. cbn in Hlen.
      rewrite length_replicate in Hlen. clear -Hlen. dlia.
  - vm_compute. reflexivity.
  - eexists. split; [vm_compute; reflexivity |]. split; vm_compute; reflexivity.
Qed.

(** C5 fails as stated. No choice of the counts makes the round trip hold
    for every source array: what does not fit the fixed segment is lost.
    With the MobileNeRF counts, unpacking the packed 49-element source gives
    its first 48 elements only. *)
Lemma layer_2_round_trip_counterexample :
  (¬ ∃ Hd : NerfHeader, layer_2_round_trip_as_stated Hd) ∧
  (∃ w', @pack_mlp mobile_nerf_h forty_nine_weights (@MLP_Weights_zero mobile_nerf_h)
           = Ok tt w' ∧
         drop_every_4th (segment (@WEIGHTS_2_OFFSET mobile_nerf_h) 64 (data w'))
           = take 48 (weights_2_array forty_nine_weights) ∧
         drop_every_4th (segment (@WEIGHTS_2_OFFSET mobile_nerf_h) 64 (data w'))
           ≠ weights_2_array forty_nine_weights).
Proof.
  split.
  - intros [Hd Has].
    destruct (Has (arrays_with_extra 0 1) MLP_Weights_zero)
      as (w' & Hrun & Hrt & _).
    + apply MLP_Weights_zero_length.
    + apply arrays_with_extra_layers_0_1.
    + rewrite pack_mlp_spec in Hrun
        by (apply MLP_Weights_zero_length || apply arrays_with_extra_in_range).
      injection Hrun as <-. cbn [data] in Hrt.
      destruct (packed_segments (arrays_with_extra 0 1)) as (_ & _ & E & _).
      rewrite E in Hrt.
      pose proof (drop_every_4th_length
        (written (val_pad_counter (weights_2_array (arrays_with_extra 0 1)))
           WEIGHTS_2_COUNT)) as Hle.
      rewrite Hrt, written_length in Hle. cbn in Hle.
      rewrite length_replicate in Hle. lia.
  - eexists. split; [vm_compute; reflexivity |].
    split; [vm_compute; reflexivity |].
    intros Heq. apply (f_equal length) in Heq. vm_compute in Heq. discriminate.
Qed.

(** C6 fails as stated. No choice of the counts makes the copy verbatim for
    every description: a layer-0 weight array with one element more than
    the expected count loses its last element. With the small header, the
    three weights 11, 12, 13 are packed as 11, 12. *)
Lemma layers_0_1_verbatim_counterexample :
  (¬ ∃ Hd : NerfHeader, layers_0_1_verbatim_as_stated Hd) ∧
  (let a := {| weights_0_array := floats [11; 12; 13]; bias_0_array := floats [31];
               weights_1_array := floats [21; 22]; bias_1_array := floats [41];
               weights_2_array := floats [1; 2; 3; 4; 5; 6];
               bias_2_array := floats [7; 8; 9] |} in
   ∃ w', @pack_mlp small_h a (@MLP_Weights_zero small_h) = Ok tt w' ∧
         segment 0 2 (data w') = floats [11; 12] ∧
         segment 0 2 (data w') ≠ weights_0_array a).
Proof.
  split.
  - intros [Hd Has].
    destruct (Has (arrays_with_extra 1 0) MLP_Weights_zero)
      as (w' & Hrun & Hseg & _).
    + apply MLP_Weights_zero_length.
    + apply arrays_with_extra_in_range.
    + rewrite pack_mlp_spec in Hrun
        by (apply MLP_Weights_zero_length || apply arrays_with_extra_in_range).
      injection Hrun as <-. cbn [data] in Hseg.
      destruct (packed_segments (arrays_with_extra 1 0)) as (E & _).
      rewrite E in Hseg. apply (f_equal length) in Hseg.
      rewrite written_length in Hseg. cbn in Hseg.
      rewrite length_replicate in Hseg. lia.
  - eexists. split; [vm_compute; reflexivity |].
    split; [vm_compute; reflexivity |]. vm_compute. discriminate.
Qed.

(** The theorems at the example of the specification: the source 1, ..., 6
    is packed as 1, 2, 3, 0, 4, 5, 6, 0. *)
Lemma small_arrays_in_range : @reads_in_range small_h small_arrays.
Proof.
  unfold reads_in_range. cbn. repeat split; try lia.
  intros ii Hlt Hpad. destruct ii as [|[|[|[|ii]]]]; cbn in *; lia.
Qed.

Lemma layer_2_padding_rule_witness :
  ∃ w', @pack_mlp small_h small_arrays (@MLP_Weights_zero small_h) = Ok tt w' ∧
    segment (@WEIGHTS_2_OFFSET small_h) 8 (data w') = floats [1; 2; 3; 0; 4; 5; 6; 0] ∧
    segment (@BIAS_2_OFFSET small_h) 4 (data w') = floats [7; 8; 9; 0].
Proof.
  destruct (@layer_2_padding_rule small_h small_arrays (@MLP_Weights_zero small_h) 2)
    as (w' & Hrun & _ & _ & Hw & Hb);
    [reflexivity | exact small_arrays_in_range
    | reflexivity | reflexivity | reflexivity | reflexivity |].
  exists w'. split; [exact Hrun |].
  split; [exact Hw | exact Hb].
Defined.

Lemma layer_2_round_trip_witness :
  ∃ w', @pack_mlp small_h small_arrays (@MLP_Weights_zero small_h) = Ok tt w' ∧
    drop_every_4th (segment (@WEIGHTS_2_OFFSET small_h) 8 (data w'))
      = floats [1; 2; 3; 4; 5; 6] ∧
    drop_every_4th (segment (@BIAS_2_OFFSET small_h) 4 (data w')) = floats [7; 8; 9].
Proof.
  apply (@layer_2_round_trip small_h small_arrays (@MLP_Weights_zero small_h) 2);
    [reflexivity | exact small_arrays_in_range
    | reflexivity | reflexivity | reflexivity | reflexivity].
Defined.

Lemma layers_0_1_verbatim_witness :
  ∃ w', @pack_mlp small_h small_arrays (@MLP_Weights_zero small_h) = Ok tt w' ∧
    segment 0 2 (data w') = floats [11; 12] ∧
    segment 2 2 (data w') = floats [21; 22] ∧
    segment 12 1 (data w') = floats [31] ∧
    segment 13 1 (data w') = floats [41] ∧
    length (data w') = 18%nat.
Proof.
  apply (@layers_0_1_verbatim small_h
           [floats [11]; floats [12]] [floats [21; 22]]
           (floats [31]) (floats [41]) (floats [1; 2; 3; 4; 5; 6]) (floats [7; 8; 9])
           (@MLP_Weights_zero small_h));
    [reflexivity | exact small_arrays_in_range
    | reflexivity | reflexivity | reflexivity | reflexivity].
Defined.

(** *** The count checks of [initialize_mlp_uniform_buffers] *)

(** A computation that, if it halts at all, halts on an undefined read:
    it calls no [exit], fails no [assert] and throws nothing. *)
Definition only_undefined {St A} (c : M St A) : Prop :=
  ∀ s, halted (c s) = None ∨ ∃ m, halted (c s) = Some (Undefined m).

Lemma only_undefined_ret {St A} (a : A) : only_undefined (@ret St A a).
Proof. intros s. left. reflexivity. Qed.

Lemma only_undefined_modify {St} (f : St → St) : only_undefined (modify f).
Proof. intros s. left. reflexivity. Qed.

Lemma only_undefined_get {St} : only_undefined (@get St).
Proof. intros s. left. reflexivity. Qed.

Lemma only_undefined_vec_at {St A} (v : list A) i : only_undefined (@vec_at St A v i).
Proof.
  intros s. unfold vec_at. destruct (v !! i); [left | right; eexists]; reflexivity.
Qed.

Lemma only_undefined_bind {St A B} (c : M St A) (k : A → M St B) :
  only_undefined c → (∀ a, only_undefined (k a)) → only_undefined (bind c k).
Proof.
  intros Hc Hk s. unfold bind. specialize (Hc s).
  destruct (c s) as [a s'|h s']; [apply Hk | exact Hc].
Qed.

Lemma only_undefined_for_range {St} (body : nat → M St unit) cnt i :
  (∀ j, only_undefined (body j)) → only_undefined (for_range cnt i body).
Proof.
  intros Hb. revert i. induction cnt as [|cnt IH]; intros i; simpl.
  - apply only_undefined_ret.
  - apply only_undefined_bind; [apply Hb | intros _; apply IH].
Qed.

Create HintDb undef.
#[local] Hint Resolve only_undefined_ret only_undefined_modify only_undefined_get
  only_undefined_vec_at only_undefined_bind only_undefined_for_range : undef.

Section InitFacts.
Context `{NerfHeader}.
Variable env : Env.

Lemma pack_mlp_only_undefined a : only_undefined (pack_mlp a).
Proof.
  assert (∀ cnt off src, only_undefined (copy_verbatim cnt off src)) as Hcopy.
  { intros. unfold copy_verbatim, mbind, M_bind, data_set. auto 6 with undef. }
  assert (∀ src, only_undefined (pad_weights_2 src)) as Hpadw.
  { intros src w. unfold pad_weights_2.
    match goal with |- context [for_range ?c ?i ?b ?s] =>
      assert (only_undefined (for_range c i b)) as Hloop end.
    { apply only_undefined_for_range. intros j.
      destruct (decide ((j + 1) mod 4 = 0)%nat); [auto with undef |].
      unfold mbind, M_bind. apply only_undefined_bind; [auto with undef |].
      intros [w0 c0]. auto 6 with undef. }
    specialize (Hloop (w, 0%nat)).
    destruct (for_range _ _ _ _) as [[] [w' c']|h [w' c']]; exact Hloop. }
  assert (∀ src, only_undefined (pad_bias_2 src)) as Hpadb.
  { intros src. unfold pad_bias_2. apply only_undefined_for_range. intros j.
    destruct (decide ((j + 1) mod 4 = 0)%nat);
      unfold mbind, M_bind, data_set; auto 6 with undef. }
  unfold pack_mlp, mbind, M_bind.
  repeat (apply only_undefined_bind; [auto | intros _]). auto.
Qed.

(** The state after a count check: one more log line, or the same state. *)
Definition log_if (b : bool) (e : log_entry) (s : Nerf) : Nerf :=
  if b then set_log (log s ++ [e]) s else s.

Definition count_differs (size : nat) (expected : Z) : Prop :=
  Z.of_nat size ≠ to_size_t expected.

Definition mismatch_entry (size : nat) (msg : string) (shown : nat) : log_entry :=
  Log LOGE msg [Z.of_nat size; Z.of_nat shown].

Lemma check_count_run size expected msg shown s :
  check_count size expected msg shown s
  = Ok tt (log_if (bool_decide (count_differs size expected))
                  (mismatch_entry size msg shown) s).
Proof.
  unfold check_count, log_if, count_differs.
  destruct (decide (Z.of_nat size ≠ to_size_t expected)) as [Hd|Hd].
  - rewrite bool_decide_true by assumption. reflexivity.
  - rewrite bool_decide_false by assumption. reflexivity.
Qed.

(** [t] is [s] after some logging and some changes to [models]. *)
Definition later (s t : Nerf) : Prop :=
  mlp_weight_vector t = mlp_weight_vector s ∧ (∀ e, e ∈ log s → e ∈ log t).

Lemma later_refl s : later s s.
Proof. split; [reflexivity | auto]. Qed.

Lemma later_trans s t u : later s t → later t u → later s u.
Proof. intros [H1 H2] [H3 H4]. split; [congruence | auto]. Qed.

Lemma later_log_if b e s : later s (log_if b e s).
Proof.
  unfold log_if. destruct b; [| apply later_refl].
  split; [reflexivity |]. intros e' He'. cbn. apply elem_of_app. left. exact He'.
Qed.

Lemma log_if_logged e s : e ∈ log (log_if true e s).
Proof. cbn. apply elem_of_app. right. apply list_elem_of_singleton. reflexivity. Qed.

Lemma later_set_models v s : later s (set_models v s).
Proof. split; [reflexivity | auto]. Qed.

(** The entries [i .. i + cnt - 1] of [models] changed by [f]. *)
Definition models_updated (f : Model → Model) (i cnt : nat) (ms : list Model)
    : list Model :=
  imap (λ k m, if decide (i ≤ k < i + cnt)%nat then f m else m) ms.

Lemma models_updated_length f i cnt ms :
  length (models_updated f i cnt ms) = length ms.
Proof. apply length_imap. Qed.

Lemma models_updated_step f i j ms m :
  (i ≤ j)%nat → models_updated f i (j - i) ms !! j = Some m →
  <[j := f m]> (models_updated f i (j - i) ms) = models_updated f i (S j - i) ms.
Proof.
  intros Hij Hm. apply list_eq. intros k.
  unfold models_updated in *. rewrite list_lookup_imap in Hm.
  destruct (decide (j = k)) as [<-|Hne].
  - rewrite list_lookup_insert_eq
      by (rewrite length_imap; destruct (ms !! j) eqn:E; [| discriminate];
          apply lookup_lt_Some in E; exact E).
    rewrite list_lookup_imap.
    destruct (ms !! j) as [m'|]; [| discriminate]. cbn in *.
    rewrite decide_False in Hm by lia. injection Hm as ->.
    rewrite decide_True by lia. reflexivity.
  - rewrite list_lookup_insert_ne by exact Hne.
    rewrite !list_lookup_imap. destruct (ms !! k); [| reflexivity]. cbn.
    destruct (decide (i ≤ k < i + (j - i))%nat), (decide (i ≤ k < i + (S j - i))%nat);
      try reflexivity; lia.
Qed.

Lemma models_updated_none f i ms : models_updated f i 0 ms = ms.
Proof.
  unfold models_updated. apply list_eq. intros k. rewrite list_lookup_imap.
  destruct (ms !! k); [| reflexivity]. cbn. rewrite decide_False by lia. reflexivity.
Qed.

(** New entries that a loop has gone over. *)
Lemma models_updated_new f ms cnt d :
  models_updated f (length ms) cnt (ms ++ replicate cnt d)
  = ms ++ replicate cnt (f d).
Proof.
  unfold models_updated. apply list_eq. intros k. rewrite list_lookup_imap.
  destruct (decide (k < length ms)%nat) as [Hk|Hk].
  - rewrite !lookup_app_l by exact Hk.
    destruct (ms !! k); [| reflexivity]. cbn. rewrite decide_False by lia. reflexivity.
  - rewrite !lookup_app_r by lia.
    destruct (decide (k - length ms < cnt)%nat) as [Hc|Hc].
    + rewrite !lookup_replicate_2 by exact Hc. cbn.
      rewrite decide_True by lia. reflexivity.
    + rewrite !(lookup_ge_None_2 (replicate cnt _))
        by (rewrite length_replicate; lia).
      reflexivity.
Qed.

(** The loops over [models] return when their indices are in range. *)
Lemma models_update_loop f cnt i s :
  (0 < cnt → i + cnt ≤ length (models s))%nat →
  ∃ t, for_range cnt i (λ j, models_update j f) s = Ok tt t ∧
       later s t ∧ later t s ∧ length (models t) = length (models s) ∧
       models t = models_updated f i cnt (models s).
Proof.
  intros Hlen.
  destruct (for_range_inv
    (λ j t, later s t ∧ later t s ∧ length (models t) = length (models s) ∧
            models t = models_updated f i (j - i) (models s))
    (λ j, models_update j f) cnt i s) as (t & Hrun & Ht).
  - split; [apply later_refl |]. split; [apply later_refl |].
    split; [reflexivity |]. rewrite Nat.sub_diag, models_updated_none. reflexivity.
  - intros j t Hj (Hst & Hts & Hl & Hms).
    unfold models_update, mbind, M_bind, bind, get, vec_at.
    destruct (lookup_lt_is_Some_2 (models t) j) as [m Hm]; [lia |].
    rewrite Hm. eexists. split; [reflexivity |].
    split; [exact Hst |]. split; [exact Hts |].
    cbn. rewrite length_insert. split; [exact Hl |].
    rewrite Hms. apply models_updated_step; [lia |]. rewrite <- Hms. exact Hm.
  - exists t. split; [exact Hrun |].
    destruct Ht as (Hst & Hts & Hl & Hms).
    replace (i + cnt - i)%nat with cnt in Hms by lia. auto.
Qed.
End InitFacts.

Section InitRun.
Context `{NerfHeader}.
Variable env : Env.

Lemma run_get {St B} (k : St → M St B) s : bind get k s = k s s.
Proof. reflexivity. Qed.

Lemma run_vec_at {St A B} (v : list A) i a (k : A → M St B) s :
  v !! i = Some a → bind (vec_at v i) k s = k a s.
Proof. intros Hv. unfold bind, vec_at. rewrite Hv. reflexivity. Qed.

Lemma run_logf {B} lvl msg a (k : unit → M Nerf B) s :
  bind (logf lvl msg a) k s = k tt (set_log (log s ++ [Log lvl msg a]) s).
Proof. reflexivity. Qed.

Lemma run_lift {St A B} (r : jres A) v (k : A → M St B) s :
  r = JOk v → bind (lift r) k s = k v s.
Proof. intros ->. reflexivity. Qed.

Lemma run_modify {St B} (f : St → St) (k : unit → M St B) s :
  bind (modify f) k s = k tt (f s).
Proof. reflexivity. Qed.

Lemma run_check {B} size expected msg shown (k : unit → M Nerf B) s :
  bind (check_count size expected msg shown) k s
  = k tt (log_if (bool_decide (count_differs size expected))
                 (mismatch_entry size msg shown) s).
Proof. unfold bind. rewrite check_count_run. reflexivity. Qed.

(** The log lines of the six count checks, for the arrays that differ. *)
Definition mismatches (a : MLPArrays) : list (bool * log_entry) :=
  [ (bool_decide (count_differs (length (weights_0_array a)) (Z.of_nat WEIGHTS_0_COUNT)),
     mismatch_entry (length (weights_0_array a))
       "MLP data layer 0 weights count is {}, rather than {}" WEIGHTS_0_COUNT);
    (bool_decide (count_differs (length (bias_0_array a)) (Z.of_nat BIAS_0_COUNT)),
     mismatch_entry (length (bias_0_array a))
       "MLP data layer 0 bias count is {}, rather than {}" BIAS_0_COUNT);
    (bool_decide (count_differs (length (weights_1_array a)) (Z.of_nat WEIGHTS_1_COUNT)),
     mismatch_entry (length (weights_1_array a))
       "MLP data layer 1 weights count is {}, rather than {}" WEIGHTS_1_COUNT);
    (bool_decide (count_differs (length (bias_1_array a)) (Z.of_nat BIAS_1_COUNT)),
     mismatch_entry (length (bias_1_array a))
       "MLP data layer 1 bias count is {}, rather than {}" BIAS_1_COUNT);
    (bool_decide (count_differs (length (weights_2_array a)) (Z.of_nat WEIGHTS_2_COUNT - 16)),
     mismatch_entry (length (weights_2_array a))
       "MLP data layer 2 weights count is {}, rather than {}" WEIGHTS_2_COUNT);
    (bool_decide (count_differs (length (bias_2_array a)) (Z.of_nat BIAS_2_COUNT - 1)),
     mismatch_entry (length (bias_2_array a))
       "MLP data layer 2 bias count is {}, rather than {}" BIAS_2_COUNT) ].

(** Some count of the description differs from the expected one. *)
Definition some_count_differs (a : MLPArrays) : Prop :=
  ∃ e, (true, e) ∈ mismatches a.

(** What [initialize_mlp_uniform_buffers] reads from the description. *)
Definition description_reads (doc : json) (obj_num : Z)
    (weights_0_array_raw weights_1_array_raw weights_2_array_raw : list (list float))
    (bias_0 bias_1 bias_2 : list float) : Prop :=
  Json.key_as Json.get_int doc "obj_num" = JOk obj_num ∧
  Json.key_as Json.get_float_matrix doc "0_weights" = JOk weights_0_array_raw ∧
  Json.key_as Json.get_float_vector doc "0_bias" = JOk bias_0 ∧
  Json.key_as Json.get_float_matrix doc "1_weights" = JOk weights_1_array_raw ∧
  Json.key_as Json.get_float_vector doc "1_bias" = JOk bias_1 ∧
  Json.key_as Json.get_float_matrix doc "2_weights" = JOk weights_2_array_raw ∧
  Json.key_as Json.get_float_vector doc "2_bias" = JOk bias_2.

(** The run up to the packing loops: it returns, whatever the counts. *)
Lemma initialize_reaches_packing n model_index path doc obj_num w0 w1 w2 b0 b1 b2 :
  let a := {| weights_0_array := concat w0; bias_0_array := b0;
              weights_1_array := concat w1; bias_1_array := b1;
              weights_2_array := concat w2; bias_2_array := b2 |} in
  model_path n !! model_index = Some path →
  read_json_file env (asset_base env +:+ path +:+ "mlp.json") = Some doc →
  description_reads doc obj_num w0 w1 w2 b0 b1 b2 →
  0 ≤ Z.of_nat (length (models n)) + obj_num →
  ∃ s, later n s ∧
    (∀ e, (true, e) ∈ mismatches a → e ∈ log s) ∧
    length (models s) = Z.to_nat (Z.of_nat (length (models n)) + obj_num) ∧
    models s
    = models_updated (set_model_index (Z.of_nat model_index)) (length (models n))
        (Z.to_nat (Z.of_nat (length (models n)) + obj_num) - length (models n))
        (resize (Z.to_nat (Z.of_nat (length (models n)) + obj_num)) Model_zero (models n)) ∧
    initialize_mlp_uniform_buffers env model_index n
    = bind (on_model_mlp model_index (pack_mlp a))
        (λ _, for_range (Z.to_nat obj_num) 0 (λ i,
           models_update (length (models n) + i) (set_sub_model_num obj_num))) s.
Proof.
  intros a Hp Hf (Ho & H0 & H1 & H2 & H3 & H4 & H5) Hs.
  unfold initialize_mlp_uniform_buffers, mbind, M_bind.
  rewrite run_get, (run_vec_at _ _ _ _ _ Hp), Hf, run_logf, (run_lift _ _ _ _ Ho).
  rewrite decide_False by lia. rewrite run_modify, run_get.
  set (s1 := set_log _ n).
  set (s2 := set_models _ s1).
  assert (later n s2) as L2.
  { split; [reflexivity |]. intros e He. cbn. apply elem_of_app. left. exact He. }
  assert (length (models s2) = Z.to_nat (Z.of_nat (length (models n)) + obj_num)) as M2.
  { subst s2 s1. cbn. unfold resize.
    rewrite length_app, length_take, length_replicate. lia. }
  destruct (models_update_loop (set_model_index (Z.of_nat model_index))
              (length (models s2) - length (models n)) (length (models n)) s2)
    as (s3 & Hrun & L3 & _ & M3 & MS3); [lia |].
  rewrite (bind_Ok _ _ _ _ _ Hrun).
  rewrite (run_lift _ _ _ _ H0), run_check, (run_lift _ _ _ _ H1), run_check,
    (run_lift _ _ _ _ H2), run_check, (run_lift _ _ _ _ H3), run_check,
    (run_lift _ _ _ _ H4), run_check, (run_lift _ _ _ _ H5), run_check.
  set (s4 := log_if _ _ s3).
  set (s5 := log_if _ _ s4).
  set (s6 := log_if _ _ s5).
  set (s7 := log_if _ _ s6).
  set (s8 := log_if _ _ s7).
  set (s9 := log_if _ _ s8).
  pose proof (later_log_if _ _ s3 : later s3 s4) as L4.
  pose proof (later_log_if _ _ s4 : later s4 s5) as L5.
  pose proof (later_log_if _ _ s5 : later s5 s6) as L6.
  pose proof (later_log_if _ _ s6 : later s6 s7) as L7.
  pose proof (later_log_if _ _ s7 : later s7 s8) as L8.
  pose proof (later_log_if _ _ s8 : later s8 s9) as L9.
  assert (∀ b e s, models (log_if b e s) = models s) as Hsame
    by (intros [] ? ?; reflexivity).
  exists s9. split; [| split; [| split; [| split; [| reflexivity]]]].
  - repeat (eapply later_trans; [eassumption |]). apply later_refl.
  - intros e He. unfold mismatches in He.
    repeat (apply elem_of_cons in He as [He|He]);
      try (apply elem_of_nil in He; contradiction);
      injection He as Hb ->.
    + apply L9, L8, L7, L6, L5. subst s4. rewrite <- Hb. apply log_if_logged.
    + apply L9, L8, L7, L6. subst s5. rewrite <- Hb. apply log_if_logged.
    + apply L9, L8, L7. subst s6. rewrite <- Hb. apply log_if_logged.
    + apply L9, L8. subst s7. rewrite <- Hb. apply log_if_logged.
    + apply L9. subst s8. rewrite <- Hb. apply log_if_logged.
    + subst s9. rewrite <- Hb. apply log_if_logged.
  - assert (∀ b e s, length (models (log_if b e s)) = length (models s)) as Hm
      by (intros [] ? ?; reflexivity).
    subst s9 s8 s7 s6 s5 s4. rewrite !Hm. congruence.
  - subst s9 s8 s7 s6 s5 s4. rewrite !Hsame, MS3, M2. reflexivity.
Qed.

(** For every MLP description that can be read, if one of its weight
    or bias element counts differs from the expected constant then the
    mismatch is in the log as an error line, and the run is not stopped
    for it: no [exit], no failed [assert], no exception. The packing loops
    run on the buffer of the model, which is left in [mlp_weight_vector];
    when every array has at least the elements the loops read, the
    function returns and the buffer holds what they packed (the first
    elements of each array). A loop that reads past the end of a short
    array is the only way the run can stop. *)
Lemma mismatch_is_logged_and_packed
    n model_index path doc obj_num w0 w1 w2 b0 b1 b2 w :
  let a := {| weights_0_array := concat w0; bias_0_array := b0;
              weights_1_array := concat w1; bias_1_array := b1;
              weights_2_array := concat w2; bias_2_array := b2 |} in
  let r := initialize_mlp_uniform_buffers env model_index n in
  model_path n !! model_index = Some path →
  read_json_file env (asset_base env +:+ path +:+ "mlp.json") = Some doc →
  description_reads doc obj_num w0 w1 w2 b0 b1 b2 →
  0 ≤ Z.of_nat (length (models n)) + obj_num →
  mlp_weight_vector n !! model_index = Some w →
  some_count_differs a →
  (∃ e, level e = LOGE ∧ e ∈ log (final r)) ∧
  (∀ e, (true, e) ∈ mismatches a → e ∈ log (final r)) ∧
  (halted r = None ∨ ∃ m, halted r = Some (Undefined m)) ∧
  mlp_weight_vector (final r) !! model_index = Some (final (pack_mlp a w)) ∧
  (length (data w) = MLP_TOTAL → reads_in_range a →
   halted r = None ∧
   mlp_weight_vector (final r) !! model_index = Some {| data := packed a |}).
Proof.
  intros a r Hp Hf Hreads Hs Hw Hdiff.
  destruct (initialize_reaches_packing n model_index path doc obj_num
              w0 w1 w2 b0 b1 b2 Hp Hf Hreads Hs)
    as (s & [Hmwv Hlog] & Hmis & Hmodels & _ & Hrun).
  fold a in Hmis, Hrun. fold r in Hrun.
  assert (model_index < length (mlp_weight_vector s))%nat as Hidx.
  { rewrite Hmwv. eapply lookup_lt_Some. exact Hw. }
  set (s' := set_mlp_weight_vector
               (<[model_index := final (pack_mlp a w)]> (mlp_weight_vector s)) s).
  assert (mlp_weight_vector s' !! model_index = Some (final (pack_mlp a w))) as Hs'.
  { subst s'. cbn. apply list_lookup_insert_eq. exact Hidx. }
  assert (on_model_mlp model_index (pack_mlp a) s
          = match pack_mlp a w with
            | Ok _ _ => Ok tt s'
            | Halt h _ => Halt h s'
            end) as Hpack.
  { assert (mlp_weight_vector s !! model_index = Some w) as Hw'
      by (rewrite Hmwv; exact Hw).
    unfold on_model_mlp. rewrite Hw'. subst s'.
    destruct (pack_mlp a w); reflexivity. }
  assert (log s' = log s) as Hlog' by reflexivity.
  assert (∀ e, (true, e) ∈ mismatches a → e ∈ log (final r)
          ∧ mlp_weight_vector (final r) !! model_index = Some (final (pack_mlp a w))
          ∧ (halted r = None ∨ ∃ m, halted r = Some (Undefined m))
          ∧ (length (data w) = MLP_TOTAL → reads_in_range a →
             halted r = None ∧
             mlp_weight_vector (final r) !! model_index = Some {| data := packed a |}))
    as Hall.
  { intros e He. specialize (Hmis e He).
    pose proof (pack_mlp_only_undefined a w) as Hund.
    destruct (pack_mlp a w) as [[] w'|h w'] eqn:Hrunp.
    - destruct (models_update_loop (set_sub_model_num obj_num)
                  (Z.to_nat obj_num) (length (models n)) s')
        as (t & Hloop & [Ht1 Ht2] & _ & _).
      { subst s'. cbn. lia. }
      assert (r = Ok tt t) as Hr.
      { rewrite Hrun. rewrite (bind_Ok _ _ _ _ _ Hpack).
        rewrite (for_range_shift
                   (λ j, models_update j (set_sub_model_num obj_num))
                   (length (models n))), Nat.add_0_r.
        exact Hloop. }
      rewrite Hr. cbn [final halted].
      split; [apply Ht2; rewrite Hlog'; exact Hmis |].
      split; [rewrite Ht1; exact Hs' |].
      split; [left; reflexivity |].
      intros Hlen Hrange. split; [reflexivity |].
      rewrite Ht1, Hs'. rewrite pack_mlp_spec in Hrunp by assumption.
      injection Hrunp as <-. reflexivity.
    - assert (r = Halt h s') as Hr.
      { rewrite Hrun. rewrite (bind_Halt _ _ _ _ _ Hpack). reflexivity. }
      rewrite Hr. cbn [final halted].
      split; [rewrite Hlog'; exact Hmis |].
      split; [exact Hs' |].
      split; [destruct Hund as [Hu|Hu]; [discriminate | right; exact Hu] |].
      intros Hlen Hrange. rewrite pack_mlp_spec in Hrunp by assumption.
      discriminate. }
  destruct Hdiff as [e He].
  destruct (Hall e He) as (H1 & H2 & H3 & H4).
  split; [exists e; split; [| exact H1] |].
  { clear -He. unfold mismatches in He.
    repeat (apply elem_of_cons in He as [He|He]);
      try (apply elem_of_nil in He; contradiction);
      injection He as _ ->; reflexivity. }
  split; [intros e' He'; apply (Hall e' He') |].
  split; [exact H3 |]. split; [exact H2 | exact H4].
Qed.
End InitRun.

(** *** The entries that a description adds to [models] *)

(** The entry of a sub-model before its geometry is loaded. *)
Definition Model_of (index sub_models : Z) : Model :=
  {| model_index := index; sub_model_num := sub_models; vertices := []; indices := [] |}.

Lemma resize_grow {A} (k : nat) (d : A) (l : list A) :
  resize (length l + k) d l = l ++ replicate k d.
Proof.
  unfold resize. rewrite take_ge by lia.
  replace (length l + k - length l)%nat with k by lia. reflexivity.
Qed.

Section InitModels.
Context `{NerfHeader}.
Variable env : Env.

(** A description that can be read, with arrays that are long enough,
    gives [models] one entry for each of its [obj_num] sub-models; the
    entries name the model and the number of its sub-models. *)
Lemma initialize_adds_models n model_index path doc obj_num w0 w1 w2 b0 b1 b2 w :
  let a := {| weights_0_array := concat w0; bias_0_array := b0;
              weights_1_array := concat w1; bias_1_array := b1;
              weights_2_array := concat w2; bias_2_array := b2 |} in
  model_path n !! model_index = Some path →
  read_json_file env (asset_base env +:+ path +:+ "mlp.json") = Some doc →
  description_reads doc obj_num w0 w1 w2 b0 b1 b2 →
  0 ≤ obj_num →
  mlp_weight_vector n !! model_index = Some w →
  length (data w) = MLP_TOTAL →
  reads_in_range a →
  ∃ n', initialize_mlp_uniform_buffers env model_index n = Ok tt n' ∧
        models n' = models n ++
                    replicate (Z.to_nat obj_num) (Model_of (Z.of_nat model_index) obj_num).
Proof.
  intros a Hp Hf Hreads Hobj Hw Hlen Hrange.
  destruct (initialize_reaches_packing env n model_index path doc obj_num
              w0 w1 w2 b0 b1 b2 Hp Hf Hreads)
    as (s & [Hmwv _] & _ & Hcount & Hmodels & Hrun); [lia |].
  fold a in Hrun.
  set (k := Z.to_nat obj_num) in *.
  assert (Z.to_nat (Z.of_nat (length (models n)) + obj_num) = (length (models n) + k)%nat)
    as Hk by (subst k; lia).
  rewrite Hk in Hmodels, Hcount.
  replace (length (models n) + k - length (models n))%nat with k in Hmodels by lia.
  rewrite resize_grow, models_updated_new in Hmodels.
  set (s' := set_mlp_weight_vector
               (<[model_index := {| data := packed a |}]> (mlp_weight_vector s)) s).
  assert (on_model_mlp model_index (pack_mlp a) s = Ok tt s') as Hpack.
  { subst s'. unfold on_model_mlp. rewrite Hmwv, Hw.
    rewrite (pack_mlp_spec a w Hlen Hrange). reflexivity. }
  destruct (models_update_loop (set_sub_model_num obj_num) k (length (models n)) s')
    as (t & Hloop & _ & _ & _ & Ht).
  { subst s'. cbn. lia. }
  exists t. split.
  - rewrite Hrun, (bind_Ok _ _ _ _ _ Hpack).
    rewrite (for_range_shift (λ j, models_update j (set_sub_model_num obj_num))
               (length (models n))), Nat.add_0_r.
    exact Hloop.
  - rewrite Ht. subst s'. cbn [models set_mlp_weight_vector].
    rewrite Hmodels, models_updated_new. reflexivity.
Qed.

(** Lines 405-413 of [prepare] on a resolved scene of one model whose
    description has one sub-model: [models] gets exactly one entry. *)
Lemma load_mlps_single_model n path doc w0 w1 w2 b0 b1 b2 :
  let a := {| weights_0_array := concat w0; bias_0_array := b0;
              weights_1_array := concat w1; bias_1_array := b1;
              weights_2_array := concat w2; bias_2_array := b2 |} in
  model_path n = [path] →
  models n = [] →
  mlp_weight_vector n = [] →
  read_json_file env (asset_base env +:+ path +:+ "mlp.json") = Some doc →
  description_reads doc 1 w0 w1 w2 b0 b1 b2 →
  reads_in_range a →
  ∃ n', load_mlps env n = Ok tt n' ∧ models n' = [Model_of 0 1].
Proof.
  intros a Hp Hm Hv Hf Hreads Hrange.
  unfold load_mlps, mbind, M_bind. rewrite run_modify, run_get.
  set (s := set_mlp_weight_vector _ n).
  assert (model_path s = [path]) as Hps by exact Hp.
  rewrite Hps. cbn [length for_range].
  destruct (initialize_adds_models s 0%nat path doc 1 w0 w1 w2 b0 b1 b2 MLP_Weights_zero)
    as (n' & Hrun & Hmodels).
  - rewrite Hps. reflexivity.
  - exact Hf.
  - exact Hreads.
  - lia.
  - subst s. cbn. rewrite Hp, Hv. reflexivity.
  - apply MLP_Weights_zero_length.
  - exact Hrange.
  - exists n'. split.
    + rewrite (bind_Ok _ _ _ _ _ Hrun). reflexivity.
    + rewrite Hmodels. subst s. cbn [models set_mlp_weight_vector]. rewrite Hm.
      reflexivity.
Qed.
End InitModels.

(** *** The loops of [prepare_instance_data] fill the lattice in order *)

Lemma flat_map_length_const {A B} (f : A → list B) (m : nat) (l : list A) :
  (∀ a, length (f a) = m) → length (flat_map f l) = (length l * m)%nat.
Proof.
  intros Hf. induction l as [|a l IH]; simpl; [reflexivity |].
  rewrite length_app, Hf, IH. reflexivity.
Qed.

Lemma flat_map_singleton {A B} (g : A → B) (l : list A) :
  flat_map (λ a, [g a]) l = map g l.
Proof. induction l as [|a l IH]; simpl; [reflexivity | rewrite IH; reflexivity]. Qed.

(** The element [i] of block [j] when all blocks have [m] elements. *)
Lemma lookup_flat_map_blocks {B} (blk : nat → list B) (m cnt j i : nat) :
  (∀ k, length (blk k) = m) → (j < cnt)%nat → (i < m)%nat →
  flat_map blk (seq 0 cnt) !! (j * m + i)%nat = blk j !! i.
Proof.
  intros Hm. induction cnt as [|c IH]; intros Hj Hi; [lia |].
  rewrite seq_S, flat_map_app. simpl. rewrite app_nil_r.
  assert (length (flat_map blk (seq 0 c)) = (c * m)%nat) as Hlen.
  { rewrite (flat_map_length_const blk m) by assumption. rewrite length_seq. reflexivity. }
  destruct (decide (j = c)) as [->|Hne].
  - rewrite lookup_app_r by (rewrite Hlen; lia).
    rewrite Hlen. f_equal. lia.
  - rewrite lookup_app_l by (rewrite Hlen; nia).
    apply IH; [lia | assumption].
Qed.

Section FillLoops.
Context {A : Type}.

(** A body that appends a block of [m] elements at the running index. *)
Definition appends (blk : list A) (m : nat) (body : M (list A * nat) unit) : Prop :=
  ∀ pre rest, (m ≤ length rest)%nat →
    body (pre ++ rest, length pre) = Ok tt (pre ++ blk ++ drop m rest, (length pre + m)%nat).

Lemma write_next_appends a : appends [a] 1 (write_next a).
Proof.
  intros pre rest Hrest. unfold write_next, mbind, M_bind, bind, get, vec_set, modify.
  cbn [fst snd].
  rewrite decide_True by (rewrite length_app; lia).
  destruct rest as [|r rest]; [simpl in Hrest; lia |].
  rewrite <- (Nat.add_0_r (length pre)) at 1. rewrite insert_app_r.
  cbn. rewrite drop_0. do 2 f_equal. lia.
Qed.

Lemma block_loop (blk : nat → list A) (m : nat)
    (body : nat → M (list A * nat) unit) cnt :
  (∀ j, length (blk j) = m) →
  (∀ j, (j < cnt)%nat → appends (blk j) m (body j)) →
  appends (flat_map blk (seq 0 cnt)) (cnt * m) (for_range cnt 0 body).
Proof.
  intros Hm Hbody pre rest Hrest.
  destruct (for_range_inv
    (λ j s, s = (pre ++ flat_map blk (seq 0 j) ++ drop (j * m) rest,
                 (length pre + j * m)%nat))
    body cnt 0%nat (pre ++ rest, length pre)) as (s' & Hrun & Hs').
  - simpl. rewrite drop_0, Nat.add_0_r. reflexivity.
  - intros j t Hj ->.
    assert (length (flat_map blk (seq 0 j)) = (j * m)%nat) as Hlen.
    { rewrite (flat_map_length_const blk m) by assumption.
      rewrite length_seq. reflexivity. }
    eexists. split; [| reflexivity].
    rewrite app_assoc.
    replace (length pre + j * m)%nat with (length (pre ++ flat_map blk (seq 0 j)))
      by (rewrite length_app, Hlen; reflexivity).
    assert (j * m + m ≤ cnt * m)%nat as Hjm by nia.
    rewrite (Hbody j); [| lia | rewrite length_drop; lia].
    f_equal. f_equal.
    + rewrite seq_S, flat_map_app. simpl. rewrite app_nil_r.
      rewrite <- !app_assoc. do 2 f_equal.
      rewrite drop_drop.
      replace (j * m + m)%nat with (m + j * m)%nat by lia. reflexivity.
    + rewrite length_app, Hlen. lia.
  - rewrite Hrun, Hs'. reflexivity.
Qed.
End FillLoops.

Section LatticeFacts.
Context {F : Type} `{Scalar F}.

(** The dimensions of a lattice that [read_json_map] accepts and whose
    size [int] can hold. *)
Definition valid_dim (dim : glm.ivec3) : Prop :=
  1 ≤ glm.x dim ∧ 1 ≤ glm.y dim ∧ 1 ≤ glm.z dim ∧
  glm.x dim * glm.y dim * glm.z dim ≤ Int.INT_MAX.

Lemma lattice_size_valid dim :
  valid_dim dim → lattice_size dim = glm.x dim * glm.y dim * glm.z dim.
Proof.
  intros (Hx & Hy & Hz & Hmax). unfold lattice_size, Int.mul.
  unfold Int.INT_MAX in Hmax.
  rewrite (Int.wrap_in_range (glm.x dim * glm.y dim)).
  - apply Int.wrap_in_range. unfold Int.in_range, Int.INT_MIN, Int.INT_MAX.
    apply andb_true_intro. split; apply Z.leb_le; nia.
  - unfold Int.in_range, Int.INT_MIN, Int.INT_MAX.
    apply andb_true_intro. split; apply Z.leb_le; nia.
Qed.

Lemma lattice_length dim interval :
  length (lattice dim interval)
  = (Z.to_nat (glm.x dim) * (Z.to_nat (glm.y dim) * Z.to_nat (glm.z dim)))%nat.
Proof.
  unfold lattice.
  rewrite (flat_map_length_const _ (Z.to_nat (glm.y dim) * Z.to_nat (glm.z dim))).
  - rewrite length_seq. reflexivity.
  - intros x. rewrite (flat_map_length_const _ (Z.to_nat (glm.z dim))).
    + rewrite length_seq. reflexivity.
    + intros y. rewrite length_map, length_seq. reflexivity.
Qed.

(** The linear index of the cell [(x, y, z)]: [x] outermost. *)
Definition linear_index (dim : glm.ivec3) (x y z : nat) : nat :=
  ((x * Z.to_nat (glm.y dim) + y) * Z.to_nat (glm.z dim) + z)%nat.

Lemma lattice_lookup dim interval x y z :
  (x < Z.to_nat (glm.x dim))%nat →
  (y < Z.to_nat (glm.y dim))%nat →
  (z < Z.to_nat (glm.z dim))%nat →
  lattice dim interval !! linear_index dim x y z
  = Some (pos_offset_at dim interval x y z).
Proof.
  intros Hx Hy Hz. unfold lattice, linear_index.
  set (ny := Z.to_nat (glm.y dim)) in *. set (nz := Z.to_nat (glm.z dim)) in *.
  replace ((x * ny + y) * nz + z)%nat with (x * (ny * nz) + (y * nz + z))%nat by lia.
  rewrite (lookup_flat_map_blocks _ (ny * nz)); [| | assumption | nia].
  - rewrite (lookup_flat_map_blocks _ nz); [| | assumption | assumption].
    + rewrite list_lookup_fmap, lookup_seq_lt by assumption. reflexivity.
    + intros k. rewrite length_map, length_seq. reflexivity.
  - intros k. rewrite (flat_map_length_const _ nz).
    + rewrite length_seq. reflexivity.
    + intros k'. rewrite length_map, length_seq. reflexivity.
Qed.

Lemma lattice_elem dim interval p :
  p ∈ lattice dim interval ↔
  ∃ x y z, (x < Z.to_nat (glm.x dim))%nat ∧ (y < Z.to_nat (glm.y dim))%nat ∧
           (z < Z.to_nat (glm.z dim))%nat ∧ p = pos_offset_at dim interval x y z.
Proof.
  unfold lattice. rewrite list_elem_of_In, in_flat_map. split.
  - intros (x & Hx & Hp). apply in_flat_map in Hp as (y & Hy & Hp).
    apply in_map_iff in Hp as (z & <- & Hz).
    apply in_seq in Hx, Hy, Hz. exists x, y, z. repeat split; lia.
  - intros (x & y & z & Hx & Hy & Hz & ->).
    exists x. split; [apply in_seq; lia |].
    apply in_flat_map. exists y. split; [apply in_seq; lia |].
    apply in_map_iff. exists z. split; [reflexivity | apply in_seq; lia].
Qed.

(** The three nested loops return the lattice, [idx] at its end. *)
Lemma instance_offsets_run dim interval dflt :
  valid_dim dim →
  instance_offsets dim interval dflt
  = Ok tt (lattice dim interval, Z.to_nat (glm.x dim * glm.y dim * glm.z dim)).
Proof.
  intros Hv. pose proof (lattice_size_valid dim Hv) as Hsize.
  destruct Hv as (Hx & Hy & Hz & Hmax).
  unfold instance_offsets. rewrite decide_False by (rewrite Hsize; nia).
  rewrite Hsize.
  set (nx := Z.to_nat (glm.x dim)). set (ny := Z.to_nat (glm.y dim)).
  set (nz := Z.to_nat (glm.z dim)).
  assert (Z.to_nat (glm.x dim * glm.y dim * glm.z dim) = (nx * (ny * nz))%nat) as HN
    by (subst nx ny nz; nia).
  rewrite HN.
  assert (appends (lattice dim interval) (nx * (ny * nz))
    (for_range nx 0 (λ x, for_range ny 0 (λ y, for_range nz 0 (λ z,
       write_next (pos_offset_at dim interval x y z)))))) as Hloop.
  { apply (block_loop
      (λ x, flat_map (λ y, map (λ z, pos_offset_at dim interval x y z) (seq 0 nz))
              (seq 0 ny))).
    - intros x. rewrite (flat_map_length_const _ nz).
      + rewrite length_seq. reflexivity.
      + intros y. rewrite length_map, length_seq. reflexivity.
    - intros x _.
      apply (block_loop (λ y, map (λ z, pos_offset_at dim interval x y z) (seq 0 nz))).
      + intros y. rewrite length_map, length_seq. reflexivity.
      + intros y _.
        pose proof (block_loop (λ z, [pos_offset_at dim interval x y z]) 1
          (λ z, write_next (pos_offset_at dim interval x y z)) nz) as Hz'.
        rewrite flat_map_singleton, Nat.mul_1_r in Hz'.
        apply Hz'; [reflexivity |]. intros z _. apply write_next_appends. }
  specialize (Hloop [] (replicate (nx * (ny * nz)) dflt)).
  rewrite length_replicate in Hloop. cbn [app length] in Hloop.
  rewrite Hloop by lia.
  rewrite drop_ge by (rewrite length_replicate; lia).
  rewrite app_nil_r. reflexivity.
Qed.
End LatticeFacts.

(** *** Symmetry of the lattice, without rounding *)

Section ExactLattice.
Local Open Scope Qc_scope.

Lemma Qc_eq_bool_refl (q : Qc) : Qc_eq_bool q q = true.
Proof.
  unfold Qc_eq_bool. destruct (Qcanon.Qc_eq_dec q q); [reflexivity | contradiction].
Qed.

Lemma Qc_of_int_sub (a b : Z) :
  Q2Qc (inject_Z (a - b)) = Q2Qc (inject_Z a) - Q2Qc (inject_Z b).
Proof.
  apply Qc_is_canon. unfold Qcminus, Qcplus, Qcopp, Q2Qc. simpl.
  rewrite !Qred_correct. unfold Z.sub.
  rewrite inject_Z_plus, inject_Z_opp. reflexivity.
Qed.

Lemma Qc_half_double (q : Qc) : q * Q2Qc (1 # 2) + q * Q2Qc (1 # 2) = q.
Proof.
  assert (Q2Qc (1 # 2) + Q2Qc (1 # 2) = 1) as Hh by (apply Qc_is_canon; reflexivity).
  rewrite <- Qcmult_plus_distr_r, Hh. ring.
Qed.

(** The offset of the mirrored cell is the negated offset. *)
Lemma offset_component_mirror (d : Qc) (n : Z) (x : nat) :
  (1 ≤ n ≤ Int.INT_MAX)%Z → (x < Z.to_nat n)%nat →
  offset_component d n (Z.to_nat n - 1 - x) = - offset_component d n x.
Proof.
  intros Hn Hx. unfold offset_component, corner. cbn [s_add s_mul s_neg s_half s_of_int Qc_scalar].
  rewrite Int.wrap_in_range
    by (unfold Int.in_range, Int.INT_MIN, Int.INT_MAX in *;
        apply andb_true_intro; split; apply Z.leb_le; lia).
  replace (Z.of_nat (Z.to_nat n - 1 - x)) with (n - 1 - Z.of_nat x)%Z by lia.
  rewrite (Qc_of_int_sub (n - 1) (Z.of_nat x)).
  set (m := Q2Qc (inject_Z (n - 1))). set (k := Q2Qc (inject_Z (Z.of_nat x))).
  replace (d * (m - k)) with (d * m - d * k) by ring.
  rewrite <- (Qc_half_double (d * m)). ring.
Qed.

Lemma lattice_symmetric_exact (dim : glm.ivec3) (interval : glm.tvec3 Qc) :
  valid_dim dim → symmetric_about_origin (lattice dim interval) = true.
Proof.
  intros (Hx & Hy & Hz & Hmax). unfold symmetric_about_origin.
  assert (glm.x dim ≤ Int.INT_MAX ∧ glm.y dim ≤ Int.INT_MAX ∧ glm.z dim ≤ Int.INT_MAX)%Z
    as (Bx & By & Bz) by (unfold Int.INT_MAX in *; repeat split; nia).
  apply forallb_forall. intros p Hp.
  apply list_elem_of_In, lattice_elem in Hp as (x & y & z & Lx & Ly & Lz & ->).
  apply existsb_exists.
  exists (pos_offset_at dim interval
            (Z.to_nat (glm.x dim) - 1 - x) (Z.to_nat (glm.y dim) - 1 - y)
            (Z.to_nat (glm.z dim) - 1 - z)).
  split.
  - apply list_elem_of_In, lattice_elem. eexists _, _, _.
    repeat split; [lia | lia | lia].
  - unfold vec3_eqb, pos_offset_at, glm.map3. cbn [glm.x glm.y glm.z].
    rewrite !offset_component_mirror by lia.
    cbn [s_eqb s_neg Qc_scalar]. rewrite !Qc_eq_bool_refl. reflexivity.
Qed.
End ExactLattice.

(** *** The claim about the instancing grid *)

Definition offsets_of (data : list InstanceData) : list glm.vec3 := map pos_offset data.

(** The instance buffer that [prepare_instance_data] leaves. *)
Definition instance_data_of (n : Nerf) : list InstanceData :=
  default [] (instance_buffer n).

(** C3 (as amended): for every dimension triple with all components at
    least 1 whose product fits [int], and every interval triple,
    [prepare_instance_data] returns and leaves exactly nx*ny*nz offsets; the
    offset at the linear index [(x*ny + y)*nz + z], [x] outermost and [z]
    innermost, is [corner + (x*dx, y*dy, z*dz)] with
    [corner = -interval*0.5*(dim-1)], computed in binary32. The set of
    offsets is symmetric about the origin when the same loops compute without
    rounding (over the rationals); nothing is said of the symmetry of the
    binary32 offsets. *)
Theorem instancing_grid (n : Nerf) :
  let ii := instancing_info n in
  valid_dim (dim ii) →
  (∃ n', prepare_instance_data n = Ok tt n' ∧
     length (instance_data_of n')
       = Z.to_nat (glm.x (dim ii) * glm.y (dim ii) * glm.z (dim ii)) ∧
     Z.of_nat (length (instance_data_of n')) = lattice_size (dim ii) ∧
     ∀ x y z,
       (x < Z.to_nat (glm.x (dim ii)))%nat →
       (y < Z.to_nat (glm.y (dim ii)))%nat →
       (z < Z.to_nat (glm.z (dim ii)))%nat →
       offsets_of (instance_data_of n') !! linear_index (dim ii) x y z
       = Some (pos_offset_at (dim ii) (interval ii) x y z)) ∧
  (∀ (exact_interval : glm.tvec3 Qc) dflt,
     ∃ offsets idx,
       instance_offsets (dim ii) exact_interval dflt = Ok tt (offsets, idx) ∧
       length offsets = Z.to_nat (glm.x (dim ii) * glm.y (dim ii) * glm.z (dim ii)) ∧
       symmetric_about_origin offsets = true).
Proof.
  intros ii Hv. split.
  - unfold prepare_instance_data, mbind, M_bind. rewrite run_get. fold ii.
    rewrite (instance_offsets_run (dim ii) (interval ii) vec3_zero Hv).
    eexists. split; [reflexivity |].
    unfold instance_data_of, offsets_of.
    cbn -[lattice lattice_size Z.mul Z.to_nat linear_index pos_offset_at].
    assert (length (lattice (dim ii) (interval ii))
            = Z.to_nat (glm.x (dim ii) * glm.y (dim ii) * glm.z (dim ii))) as Hlen.
    { rewrite lattice_length. destruct Hv as (? & ? & ? & ?). nia. }
    rewrite length_map. split; [exact Hlen |]. split.
    + etransitivity; [apply (f_equal Z.of_nat); exact Hlen |].
      rewrite (lattice_size_valid _ Hv). destruct Hv as (? & ? & ? & ?). nia.
    + intros x y z Hx Hy Hz. rewrite map_map. cbn [pos_offset].
      rewrite map_id. apply lattice_lookup; assumption.
  - intros exact_interval dflt.
    exists (lattice (dim ii) exact_interval), (Z.to_nat (glm.x (dim ii) * glm.y (dim ii) * glm.z (dim ii))).
    split; [apply instance_offsets_run; exact Hv |].
    split; [rewrite lattice_length; destruct Hv as (? & ? & ? & ?); nia |].
    apply lattice_symmetric_exact. exact Hv.
Qed.

(** ** RenderGraphBuilder: the topology follows the flag *)

(** C2: with the deferred flag set, the render pass that is built has
    exactly 2 sub-passes and 5 attachments, and the second-pass descriptor
    layout asks for exactly 3 input attachments, as many as sub-pass 1 of the
    pass reads; with the flag clear, the pass has exactly 1 sub-pass and 2
    attachments, no sub-pass reads an input attachment, and no descriptor
    layout asks for one. *)
Theorem topology_selection (env : Env) (n : Nerf) :
  ∃ n1 n2 info,
    update_render_pass_nerf env n = Ok tt n1 ∧
    render_pass_nerf n1 = Some info ∧
    gpu n1 = gpu n ++ [Vk.vkCreateRenderPass info] ∧
    create_pipeline_layouts n = Ok tt n2 ∧
    if use_deferred n then
      Vk.subpassCount info = 2%nat ∧
      Vk.attachmentCount info = 5%nat ∧
      map Vk.inputAttachmentCount (Vk.pSubpasses info) = [0%nat; 3%nat] ∧
      (∃ l, descriptor_set_layout_baseline n2 = Some l ∧
            Vk.input_attachments_required l = 3%nat) ∧
      layout_input_attachments n2 = 3%nat
    else
      Vk.subpassCount info = 1%nat ∧
      Vk.attachmentCount info = 2%nat ∧
      pass_input_attachments info = 0%nat ∧
      descriptor_set_layout_baseline n2 = descriptor_set_layout_baseline n ∧
      (∃ l, descriptor_set_first_pass_layout n2 = Some l ∧
            Vk.input_attachments_required l = 0%nat).
Proof.
  unfold update_render_pass_nerf, create_pipeline_layouts,
    create_pipeline_layout_fist_pass, create_pipeline_layout_baseline,
    update_render_pass_nerf_baseline, update_render_pass_nerf_forward.
  cbv [mbind M_bind bind get modify ret gpu_call].
  destruct (use_deferred n) eqn:Hd; cbn [negb].
  - eexists _, _, _. split; [reflexivity |]. split; [reflexivity |].
    split; [reflexivity |]. split; [cbn; rewrite Hd; reflexivity |].
    cbn. repeat split; try reflexivity. eexists. split; reflexivity.
  - eexists _, _, _. split; [reflexivity |]. split; [reflexivity |].
    split; [reflexivity |]. split; [cbn; rewrite Hd; reflexivity |].
    cbn. repeat split; try reflexivity. eexists. split; reflexivity.
Qed.

(** ** The camera start position *)

Lemma neg_differs (f : float) : f ≠ S754_nan → F32.neg f ≠ f.
Proof.
  intros Hnan. destruct f as [[]|[]| |[] m e]; cbn; congruence.
Qed.

(** ** CopyBuffer *)

Lemma chunks_length {A} cnt size (l : list A) : length (chunks cnt size l) = cnt.
Proof.
  revert l. induction cnt as [|c IH]; intros l; simpl; [reflexivity |].
  rewrite IH. reflexivity.
Qed.

Lemma chunks_lookup {A} cnt size (l : list A) i :
  (i < cnt)%nat → chunks cnt size l !! i = Some (take size (drop (i * size) l)).
Proof.
  revert l i. induction cnt as [|c IH]; intros l i Hi; [lia |].
  destruct i as [|i]; simpl.
  - rewrite drop_0. reflexivity.
  - rewrite IH by lia. rewrite drop_drop. reflexivity.
Qed.

Section CopyBufferFacts.
Context {T : Type} `{Pod T}.

(** What the buffer's bytes stand for, element by element. *)
Definition elements (b : Buffer) : list T :=
  map of_bytes (chunks (get_size b / sizeof) sizeof (contents b)).

Lemma unmap_map (buffers : gmap string Buffer) name b :
  buffers !! name = Some b → mapped b = false →
  alter buffer_unmap name (alter buffer_map name buffers) = buffers.
Proof.
  intros Hb Hm. rewrite alter_alter_eq. apply alter_id.
  intros b' Hb'. rewrite Hb in Hb'. injection Hb' as <-.
  destruct b as [c m]. cbn in *. subst m. reflexivity.
Qed.

(** Where the buffer's size is a positive multiple of the element size,
    [CopyBuffer] returns the elements and leaves every buffer as it was;
    a name that is absent gives the empty vector. *)
Lemma CopyBuffer_returns (buffers : gmap string Buffer) name :
  (buffers !! name = None → CopyBuffer name buffers = Ok [] buffers) ∧
  (∀ b k, buffers !! name = Some b → (0 < sizeof)%nat → (0 < k)%nat →
     get_size b = (k * sizeof)%nat →
     CopyBuffer name buffers = Ok (elements b) buffers ∧
     length (elements b) = k ∧
     ∀ i, (i < k)%nat →
       elements b !! i = Some (of_bytes (take sizeof (drop (i * sizeof) (contents b))))).
Proof.
  split.
  - intros Hb. unfold CopyBuffer, mbind, M_bind. rewrite run_get, Hb. reflexivity.
  - intros b k Hb Hs Hk Hsz.
    assert (get_size b / sizeof = k)%nat as Hdiv
      by (rewrite Hsz; apply Nat.div_mul; lia).
    split; [| split].
    + unfold CopyBuffer, mbind, M_bind. rewrite run_get, Hb.
      rewrite !length_replicate, Hdiv.
      destruct (mapped b) eqn:Hm; cbn [negb].
      * unfold bind at 1. cbn [ret].
        unfold bind at 1. rewrite decide_False by lia. cbn [ret].
        unfold bind at 1. rewrite decide_False by lia. cbn [ret].
        unfold elements. rewrite Hdiv. reflexivity.
      * rewrite run_modify.
        unfold bind at 1. rewrite decide_False by lia. cbn [ret].
        unfold bind at 1. rewrite decide_False by lia. cbn [ret].
        rewrite run_modify. unfold elements. rewrite Hdiv.
        rewrite (unmap_map buffers name b Hb Hm). reflexivity.
    + unfold elements. rewrite length_map, chunks_length. exact Hdiv.
    + intros i Hi. unfold elements. rewrite list_lookup_fmap, Hdiv.
      rewrite chunks_lookup by exact Hi. reflexivity.
Qed.

(** Where it is not, the copy leaves the vector it fills. *)
Lemma CopyBuffer_overruns (buffers : gmap string Buffer) name b :
  buffers !! name = Some b → (0 < sizeof)%nat →
  (get_size b mod sizeof ≠ 0)%nat ∨ get_size b = 0%nat →
  ∃ what s, CopyBuffer name buffers = Halt (Undefined what) s.
Proof.
  intros Hb Hs Hbad.
  unfold CopyBuffer, mbind, M_bind. rewrite run_get, Hb.
  rewrite !length_replicate.
  set (pre := if negb (mapped b) then modify (alter buffer_map name) else ret tt).
  assert (∃ s, pre buffers = Ok tt s) as (s & Hpre)
    by (subst pre; destruct (mapped b); eexists; reflexivity).
  rewrite (bind_Ok _ _ _ _ _ Hpre).
  unfold bind, stop, ret.
  destruct (decide (get_size b / sizeof = 0)%nat) as [Hz|Hz];
    [eexists _, _; reflexivity |].
  destruct (decide (get_size b / sizeof * sizeof < get_size b)%nat) as [Hlt|Hlt];
    [eexists _, _; reflexivity |].
  exfalso. destruct Hbad as [Hmod|H0].
  - pose proof (Nat.div_mod_eq (get_size b) sizeof) as Hdm.
    rewrite (Nat.mul_comm sizeof) in Hdm. lia.
  - rewrite H0 in Hz. rewrite Nat.Div0.div_0_l in Hz. contradiction.
Qed.
End CopyBufferFacts.

(** An element kept as the bytes that stand for it. *)
Definition Pod_raw (size : nat) : Pod (list Byte.byte) :=
  {| sizeof := size; value_initialized := replicate size Byte.x00; of_bytes := λ l, l |}.

(** The vertex buffers of a sub-mesh of 3 vertices whose texture coordinates
    are pairs of 16-bit numbers: 12 bytes, not mapped. *)
Definition short_texcoord_buffers : gmap string Buffer :=
  {[ "texcoord_0" := {| contents := replicate 12 Byte.x00; mapped := false |} ]}.

(** C9: [CopyBuffer<glm::vec2>] on a 12-byte buffer named "texcoord_0" sizes
    its vector for one element of 8 bytes and then copies all 12 bytes into
    it: the call has no defined result, and the buffer stays mapped. *)
Theorem CopyBuffer_unaligned_size_overruns :
  CopyBuffer (H := Pod_raw 8) "texcoord_0" short_texcoord_buffers
  = Halt (Undefined "memcpy past the end of the vector")
         {[ "texcoord_0" := {| contents := replicate 12 Byte.x00; mapped := true |} ]}.
Proof.
  unfold CopyBuffer, short_texcoord_buffers, mbind, M_bind.
  rewrite run_get, lookup_singleton_eq. cbn [mapped negb].
  rewrite run_modify, alter_singleton_eq. reflexivity.
Qed.

(** ** FrameRecorder: what a command buffer holds after recording *)

(** A step that only creates GPU objects. *)
Definition emits (cs : list Vk.call) (c : M Nerf unit) : Prop :=
  ∀ n, c n = Ok tt (set_gpu (gpu n ++ cs) n).

Lemma emits_gpu_call c : emits [c] (gpu_call c).
Proof. intros n. reflexivity. Qed.

Lemma emits_ret : emits [] (ret tt).
Proof. intros n. unfold ret. rewrite app_nil_r. destruct n; reflexivity. Qed.

Lemma emits_bind cs1 cs2 (c1 c2 : M Nerf unit) :
  emits cs1 c1 → emits cs2 c2 → emits (cs1 ++ cs2) (bind c1 (λ _, c2)).
Proof.
  intros H1 H2 n. unfold bind. rewrite H1, H2.
  cbn. rewrite app_assoc. reflexivity.
Qed.

Lemma emits_for_range (f : nat → list Vk.call) (body : nat → M Nerf unit) cnt i :
  (∀ j, emits (f j) (body j)) →
  emits (flat_map f (seq i cnt)) (for_range cnt i body).
Proof.
  intros Hbody. revert i. induction cnt as [|cnt IH]; intros i; simpl.
  - apply emits_ret.
  - apply (emits_bind (f i) _ (body i) (for_range cnt (S i) body)); [apply Hbody | apply IH].
Qed.

Lemma set_draw_cmd_buffers_get v n : draw_cmd_buffers (set_draw_cmd_buffers v n) = v.
Proof. reflexivity. Qed.

Lemma set_draw_cmd_buffers_set v w n :
  set_draw_cmd_buffers v (set_draw_cmd_buffers w n) = set_draw_cmd_buffers v n.
Proof. reflexivity. Qed.

Section Recording.
Variable env : Env.
Import Vk.

(** The commands [cs] added at the end of [draw_cmd_buffers[i]]. *)
Definition appended (i : nat) (cs : list command) (n : Nerf) : Nerf :=
  set_draw_cmd_buffers (alter (λ b, b ++ cs) i (draw_cmd_buffers n)) n.

Definition records (i : nat) (cs : list command) (c : M Nerf unit) : Prop :=
  ∀ n, c n = Ok tt (appended i cs n).

Lemma records_cmd i c : records i [c] (cmd i c).
Proof. intros n. reflexivity. Qed.

Lemma records_ret i : records i [] (ret tt).
Proof.
  intros n. unfold ret, appended.
  rewrite list_alter_id by (intros b; apply app_nil_r).
  destruct n; reflexivity.
Qed.

Lemma records_bind i cs1 cs2 (c1 c2 : M Nerf unit) :
  records i cs1 c1 → records i cs2 c2 → records i (cs1 ++ cs2) (bind c1 (λ _, c2)).
Proof.
  intros H1 H2 n. unfold bind. rewrite H1, H2.
  unfold appended, set_draw_cmd_buffers. cbn. rewrite list_alter_alter_eq.
  do 2 f_equal. apply list_alter_ext; [| reflexivity].
  intros b _. cbn. rewrite app_assoc. reflexivity.
Qed.

Lemma records_for_each {A} i (f : A → list command) (body : A → M Nerf unit) xs :
  (∀ x, records i (f x) (body x)) →
  records i (flat_map f xs) (for_each xs body).
Proof.
  intros Hbody. induction xs as [|x xs IH]; simpl.
  - apply records_ret.
  - apply (records_bind i (f x) _ (body x) (for_each xs body)); [apply Hbody | apply IH].
Qed.

(** What the loop over the models records for one model. *)
Definition model_commands (n : Nerf) (i k : nat) (model : Model) : list command :=
  [ vkCmdBindPipeline (pipeline_first_pass k);
    vkCmdBindDescriptorSets
      (descriptor_set_first_pass k (if use_deferred n then 0 else Z.of_nat i));
    vkCmdBindVertexBuffers 0 (vertex_buffer k);
    vkCmdBindVertexBuffers 1 instance_buffer_ref;
    vkCmdBindIndexBuffer (index_buffer k);
    vkCmdDrawIndexed
      (Int.uwrap (Int.uwrap (Z.of_nat (length (indices model))) * 3))
      (Int.uwrap (lattice_size (dim (instancing_info n)))) 0 0 0 ].

(** What command buffer [i] holds after recording. *)
Definition frame_commands (n : Nerf) (i : nat) : list command :=
  [vkCmdBeginRenderPass render_pass_nerf_ref i (if use_deferred n then 5%nat else 2%nat)] ++
  [vkCmdSetViewport (width env) (height env)] ++
  [vkCmdSetScissor (width env) (height env)] ++
  flat_map (λ '(k, model), model_commands n i k model)
           (imap (λ k model, (k, model)) (models n)) ++
  (if use_deferred n then
     [vkCmdNextSubpass] ++ [vkCmdBindPipeline pipeline_baseline] ++
     [vkCmdBindDescriptorSets (descriptor_set_baseline i)] ++ [vkCmdDraw 3 1 0 0] ++
     [vkCmdEndRenderPass]
   else [vkCmdEndRenderPass]) ++
  [vkCmdBeginRenderPass render_pass_ui i 2] ++ [draw_ui] ++ [vkCmdEndRenderPass].

(** The framebuffers are set up again before the first recording. *)
Lemma setup_nerf_framebuffer_baseline_emits n :
  ∃ cs, setup_nerf_framebuffer_baseline env n = Ok tt (set_gpu (gpu n ++ cs) n).
Proof.
  unfold setup_nerf_framebuffer_baseline, mbind, M_bind. rewrite run_get.
  set (fm := feature_map_format n). set (cnt := swapchain_image_count env).
  exists ((if use_deferred n
           then flat_map (λ _ : nat, [setup_attachment fm] ++ [setup_attachment fm] ++
                                     [setup_attachment VK_FORMAT_R16G16B16A16_SFLOAT])
                         (seq 0 cnt)
           else []) ++
          flat_map (λ _ : nat, [vkCreateFramebuffer (if use_deferred n then 5%nat else 2%nat)])
                   (seq 0 cnt)).
  refine (emits_bind _ _ _ _ _ _ n).
  - destruct (use_deferred n).
    + apply emits_for_range. intros j.
      refine (emits_bind [_] _ _ _ (emits_gpu_call _) _).
      refine (emits_bind [_] [_] _ _ (emits_gpu_call _) (emits_gpu_call _)).
    + apply emits_ret.
  - apply emits_for_range. intros j. apply emits_gpu_call.
Qed.

(** The buffers when the first [j] of them have been recorded. *)
Definition recorded (n : Nerf) (j : nat) (l : list (list command)) : list (list command) :=
  imap (λ i b, if decide (i < j)%nat then frame_commands n i else b) l.

Lemma recorded_none n l : recorded n 0 l = l.
Proof.
  unfold recorded. apply list_eq. intros i. rewrite list_lookup_imap.
  destruct (l !! i); reflexivity.
Qed.

Lemma recorded_all n l : recorded n (length l) l = imap (λ i _, frame_commands n i) l.
Proof.
  unfold recorded. apply list_eq. intros i. rewrite !list_lookup_imap.
  destruct (l !! i) eqn:Hi; [| reflexivity]. cbn.
  apply lookup_lt_Some in Hi. rewrite decide_True by exact Hi. reflexivity.
Qed.

Lemma recorded_step n j l :
  alter (λ b, b ++ frame_commands n j) j (<[j := []]> (recorded n j l))
  = recorded n (S j) l.
Proof.
  unfold recorded. apply list_eq. intros i.
  destruct (decide (j = i)) as [<-|Hne].
  - rewrite list_lookup_alter_eq, list_lookup_imap.
    destruct (l !! j) eqn:Hj.
    + rewrite list_lookup_insert_eq
        by (rewrite length_imap; apply lookup_lt_Some in Hj; exact Hj).
      cbn. rewrite decide_True by lia. reflexivity.
    + rewrite (lookup_ge_None_2 (<[j := []]> _) j); [reflexivity |].
      rewrite length_insert, length_imap. apply lookup_ge_None_1. exact Hj.
  - rewrite list_lookup_alter_ne, list_lookup_insert_ne by exact Hne.
    rewrite !list_lookup_imap. destruct (l !! i); [| reflexivity]. cbn.
    destruct (decide (i < j)%nat), (decide (i < S j)%nat); try reflexivity; lia.
Qed.

(** The closed form of a run of [build_command_buffers_baseline]. *)
Lemma build_command_buffers_baseline_run n :
  ∃ cs, build_command_buffers_baseline env n
        = Ok tt (set_draw_cmd_buffers
                   (imap (λ i _, frame_commands n i) (draw_cmd_buffers n))
                   (set_gpu (gpu n ++ cs) n)).
Proof.
  unfold build_command_buffers_baseline, mbind, M_bind. rewrite run_get.
  assert (∃ cs, (if negb (prepared n)
                 then bind (setup_nerf_framebuffer_baseline env)
                        (λ _, if use_deferred n then update_descriptor_sets_baseline
                              else ret tt)
                 else ret tt) n = Ok tt (set_gpu (gpu n ++ cs) n)) as (cs & Hpre).
  { destruct (prepared n); cbn [negb].
    - exists []. apply emits_ret.
    - destruct (setup_nerf_framebuffer_baseline_emits n) as (cs & Hcs).
      exists cs. unfold bind. rewrite Hcs.
      destruct (use_deferred n); reflexivity. }
  exists cs. rewrite (bind_Ok _ _ _ _ _ Hpre).
  set (n1 := set_gpu (gpu n ++ cs) n).
  destruct (for_range_inv
    (λ j s, s = set_draw_cmd_buffers (recorded n j (draw_cmd_buffers n)) n1)
    (λ i,
       bind (vkBeginCommandBuffer i) (λ _,
       bind (cmd i (vkCmdBeginRenderPass render_pass_nerf_ref i
                      (if use_deferred n then 5%nat else 2%nat))) (λ _,
       bind (cmd i (vkCmdSetViewport (width env) (height env))) (λ _,
       bind (cmd i (vkCmdSetScissor (width env) (height env))) (λ _,
       bind (for_each (imap (λ k model, (k, model)) (models n))
               (λ '(k, model),
                  bind (cmd i (vkCmdBindPipeline (pipeline_first_pass k))) (λ _,
                  bind (cmd i (vkCmdBindDescriptorSets
                                 (descriptor_set_first_pass k
                                    (if use_deferred n then 0 else Z.of_nat i)))) (λ _,
                  bind (cmd i (vkCmdBindVertexBuffers 0 (vertex_buffer k))) (λ _,
                  bind (cmd i (vkCmdBindVertexBuffers 1 instance_buffer_ref)) (λ _,
                  bind (cmd i (vkCmdBindIndexBuffer (index_buffer k))) (λ _,
                  cmd i (vkCmdDrawIndexed
                           (Int.uwrap (Int.uwrap (Z.of_nat (length (indices model))) * 3))
                           (Int.uwrap (lattice_size (dim (instancing_info n))))
                           0 0 0)))))))) (λ _,
       bind (if use_deferred n then
               bind (cmd i vkCmdNextSubpass) (λ _,
               bind (cmd i (vkCmdBindPipeline pipeline_baseline)) (λ _,
               bind (cmd i (vkCmdBindDescriptorSets (descriptor_set_baseline i))) (λ _,
               bind (cmd i (vkCmdDraw 3 1 0 0)) (λ _,
               cmd i vkCmdEndRenderPass))))
             else cmd i vkCmdEndRenderPass) (λ _,
       bind (cmd i (vkCmdBeginRenderPass render_pass_ui i 2)) (λ _,
       bind (cmd i draw_ui) (λ _,
       cmd i vkCmdEndRenderPass)))))))))
    (length (draw_cmd_buffers n)) 0%nat n1) as (s' & Hrun & Hs').
  - rewrite recorded_none. subst n1. destruct n; reflexivity.
  - intros j t _ ->. eexists. split; [| reflexivity].
    unfold vkBeginCommandBuffer. rewrite run_modify.
    assert (records j (frame_commands n j)
      (bind (cmd j (vkCmdBeginRenderPass render_pass_nerf_ref j
                      (if use_deferred n then 5%nat else 2%nat))) (λ _,
       bind (cmd j (vkCmdSetViewport (width env) (height env))) (λ _,
       bind (cmd j (vkCmdSetScissor (width env) (height env))) (λ _,
       bind (for_each (imap (λ k model, (k, model)) (models n))
               (λ '(k, model),
                  bind (cmd j (vkCmdBindPipeline (pipeline_first_pass k))) (λ _,
                  bind (cmd j (vkCmdBindDescriptorSets
                                 (descriptor_set_first_pass k
                                    (if use_deferred n then 0 else Z.of_nat j)))) (λ _,
                  bind (cmd j (vkCmdBindVertexBuffers 0 (vertex_buffer k))) (λ _,
                  bind (cmd j (vkCmdBindVertexBuffers 1 instance_buffer_ref)) (λ _,
                  bind (cmd j (vkCmdBindIndexBuffer (index_buffer k))) (λ _,
                  cmd j (vkCmdDrawIndexed
                           (Int.uwrap (Int.uwrap (Z.of_nat (length (indices model))) * 3))
                           (Int.uwrap (lattice_size (dim (instancing_info n))))
                           0 0 0)))))))) (λ _,
       bind (if use_deferred n then
               bind (cmd j vkCmdNextSubpass) (λ _,
               bind (cmd j (vkCmdBindPipeline pipeline_baseline)) (λ _,
               bind (cmd j (vkCmdBindDescriptorSets (descriptor_set_baseline j))) (λ _,
               bind (cmd j (vkCmdDraw 3 1 0 0)) (λ _,
               cmd j vkCmdEndRenderPass))))
             else cmd j vkCmdEndRenderPass) (λ _,
       bind (cmd j (vkCmdBeginRenderPass render_pass_ui j 2)) (λ _,
       bind (cmd j draw_ui) (λ _,
       cmd j vkCmdEndRenderPass))))))))) as Hrec.
    { unfold frame_commands.
      do 3 (apply (records_bind j [_]); [apply records_cmd |]).
      apply records_bind.
      - apply records_for_each. intros [k model]. unfold model_commands.
        do 5 (apply (records_bind j [_]); [apply records_cmd |]).
        apply records_cmd.
      - apply records_bind.
        + destruct (use_deferred n).
          * do 4 (apply (records_bind j [_]); [apply records_cmd |]).
            apply records_cmd.
          * apply records_cmd.
        + do 2 (apply (records_bind j [_]); [apply records_cmd |]).
          apply records_cmd. }
    rewrite Hrec. unfold appended.
    repeat rewrite ?set_draw_cmd_buffers_set, ?set_draw_cmd_buffers_get.
    rewrite recorded_step. reflexivity.
  - cbn [Nat.add] in Hs'. rewrite recorded_all in Hs'. subst s'.
    exact Hrun.
Qed.

Definition is_indexed_draw (c : command) : bool :=
  match c with vkCmdDrawIndexed _ _ _ _ _ => true | _ => false end.

(** The indexed draw of a model. *)
Definition indexed_draw (n : Nerf) (model : Model) : command :=
  vkCmdDrawIndexed
    (Int.uwrap (Int.uwrap (Z.of_nat (length (indices model))) * 3))
    (Int.uwrap (lattice_size (dim (instancing_info n)))) 0 0 0.

Lemma indexed_draws_of_models n i (h : nat → nat) (l : list Model) :
  List.filter is_indexed_draw
    (flat_map (λ '(k, model), model_commands n i k model)
              (imap (λ k model, (h k, model)) l))
  = map (indexed_draw n) l.
Proof.
  revert h. induction l as [|m l IH]; intros h; [reflexivity |].
  rewrite imap_cons. cbn [flat_map]. rewrite List.filter_app.
  change (imap ((λ (k : nat) (model : Model), (h k, model)) ∘ S) l)
    with (imap (λ (k : nat) (model : Model), ((h ∘ S) k, model)) l).
  rewrite (IH (h ∘ S)). reflexivity.
Qed.

Lemma indexed_draws_of_frame n i :
  List.filter is_indexed_draw (frame_commands n i) = map (indexed_draw n) (models n).
Proof.
  unfold frame_commands. rewrite !List.filter_app.
  rewrite (indexed_draws_of_models n i (λ k, k)).
  destruct (use_deferred n); cbn; rewrite app_nil_r; reflexivity.
Qed.
End Recording.

(** *** A scene of one model, one sub-model and one instance *)

(** A configuration whose target is a single scene, not a combination,
    with a lattice of one cell. *)
Definition single_model_json (deferred : bool) : json :=
  JObject [ ("width", JInt 0);
            ("height", JInt 0);
            ("texture_type", JString "8bit");
            ("target_model", JString "lego_ball");
            ("deferred", JBool deferred);
            ("rotation", JBool true);
            ("lego_ball", scene_entry "scenes/morpheus_team/lego_ball_phone/") ].

Definition zeros (n : nat) : json := JArray (replicate n (JFloat F32.zero)).

(** The MLP description of a model of one sub-model, its arrays of the
    sizes that [mobile_nerf_h] expects. *)
Definition single_model_mlp : json :=
  JObject [ ("obj_num", JInt 1);
            ("0_weights", JArray (replicate 11 (zeros 16)));
            ("1_weights", JArray (replicate 16 (zeros 16)));
            ("2_weights", JArray (replicate 16 (zeros 3)));
            ("0_bias", zeros 16);
            ("1_bias", zeros 16);
            ("2_bias", zeros 3) ].

(** The bytes of the floats 0 and 1 and of the index [i], the lowest byte
    first. *)
Definition bytes_0f : list Byte.byte := [Byte.x00; Byte.x00; Byte.x00; Byte.x00].
Definition bytes_1f : list Byte.byte := [Byte.x00; Byte.x00; Byte.x80; Byte.x3f].
Definition bytes_index (i : Byte.byte) : list Byte.byte := [i; Byte.x00; Byte.x00; Byte.x00].

(** The scene of every file: one mesh of one sub-mesh, a triangle with the
    corners (0,0,0), (1,0,0), (0,1,0), texture coordinates for each and
    32-bit indices in a mapped buffer. *)
Definition one_triangle : sg.Scene :=
  {| sg.meshes :=
       [ {| sg.get_submeshes :=
              [ {| sg.vertex_buffers :=
                     {[ "position" :=
                          {| contents := bytes_0f ++ bytes_0f ++ bytes_0f ++
                                         bytes_1f ++ bytes_0f ++ bytes_0f ++
                                         bytes_0f ++ bytes_1f ++ bytes_0f;
                             mapped := false |};
                        "texcoord_0" :=
                          {| contents := bytes_0f ++ bytes_0f ++
                                         bytes_1f ++ bytes_0f ++
                                         bytes_0f ++ bytes_1f;
                             mapped := false |} ]};
                   sg.index_buffer :=
                     Some {| contents := bytes_index Byte.x00 ++ bytes_index Byte.x01 ++
                                         bytes_index Byte.x02;
                             mapped := true |};
                   sg.index_type := VK_INDEX_TYPE_UINT32 |} ] |} ] |}.

Definition single_model_env (deferred : bool) (width height : Z)
    (depth_format swapchain_format : Vk.VkFormat) (sizeof_global_uniform : Z)
    (look_at_decompose : glm.vec3 → glm.vec3 → glm.vec3 → glm.vec3 * glm.vec3) : Env :=
  {| asset_base := "assets/";
     nerf_json_file := Some (Some (single_model_json deferred));
     read_json_file := λ path,
       if String.eqb path "assets/scenes/morpheus_team/lego_ball_phone/mlp.json"
       then Some single_model_mlp else None;
     framework_prepare_ok := true;
     width := width; height := height;
     swapchain_image_count := 3;
     depth_format := depth_format; swapchain_format := swapchain_format;
     sizeof_global_uniform := sizeof_global_uniform;
     read_scene_from_file := λ _, Some one_triangle;
     look_at_decompose := look_at_decompose |}.

(** C8: recording returns, and into every command buffer it has recorded,
    for every model and in the order of the models, exactly one indexed
    draw, whose instance count is the lattice size dim.x*dim.y*dim.z as the
    program computes it; for dimensions that [read_json_map] accepts and
    whose product fits [int], that is the product itself. In particular,
    with one entry in [models] and a lattice of dimensions (1,1,1) every
    command buffer holds exactly one indexed draw, of instance count 1; a
    resolved scene of one model whose description has one sub-model gives
    [models] exactly one entry; and the whole of [prepare], on a
    configuration of a single scene that is not a combination, has one
    sub-model and a lattice of dimensions (1,1,1), returns true with exactly
    one entry in [models] and exactly one indexed draw, of instance count 1,
    in every command buffer. *)
Theorem one_instanced_draw_per_model `{NerfHeader} (env : Env) (n : Nerf) :
  let ii := instancing_info n in
  let draw_of (instances : Z) (model : Model) :=
    Vk.vkCmdDrawIndexed
      (Int.uwrap (Int.uwrap (Z.of_nat (length (indices model))) * 3)) instances 0 0 0 in
  (∃ n', build_command_buffers_baseline env n = Ok tt n' ∧
         models n' = models n ∧
         length (draw_cmd_buffers n') = length (draw_cmd_buffers n) ∧
         (∀ i cmds, draw_cmd_buffers n' !! i = Some cmds →
            List.filter is_indexed_draw cmds
            = map (draw_of (Int.uwrap (lattice_size (dim ii)))) (models n)) ∧
         (∀ model, models n = [model] → dim ii = glm.Vec3 1 1 1 →
            ∀ i cmds, draw_cmd_buffers n' !! i = Some cmds →
              List.filter is_indexed_draw cmds = [draw_of 1 model])) ∧
  (valid_dim (dim ii) →
     Int.uwrap (lattice_size (dim ii)) = glm.x (dim ii) * glm.y (dim ii) * glm.z (dim ii)) ∧
  (∀ path doc w0 w1 w2 b0 b1 b2,
     model_path n = [path] → models n = [] → mlp_weight_vector n = [] →
     read_json_file env (asset_base env +:+ path +:+ "mlp.json") = Some doc →
     description_reads doc 1 w0 w1 w2 b0 b1 b2 →
     reads_in_range {| weights_0_array := concat w0; bias_0_array := b0;
                       weights_1_array := concat w1; bias_1_array := b1;
                       weights_2_array := concat w2; bias_2_array := b2 |} →
     ∃ n' model, load_mlps env n = Ok tt n' ∧ models n' = [model] ∧
                 sub_model_num model = 1) ∧
  (∀ deferred width height depth_format swapchain_format size look,
     ∃ n' model,
       prepare (H := mobile_nerf_h)
         (single_model_env deferred width height depth_format swapchain_format size look)
         Nerf_new = Ok true n' ∧
       combo_mode n' = false ∧
       dim (instancing_info n') = glm.Vec3 1 1 1 ∧
       models n' = [model] ∧
       sub_model_num model = 1 ∧
       map (List.filter is_indexed_draw) (draw_cmd_buffers n')
       = replicate 3 [draw_of 1 model]).
Proof.
  intros ii draw_of. split; [| split; [| split]].
  - destruct (build_command_buffers_baseline_run env n) as (cs & Hrun).
    eexists. split; [exact Hrun |]. split; [reflexivity |].
    split; [cbn; apply length_imap |].
    assert (∀ i cmds,
              draw_cmd_buffers
                (set_draw_cmd_buffers
                   (imap (λ i _, frame_commands env n i) (draw_cmd_buffers n))
                   (set_gpu (gpu n ++ cs) n)) !! i = Some cmds →
              List.filter is_indexed_draw cmds
              = map (draw_of (Int.uwrap (lattice_size (dim ii)))) (models n)) as Hdraws.
    { intros i cmds Hi. cbn in Hi. rewrite list_lookup_imap in Hi.
      destruct (draw_cmd_buffers n !! i); [| discriminate].
      injection Hi as <-. apply indexed_draws_of_frame. }
    split; [exact Hdraws |].
    intros model Hmodels Hdim i cmds Hi.
    rewrite (Hdraws i cmds Hi), Hmodels, Hdim. reflexivity.
  - intros Hv. rewrite (lattice_size_valid _ Hv).
    destruct Hv as (Hx & Hy & Hz & Hmax). unfold Int.INT_MAX in Hmax.
    apply Int.uwrap_small. nia.
  - intros path doc w0 w1 w2 b0 b1 b2 Hp Hm Hv Hf Hreads Hrange.
    destruct (load_mlps_single_model env n path doc w0 w1 w2 b0 b1 b2
                Hp Hm Hv Hf Hreads Hrange) as (n' & Hrun & Hmodels).
    exists n', (Model_of 0 1). split; [exact Hrun |]. split; [exact Hmodels | reflexivity].
  - intros deferred width height depth_format swapchain_format size look.
    set (r := prepare (H := mobile_nerf_h)
                (single_model_env deferred width height depth_format swapchain_format size
                   look) Nerf_new).
    destruct deferred; vm_compute in r; subst r;
      (eexists _, _; split; [reflexivity |]); repeat split; reflexivity.
Qed.

(** ** SceneCatalog: a bad lattice stops the run before the GPU is touched *)

(** A stop that ends the process: [exit] with a failure code, a failed
    assertion, an exception that nothing catches. *)
Definition fatal (h : halt) : Prop :=
  match h with
  | Exit code => code ≠ 0
  | AssertFailed => True
  | Thrown _ => True
  | Undefined _ => False
  end.

(** A step that creates nothing on the GPU and stops, if it stops, by
    ending the process; what it returns satisfies [P]. *)
Definition quiet {A} (P : A → Prop) (c : M Nerf A) : Prop :=
  ∀ s, match c s with
       | Ok a s' => P a ∧ gpu s' = gpu s
       | Halt h s' => fatal h ∧ gpu s' = gpu s
       end.

Lemma quiet_ret {A} (P : A → Prop) (a : A) : P a → quiet P (ret a).
Proof. intros Ha s. split; [exact Ha | reflexivity]. Qed.

Lemma quiet_bind {A B} (P : A → Prop) (Q : B → Prop) (c : M Nerf A) (k : A → M Nerf B) :
  quiet P c → (∀ a, P a → quiet Q (k a)) → quiet Q (c ≫= k).
Proof.
  intros Hc Hk s. unfold mbind, M_bind, bind. specialize (Hc s).
  destruct (c s) as [a s'|h s'].
  - destruct Hc as [Ha Hg]. specialize (Hk a Ha s').
    destruct (k a s') as [b s''|h s'']; destruct Hk as [Hb Hg']; (split; [exact Hb | congruence]).
  - exact Hc.
Qed.

Lemma quiet_lift {A} (r : jres A) : quiet (λ a, r = JOk a) (lift r).
Proof. intros s. destruct r as [a|e]; cbn; split; trivial. Qed.

Lemma quiet_weaken {A} (P Q : A → Prop) (c : M Nerf A) :
  quiet P c → (∀ a, P a → Q a) → quiet Q c.
Proof.
  intros Hc HPQ s. specialize (Hc s). destruct (c s); [| exact Hc].
  destruct Hc. split; auto.
Qed.

Lemma quiet_lift_True {A} (r : jres A) : quiet (λ _, True) (lift r).
Proof. apply (quiet_weaken _ _ _ (quiet_lift r)). trivial. Qed.

Lemma quiet_get : quiet (λ _, True) get.
Proof. intros s. split; trivial. Qed.

Lemma quiet_logf lvl msg a : quiet (λ _, True) (logf lvl msg a).
Proof. intros s. split; trivial. Qed.

Lemma quiet_modify (f : Nerf → Nerf) :
  (∀ n, gpu (f n) = gpu n) → quiet (λ _, True) (modify f).
Proof. intros Hf s. split; [trivial | apply Hf]. Qed.

Lemma quiet_stop {A} (P : A → Prop) h : fatal h → quiet P (stop h).
Proof. intros Hh s. split; [exact Hh | reflexivity]. Qed.

Lemma quiet_for_range (body : nat → M Nerf unit) cnt i :
  (∀ j, quiet (λ _, True) (body j)) → quiet (λ _, True) (for_range cnt i body).
Proof.
  intros Hbody. revert i. induction cnt as [|cnt IH]; intros i; simpl.
  - apply quiet_ret. trivial.
  - apply (quiet_bind (λ _, True) _ (body i) (λ _, for_range cnt (S i) body)).
    + apply Hbody.
    + intros _ _. apply IH.
Qed.

(** A command that is a sequence of such steps is one. *)
Ltac quiet_auto :=
  lazymatch goal with
  | |- quiet _ (_ ≫= _) =>
      eapply (quiet_bind (λ _, True)); [quiet_auto | intros ? _; quiet_auto]
  | |- quiet _ (if ?b then _ else _) => destruct b; quiet_auto
  | |- quiet _ (logf _ _ _) => apply quiet_logf
  | |- quiet _ (modify _) => apply quiet_modify; intros; reflexivity
  | |- quiet _ (lift _) => apply quiet_lift_True
  | |- quiet _ get => apply quiet_get
  | |- quiet _ (ret _) => apply quiet_ret; trivial
  | |- quiet _ (stop _) => apply quiet_stop; cbn; try lia; trivial
  | |- quiet _ (for_range _ _ _) => apply quiet_for_range; intros; quiet_auto
  end.

Ltac quiet_next := eapply (quiet_bind (λ _, True)); [quiet_auto | intros ? _].

Section SceneFacts.
Variable env : Env.

(** The configuration document, when there is one to parse. *)
Definition raw_asset_map_of : option json :=
  match nerf_json_file env with
  | Some None => None
  | Some (Some raw_asset_map) => Some raw_asset_map
  | None => Some nerf_obj_json
  end.

(** The entry of the target scene in the configuration. *)
Definition resolved_asset_map : option json :=
  match raw_asset_map_of with
  | None => None
  | Some raw_asset_map =>
      match Json.key_as Json.get_string raw_asset_map "target_model" with
      | JThrow _ => None
      | JOk target_model =>
          match Json.at_key raw_asset_map target_model with
          | JThrow _ => None
          | JOk asset_map => Some asset_map
          end
      end
  end.

(** A component of a triple that reads as a value that is not positive. *)
Definition nonpositive {A} (get : json → jres A) (nonpos : A → bool)
    (triple : json) (i : nat) : bool :=
  match Json.idx_as get triple i with
  | JOk v => nonpos v
  | JThrow _ => false
  end.

(** A triple that is absent or not an array of 3 elements, or that has a
    component which reads as a value that is not positive. *)
Definition bad_triple {A} (get : json → jres A) (nonpos : A → bool) (triple : json) : bool :=
  negb (is_array_of_3 triple) ||
  nonpositive get nonpos triple 0 || nonpositive get nonpos triple 1 ||
  nonpositive get nonpos triple 2.

(** The instancing parameters of a scene are bad when its dimension
    triple or its interval triple is: a dimension is read as an [int], an
    interval as a [float]. *)
Definition bad_instancing (asset_map : json) : bool :=
  match Json.at_key asset_map "instancing" with
  | JThrow _ => true
  | JOk instacing_map =>
      match Json.at_key instacing_map "dim" with
      | JThrow _ => true
      | JOk dim_j => bad_triple Json.get_int (λ d, d <=? 0) dim_j
      end ||
      match Json.at_key instacing_map "interval" with
      | JThrow _ => true
      | JOk interval_j => bad_triple Json.get_float (λ f, F32.leb f F32.zero) interval_j
      end
  end.

(** The configuration has a target scene, with bad instancing parameters. *)
Definition bad_instancing_config : bool :=
  match resolved_asset_map with
  | Some asset_map => bad_instancing asset_map
  | None => false
  end.

(** A triple that is absent is bad, and so is one with a number that is
    not above zero among its components. *)
Lemma bad_triple_absent {A} (get : json → jres A) nonpos : bad_triple get nonpos JNull = true.
Proof. reflexivity. Qed.

Lemma nonpositive_int_number l i z :
  l !! i = Some (JInt z) → Int.in_range z = true → z ≤ 0 →
  nonpositive Json.get_int (λ d, d <=? 0) (JArray l) i = true.
Proof.
  intros Hl Hr Hz. unfold nonpositive, Json.idx_as, Json.at_idx. rewrite Hl. cbn.
  rewrite (Int.wrap_in_range z Hr). apply Z.leb_le. exact Hz.
Qed.

Lemma nonpositive_float_number l i z :
  l !! i = Some (JInt z) → z ≤ 0 →
  nonpositive Json.get_float (λ f, F32.leb f F32.zero) (JArray l) i = true.
Proof.
  intros Hl Hz. unfold nonpositive, Json.idx_as, Json.at_idx. rewrite Hl. cbn.
  apply F32.of_int_nonpos. exact Hz.
Qed.

Lemma nonpositive_float_value l i f :
  l !! i = Some (JFloat f) → F32.leb f F32.zero = true →
  nonpositive Json.get_float (λ f, F32.leb f F32.zero) (JArray l) i = true.
Proof.
  intros Hl Hf. unfold nonpositive, Json.idx_as, Json.at_idx. rewrite Hl. exact Hf.
Qed.

Lemma load_raw_asset_map_quiet :
  quiet (λ raw_asset_map, raw_asset_map_of = Some raw_asset_map) (load_raw_asset_map env).
Proof.
  unfold load_raw_asset_map, raw_asset_map_of.
  destruct (nerf_json_file env) as [[raw|]|].
  - eapply (quiet_bind (λ _, True)); [quiet_auto | intros ? _].
    apply quiet_ret. reflexivity.
  - quiet_auto.
  - apply quiet_ret. reflexivity.
Qed.

Lemma feature_map_format_of_quiet textureType :
  quiet (λ _, True) (feature_map_format_of textureType).
Proof. unfold feature_map_format_of. quiet_auto. Qed.

(** [read_scene] returns the entry of the target scene, if it returns. *)
Lemma read_scene_quiet :
  quiet (λ asset_map, resolved_asset_map = Some asset_map) (read_scene env).
Proof.
  unfold read_scene. quiet_next.
  eapply quiet_bind; [apply load_raw_asset_map_quiet | intros raw Hraw].
  eapply quiet_bind; [apply quiet_lift | intros target_model Htm].
  eapply quiet_bind; [apply quiet_lift | intros asset_map Ham].
  do 4 quiet_next.
  quiet_next.
  eapply (quiet_bind (λ _, True)); [apply feature_map_format_of_quiet | intros ? _].
  do 10 quiet_next.
  apply quiet_ret. unfold resolved_asset_map. rewrite Hraw, Htm, Ham. reflexivity.
Qed.

Lemma is_array_of_3_inv j :
  is_array_of_3 j = true → ∃ a b c, j = JArray [a; b; c].
Proof.
  unfold is_array_of_3. destruct j as [| | | | |l|]; cbn; try discriminate.
  intros Hl. apply bool_decide_eq_true in Hl.
  destruct l as [|a [|b [|c [|d l]]]]; cbn in Hl; try discriminate.
  exists a, b, c. reflexivity.
Qed.
End SceneFacts.

Lemma bind_assoc {St A B C} (c : M St A) (k1 : A → M St B) (k2 : B → M St C) s :
  bind (bind c k1) k2 s = bind c (λ a, bind (k1 a) k2) s.
Proof. unfold bind. destruct (c s); reflexivity. Qed.

Section InstancingChecks.
Variable env : Env.

Lemma nonpositive_dim_read (d : Z) :
  (d <=? 0) = true → (F32.to_int (F32.of_int d) <=? 0) = true.
Proof.
  intros Hd. apply Z.leb_le in Hd. apply Z.leb_le.
  apply F32.to_int_of_int_nonpos. exact Hd.
Qed.

(** The run has stopped, in one of the two ways. *)
Ltac stopped :=
  eexists _, _; split; [reflexivity |];
  split; [first [left; reflexivity | right; eexists; reflexivity] | reflexivity].

(** The next read of the document: it gives a value, or it throws. *)
Ltac read_json v H :=
  rewrite ?bind_assoc;
  match goal with
  | |- context [lift ?r] =>
      destruct r as [v|?] eqn:H; [rewrite (run_lift _ _ _ _ eq_refl) | solve [stopped]]
  end.

(** With bad instancing parameters, [read_instancing] ends the process:
    by [exit(1)], or by the exception of a component that is no number. *)
Lemma read_instancing_bad asset_map s :
  bad_instancing asset_map = true →
  ∃ h s', read_instancing asset_map s = Halt h s' ∧
          (h = Exit 1 ∨ ∃ what, h = Thrown what) ∧ gpu s' = gpu s.
Proof.
  intros Hbad. unfold bad_instancing, bad_triple, nonpositive in Hbad.
  unfold read_instancing, mbind, M_bind.
  read_json instacing_map Him. cbv beta iota in Hbad.
  read_json dim_j Hdim. cbv beta iota in Hbad.
  destruct (is_array_of_3 dim_j) eqn:Hd3; [| stopped].
  read_json dx Hdx. read_json dy Hdy. read_json dz Hdz.
  rewrite ?bind_assoc, run_modify.
  read_json interval_j Hint. cbv beta iota in Hbad.
  destruct (is_array_of_3 interval_j) eqn:Hi3; [| stopped].
  read_json ix Hix. read_json iy Hiy. read_json iz Hiz.
  rewrite ?bind_assoc, run_modify, run_get. cbv zeta.
  cbn [instancing_info set_instancing_info dim interval glm.x glm.y glm.z
       glm.ivec3_of_vec3 glm.vec3_of_ints glm.map3].
  match goal with
  | |- context [if ?c then _ else _] => destruct c eqn:Hc; [stopped |]
  end.
  exfalso. cbn [negb orb] in Hbad.
  apply orb_false_elim in Hc as [Hc Hiz'].
  apply orb_false_elim in Hc as [Hc Hiy'].
  apply orb_false_elim in Hc as [Hc Hix'].
  apply orb_false_elim in Hc as [Hc Hdz'].
  apply orb_false_elim in Hc as [Hdx' Hdy'].
  repeat (apply orb_true_iff in Hbad as [Hbad|Hbad]);
    try (apply nonpositive_dim_read in Hbad); congruence.
Qed.

(** C4 on [read_json_map] alone. *)
Lemma read_json_map_bad n :
  bad_instancing_config env = true →
  ∃ h s, read_json_map env n = Halt h s ∧ fatal h ∧ gpu s = gpu n.
Proof.
  intros Hbad. unfold read_json_map, mbind, M_bind, bind.
  pose proof (read_scene_quiet env n) as Hscene.
  destruct (read_scene env n) as [asset_map s1|h s1].
  - destruct Hscene as [Hres Hgpu].
    unfold bad_instancing_config in Hbad. rewrite Hres in Hbad.
    destruct (read_instancing_bad asset_map s1 Hbad) as (h & s' & -> & Hh & Hgpu').
    exists h, s'. split; [reflexivity |]. split; [| congruence].
    destruct Hh as [->|[what ->]]; cbn; [lia | trivial].
  - exists h, s1. split; [reflexivity |]. exact Hscene.
Qed.
End InstancingChecks.

(** *** The parameters as they are written in the document *)

(** A number of the document that is not above zero. *)
Definition number_nonpositive (j : json) : bool :=
  match j with
  | JInt z => z <=? 0
  | JFloat f => F32.leb f F32.zero
  | _ => false
  end.

(** An integer of the document that fits an [int]. *)
Definition fits_int (j : json) : bool :=
  match j with
  | JInt z => Int.in_range z
  | _ => true
  end.

(** A triple that is absent or not an array of 3 elements, or that has
    among its components a number that is not above zero and [fits]. *)
Definition written_bad_triple (fits : json → bool) (triple : json) : bool :=
  negb (is_array_of_3 triple) ||
  match triple with
  | JArray l => existsb (λ j, number_nonpositive j && fits j) l
  | _ => false
  end.

(** The dimension or the interval triple of the scene is such a triple;
    [fits] restricts the numbers of the dimension triple. *)
Definition written_bad_instancing (fits : json → bool) (asset_map : json) : bool :=
  match Json.at_key asset_map "instancing" with
  | JThrow _ => true
  | JOk instacing_map =>
      match Json.at_key instacing_map "dim" with
      | JThrow _ => true
      | JOk dim_j => written_bad_triple fits dim_j
      end ||
      match Json.at_key instacing_map "interval" with
      | JThrow _ => true
      | JOk interval_j => written_bad_triple (λ _, true) interval_j
      end
  end.

Definition written_bad_instancing_config (fits : json → bool) (env : Env) : bool :=
  match resolved_asset_map env with
  | Some asset_map => written_bad_instancing fits asset_map
  | None => false
  end.

Lemma nonpositive_int_written l i j :
  l !! i = Some j → number_nonpositive j && fits_int j = true →
  nonpositive Json.get_int (λ d, d <=? 0) (JArray l) i = true.
Proof.
  intros Hl [Hj Hfits]%andb_prop. destruct j as [| |z|f| | |]; try discriminate.
  - apply (nonpositive_int_number l i z Hl Hfits). apply Z.leb_le. exact Hj.
  - unfold nonpositive, Json.idx_as, Json.at_idx. rewrite Hl. cbn.
    apply Z.leb_le, F32.to_int_nonpos. exact Hj.
Qed.

Lemma nonpositive_float_written l i j :
  l !! i = Some j → number_nonpositive j = true →
  nonpositive Json.get_float (λ f, F32.leb f F32.zero) (JArray l) i = true.
Proof.
  intros Hl Hj. destruct j as [| |z|f| | |]; try discriminate.
  - apply (nonpositive_float_number l i z Hl). apply Z.leb_le. exact Hj.
  - apply (nonpositive_float_value l i f Hl Hj).
Qed.

(** A triple that is bad as it is written is bad as the program reads it,
    when the integers of a dimension fit an [int]. *)
Lemma written_bad_triple_reads_bad {A} (get : json → jres A) nonpos fits triple :
  (∀ l i j, l !! i = Some j → number_nonpositive j && fits j = true →
            nonpositive get nonpos (JArray l) i = true) →
  written_bad_triple fits triple = true → bad_triple get nonpos triple = true.
Proof.
  intros Hread Hbad. unfold written_bad_triple in Hbad. unfold bad_triple.
  destruct (is_array_of_3 triple) eqn:H3; [| reflexivity].
  destruct (is_array_of_3_inv _ H3) as (a & b & c & ->).
  cbn [negb orb existsb] in *.
  rewrite orb_false_r in Hbad.
  apply orb_true_iff in Hbad as [Ha|Hbad];
    [rewrite (Hread [a; b; c] 0%nat a eq_refl Ha); reflexivity |].
  apply orb_true_iff in Hbad as [Hb|Hc].
  - rewrite (Hread [a; b; c] 1%nat b eq_refl Hb), orb_true_r. reflexivity.
  - rewrite (Hread [a; b; c] 2%nat c eq_refl Hc). apply orb_true_r.
Qed.

Lemma written_bad_instancing_reads_bad asset_map :
  written_bad_instancing fits_int asset_map = true → bad_instancing asset_map = true.
Proof.
  unfold written_bad_instancing, bad_instancing.
  destruct (Json.at_key asset_map "instancing") as [instacing_map|]; [| trivial].
  intros [Hdim|Hint]%orb_true_iff; apply orb_true_iff; [left | right].
  - destruct (Json.at_key instacing_map "dim") as [dim_j|]; [| reflexivity].
    apply (written_bad_triple_reads_bad _ _ fits_int); [| exact Hdim].
    exact nonpositive_int_written.
  - destruct (Json.at_key instacing_map "interval") as [interval_j|]; [| reflexivity].
    apply (written_bad_triple_reads_bad _ _ (λ _, true)); [| exact Hint].
    intros l i j Hl Hj. rewrite andb_true_r in Hj.
    exact (nonpositive_float_written l i j Hl Hj).
Qed.

(** C4, as amended: for every configuration whose target scene has bad
    instancing parameters (the dimension or the interval triple is absent
    or not an array of 3 elements, or has a component that reads as a value
    not above zero: a dimension read as an [int], an interval as a
    [float]), scene resolution ends the process, by [exit(1)] or by an
    exception that nothing catches; [prepare] ends there with it, and
    nothing has been created on the GPU by then. A number that is written
    as not above zero reads as such, provided that an integer given as a
    dimension fits an [int]. *)
Theorem bad_instancing_is_fatal `{NerfHeader} (env : Env) (n : Nerf) :
  (written_bad_instancing_config fits_int env = true → bad_instancing_config env = true) ∧
  (bad_instancing_config env = true →
   ∃ h s, read_json_map env n = Halt h s ∧
          prepare env n = Halt h s ∧
          fatal h ∧
          gpu s = gpu n).
Proof.
  split.
  - unfold written_bad_instancing_config, bad_instancing_config.
    destruct (resolved_asset_map env) as [asset_map|]; [| trivial].
    apply written_bad_instancing_reads_bad.
  - intros Hbad.
    destruct (read_json_map_bad env n Hbad) as (h & s & Hrun & Hh & Hgpu).
    exists h, s. split; [exact Hrun |]. split; [| split; assumption].
    unfold prepare, mbind, M_bind. apply bind_Halt. exact Hrun.
Qed.

(** A configuration whose lattice has no cell along x. *)
Definition empty_lattice_json : json :=
  JObject [ ("width", JInt 0);
            ("height", JInt 0);
            ("texture_type", JString "8bit");
            ("target_model", JString "lego_ball");
            ("deferred", JBool false);
            ("rotation", JBool true);
            ("lego_ball",
             JObject [ ("path", JString "scenes/morpheus_team/lego_ball_phone/");
                       ("num_sub_model", JInt 1);
                       ("original", JBool false);
                       ("camera", JArray [JInt (-1); JInt 1; JInt 1]);
                       ("instancing",
                        JObject [ ("dim", JArray [JInt 0; JInt 1; JInt 1]);
                                  ("interval", JArray [JInt 2; JInt 2; JInt 2]) ]) ]) ].

Definition empty_lattice_env : Env :=
  {| asset_base := "assets/";
     nerf_json_file := Some (Some empty_lattice_json);
     read_json_file := λ path,
       if String.eqb path "assets/scenes/morpheus_team/lego_ball_phone/mlp.json"
       then Some single_model_mlp else None;
     framework_prepare_ok := true;
     width := 1280; height := 720;
     swapchain_image_count := 3;
     depth_format := Vk.VK_FORMAT_of_device 126;
     swapchain_format := Vk.VK_FORMAT_of_device 44;
     sizeof_global_uniform := 256;
     read_scene_from_file := λ _, Some one_triangle;
     look_at_decompose := λ eye _ _, (glm.Vec3 F32.zero F32.zero F32.zero, eye) |}.

Lemma bad_instancing_is_fatal_witness :
  written_bad_instancing_config fits_int empty_lattice_env = true ∧
  bad_instancing_config empty_lattice_env = true ∧
  ∃ h s, read_json_map empty_lattice_env Nerf_new = Halt h s ∧
         prepare (H := mobile_nerf_h) empty_lattice_env Nerf_new = Halt h s ∧
         fatal h ∧
         gpu s = gpu Nerf_new.
Proof.
  split; [reflexivity |].
  destruct (bad_instancing_is_fatal (H := mobile_nerf_h) empty_lattice_env Nerf_new)
    as [Hwritten Hfatal].
  split; [apply Hwritten; reflexivity |].
  apply Hfatal, Hwritten. reflexivity.
Defined.

(** A configuration whose lattice has, as it is written, a dimension far
    below zero: as an [int] it is 1. *)
Definition wrapped_lattice_json : json :=
  JObject [ ("width", JInt 0);
            ("height", JInt 0);
            ("texture_type", JString "8bit");
            ("target_model", JString "lego_ball");
            ("deferred", JBool false);
            ("rotation", JBool true);
            ("lego_ball",
             JObject [ ("path", JString "scenes/morpheus_team/lego_ball_phone/");
                       ("num_sub_model", JInt 1);
                       ("original", JBool false);
                       ("camera", JArray [JInt (-1); JInt 1; JInt 1]);
                       ("instancing",
                        JObject [ ("dim", JArray [JInt (-4294967295); JInt 1; JInt 1]);
                                  ("interval", JArray [JInt 2; JInt 2; JInt 2]) ]) ]) ].

Definition wrapped_lattice_env : Env :=
  {| asset_base := "assets/";
     nerf_json_file := Some (Some wrapped_lattice_json);
     read_json_file := λ path,
       if String.eqb path "assets/scenes/morpheus_team/lego_ball_phone/mlp.json"
       then Some single_model_mlp else None;
     framework_prepare_ok := true;
     width := 1280; height := 720;
     swapchain_image_count := 3;
     depth_format := Vk.VK_FORMAT_of_device 126;
     swapchain_format := Vk.VK_FORMAT_of_device 44;
     sizeof_global_uniform := 256;
     read_scene_from_file := λ _, Some one_triangle;
     look_at_decompose := λ eye _ _, (glm.Vec3 F32.zero F32.zero F32.zero, eye) |}.

(** C4 does not hold as it is worded: the dimension triple of this scene
    has a component that is not above zero, -4294967295, and yet scene
    resolution returns, with a lattice of dimensions (1,1,1), and [prepare]
    returns true, having created its objects on the GPU. *)
Lemma bad_instancing_counterexample :
  let r := prepare (H := mobile_nerf_h) wrapped_lattice_env Nerf_new in
  written_bad_instancing_config (λ _, true) wrapped_lattice_env = true ∧
  halted (read_json_map wrapped_lattice_env Nerf_new) = None ∧
  r = Ok true (final r) ∧
  dim (instancing_info (final r)) = glm.Vec3 1 1 1 ∧
  gpu (final r) ≠ [].
Proof.
  intros r. split; [reflexivity |]. split; [vm_compute; reflexivity |].
  split; [vm_compute; reflexivity |]. split; [vm_compute; reflexivity |].
  vm_compute. discriminate.
Qed.

(** ** The instancing grid on three lattices *)

(** The lattice of the compiled-in configuration: 2 x 2 x 2 cells, 1.5
    apart. *)
Definition default_lattice_state : Nerf :=
  set_instancing_info
    {| dim := glm.Vec3 2 2 2;
       interval := glm.Vec3 (f32 false 12582912 (-23)) (f32 false 12582912 (-23))
                            (f32 false 12582912 (-23)) |}
    Nerf_new.

Lemma instancing_grid_witness :
  valid_dim (dim (instancing_info default_lattice_state)) ∧
  ∃ n', prepare_instance_data default_lattice_state = Ok tt n' ∧
        length (instance_data_of n') = 8%nat ∧
        offsets_of (instance_data_of n') !! 0%nat
        = Some (glm.Vec3 (f32 true 12582912 (-24)) (f32 true 12582912 (-24))
                         (f32 true 12582912 (-24))).
Proof.
  assert (valid_dim (dim (instancing_info default_lattice_state))) as Hv
    by (unfold valid_dim, default_lattice_state, Int.INT_MAX; cbn; lia).
  split; [exact Hv |].
  destruct (instancing_grid default_lattice_state Hv) as [(n' & Hrun & Hlen & _ & Hat) _].
  exists n'. split; [exact Hrun |]. split; [exact Hlen |].
  apply (Hat 0%nat 0%nat 0%nat); vm_compute; lia.
Defined.

(** The binary32 number 0.1f. *)
Definition f32_tenth : float := f32 false 13421773 (-27).

(** A row of 4 cells, 0.1 apart. *)
Definition row_lattice_state : Nerf :=
  set_instancing_info
    {| dim := glm.Vec3 4 1 1; interval := glm.Vec3 f32_tenth f32_tenth f32_tenth |}
    Nerf_new.

(** A lattice of 65536 x 65536 x 1 cells, 1.5 apart: its size is 2^32. *)
Definition huge_lattice_state : Nerf :=
  set_instancing_info
    {| dim := glm.Vec3 65536 65536 1;
       interval := glm.Vec3 (f32 false 12582912 (-23)) (f32 false 12582912 (-23))
                            (f32 false 12582912 (-23)) |}
    Nerf_new.

(** C3 as stated fails. The dimensions (4,1,1) are all at least 1 and the
    intervals 0.1 all above zero, and of the 4 offsets that
    [prepare_instance_data] produces the second has no negation among
    them. The dimensions (65536,65536,1) are all at least 1 too, and their
    product 2^32 does not fit [int]: it wraps to 0, the vector is given no
    element and the first offset is written past its end. *)
Lemma instancing_grid_counterexample :
  (valid_dim (dim (instancing_info row_lattice_state)) ∧
   F32.leb f32_tenth F32.zero = false ∧
   ∃ n' p,
     prepare_instance_data row_lattice_state = Ok tt n' ∧
     length (instance_data_of n') = 4%nat ∧
     offsets_of (instance_data_of n') !! 1%nat = Some p ∧
     existsb (vec3_eqb (glm.map3 F32.neg p)) (offsets_of (instance_data_of n')) = false ∧
     symmetric_about_origin (offsets_of (instance_data_of n')) = false) ∧
  (lattice_size (dim (instancing_info huge_lattice_state)) = 0 ∧
   prepare_instance_data huge_lattice_state
   = Halt (Undefined "vector subscript out of range") huge_lattice_state).
Proof.
  split; [split; [| split] | split].
  - unfold valid_dim, row_lattice_state, Int.INT_MAX; cbn; lia.
  - reflexivity.
  - eexists _, _. split; [vm_compute; reflexivity |].
    repeat split; reflexivity.
  - reflexivity.
  - vm_compute. reflexivity.
Qed.

(** ** A description with counts that differ *)

(** The description of [single_model_mlp], but with a row more of layer-0
    weights and with layer-2 arrays of the padded sizes. *)
Definition long_mlp : json :=
  JObject [ ("obj_num", JInt 1);
            ("0_weights", JArray (replicate 12 (zeros 16)));
            ("1_weights", JArray (replicate 16 (zeros 16)));
            ("2_weights", JArray (replicate 16 (zeros 4)));
            ("0_bias", zeros 16);
            ("1_bias", zeros 16);
            ("2_bias", zeros 4) ].

Definition long_mlp_env : Env :=
  {| asset_base := "assets/";
     nerf_json_file := Some (Some (single_model_json false));
     read_json_file := λ path,
       if String.eqb path "assets/scenes/morpheus_team/lego_ball_phone/mlp.json"
       then Some long_mlp else None;
     framework_prepare_ok := true;
     width := 1280; height := 720;
     swapchain_image_count := 3;
     depth_format := Vk.VK_FORMAT_of_device 126;
     swapchain_format := Vk.VK_FORMAT_of_device 44;
     sizeof_global_uniform := 256;
     read_scene_from_file := λ _, Some one_triangle;
     look_at_decompose := λ eye _ _, (glm.Vec3 F32.zero F32.zero F32.zero, eye) |}.

(** The object when the scene is resolved and the buffer of its one model
    is there. *)
Definition resolved_state : Nerf :=
  set_mlp_weight_vector [@MLP_Weights_zero mobile_nerf_h]
    (set_model_path ["scenes/morpheus_team/lego_ball_phone/"] Nerf_new).

Definition zero_rows (rows cols : nat) : list (list float) :=
  replicate rows (replicate cols F32.zero).


(** * More of the sample: what its functions keep and what they establish *)

(** ** Triples

    [triple P c Q E]: from a state that satisfies [P], the computation [c]
    returns a value and a state that satisfy [Q], or halts in a state that
    satisfies [E]. *)

Definition triple {St A} (P : St → Prop) (c : M St A)
    (Q : A → St → Prop) (E : halt → St → Prop) : Prop :=
  ∀ s, P s → match c s with
             | Ok a s' => Q a s'
             | Halt h s' => E h s'
             end.

Lemma triple_ret {St A} (P : St → Prop) (a : A) (Q : A → St → Prop) E :
  (∀ s, P s → Q a s) → triple P (ret a) Q E.
Proof. intros H s Hs. apply H, Hs. Qed.

Lemma triple_bind {St A B} (P : St → Prop) (c : M St A) (k : A → M St B)
    (Q : A → St → Prop) (R : B → St → Prop) E :
  triple P c Q E → (∀ a, triple (Q a) (k a) R E) → triple P (c ≫= k) R E.
Proof.
  intros Hc Hk s Hs. unfold mbind, M_bind, bind. specialize (Hc s Hs).
  destruct (c s) as [a s'|h s']; [apply (Hk a s' Hc) | exact Hc].
Qed.

Lemma triple_conseq {St A} (P P' : St → Prop) (c : M St A)
    (Q Q' : A → St → Prop) (E E' : halt → St → Prop) :
  triple P' c Q' E' → (∀ s, P s → P' s) → (∀ a s, Q' a s → Q a s) →
  (∀ h s, E' h s → E h s) → triple P c Q E.
Proof.
  intros Hc HP HQ HE s Hs. specialize (Hc s (HP s Hs)).
  destruct (c s); auto.
Qed.

Lemma triple_get {St} (P : St → Prop) E : triple P get (λ a s, a = s ∧ P s) E.
Proof. intros s Hs. split; [reflexivity | exact Hs]. Qed.

Lemma triple_modify {St} (P : St → Prop) (f : St → St) (Q : unit → St → Prop) E :
  (∀ s, P s → Q tt (f s)) → triple P (modify f) Q E.
Proof. intros H s Hs. apply H, Hs. Qed.

Lemma triple_stop {St A} (P : St → Prop) h (Q : A → St → Prop) (E : halt → St → Prop) :
  (∀ s, P s → E h s) → triple P (stop h) Q E.
Proof. intros H s Hs. apply H, Hs. Qed.

Lemma triple_lift {St A} (P : St → Prop) (r : jres A) (E : halt → St → Prop) :
  (∀ what s, P s → E (Thrown what) s) →
  triple P (lift r) (λ a s, r = JOk a ∧ P s) E.
Proof.
  intros HE s Hs. destruct r as [a|what]; cbn.
  - split; [reflexivity | exact Hs].
  - apply HE, Hs.
Qed.

Lemma triple_vec_at {St A} (P : St → Prop) (v : list A) i (E : halt → St → Prop) :
  (∀ what s, P s → E (Undefined what) s) →
  triple P (vec_at v i) (λ a s, v !! i = Some a ∧ P s) E.
Proof.
  intros HE s Hs. unfold vec_at. destruct (v !! i) as [a|]; cbn.
  - split; [reflexivity | exact Hs].
  - apply HE, Hs.
Qed.

Lemma triple_for_range {St} (I : nat → St → Prop) (body : nat → M St unit) cnt i E :
  (∀ j, (i ≤ j < i + cnt)%nat → triple (I j) (body j) (λ _, I (S j)) E) →
  triple (I i) (for_range cnt i body) (λ _, I (i + cnt)%nat) E.
Proof.
  revert i. induction cnt as [|cnt IH]; intros i Hbody; simpl.
  - apply triple_ret. intros s Hs. rewrite Nat.add_0_r. exact Hs.
  - apply (triple_bind _ _ _ (λ _, I (S i))).
    + apply Hbody. lia.
    + intros _. replace (i + S cnt)%nat with (S i + cnt)%nat by lia.
      apply IH. intros j Hj. apply Hbody. lia.
Qed.

(** ** Invariants

    [keeps I c]: whatever way [c] ends, [I] still holds. *)

Definition keeps {St A} (I : St → Prop) (c : M St A) : Prop :=
  triple I c (λ _, I) (λ _, I).

Lemma keeps_final {St A} (I : St → Prop) (c : M St A) s :
  keeps I c → I s → I (final (c s)).
Proof. intros Hc Hs. specialize (Hc s Hs). destruct (c s); exact Hc. Qed.

Lemma keeps_ret {St A} (I : St → Prop) (a : A) : keeps I (ret a).
Proof. apply triple_ret. auto. Qed.

Lemma keeps_bind {St A B} (I : St → Prop) (c : M St A) (k : A → M St B) :
  keeps I c → (∀ a, keeps I (k a)) → keeps I (c ≫= k).
Proof. intros Hc Hk. exact (triple_bind _ _ _ _ _ _ Hc Hk). Qed.

Lemma keeps_get {St} (I : St → Prop) : keeps I get.
Proof. intros s Hs. exact Hs. Qed.

Lemma keeps_modify {St} (I : St → Prop) (f : St → St) :
  (∀ s, I s → I (f s)) → keeps I (modify f).
Proof. intros H s Hs. apply H, Hs. Qed.

Lemma keeps_stop {St A} (I : St → Prop) h : keeps I (@stop St A h).
Proof. intros s Hs. exact Hs. Qed.

Lemma keeps_lift {St A} (I : St → Prop) (r : jres A) : keeps I (@lift St A r).
Proof. intros s Hs. destruct r; exact Hs. Qed.

Lemma keeps_vec_at {St A} (I : St → Prop) (v : list A) i : keeps I (@vec_at St A v i).
Proof. intros s Hs. unfold vec_at. destruct (v !! i); exact Hs. Qed.

Lemma keeps_for_range {St} (I : St → Prop) (body : nat → M St unit) cnt i :
  (∀ j, keeps I (body j)) → keeps I (for_range cnt i body).
Proof.
  intros Hbody. revert i. induction cnt as [|cnt IH]; intros i; simpl.
  - apply keeps_ret.
  - apply (keeps_bind I (body i) (λ _, for_range cnt (S i) body)); [apply Hbody |].
    intros _. apply IH.
Qed.

Lemma keeps_for_each {St A} (I : St → Prop) (body : A → M St unit) xs :
  (∀ x, keeps I (body x)) → keeps I (for_each xs body).
Proof.
  intros Hbody. induction xs as [|x xs IH]; simpl.
  - apply keeps_ret.
  - apply (keeps_bind I (body x) (λ _, for_each xs body)); [apply Hbody |].
    intros _. apply IH.
Qed.

Lemma keeps_for_range_with {St A} (I : St → Prop) (body : nat → A → M St A) cnt i a :
  (∀ j b, keeps I (body j b)) → keeps I (for_range_with cnt i body a).
Proof.
  intros Hbody. revert i a. induction cnt as [|cnt IH]; intros i a; simpl.
  - apply keeps_ret.
  - apply (keeps_bind I (body i a) (for_range_with cnt (S i) body)); [apply Hbody |].
    intros b. apply IH.
Qed.

Lemma keeps_logf (I : Nerf → Prop) lvl msg a :
  (∀ s v, I s → I (set_log v s)) → keeps I (logf lvl msg a).
Proof. intros H. apply keeps_modify. intros s Hs. apply H, Hs. Qed.

Lemma keeps_gpu_call (I : Nerf → Prop) c :
  (∀ s v, I s → I (set_gpu v s)) → keeps I (gpu_call c).
Proof. intros H. apply keeps_modify. intros s Hs. apply H, Hs. Qed.

Lemma keeps_on_model_mlp (I : Nerf → Prop) model_index (c : M MLP_Weights unit) :
  (∀ s w, I s → I (set_mlp_weight_vector (<[model_index := w]> (mlp_weight_vector s)) s)) →
  keeps I (on_model_mlp model_index c).
Proof.
  intros HI s Hs. unfold on_model_mlp.
  destruct (mlp_weight_vector s !! model_index) as [w|]; [| exact Hs].
  destruct (c w); apply HI, Hs.
Qed.

Lemma keeps_on_model (I : Nerf → Prop) models_entry (c : M Model unit) :
  (∀ s m, I s → I (set_models (<[models_entry := m]> (models s)) s)) →
  keeps I (on_model models_entry c).
Proof.
  intros HI s Hs. unfold on_model.
  destruct (models s !! models_entry) as [m|]; [| exact Hs].
  destruct (c m); apply HI, Hs.
Qed.

Lemma keeps_vec_at_int {St A} (I : St → Prop) (v : list A) i : keeps I (@vec_at_int St A v i).
Proof. unfold vec_at_int. destruct (i <? 0); [apply keeps_stop | apply keeps_vec_at]. Qed.

(** ** SceneCatalog: what [read_json_map] resolves when it returns *)

Lemma run_lift_throw {St A B} (r : jres A) what (k : A → M St B) s :
  r = JThrow what → bind (lift r) k s = Halt (Thrown what) s.
Proof. intros ->. reflexivity. Qed.

Lemma triple_pure {St A} (φ : Prop) (P : St → Prop) (c : M St A) Q E :
  (φ → triple P c Q E) → triple (λ s, φ ∧ P s) c Q E.
Proof. intros H s [Hφ Hs]. apply (H Hφ s Hs). Qed.

(** The texture formats by their configured name: anything that is not
    "8bit" or "16bit" is taken as 32-bit float. *)
Definition format_of_texture_type (textureType : string) : Vk.VkFormat :=
  if String.eqb textureType "8bit" then Vk.VK_FORMAT_R8G8B8A8_UNORM
  else if String.eqb textureType "16bit" then Vk.VK_FORMAT_R16G16B16A16_SFLOAT
  else Vk.VK_FORMAT_R32G32B32A32_SFLOAT.

Definition recognized_texture_type (textureType : string) : bool :=
  String.eqb textureType "8bit" || String.eqb textureType "16bit"
  || String.eqb textureType "32bit".

Lemma feature_map_format_of_run textureType s :
  ∃ e, feature_map_format_of textureType s
       = Ok tt (set_feature_map_format (format_of_texture_type textureType)
                  (set_log (log s ++ [e]) s)) ∧
       (level e = LOGW ↔ recognized_texture_type textureType = false).
Proof.
  unfold feature_map_format_of, format_of_texture_type, recognized_texture_type.
  destruct (String.eqb textureType "8bit").
  { eexists. split; [reflexivity |]. cbn. split; discriminate. }
  destruct (String.eqb textureType "16bit").
  { eexists. split; [reflexivity |]. cbn. split; discriminate. }
  destruct (String.eqb textureType "32bit").
  { eexists. split; [reflexivity |]. cbn. split; discriminate. }
  eexists. split; [reflexivity |]. cbn. split; reflexivity.
Qed.

Section ComboLoop.
Variables (asset_map models_j : json) (s0 : Nerf).

(** Entry [i] of the two vectors is what the configuration has at [i]. *)
Definition combo_entry (p : list string) (u : list bool) (i : nat) : Prop :=
  ∃ path original original_j,
    p !! i = Some path ∧
    Json.idx_as Json.get_string models_j i = JOk path ∧
    u !! i = Some original ∧
    Json.at_key asset_map "original" = JOk original_j ∧
    Json.idx_as Json.get_bool original_j i = JOk original.

(** The state of the loop of lines 290-295 when the entries below [j]
    are read: only the two vectors and the log have changed. *)
Definition combo_read (j : nat) (t : Nerf) : Prop :=
  ∃ p u l,
    t = set_log l (set_using_original_nerf_models u (set_model_path p s0)) ∧
    length p = Json.size models_j ∧ length u = Json.size models_j ∧
    ∀ i, (i < j)%nat → combo_entry p u i.

Lemma combo_entry_insert p u i j path original :
  i ≠ j → combo_entry p u i → combo_entry (<[j := path]> p) (<[j := original]> u) i.
Proof.
  intros Hne (pi & oi & oj & H1 & H2 & H3 & H4 & H5).
  exists pi, oi, oj. rewrite !list_lookup_insert_ne by auto. auto.
Qed.

Lemma combo_loop :
  triple (combo_read 0)
    (for_range (Json.size models_j) 0 (λ i,
       path ← lift (Json.idx_as Json.get_string models_j i);
       modify (λ n, set_model_path (<[i := path]> (model_path n)) n);;
       original_j ← lift (Json.at_key asset_map "original");
       original ← lift (Json.idx_as Json.get_bool original_j i);
       modify (λ n, set_using_original_nerf_models
                      (<[i := original]> (using_original_nerf_models n)) n);;
       logf LOGI "Target model: {}, asset path: {}" []))
    (λ _, combo_read (Json.size models_j)) (λ _ _, True).
Proof.
  apply (triple_for_range combo_read). intros j Hj t (p & u & l & -> & Hp & Hu & Hprev).
  unfold mbind, M_bind.
  destruct (Json.idx_as Json.get_string models_j j) as [path|e] eqn:Hpath;
    [rewrite (run_lift _ _ _ _ eq_refl) | exact I].
  rewrite run_modify.
  destruct (Json.at_key asset_map "original") as [original_j|e] eqn:Hoj;
    [rewrite (run_lift _ _ _ _ eq_refl) | exact I].
  destruct (Json.idx_as Json.get_bool original_j j) as [original|e] eqn:Horig;
    [rewrite (run_lift _ _ _ _ eq_refl) | exact I].
  rewrite run_modify. unfold logf, modify.
  exists (<[j := path]> p), (<[j := original]> u), (l ++ [Log LOGI "Target model: {}, asset path: {}" []]).
  split; [reflexivity |]. rewrite !length_insert.
  split; [exact Hp |]. split; [exact Hu |].
  intros i Hi. destruct (decide (i = j)) as [->|Hne].
  - exists path, original, original_j.
    rewrite !list_lookup_insert_eq by lia. auto.
  - apply combo_entry_insert; [exact Hne | apply Hprev; lia].
Qed.
End ComboLoop.

(** What holds of the value and the state a computation returns; nothing is
    asked of a run that halts. *)
Definition on_return {St A} (r : res St A) (Q : A → St → Prop) : Prop :=
  match r with
  | Ok a s' => Q a s'
  | Halt _ _ => True
  end.

Lemma on_return_triple {St A} (P : St → Prop) (c : M St A) (Q R : A → St → Prop) s :
  triple P c Q (λ _ _, True) → P s → (∀ a s', Q a s' → R a s') → on_return (c s) R.
Proof.
  intros Hc Hs HQR. specialize (Hc s Hs). unfold on_return.
  destruct (c s); [apply HQR, Hc | exact I].
Qed.

Lemma on_return_bind {St A B} (c : M St A) (k : A → M St B) (Q : B → St → Prop) s :
  on_return (c s) (λ a s', on_return (k a s') Q) → on_return (bind c k s) Q.
Proof. unfold on_return, bind. destruct (c s); trivial. Qed.

Lemma on_return_inv {St A} (c : M St A) (Q : A → St → Prop) s a s' :
  on_return (c s) Q → c s = Ok a s' → Q a s'.
Proof. intros H Hc. rewrite Hc in H. exact H. Qed.

(** One step of a run whose outcome is described. *)
Ltac run_step :=
  rewrite ?bind_assoc;
  lazymatch goal with
  | |- on_return (bind (lift ?r) _ _) _ =>
      destruct r eqn:?; [rewrite (run_lift _ _ _ _ eq_refl) | exact I]
  | |- on_return (bind (modify _) _ _) _ => rewrite run_modify
  | |- on_return (bind (logf _ _ _) _ _) _ => rewrite run_logf
  | |- on_return (bind get _ _) _ => rewrite run_get
  end.

(** The paths of the models and their flags, as the entry of the target
    scene gives them: a combination scene lists them in "models" and
    "original", any other scene has one of each under "path" and
    "original". *)
Definition paths_resolved (asset_map : json) (combo : bool)
    (paths : list string) (originals : list bool) : Prop :=
  if combo then
    ∃ models_j,
      Json.at_key asset_map "models" = JOk models_j ∧
      length paths = Json.size models_j ∧ length originals = Json.size models_j ∧
      ∀ i, (i < Json.size models_j)%nat → combo_entry asset_map models_j paths originals i
  else
    ∃ path original,
      Json.key_as Json.get_string asset_map "path" = JOk path ∧
      Json.key_as Json.get_bool asset_map "original" = JOk original ∧
      paths = [path] ∧ originals = [original].

(** The start position of the camera: the three numbers under "camera", or
    the position the object had when "camera" is not an array of three. *)
Definition camera_resolved (asset_map : json) (before after : glm.vec3) : Prop :=
  ∃ camera_j,
    Json.at_key asset_map "camera" = JOk camera_j ∧
    if is_array_of_3 camera_j then
      ∃ cx cy cz,
        Json.idx_as Json.get_float camera_j 0 = JOk cx ∧
        Json.idx_as Json.get_float camera_j 1 = JOk cy ∧
        Json.idx_as Json.get_float camera_j 2 = JOk cz ∧
        after = glm.Vec3 cx cy cz
    else after = before.

(** What [read_scene] has resolved when it returns [asset_map] from the
    document [raw_asset_map], between the object [n] before and [n'] after. *)
Record scene_resolved (raw_asset_map : json) (n : Nerf) (asset_map : json) (n' : Nerf) : Prop := {
  sr_target : ∃ target_model,
    Json.key_as Json.get_string raw_asset_map "target_model" = JOk target_model ∧
    Json.at_key raw_asset_map target_model = JOk asset_map;
  sr_combo : ∃ combo,
    Json.at_key asset_map "combo" = JOk combo ∧
    if Json.is_null combo then combo_mode n' = false
    else Json.get_bool combo = JOk (combo_mode n');
  sr_paths : paths_resolved asset_map (combo_mode n') (model_path n')
               (using_original_nerf_models n');
  sr_texture : ∃ textureType,
    Json.key_as Json.get_string raw_asset_map "texture_type" = JOk textureType ∧
    feature_map_format n' = format_of_texture_type textureType;
  sr_deferred : Json.key_as Json.get_bool raw_asset_map "deferred" = JOk (use_deferred n');
  sr_rotation : Json.key_as Json.get_bool raw_asset_map "rotation" = JOk (do_rotation n');
  sr_width : Json.key_as Json.get_int raw_asset_map "width" = JOk (view_port_width n');
  sr_height : Json.key_as Json.get_int raw_asset_map "height" = JOk (view_port_height n');
  sr_camera : camera_resolved asset_map (camera_pos n) (camera_pos n');
  sr_instancing : instancing_info n' = instancing_info n;
  sr_models : models n' = models n ∧ mlp_weight_vector n' = mlp_weight_vector n;
  sr_gpu : gpu n' = gpu n ∧ draw_cmd_buffers n' = draw_cmd_buffers n ∧
           prepared n' = prepared n
}.

Lemma load_raw_asset_map_run env (k : json → M Nerf json) Q s :
  (∀ raw s', raw_asset_map_of env = Some raw → s' = s ∨ (∃ l, s' = set_log l s) →
     on_return (k raw s') Q) →
  on_return (bind (load_raw_asset_map env) k s) Q.
Proof.
  intros Hk. unfold load_raw_asset_map, raw_asset_map_of in *.
  destruct (nerf_json_file env) as [[raw|]|].
  - unfold mbind, M_bind. rewrite bind_assoc, run_logf.
    apply Hk; [reflexivity | right; eexists; reflexivity].
  - exact I.
  - apply (Hk nerf_obj_json s); [reflexivity | left; reflexivity].
Qed.

Lemma resize_1_insert {A} (d x : A) (l : list A) : <[0%nat := x]> (resize 1 d l) = [x].
Proof. destruct l; reflexivity. Qed.

Lemma single_path_resolved asset_map path original (p : list string) (u : list bool) :
  Json.key_as Json.get_string asset_map "path" = JOk path →
  Json.key_as Json.get_bool asset_map "original" = JOk original →
  paths_resolved asset_map false (<[0%nat := path]> (resize 1 "" p))
    (<[0%nat := original]> (resize 1 false u)).
Proof.
  intros Hp Ho. exists path, original. rewrite !resize_1_insert. auto.
Qed.

Ltac read_as v H :=
  rewrite ?bind_assoc;
  lazymatch goal with
  | |- on_return (bind (lift ?r) _ _) _ =>
      destruct r as [v|?] eqn:H; [rewrite (run_lift _ _ _ _ eq_refl) | exact I]
  end.

(** What the first half of [read_scene] leaves alone. *)
Definition scene_rest (n s : Nerf) : Prop :=
  camera_pos s = camera_pos n ∧ instancing_info s = instancing_info n ∧
  (models s = models n ∧ mlp_weight_vector s = mlp_weight_vector n) ∧
  (gpu s = gpu n ∧ draw_cmd_buffers s = draw_cmd_buffers n ∧ prepared s = prepared n).

(** The second half of [read_scene] (lines 304-346), from any state. *)
Lemma read_scene_tail raw n asset_map combo s :
  let k :=
      (textureType ← lift (Json.key_as Json.get_string raw "texture_type");
       feature_map_format_of textureType;;
       deferred ← lift (Json.key_as Json.get_bool raw "deferred");
       modify (set_use_deferred deferred);;
       rotation ← lift (Json.key_as Json.get_bool raw "rotation");
       modify (set_do_rotation rotation);;
       w ← lift (Json.key_as Json.get_int raw "width");
       modify (set_view_port_width w);;
       h ← lift (Json.key_as Json.get_int raw "height");
       modify (set_view_port_height h);;
       camera_j ← lift (Json.at_key asset_map "camera");
       (if is_array_of_3 camera_j then
          cx ← lift (Json.idx_as Json.get_float camera_j 0);
          cy ← lift (Json.idx_as Json.get_float camera_j 1);
          cz ← lift (Json.idx_as Json.get_float camera_j 2);
          modify (set_camera_pos (glm.Vec3 cx cy cz))
        else
          logf LOGW "Fail to read camera position. Use defualt value." []);;
       ret asset_map) in
  (∃ target_model,
     Json.key_as Json.get_string raw "target_model" = JOk target_model ∧
     Json.at_key raw target_model = JOk asset_map) →
  Json.at_key asset_map "combo" = JOk combo →
  (if Json.is_null combo then combo_mode s = false
   else Json.get_bool combo = JOk (combo_mode s)) →
  paths_resolved asset_map (combo_mode s) (model_path s) (using_original_nerf_models s) →
  scene_rest n s →
  on_return (k s) (λ a n', a = asset_map ∧ scene_resolved raw n asset_map n').
Proof.
  intros k Htarget Hcombo Hcm Hpaths (Hcp & Hii & Hmo & Hgp).
  unfold k, mbind, M_bind.
  read_as textureType Htexture. rewrite ?bind_assoc.
  destruct (feature_map_format_of_run textureType s) as (e & Hfmt & _).
  rewrite (bind_Ok _ _ _ _ _ Hfmt). clear Hfmt.
  read_as deferred Hdeferred. run_step. read_as rotation Hrotation. run_step.
  read_as w Hw. run_step. read_as h Hh. run_step.
  read_as camera_j Hcamera. rewrite ?bind_assoc.
  destruct (is_array_of_3 camera_j) eqn:Hcam.
  - read_as cx Hcx. read_as cy Hcy. read_as cz Hcz. run_step.
    split; [reflexivity |]. constructor; try assumption.
    + exists combo. split; assumption.
    + exists textureType. split; [assumption | reflexivity].
    + exists camera_j. split; [assumption |]. rewrite Hcam.
      exists cx, cy, cz. repeat split; assumption.
  - run_step.
    split; [reflexivity |]. constructor; try assumption.
    + exists combo. split; assumption.
    + exists textureType. split; [assumption | reflexivity].
    + exists camera_j. split; [assumption |]. rewrite Hcam. exact Hcp.
Qed.

Lemma on_return_weaken {St A} (r : res St A) (Q R : A → St → Prop) :
  on_return r Q → (∀ a s, Q a s → R a s) → on_return r R.
Proof. destruct r; cbn; auto. Qed.

(** [read_scene], when it returns, has resolved the scene from the
    configuration document. *)
Lemma read_scene_run env n :
  on_return (read_scene env n)
    (λ asset_map n', ∃ raw, raw_asset_map_of env = Some raw ∧
                            scene_resolved raw n asset_map n').
Proof.
  unfold read_scene, mbind, M_bind. run_step.
  apply load_raw_asset_map_run. intros raw s1 Hraw Hs1.
  assert (scene_rest n s1) as Hrest
    by (destruct Hs1 as [-> | [l ->]]; repeat split; reflexivity).
  clear Hs1.
  read_as target_model Htarget. read_as asset_map Hasset. read_as combo Hcombo.
  assert (∃ target_model,
            Json.key_as Json.get_string raw "target_model" = JOk target_model ∧
            Json.at_key raw target_model = JOk asset_map) as Hentry
    by (exists target_model; split; assumption).
  assert (∀ r : res Nerf json,
            on_return r (λ a n', a = asset_map ∧ scene_resolved raw n asset_map n') →
            on_return r (λ asset_map n', ∃ raw, raw_asset_map_of env = Some raw ∧
                                                scene_resolved raw n asset_map n')) as Hdone.
  { intros r Hr. apply (on_return_weaken _ _ _ Hr). intros a s [-> Hs].
    exists raw. split; assumption. }
  rewrite ?bind_assoc. destruct (Json.is_null combo) eqn:Hnull; cbn [negb].
  - (* no "combo" entry: a single model *)
    do 2 run_step. cbn [combo_mode set_combo_mode]. do 7 run_step.
    apply Hdone. apply (read_scene_tail raw n asset_map combo); try assumption.
    + rewrite Hnull. reflexivity.
    + apply single_path_resolved; assumption.
  - read_as b Hb. do 2 run_step. cbn [combo_mode set_combo_mode].
    destruct b.
    + (* a combination of models *)
      read_as models_j Hmodels. do 2 run_step. rewrite ?bind_assoc. apply on_return_bind.
      lazymatch goal with
      | |- on_return (for_range _ _ _ (set_using_original_nerf_models ?u
                                         (set_model_path ?p ?s))) _ =>
          eapply (on_return_triple _ _ _ _ _ (combo_loop asset_map models_j s));
          [ exists p, u, (log s); split; [reflexivity |];
            unfold resize; rewrite !length_app, !length_take, !length_replicate;
            split; [lia |]; split; [lia |]; intros i Hi; lia
          | intros [] t (p' & u' & l' & -> & Hp & Hu & Hentries) ]
      end.
      apply Hdone. apply (read_scene_tail raw n asset_map combo); try assumption.
      * rewrite Hnull. exact Hb.
      * exists models_j. split; [assumption |]. split; [exact Hp |]. split; [exact Hu |].
        exact Hentries.
    + do 7 run_step.
      apply Hdone. apply (read_scene_tail raw n asset_map combo); try assumption.
      * rewrite Hnull. exact Hb.
      * apply single_path_resolved; assumption.
Qed.

(** The lattice [read_instancing] accepts: both triples are arrays of three,
    every dimension is at least 1 and no interval is at or below zero. *)
Record instancing_resolved (asset_map : json) (ii : InstancingInfo) : Prop := {
  ir_read : ∃ instacing_map dim_j interval_j dx dy dz,
    Json.at_key asset_map "instancing" = JOk instacing_map ∧
    Json.at_key instacing_map "dim" = JOk dim_j ∧
    Json.at_key instacing_map "interval" = JOk interval_j ∧
    is_array_of_3 dim_j = true ∧ is_array_of_3 interval_j = true ∧
    Json.idx_as Json.get_int dim_j 0 = JOk dx ∧
    Json.idx_as Json.get_int dim_j 1 = JOk dy ∧
    Json.idx_as Json.get_int dim_j 2 = JOk dz ∧
    dim ii = glm.ivec3_of_vec3 (glm.vec3_of_ints dx dy dz) ∧
    Json.idx_as Json.get_float interval_j 0 = JOk (glm.x (interval ii)) ∧
    Json.idx_as Json.get_float interval_j 1 = JOk (glm.y (interval ii)) ∧
    Json.idx_as Json.get_float interval_j 2 = JOk (glm.z (interval ii));
  ir_dim : 1 ≤ glm.x (dim ii) ∧ 1 ≤ glm.y (dim ii) ∧ 1 ≤ glm.z (dim ii);
  ir_interval : F32.leb (glm.x (interval ii)) F32.zero = false ∧
                F32.leb (glm.y (interval ii)) F32.zero = false ∧
                F32.leb (glm.z (interval ii)) F32.zero = false
}.

(** [read_instancing], when it returns, has changed the lattice and the log
    only, and the lattice is one it accepts. *)
Lemma read_instancing_run asset_map s :
  on_return (read_instancing asset_map s)
    (λ _ s', ∃ ii l, s' = set_log l (set_instancing_info ii s) ∧
                     instancing_resolved asset_map ii).
Proof.
  unfold read_instancing, mbind, M_bind.
  read_as instacing_map Hmap. read_as dim_j Hdim. rewrite ?bind_assoc.
  destruct (is_array_of_3 dim_j) eqn:Hdim3; [| exact I].
  read_as dx Hdx. read_as dy Hdy. read_as dz Hdz. run_step.
  read_as interval_j Hinterval. rewrite ?bind_assoc.
  destruct (is_array_of_3 interval_j) eqn:Hinterval3; [| exact I].
  read_as ix Hix. read_as iy Hiy. read_as iz Hiz. run_step.
  rewrite run_get. cbv zeta. cbn [instancing_info set_instancing_info dim interval
                                  glm.x glm.y glm.z].
  lazymatch goal with
  | |- on_return ((if ?c then _ else _) _) _ => destruct c eqn:Hc; [exact I |]
  end.
  repeat (apply orb_false_elim in Hc; destruct Hc as [Hc ?]).
  exists {| dim := glm.ivec3_of_vec3 (glm.vec3_of_ints dx dy dz);
            interval := glm.Vec3 ix iy iz |}, (log s).
  split; [reflexivity |]. constructor.
  - exists instacing_map, dim_j, interval_j, dx, dy, dz. cbn. repeat split; assumption.
  - cbn [dim]. repeat split; apply Z.leb_gt in Hc || idtac; lia.
  - cbn. repeat split; assumption.
Qed.

(** [read_json_map], when it returns, has resolved the scene and accepted
    its lattice. *)
Lemma read_json_map_run env n n' :
  read_json_map env n = Ok tt n' →
  ∃ raw asset_map s,
    raw_asset_map_of env = Some raw ∧
    resolved_asset_map env = Some asset_map ∧
    scene_resolved raw n asset_map s ∧
    instancing_resolved asset_map (instancing_info n') ∧
    ∃ l, n' = set_log l (set_instancing_info (instancing_info n') s).
Proof.
  unfold read_json_map, mbind, M_bind, bind. intros Hrun.
  pose proof (read_scene_run env n) as Hscene.
  destruct (read_scene env n) as [asset_map s|h s]; [| discriminate Hrun].
  destruct Hscene as (raw & Hraw & Hscene).
  pose proof (read_instancing_run asset_map s) as Hinst.
  rewrite Hrun in Hinst. destruct Hinst as (ii & l & -> & Hii).
  exists raw, asset_map, s. split; [exact Hraw |]. split.
  { destruct (sr_target _ _ _ _ Hscene) as (target_model & Htm & Ham).
    unfold resolved_asset_map. rewrite Hraw, Htm, Ham. reflexivity. }
  split; [exact Hscene |]. split; [exact Hii |]. exists l. reflexivity.
Qed.

(** The environment of a build without NERF_JSON_FILE: the configuration is
    the one compiled in, whose target is the combination of four models. *)
Definition compiled_in_env : Env :=
  {| asset_base := "assets/";
     nerf_json_file := None;
     read_json_file := λ _, None;
     framework_prepare_ok := true;
     width := 1280; height := 720;
     swapchain_image_count := 3;
     depth_format := Vk.VK_FORMAT_of_device 126;
     swapchain_format := Vk.VK_FORMAT_of_device 44;
     sizeof_global_uniform := 256;
     read_scene_from_file := λ _, Some one_triangle;
     look_at_decompose := λ eye _ _, (glm.Vec3 F32.zero F32.zero F32.zero, eye) |}.

Lemma compiled_in_returns :
  read_json_map compiled_in_env Nerf_new
  = Ok tt (final (read_json_map compiled_in_env Nerf_new)).
Proof. vm_compute. reflexivity. Qed.

(** X1: when [read_json_map] returns, the model paths and the flags of the
    original models are the ones the entry of the target scene lists, in its
    order: for a combination scene one pair per element of "models", read
    from "models" and "original" at the same index; for any other scene
    exactly one pair, read from "path" and "original". The two vectors have
    the same length, whatever they held before. *)
Theorem read_json_map_resolves_paths (env : Env) (n n' : Nerf) :
  read_json_map env n = Ok tt n' →
  ∃ asset_map,
    resolved_asset_map env = Some asset_map ∧
    paths_resolved asset_map (combo_mode n') (model_path n')
      (using_original_nerf_models n') ∧
    length (model_path n') = length (using_original_nerf_models n').
Proof.
  intros Hrun.
  destruct (read_json_map_run env n n' Hrun)
    as (raw & asset_map & s & _ & Ham & Hscene & _ & l & ->).
  exists asset_map. split; [exact Ham |].
  pose proof (sr_paths _ _ _ _ Hscene) as Hpaths.
  split; [exact Hpaths |].
  change (length (model_path s) = length (using_original_nerf_models s)).
  unfold paths_resolved in Hpaths. destruct (combo_mode s).
  - destruct Hpaths as (models_j & _ & Hp & Hu & _). congruence.
  - destruct Hpaths as (path & original & _ & _ & -> & ->). reflexivity.
Qed.

Lemma read_json_map_resolves_paths_witness :
  let n' := final (read_json_map compiled_in_env Nerf_new) in
  read_json_map compiled_in_env Nerf_new = Ok tt n' ∧
  ∃ asset_map,
    resolved_asset_map compiled_in_env = Some asset_map ∧
    paths_resolved asset_map (combo_mode n') (model_path n')
      (using_original_nerf_models n') ∧
    length (model_path n') = length (using_original_nerf_models n').
Proof.
  intros n'. split; [exact compiled_in_returns |].
  exact (read_json_map_resolves_paths compiled_in_env Nerf_new n' compiled_in_returns).
Defined.

(** X2: when [read_json_map] returns, the lattice it has stored is the one
    configured under "instancing" of the target scene, both triples being
    arrays of three; every dimension is at least 1 and no interval compares
    at or below zero. *)
Theorem read_json_map_accepts_positive_lattice (env : Env) (n n' : Nerf) :
  read_json_map env n = Ok tt n' →
  ∃ asset_map,
    resolved_asset_map env = Some asset_map ∧
    instancing_resolved asset_map (instancing_info n').
Proof.
  intros Hrun.
  destruct (read_json_map_run env n n' Hrun)
    as (raw & asset_map & s & _ & Ham & _ & Hii & _).
  exists asset_map. split; [exact Ham | exact Hii].
Qed.

Lemma read_json_map_accepts_positive_lattice_witness :
  let n' := final (read_json_map compiled_in_env Nerf_new) in
  read_json_map compiled_in_env Nerf_new = Ok tt n' ∧
  ∃ asset_map,
    resolved_asset_map compiled_in_env = Some asset_map ∧
    instancing_resolved asset_map (instancing_info n').
Proof.
  intros n'. split; [exact compiled_in_returns |].
  exact (read_json_map_accepts_positive_lattice compiled_in_env Nerf_new n'
           compiled_in_returns).
Defined.

(** X3: when [read_json_map] returns, the camera start position is made of
    the three numbers under "camera" of the target scene; if that entry is
    absent or not an array of exactly three elements, the position the object
    had before is kept. *)
Theorem read_json_map_camera_fallback (env : Env) (n n' : Nerf) :
  read_json_map env n = Ok tt n' →
  ∃ asset_map,
    resolved_asset_map env = Some asset_map ∧
    camera_resolved asset_map (camera_pos n) (camera_pos n').
Proof.
  intros Hrun.
  destruct (read_json_map_run env n n' Hrun)
    as (raw & asset_map & s & _ & Ham & Hscene & _ & l & ->).
  exists asset_map. split; [exact Ham |]. exact (sr_camera _ _ _ _ Hscene).
Qed.

Lemma read_json_map_camera_fallback_witness :
  let n' := final (read_json_map compiled_in_env Nerf_new) in
  read_json_map compiled_in_env Nerf_new = Ok tt n' ∧
  ∃ asset_map,
    resolved_asset_map compiled_in_env = Some asset_map ∧
    camera_resolved asset_map (camera_pos Nerf_new) (camera_pos n').
Proof.
  intros n'. split; [exact compiled_in_returns |].
  exact (read_json_map_camera_fallback compiled_in_env Nerf_new n' compiled_in_returns).
Defined.

(** X4: when [read_json_map] returns, the feature-map format follows the
    configured texture type: R8G8B8A8_UNORM for "8bit", R16G16B16A16_SFLOAT
    for "16bit", and R32G32B32A32_SFLOAT for every other string, recognised
    or not; the deferred and rotation flags and the view-port width and
    height are the ones of the document. *)
Theorem read_json_map_settings (env : Env) (n n' : Nerf) :
  read_json_map env n = Ok tt n' →
  ∃ raw_asset_map textureType,
    raw_asset_map_of env = Some raw_asset_map ∧
    Json.key_as Json.get_string raw_asset_map "texture_type" = JOk textureType ∧
    feature_map_format n' = format_of_texture_type textureType ∧
    Json.key_as Json.get_bool raw_asset_map "deferred" = JOk (use_deferred n') ∧
    Json.key_as Json.get_bool raw_asset_map "rotation" = JOk (do_rotation n') ∧
    Json.key_as Json.get_int raw_asset_map "width" = JOk (view_port_width n') ∧
    Json.key_as Json.get_int raw_asset_map "height" = JOk (view_port_height n').
Proof.
  intros Hrun.
  destruct (read_json_map_run env n n' Hrun)
    as (raw & asset_map & s & Hraw & _ & Hscene & _ & l & ->).
  destruct (sr_texture _ _ _ _ Hscene) as (textureType & Htexture & Hformat).
  exists raw, textureType. split; [exact Hraw |]. split; [exact Htexture |].
  split; [exact Hformat |].
  split; [exact (sr_deferred _ _ _ _ Hscene) |].
  split; [exact (sr_rotation _ _ _ _ Hscene) |].
  split; [exact (sr_width _ _ _ _ Hscene) | exact (sr_height _ _ _ _ Hscene)].
Qed.

Lemma read_json_map_settings_witness :
  let n' := final (read_json_map compiled_in_env Nerf_new) in
  read_json_map compiled_in_env Nerf_new = Ok tt n' ∧
  ∃ raw_asset_map textureType,
    raw_asset_map_of compiled_in_env = Some raw_asset_map ∧
    Json.key_as Json.get_string raw_asset_map "texture_type" = JOk textureType ∧
    feature_map_format n' = format_of_texture_type textureType ∧
    Json.key_as Json.get_bool raw_asset_map "deferred" = JOk (use_deferred n') ∧
    Json.key_as Json.get_bool raw_asset_map "rotation" = JOk (do_rotation n') ∧
    Json.key_as Json.get_int raw_asset_map "width" = JOk (view_port_width n') ∧
    Json.key_as Json.get_int raw_asset_map "height" = JOk (view_port_height n').
Proof.
  intros n'. split; [exact compiled_in_returns |].
  exact (read_json_map_settings compiled_in_env Nerf_new n' compiled_in_returns).
Defined.

(** A command that is a sequence of steps which keep [I] keeps it; [tac]
    shows that a change of the state keeps [I]. *)
Ltac keeps_by tac :=
  lazymatch goal with
  | |- keeps _ (_ ≫= _) => apply keeps_bind; [keeps_by tac | intros ?; keeps_by tac]
  | |- keeps _ (let _ := _ in _) => cbv zeta; keeps_by tac
  | |- keeps _ (if ?b then _ else _) => destruct b; keeps_by tac
  | |- keeps _ (logf _ _ _) => apply keeps_modify; tac
  | |- keeps _ (gpu_call _) => apply keeps_modify; tac
  | |- keeps _ (modify _) => apply keeps_modify; tac
  | |- keeps _ (lift _) => apply keeps_lift
  | |- keeps _ get => apply keeps_get
  | |- keeps _ (ret _) => apply keeps_ret
  | |- keeps _ (stop _) => apply keeps_stop
  | |- keeps _ (vec_at _ _) => apply keeps_vec_at
  | |- keeps _ (for_range _ _ _) => apply keeps_for_range; intros ?; keeps_by tac
  | |- keeps _ (for_each _ _) => apply keeps_for_each; intros ?; keeps_by tac
  | |- keeps _ (for_range_with _ _ _ _) =>
      apply keeps_for_range_with; intros ? ?; keeps_by tac
  | |- keeps _ (load_raw_asset_map ?e) =>
      unfold load_raw_asset_map; destruct (nerf_json_file e) as [[?|]|]; keeps_by tac
  | |- keeps _ (feature_map_format_of _) => unfold feature_map_format_of; keeps_by tac
  | |- keeps _ (check_count _ _ _ _) => unfold check_count; keeps_by tac
  | |- keeps _ (models_update _ _) => unfold models_update; keeps_by tac
  | |- keeps _ (on_model_mlp _ _) => apply keeps_on_model_mlp; tac
  end.

(** What is outside the scene description: the models and their weights,
    everything built for the GPU, the camera object and the prepared flag. *)
Definition beyond_scene (n : Nerf) :=
  (mlp_weight_vector n, models n, render_pass_nerf n,
   descriptor_set_first_pass_layout n, descriptor_set_layout_baseline n,
   weights_buffers n, instance_buffer n, draw_cmd_buffers n, camera n,
   prepared n, use_native_screen_size n, gpu n).

Lemma read_json_map_keeps env (I : Nerf → Prop) :
  (∀ s t, beyond_scene s = beyond_scene t → I s → I t) →
  keeps I (read_json_map env).
Proof.
  intros HI.
  unfold read_json_map, read_scene, read_instancing.
  keeps_by ltac:(intros; eapply HI; [| eassumption]; reflexivity).
Qed.

(** X5: however [read_json_map] ends, by returning or by stopping the run,
    it has changed nothing outside the scene description: the models, their
    weights, the render pass, the layouts, the buffers, the recorded
    commands, the camera object, the prepared flag and everything created on
    the GPU are as they were. *)
Theorem read_json_map_changes_the_scene_only (env : Env) (n : Nerf) :
  beyond_scene (final (read_json_map env n)) = beyond_scene n.
Proof.
  apply (keeps_final (λ s, beyond_scene s = beyond_scene n)); [| reflexivity].
  apply read_json_map_keeps. intros s t Hst Hs. congruence.
Qed.

(** ** ModelWeights: what [initialize_mlp_uniform_buffers] changes *)

Section InitFrame.
Context `{NerfHeader}.
Variable env : Env.

(** An invariant of the log, of [models] and of the one buffer written is
    an invariant of the function, however it ends. *)
Lemma initialize_keeps (I : Nerf → Prop) model_index :
  (∀ s v, I s → I (set_log v s)) →
  (∀ s v, I s → I (set_models v s)) →
  (∀ s w, I s → I (set_mlp_weight_vector (<[model_index := w]> (mlp_weight_vector s)) s)) →
  keeps I (initialize_mlp_uniform_buffers env model_index).
Proof.
  intros Hlog Hmodels Hw.
  unfold initialize_mlp_uniform_buffers.
  apply keeps_bind; [apply keeps_get | intros n].
  apply keeps_bind; [apply keeps_vec_at | intros path]. cbv zeta.
  destruct (read_json_file env _) as [doc|];
    keeps_by ltac:(intros; first [apply Hlog | apply Hmodels | apply Hw]; assumption).
Qed.

(** A description that can be read, with arrays that are long enough and a
    sub-model count that does not take [models] below zero entries: the
    function returns, and the state it leaves is known. *)
Lemma initialize_returns n model_index path doc obj_num w0 w1 w2 b0 b1 b2 w :
  let a := {| weights_0_array := concat w0; bias_0_array := b0;
              weights_1_array := concat w1; bias_1_array := b1;
              weights_2_array := concat w2; bias_2_array := b2 |} in
  let k := Z.to_nat (Z.of_nat (length (models n)) + obj_num) in
  model_path n !! model_index = Some path →
  read_json_file env (asset_base env +:+ path +:+ "mlp.json") = Some doc →
  description_reads doc obj_num w0 w1 w2 b0 b1 b2 →
  0 ≤ Z.of_nat (length (models n)) + obj_num →
  mlp_weight_vector n !! model_index = Some w →
  length (data w) = MLP_TOTAL →
  reads_in_range a →
  ∃ n', initialize_mlp_uniform_buffers env model_index n = Ok tt n' ∧
        models n'
        = models_updated (set_sub_model_num obj_num) (length (models n)) (Z.to_nat obj_num)
            (models_updated (set_model_index (Z.of_nat model_index)) (length (models n))
               (k - length (models n)) (resize k Model_zero (models n))) ∧
        mlp_weight_vector n'
        = <[model_index := {| data := packed a |}]> (mlp_weight_vector n).
Proof.
  intros a k Hp Hf Hreads Hobj Hw Hlen Hrange.
  destruct (initialize_reaches_packing env n model_index path doc obj_num
              w0 w1 w2 b0 b1 b2 Hp Hf Hreads Hobj)
    as (s & [Hmwv _] & _ & Hcount & Hmodels & Hrun).
  fold a in Hrun. fold k in Hcount, Hmodels.
  set (s' := set_mlp_weight_vector
               (<[model_index := {| data := packed a |}]> (mlp_weight_vector s)) s).
  assert (on_model_mlp model_index (pack_mlp a) s = Ok tt s') as Hpack.
  { subst s'. unfold on_model_mlp. rewrite Hmwv, Hw.
    rewrite (pack_mlp_spec a w Hlen Hrange). reflexivity. }
  destruct (models_update_loop (set_sub_model_num obj_num) (Z.to_nat obj_num)
              (length (models n)) s')
    as (t & Hloop & [Hmwv' _] & _ & _ & Ht).
  { subst s'. cbn [models set_mlp_weight_vector]. rewrite Hcount. subst k. lia. }
  exists t. split; [| split].
  - rewrite Hrun, (bind_Ok _ _ _ _ _ Hpack).
    rewrite (for_range_shift (λ j, models_update j (set_sub_model_num obj_num))
               (length (models n))), Nat.add_0_r.
    exact Hloop.
  - rewrite Ht. subst s'. cbn [models set_mlp_weight_vector]. rewrite Hmodels.
    reflexivity.
  - rewrite Hmwv'. subst s'. cbn [mlp_weight_vector set_mlp_weight_vector].
    rewrite Hmwv. reflexivity.
Qed.
End InitFrame.

Lemma resize_shrink {A} (k : nat) (d : A) (l : list A) :
  (k ≤ length l)%nat → resize k d l = take k l.
Proof.
  intros Hk. unfold resize.
  replace (k - length l)%nat with 0%nat by lia. apply app_nil_r.
Qed.

Section InitExtras.
Context `{NerfHeader}.
Variable env : Env.

(** However the function ends, it has changed the log, [models] and
    [mlp_weight_vector] only. *)
Lemma initialize_frame n model_index :
  ∃ l ms v, final (initialize_mlp_uniform_buffers env model_index n)
            = set_log l (set_models ms (set_mlp_weight_vector v n)).
Proof.
  apply (keeps_final (λ s, ∃ l ms v, s = set_log l (set_models ms (set_mlp_weight_vector v n)))).
  - apply initialize_keeps.
    + intros s v' (l & ms & v & ->). exists v', ms, v. reflexivity.
    + intros s v' (l & ms & v & ->). exists l, v', v. reflexivity.
    + intros s w (l & ms & v & ->). eexists l, ms, _. reflexivity.
  - exists (log n), (models n), (mlp_weight_vector n). destruct n. reflexivity.
Qed.

(** A description of [obj_num] ≥ 0 sub-models appends that many entries to
    [models] and packs the buffer of its model. *)
Lemma initialize_appends n model_index path doc obj_num w0 w1 w2 b0 b1 b2 w :
  let a := {| weights_0_array := concat w0; bias_0_array := b0;
              weights_1_array := concat w1; bias_1_array := b1;
              weights_2_array := concat w2; bias_2_array := b2 |} in
  model_path n !! model_index = Some path →
  read_json_file env (asset_base env +:+ path +:+ "mlp.json") = Some doc →
  description_reads doc obj_num w0 w1 w2 b0 b1 b2 →
  0 ≤ obj_num →
  mlp_weight_vector n !! model_index = Some w →
  length (data w) = MLP_TOTAL →
  reads_in_range a →
  ∃ n', initialize_mlp_uniform_buffers env model_index n = Ok tt n' ∧
        models n' = models n ++
                    replicate (Z.to_nat obj_num) (Model_of (Z.of_nat model_index) obj_num) ∧
        mlp_weight_vector n'
        = <[model_index := {| data := packed a |}]> (mlp_weight_vector n) ∧
        model_path n' = model_path n.
Proof.
  intros a Hp Hf Hreads Hobj Hw Hlen Hrange.
  destruct (initialize_returns env n model_index path doc obj_num w0 w1 w2 b0 b1 b2 w
              Hp Hf Hreads ltac:(lia) Hw Hlen Hrange) as (n' & Hrun & Hmodels & Hmwv).
  exists n'. split; [exact Hrun |]. split; [| split; [exact Hmwv |]].
  - rewrite Hmodels.
    replace (Z.to_nat (Z.of_nat (length (models n)) + obj_num))
      with (length (models n) + Z.to_nat obj_num)%nat by lia.
    replace (length (models n) + Z.to_nat obj_num - length (models n))%nat
      with (Z.to_nat obj_num) by lia.
    rewrite resize_grow, !models_updated_new. reflexivity.
  - destruct (initialize_frame n model_index) as (l & ms & v & Hfinal).
    rewrite Hrun in Hfinal. cbn [final] in Hfinal. rewrite Hfinal. reflexivity.
Qed.

(** X6: a description that can be read, whose [obj_num] is not negative
    and whose arrays have at least the elements the packing loops read,
    makes [initialize_mlp_uniform_buffers] return; it appends exactly
    [obj_num] entries to [models], each naming the model and the number of
    its sub-models, leaves the earlier entries as they were, and writes the
    packed weights into the buffer of that model and of no other. *)
Theorem initialize_adds_sub_models n model_index path doc obj_num w0 w1 w2 b0 b1 b2 w :
  let a := {| weights_0_array := concat w0; bias_0_array := b0;
              weights_1_array := concat w1; bias_1_array := b1;
              weights_2_array := concat w2; bias_2_array := b2 |} in
  model_path n !! model_index = Some path →
  read_json_file env (asset_base env +:+ path +:+ "mlp.json") = Some doc →
  description_reads doc obj_num w0 w1 w2 b0 b1 b2 →
  0 ≤ obj_num →
  mlp_weight_vector n !! model_index = Some w →
  length (data w) = MLP_TOTAL →
  reads_in_range a →
  ∃ n', initialize_mlp_uniform_buffers env model_index n = Ok tt n' ∧
        models n' = models n ++
                    replicate (Z.to_nat obj_num) (Model_of (Z.of_nat model_index) obj_num) ∧
        mlp_weight_vector n'
        = <[model_index := {| data := packed a |}]> (mlp_weight_vector n).
Proof.
  intros a Hp Hf Hreads Hobj Hw Hlen Hrange.
  destruct (initialize_appends n model_index path doc obj_num w0 w1 w2 b0 b1 b2 w
              Hp Hf Hreads Hobj Hw Hlen Hrange) as (n' & Hrun & Hmodels & Hmwv & _).
  exists n'. auto.
Qed.

(** X7: a description whose [obj_num] is negative adds nothing. When
    [models] has at least [-obj_num] entries the function returns with the
    last [-obj_num] of them removed and the buffer of the model packed;
    when it has fewer, [resize] throws std::length_error, and [models] and
    the buffers are as they were. *)
Theorem negative_obj_num_removes_models
    n model_index path doc obj_num w0 w1 w2 b0 b1 b2 w :
  let a := {| weights_0_array := concat w0; bias_0_array := b0;
              weights_1_array := concat w1; bias_1_array := b1;
              weights_2_array := concat w2; bias_2_array := b2 |} in
  let r := initialize_mlp_uniform_buffers env model_index n in
  model_path n !! model_index = Some path →
  read_json_file env (asset_base env +:+ path +:+ "mlp.json") = Some doc →
  description_reads doc obj_num w0 w1 w2 b0 b1 b2 →
  obj_num < 0 →
  mlp_weight_vector n !! model_index = Some w →
  length (data w) = MLP_TOTAL →
  reads_in_range a →
  (0 ≤ Z.of_nat (length (models n)) + obj_num →
   halted r = None ∧
   models (final r) = take (length (models n) - Z.to_nat (- obj_num)) (models n) ∧
   mlp_weight_vector (final r)
   = <[model_index := {| data := packed a |}]> (mlp_weight_vector n)) ∧
  (Z.of_nat (length (models n)) + obj_num < 0 →
   halted r = Some (Thrown "std::length_error") ∧
   models (final r) = models n ∧
   mlp_weight_vector (final r) = mlp_weight_vector n).
Proof.
  intros a r Hp Hf Hreads Hobj Hw Hlen Hrange. split.
  - intros Hfits.
    destruct (initialize_returns env n model_index path doc obj_num w0 w1 w2 b0 b1 b2 w
                Hp Hf Hreads Hfits Hw Hlen Hrange) as (n' & Hrun & Hmodels & Hmwv).
    subst r. rewrite Hrun. cbn [halted final].
    split; [reflexivity |]. split; [| exact Hmwv].
    rewrite Hmodels.
    replace (Z.to_nat obj_num) with 0%nat by lia.
    replace (Z.to_nat (Z.of_nat (length (models n)) + obj_num) - length (models n))%nat
      with 0%nat by lia.
    rewrite !models_updated_none, resize_shrink by lia.
    f_equal. lia.
  - intros Hneg. destruct Hreads as (Ho & _).
    subst r. unfold initialize_mlp_uniform_buffers, mbind, M_bind.
    rewrite run_get, (run_vec_at _ _ _ _ _ Hp), Hf, run_logf, (run_lift _ _ _ _ Ho).
    unfold bind at 1. rewrite decide_True by exact Hneg. cbn.
    repeat split; reflexivity.
Qed.

(** X8: however [initialize_mlp_uniform_buffers] ends for a model, by
    returning, by a failed assertion, by an exception or by a read out of
    range, the buffers of the other models are as they were and there are
    as many buffers as before; apart from that buffer only [models] and
    the log can have changed. *)
Theorem initialize_touches_one_buffer (n : Nerf) (model_index : nat) :
  let n' := final (initialize_mlp_uniform_buffers env model_index n) in
  length (mlp_weight_vector n') = length (mlp_weight_vector n) ∧
  (∀ j, j ≠ model_index → mlp_weight_vector n' !! j = mlp_weight_vector n !! j) ∧
  ∃ l ms v, n' = set_log l (set_models ms (set_mlp_weight_vector v n)).
Proof.
  intros n'. split; [| split].
  - apply (keeps_final (λ s, length (mlp_weight_vector s) = length (mlp_weight_vector n)));
      [| reflexivity].
    apply initialize_keeps; intros s v Hs; cbn; [exact Hs | exact Hs |].
    rewrite length_insert. exact Hs.
  - intros j Hj.
    apply (keeps_final (λ s, mlp_weight_vector s !! j = mlp_weight_vector n !! j));
      [| reflexivity].
    apply initialize_keeps; intros s v Hs; cbn; [exact Hs | exact Hs |].
    rewrite list_lookup_insert_ne by congruence. exact Hs.
  - apply initialize_frame.
Qed.
End InitExtras.

Lemma initialize_adds_sub_models_witness :
  ∃ n', @initialize_mlp_uniform_buffers mobile_nerf_h long_mlp_env 0 resolved_state = Ok tt n' ∧
        models n' = [Model_of 0 1] ∧
        mlp_weight_vector n'
        = [{| data := @packed mobile_nerf_h (@arrays_with_extra mobile_nerf_h 16 0) |}].
Proof.
  destruct (@initialize_adds_sub_models mobile_nerf_h long_mlp_env resolved_state 0%nat
              "scenes/morpheus_team/lego_ball_phone/" long_mlp 1
              (zero_rows 12 16) (zero_rows 16 16) (zero_rows 16 4)
              (replicate 16 F32.zero) (replicate 16 F32.zero) (replicate 4 F32.zero)
              (@MLP_Weights_zero mobile_nerf_h))
    as (n' & Hrun & Hmodels & Hmwv);
    [ reflexivity | reflexivity | repeat split; reflexivity | lia | reflexivity
    | apply (@MLP_Weights_zero_length mobile_nerf_h)
    | apply (@arrays_with_extra_in_range mobile_nerf_h 16 0) |].
  exists n'. split; [exact Hrun |]. split; [exact Hmodels | exact Hmwv].
Defined.

(** The description [long_mlp] with a sub-model count of -1. *)
Definition removing_mlp : json :=
  JObject [ ("obj_num", JInt (-1));
            ("0_weights", JArray (replicate 12 (zeros 16)));
            ("1_weights", JArray (replicate 16 (zeros 16)));
            ("2_weights", JArray (replicate 16 (zeros 4)));
            ("0_bias", zeros 16);
            ("1_bias", zeros 16);
            ("2_bias", zeros 4) ].

Definition removing_mlp_env : Env :=
  {| asset_base := "assets/";
     nerf_json_file := Some (Some (single_model_json false));
     read_json_file := λ path,
       if String.eqb path "assets/scenes/morpheus_team/lego_ball_phone/mlp.json"
       then Some removing_mlp else None;
     framework_prepare_ok := true;
     width := 1280; height := 720;
     swapchain_image_count := 3;
     depth_format := Vk.VK_FORMAT_of_device 126;
     swapchain_format := Vk.VK_FORMAT_of_device 44;
     sizeof_global_uniform := 256;
     read_scene_from_file := λ _, Some one_triangle;
     look_at_decompose := λ eye _ _, (glm.Vec3 F32.zero F32.zero F32.zero, eye) |}.

(** The resolved scene when two sub-models of an earlier model are there. *)
Definition two_models_state : Nerf :=
  set_models [Model_of 7 2; Model_of 7 2] resolved_state.

Lemma negative_obj_num_removes_models_witness :
  let r := @initialize_mlp_uniform_buffers mobile_nerf_h removing_mlp_env 0 two_models_state in
  halted r = None ∧ models (final r) = [Model_of 7 2] ∧
  mlp_weight_vector (final r)
  = [{| data := @packed mobile_nerf_h (@arrays_with_extra mobile_nerf_h 16 0) |}].
Proof.
  intros r.
  destruct (@negative_obj_num_removes_models mobile_nerf_h removing_mlp_env two_models_state
              0%nat "scenes/morpheus_team/lego_ball_phone/" removing_mlp (-1)
              (zero_rows 12 16) (zero_rows 16 16) (zero_rows 16 4)
              (replicate 16 F32.zero) (replicate 16 F32.zero) (replicate 4 F32.zero)
              (@MLP_Weights_zero mobile_nerf_h))
    as [Hfits _];
    [ reflexivity | reflexivity | repeat split; reflexivity | lia | reflexivity
    | apply (@MLP_Weights_zero_length mobile_nerf_h)
    | apply (@arrays_with_extra_in_range mobile_nerf_h 16 0) |].
  apply Hfits. cbn. lia.
Defined.

(** ** ModelWeights: [load_mlps] over every model of the scene *)

(** An MLP description and what is read from it. *)
Record Description : Type := {
  d_doc : json;
  d_obj_num : Z;
  d_weights_0 : list (list float);
  d_weights_1 : list (list float);
  d_weights_2 : list (list float);
  d_bias_0 : list float;
  d_bias_1 : list float;
  d_bias_2 : list float
}.

Definition arrays_of (d : Description) : MLPArrays :=
  {| weights_0_array := concat (d_weights_0 d); bias_0_array := d_bias_0 d;
     weights_1_array := concat (d_weights_1 d); bias_1_array := d_bias_1 d;
     weights_2_array := concat (d_weights_2 d); bias_2_array := d_bias_2 d |}.

Section LoadMlps.
Context `{NerfHeader}.
Variable env : Env.

(** [d] is the description found at [path]: it can be read, its count of
    sub-models is not negative and its arrays are long enough for the
    packing loops. *)
Definition describes (path : string) (d : Description) : Prop :=
  read_json_file env (asset_base env +:+ path +:+ "mlp.json") = Some (d_doc d) ∧
  description_reads (d_doc d) (d_obj_num d) (d_weights_0 d) (d_weights_1 d) (d_weights_2 d)
    (d_bias_0 d) (d_bias_1 d) (d_bias_2 d) ∧
  0 ≤ d_obj_num d ∧
  reads_in_range (arrays_of d).

(** The entries of [models] for the sub-models of model [i]. *)
Definition sub_models_of (i : nat) (d : Description) : list Model :=
  replicate (Z.to_nat (d_obj_num d)) (Model_of (Z.of_nat i) (d_obj_num d)).

Definition packed_of (d : Description) : MLP_Weights := {| data := packed (arrays_of d) |}.

(** The state of the loop of lines 410-413 before model [j]. *)
Definition mlps_loaded (n : Nerf) (ds : list Description) (j : nat) (t : Nerf) : Prop :=
  model_path t = model_path n ∧
  models t = models n ++ concat (imap sub_models_of (take j ds)) ∧
  length (mlp_weight_vector t) = length (model_path n) ∧
  (∀ i d, (i < j)%nat → ds !! i = Some d → mlp_weight_vector t !! i = Some (packed_of d)) ∧
  (∀ i w, (j ≤ i)%nat → mlp_weight_vector t !! i = Some w → length (data w) = MLP_TOTAL).

Lemma resized_buffers_length (v : list MLP_Weights) k i w :
  Forall (λ w, length (data w) = MLP_TOTAL) v →
  resize k MLP_Weights_zero v !! i = Some w → length (data w) = MLP_TOTAL.
Proof.
  intros Hv Hw. apply list_elem_of_lookup_2 in Hw. unfold resize in Hw.
  apply elem_of_app in Hw. destruct Hw as [Hw|Hw].
  - apply elem_of_take in Hw. destruct Hw as (i' & Hw & _).
    apply (Forall_lookup_1 _ _ _ _ Hv Hw).
  - apply elem_of_replicate in Hw. destruct Hw as [-> _].
    apply MLP_Weights_zero_length.
Qed.

Lemma mlps_loaded_step n ds j t :
  Forall2 describes (model_path n) ds → (j < length (model_path n))%nat →
  mlps_loaded n ds j t →
  ∃ t', initialize_mlp_uniform_buffers env j t = Ok tt t' ∧ mlps_loaded n ds (S j) t'.
Proof.
  intros Hds Hj (Hpath & Hmodels & Hlen & Hdone & Hrest).
  destruct (lookup_lt_is_Some_2 (model_path n) j Hj) as [path Hp].
  destruct (Forall2_lookup_l _ _ _ _ _ Hds Hp) as (d & Hd & Hf & Hreads & Hobj & Hrange).
  destruct (lookup_lt_is_Some_2 (mlp_weight_vector t) j ltac:(lia)) as [w Hw].
  destruct (initialize_appends env t j path (d_doc d) (d_obj_num d)
              (d_weights_0 d) (d_weights_1 d) (d_weights_2 d)
              (d_bias_0 d) (d_bias_1 d) (d_bias_2 d) w)
    as (t' & Hrun & Hmodels' & Hmwv' & Hpath');
    [rewrite Hpath; exact Hp | exact Hf | exact Hreads | exact Hobj | exact Hw
    | apply (Hrest j w); [lia | exact Hw] | exact Hrange |].
  exists t'. split; [exact Hrun |].
  split; [congruence |]. split; [| split; [| split]].
  - rewrite Hmodels', Hmodels, (take_S_r _ _ _ Hd), imap_app, concat_app.
    rewrite length_take_le by (apply lookup_lt_Some in Hd; lia).
    cbn. rewrite Nat.add_0_r, app_nil_r, app_assoc. reflexivity.
  - rewrite Hmwv', length_insert. exact Hlen.
  - intros i d' Hi Hd'. rewrite Hmwv'.
    destruct (decide (i = j)) as [->|Hne].
    + rewrite list_lookup_insert_eq by lia.
      rewrite Hd in Hd'. injection Hd' as <-. reflexivity.
    + rewrite list_lookup_insert_ne by congruence. apply Hdone; [lia | exact Hd'].
  - intros i w' Hi. rewrite Hmwv', list_lookup_insert_ne by lia.
    apply Hrest. lia.
Qed.

(** When every model of the scene has a description, [load_mlps] returns
    with the sub-models of every model in [models], model after model in
    the order of the paths, and with one packed buffer for each model. *)
Lemma load_mlps_run n ds :
  Forall2 describes (model_path n) ds →
  Forall (λ w, length (data w) = MLP_TOTAL) (mlp_weight_vector n) →
  ∃ n', load_mlps env n = Ok tt n' ∧
        model_path n' = model_path n ∧
        models n' = models n ++ concat (imap sub_models_of ds) ∧
        mlp_weight_vector n' = map packed_of ds.
Proof.
  intros Hds Hv. unfold load_mlps, mbind, M_bind. rewrite run_modify, run_get.
  set (s := set_mlp_weight_vector _ n).
  change (model_path s) with (model_path n).
  destruct (for_range_inv (mlps_loaded n ds)
              (λ i, initialize_mlp_uniform_buffers env i) (length (model_path n)) 0 s)
    as (t & Hrun & Hpath & Hmodels & Hlen & Hdone & _).
  - split; [reflexivity |]. split; [cbn; rewrite app_nil_r; reflexivity |].
    split; [| split].
    + subst s. cbn. unfold resize.
      rewrite length_app, length_take, length_replicate. lia.
    + intros i d Hi. lia.
    + intros i w _ Hw. subst s. cbn in Hw.
      apply (resized_buffers_length _ _ _ _ Hv Hw).
  - intros j t Hj Ht. apply (mlps_loaded_step n ds j t Hds); [lia | exact Ht].
  - exists t. split; [exact Hrun |]. split; [exact Hpath |].
    pose proof (Forall2_length _ _ _ Hds) as Hlens. cbn [Nat.add] in *.
    split.
    + rewrite Hmodels, take_ge by lia. reflexivity.
    + apply list_eq. intros i. rewrite list_lookup_fmap.
      destruct (ds !! i) as [d|] eqn:Hd; cbn.
      * apply Hdone; [apply lookup_lt_Some in Hd; lia | exact Hd].
      * apply lookup_ge_None_2. apply lookup_ge_None_1 in Hd. lia.
Qed.
End LoadMlps.

(** X9: when every model path of the scene has a description that can be
    read, with a sub-model count that is not negative and arrays long enough
    for the packing loops, [load_mlps] returns; [models] then has, after the
    entries it had, the sub-models of the first model, then those of the
    second, and so on, each entry naming its model and the number of its
    sub-models, and [mlp_weight_vector] has exactly one buffer for each
    model, holding the packed arrays of that model's description. *)
Theorem load_mlps_loads_every_model `{NerfHeader} (env : Env) (n : Nerf)
    (ds : list Description) :
  Forall2 (describes env) (model_path n) ds →
  Forall (λ w, length (data w) = MLP_TOTAL) (mlp_weight_vector n) →
  ∃ n', load_mlps env n = Ok tt n' ∧
        models n' = models n ++ concat (imap sub_models_of ds) ∧
        mlp_weight_vector n' = map packed_of ds ∧
        length (mlp_weight_vector n') = length (model_path n').
Proof.
  intros Hds Hv.
  destruct (load_mlps_run env n ds Hds Hv) as (n' & Hrun & Hpath & Hmodels & Hmwv).
  exists n'. split; [exact Hrun |]. split; [exact Hmodels |]. split; [exact Hmwv |].
  rewrite Hmwv, Hpath, length_map. symmetry. apply (Forall2_length _ _ _ Hds).
Qed.

(** An environment in which every model has the description [long_mlp]. *)
Definition every_mlp_env : Env :=
  {| asset_base := "assets/";
     nerf_json_file := None;
     read_json_file := λ _, Some long_mlp;
     framework_prepare_ok := true;
     width := 1280; height := 720;
     swapchain_image_count := 3;
     depth_format := Vk.VK_FORMAT_of_device 126;
     swapchain_format := Vk.VK_FORMAT_of_device 44;
     sizeof_global_uniform := 256;
     read_scene_from_file := λ _, Some one_triangle;
     look_at_decompose := λ eye _ _, (glm.Vec3 F32.zero F32.zero F32.zero, eye) |}.

Definition long_description : Description :=
  {| d_doc := long_mlp; d_obj_num := 1;
     d_weights_0 := zero_rows 12 16; d_weights_1 := zero_rows 16 16;
     d_weights_2 := zero_rows 16 4;
     d_bias_0 := replicate 16 F32.zero; d_bias_1 := replicate 16 F32.zero;
     d_bias_2 := replicate 4 F32.zero |}.

(** A scene of two models, resolved. *)
Definition two_paths_state : Nerf :=
  set_model_path ["scenes/a/"; "scenes/b/"] Nerf_new.

Lemma long_description_describes path :
  @describes mobile_nerf_h every_mlp_env path long_description.
Proof.
  split; [reflexivity |]. split; [repeat split; reflexivity |]. split; [cbn; lia |].
  apply (@arrays_with_extra_in_range mobile_nerf_h 16 0).
Qed.

Lemma load_mlps_loads_every_model_witness :
  ∃ n', @load_mlps mobile_nerf_h every_mlp_env two_paths_state = Ok tt n' ∧
        models n' = [Model_of 0 1; Model_of 1 1] ∧
        mlp_weight_vector n'
        = [@packed_of mobile_nerf_h long_description;
           @packed_of mobile_nerf_h long_description].
Proof.
  destruct (@load_mlps_loads_every_model mobile_nerf_h every_mlp_env two_paths_state
              [long_description; long_description])
    as (n' & Hrun & Hmodels & Hmwv & _).
  - constructor; [apply long_description_describes |].
    constructor; [apply long_description_describes | constructor].
  - constructor.
  - exists n'. split; [exact Hrun |]. split; [exact Hmodels | exact Hmwv].
Defined.

(** ** The uniform buffers of the models *)

Lemma upload_step {A B} (f : A → B) (v : list A) (wb : list B) j w :
  v !! j = Some w → (j < length wb)%nat →
  <[j := f w]> (map f (take j v) ++ drop j wb) = map f (take (S j) v) ++ drop (S j) wb.
Proof.
  intros Hw Hj.
  assert (length (map f (take j v)) = j) as Hlen.
  { rewrite length_map, length_take. apply lookup_lt_Some in Hw. lia. }
  destruct (lookup_lt_is_Some_2 wb j Hj) as [b Hb].
  rewrite (drop_S _ _ _ Hb), (take_S_r _ _ _ Hw), map_app.
  rewrite insert_app_r_alt by lia. rewrite Hlen, Nat.sub_diag. cbn.
  rewrite <- app_assoc. reflexivity.
Qed.

Section Uniforms.
Context `{NerfHeader}.
Variable env : Env.
Import Vk.

(** The two buffers that [create_uniforms] creates for a model. *)
Definition uniform_buffers_of_model : list Vk.call :=
  [ create_buffer "uniform_buffer" (sizeof_global_uniform env);
    create_buffer "weights_buffer" (4 * Z.of_nat MLP_TOTAL) ].

Lemma run_vec_at_int {St A B} (v : list A) i a (k : A → M St B) s :
  0 ≤ i → v !! Z.to_nat i = Some a → bind (vec_at_int v i) k s = k a s.
Proof.
  intros Hi Hv. unfold vec_at_int.
  destruct (i <? 0) eqn:Hneg; [apply Z.ltb_lt in Hneg; lia |].
  apply run_vec_at. exact Hv.
Qed.

(** The loop of [create_uniforms] that records the references returns
    when every model names a buffer that exists. *)
Lemma record_references_run {A} (wb : list A) (ms : list Model) (s : Nerf) :
  Forall (λ m, 0 ≤ model_index m < Z.of_nat (length wb)) ms →
  for_each ms (λ model,
    _ ← vec_at_int wb (model_index model);
    _ ← vec_at_int wb (model_index model);
    ret tt) s = Ok tt s.
Proof.
  induction 1 as [|m ms [Hlo Hhi] _ IH]; cbn [for_each]; [reflexivity |].
  destruct (lookup_lt_is_Some_2 wb (Z.to_nat (model_index m))) as [b Hb]; [lia |].
  unfold mbind, M_bind.
  rewrite bind_assoc, (run_vec_at_int _ _ _ _ _ Hlo Hb).
  rewrite bind_assoc, (run_vec_at_int _ _ _ _ _ Hlo Hb).
  exact IH.
Qed.

(** One turn of the loop of [update_uniform_buffers]. *)
Definition upload_model (i : nat) : M Nerf unit :=
  n ← get;
  (if combo_mode n then _ ← vec_at model_translation i; ret tt else ret tt);;
  _ ← vec_at (weights_buffers n) i;
  _ ← vec_at (weights_buffers n) i;
  w ← vec_at (mlp_weight_vector n) i;
  modify (set_weights_buffers (<[i := data w]> (weights_buffers n))).

Lemma update_uniform_buffers_loop s :
  update_uniform_buffers s
  = (n ← get; _ ← vec_at (weights_buffers n) 0;
     for_range (length (model_path n)) 0 upload_model) s.
Proof. reflexivity. Qed.

(** The state of the loop before model [j]. *)
Definition uploaded (s : Nerf) (j : nat) : Nerf :=
  set_weights_buffers
    (map data (take j (mlp_weight_vector s)) ++ drop j (weights_buffers s)) s.

Lemma upload_model_run s j :
  (j < length (weights_buffers s))%nat →
  (j < length (mlp_weight_vector s))%nat →
  (combo_mode s = true → (j < 4)%nat) →
  upload_model j (uploaded s j) = Ok tt (uploaded s (S j)).
Proof.
  intros Hwb Hmwv Hcombo. unfold upload_model, uploaded, mbind, M_bind.
  rewrite run_get.
  cbn [weights_buffers mlp_weight_vector set_weights_buffers combo_mode].
  destruct (lookup_lt_is_Some_2 (mlp_weight_vector s) j) as [w Hw]; [lia |].
  assert (length (map data (take j (mlp_weight_vector s))) = j) as Hlen
    by (rewrite length_map, length_take; lia).
  destruct (lookup_lt_is_Some_2
              (map data (take j (mlp_weight_vector s)) ++ drop j (weights_buffers s)) j)
    as [b Hb]; [rewrite length_app, length_drop; lia |].
  assert (∀ (k : unit → M Nerf unit) t,
            bind (if combo_mode s
                  then bind (vec_at model_translation j) (λ _, ret tt) else ret tt) k t
            = k tt t) as Hread.
  { intros k t. destruct (combo_mode s) eqn:Hc; [| reflexivity].
    destruct (lookup_lt_is_Some_2 model_translation j) as [v Hv];
      [specialize (Hcombo eq_refl); cbn; lia |].
    unfold bind, vec_at. rewrite Hv. reflexivity. }
  rewrite Hread.
  rewrite (run_vec_at _ _ _ _ _ Hb), (run_vec_at _ _ _ _ _ Hb), (run_vec_at _ _ _ _ _ Hw).
  unfold modify, set_weights_buffers. cbn. do 2 f_equal.
  apply upload_step; [exact Hw | lia].
Qed.

(** In a combination scene the fifth model has no translation. *)
Lemma upload_model_overruns s j :
  combo_mode s = true → (4 ≤ j)%nat →
  upload_model j (uploaded s j)
  = Halt (Undefined "vector subscript out of range") (uploaded s j).
Proof.
  intros Hcombo Hj. unfold upload_model, mbind, M_bind.
  rewrite run_get. change (combo_mode (uploaded s j)) with (combo_mode s).
  rewrite Hcombo. unfold bind, vec_at.
  rewrite (lookup_ge_None_2 model_translation j) by (cbn; lia). reflexivity.
Qed.

(** The upload loop of [update_uniform_buffers] returns when every model
    has a buffer and weights and, in a combination scene, a translation;
    the buffer of each model then holds its weights. *)
Lemma update_uniform_buffers_run s :
  (0 < length (model_path s))%nat →
  length (weights_buffers s) = length (model_path s) →
  (length (model_path s) ≤ length (mlp_weight_vector s))%nat →
  (combo_mode s = true → (length (model_path s) ≤ 4)%nat) →
  update_uniform_buffers s
  = Ok tt (set_weights_buffers
             (map data (take (length (model_path s)) (mlp_weight_vector s))) s).
Proof.
  intros Hpos Hwb Hmwv Hcombo. rewrite update_uniform_buffers_loop.
  unfold mbind, M_bind. rewrite run_get.
  destruct (lookup_lt_is_Some_2 (weights_buffers s) 0) as [b0 Hb0]; [lia |].
  rewrite (run_vec_at _ _ _ _ _ Hb0).
  destruct (for_range_inv (λ j t, t = uploaded s j) upload_model
              (length (model_path s)) 0 s) as (t' & Hrun & Ht).
  - unfold uploaded. cbn. rewrite drop_0. destruct s; reflexivity.
  - intros j t Hj ->. eexists. split; [| reflexivity].
    apply upload_model_run; [lia | lia |]. intros Hc. specialize (Hcombo Hc). lia.
  - rewrite Hrun. cbn [Nat.add] in Ht. rewrite Ht. unfold uploaded. do 2 f_equal.
    rewrite drop_ge by lia. apply app_nil_r.
Qed.

(** In a combination scene of more than four models it reads
    [model_translation] past its end. *)
Lemma update_uniform_buffers_overruns s :
  combo_mode s = true → (4 < length (model_path s))%nat →
  length (weights_buffers s) = length (model_path s) →
  (length (model_path s) ≤ length (mlp_weight_vector s))%nat →
  ∃ s', update_uniform_buffers s = Halt (Undefined "vector subscript out of range") s'.
Proof.
  intros Hcombo Hmany Hwb Hmwv. rewrite update_uniform_buffers_loop.
  unfold mbind, M_bind. rewrite run_get.
  destruct (lookup_lt_is_Some_2 (weights_buffers s) 0) as [b0 Hb0]; [lia |].
  rewrite (run_vec_at _ _ _ _ _ Hb0).
  apply (for_range_halts (λ j t, t = uploaded s j) upload_model
           (length (model_path s)) 0 s 4).
  - unfold uploaded. cbn. rewrite drop_0. destruct s; reflexivity.
  - lia.
  - intros j t Hj ->. eexists. split; [| reflexivity].
    apply upload_model_run; [lia | lia |]. intros _. lia.
  - intros t ->. eexists. apply upload_model_overruns; [exact Hcombo | lia].
Qed.

(** The creation loop of [create_uniforms]. *)
Lemma create_uniforms_loop cnt i s :
  ∃ l, for_range cnt i (λ i,
         logf LOGI "Creating camera view uniform buffer for model {}" [Z.of_nat i];;
         gpu_call (create_buffer "uniform_buffer" (sizeof_global_uniform env));;
         logf LOGI "Creating mlp weights uniform buffer for model {}" [Z.of_nat i];;
         gpu_call (create_buffer "weights_buffer" (4 * Z.of_nat MLP_TOTAL))) s
       = Ok tt (set_log l (set_gpu (gpu s ++ concat (replicate cnt uniform_buffers_of_model)) s)).
Proof.
  revert i s. induction cnt as [|cnt IH]; intros i s.
  - exists (log s). cbn. rewrite app_nil_r. destruct s; reflexivity.
  - cbn [for_range].
    erewrite bind_Ok; [| unfold mbind, M_bind, bind, logf, gpu_call, modify; reflexivity].
    match goal with
    | |- context [for_range cnt (S i) _ ?t] => destruct (IH (S i) t) as (l & Hl)
    end.
    rewrite Hl. exists l. cbn. rewrite <- !app_assoc. reflexivity.
Qed.

(** [create_uniforms] on a scene whose models name buffers that exist. *)
Lemma create_uniforms_reaches_upload s :
  Forall (λ m, 0 ≤ model_index m < Z.of_nat (length (model_path s))) (models s) →
  ∃ l, create_uniforms env s
       = update_uniform_buffers
           (set_log l
              (set_gpu (gpu s ++ concat (replicate (length (model_path s))
                                           uniform_buffers_of_model))
                 (set_weights_buffers
                    (resize (length (model_path s)) [] (weights_buffers s)) s))).
Proof.
  intros Hrefs. unfold create_uniforms, mbind, M_bind.
  rewrite run_modify, run_get.
  set (s0 := set_weights_buffers _ s).
  change (model_path s0) with (model_path s).
  destruct (create_uniforms_loop (length (model_path s)) 0 s0) as (l & Hloop).
  unfold mbind, M_bind in Hloop. rewrite (bind_Ok _ _ _ _ _ Hloop).
  rewrite run_get. exists l.
  erewrite bind_Ok; [reflexivity |].
  apply (record_references_run (A := list float)).
  subst s0. cbn. unfold resize.
  rewrite length_app, length_take, length_replicate.
  replace (length (model_path s) `min` length (weights_buffers s) +
           (length (model_path s) - length (weights_buffers s)))%nat
    with (length (model_path s)) by lia.
  exact Hrefs.
Qed.

Lemma resized_length {A} (k : nat) (d : A) (v : list A) : length (resize k d v) = k.
Proof. unfold resize. rewrite length_app, length_take, length_replicate. lia. Qed.

Lemma create_uniforms_run s :
  (0 < length (model_path s))%nat →
  (length (model_path s) ≤ length (mlp_weight_vector s))%nat →
  (combo_mode s = true → (length (model_path s) ≤ 4)%nat) →
  Forall (λ m, 0 ≤ model_index m < Z.of_nat (length (model_path s))) (models s) →
  ∃ l, create_uniforms env s
       = Ok tt (set_weights_buffers
                  (map data (take (length (model_path s)) (mlp_weight_vector s)))
                  (set_log l
                     (set_gpu (gpu s ++ concat (replicate (length (model_path s))
                                                  uniform_buffers_of_model)) s))).
Proof.
  intros Hpos Hmwv Hcombo Hrefs.
  destruct (create_uniforms_reaches_upload s Hrefs) as (l & ->).
  exists l. rewrite update_uniform_buffers_run.
  - reflexivity.
  - exact Hpos.
  - cbn. apply resized_length.
  - exact Hmwv.
  - exact Hcombo.
Qed.
End Uniforms.

(** X10: for a scene of at least one model, each with its weights, whose
    [models] all name a model of the scene and which, if it is a
    combination, has at most the four models that [model_translation]
    holds, [create_uniforms] returns; it has created, model after model, one
    uniform buffer of the size of the global uniform and one weights buffer
    of the size of MLP_Weights, and the weights buffer of every model holds
    the weights of that model. The weights and [models] are as they were.
    For a scene without a model the function reads the first element of an
    empty vector, and for a combination of more than four models it reads
    [model_translation] past its end. *)
Theorem create_uniforms_uploads_weights `{NerfHeader} (env : Env) (n : Nerf) :
  let count := length (model_path n) in
  let named := Forall (λ m, 0 ≤ model_index m < Z.of_nat count) (models n) in
  (count = 0%nat →
   halted (create_uniforms env n) = Some (Undefined "vector subscript out of range")) ∧
  ((0 < count)%nat → (count ≤ length (mlp_weight_vector n))%nat → named →
   (combo_mode n = true → (count ≤ 4)%nat) →
   ∃ n', create_uniforms env n = Ok tt n' ∧
         weights_buffers n' = map data (take count (mlp_weight_vector n)) ∧
         gpu n' = gpu n ++ concat (replicate count (uniform_buffers_of_model env)) ∧
         mlp_weight_vector n' = mlp_weight_vector n ∧
         models n' = models n) ∧
  ((4 < count)%nat → (count ≤ length (mlp_weight_vector n))%nat → named →
   combo_mode n = true →
   halted (create_uniforms env n) = Some (Undefined "vector subscript out of range")).
Proof.
  intros count named. split; [| split].
  - intros Hz. unfold create_uniforms, mbind, M_bind.
    rewrite run_modify, run_get. cbn [model_path set_weights_buffers].
    fold count. rewrite Hz. cbn [for_range]. unfold bind at 1. cbn [ret].
    rewrite run_get. cbn [models weights_buffers set_weights_buffers resize take].
    destruct (models n) as [|m ms]; [reflexivity |].
    cbn [for_each]. unfold vec_at_int, bind.
    destruct (model_index m <? 0); reflexivity.
  - intros Hpos Hmwv Hnamed Hcombo.
    destruct (create_uniforms_run env n Hpos Hmwv Hcombo Hnamed) as (l & Hrun).
    eexists. split; [exact Hrun |]. repeat split; reflexivity.
  - intros Hmany Hmwv Hnamed Hcombo.
    destruct (create_uniforms_reaches_upload env n Hnamed) as (l & ->).
    match goal with
    | |- halted (update_uniform_buffers ?s) = _ =>
        destruct (update_uniform_buffers_overruns s) as (s' & ->)
    end; [exact Hcombo | exact Hmany | apply resized_length | exact Hmwv | reflexivity].
Qed.

(** A scene of two models whose weights are loaded. *)
Definition two_weights_state : Nerf :=
  set_mlp_weight_vector
    [@packed_of mobile_nerf_h long_description; @MLP_Weights_zero mobile_nerf_h]
    two_paths_state.

Lemma create_uniforms_uploads_weights_witness :
  ∃ n', @create_uniforms mobile_nerf_h every_mlp_env two_weights_state = Ok tt n' ∧
        weights_buffers n'
        = [data (@packed_of mobile_nerf_h long_description);
           data (@MLP_Weights_zero mobile_nerf_h)] ∧
        gpu n' = uniform_buffers_of_model (H := mobile_nerf_h) every_mlp_env ++
                 uniform_buffers_of_model (H := mobile_nerf_h) every_mlp_env.
Proof.
  destruct (@create_uniforms_uploads_weights mobile_nerf_h every_mlp_env two_weights_state)
    as (_ & Hsome & _).
  destruct Hsome as (n' & Hrun & Hwb & Hgpu & _);
    [cbn; lia | cbn; lia | constructor | discriminate |].
  exists n'. split; [exact Hrun |]. split; [exact Hwb | exact Hgpu].
Defined.

(** ** FrameRecorder: the recorded frames and the render pass *)

Module Scope.
Import Vk.

(** An instance of a render pass in a command buffer: the pass, the
    framebuffer, the number of clear values given when it begins, the
    number of sub-passes gone through when it ends and the number of draws
    recorded inside it. *)
Record PassInstance : Type := {
  pass : pass_ref;
  framebuffer : nat;
  clear_values : nat;
  subpasses : nat;
  draws : nat
}.

Definition next_subpass (p : PassInstance) : PassInstance :=
  {| pass := pass p; framebuffer := framebuffer p; clear_values := clear_values p;
     subpasses := S (subpasses p); draws := draws p |}.

Definition one_more_draw (p : PassInstance) : PassInstance :=
  {| pass := pass p; framebuffer := framebuffer p; clear_values := clear_values p;
     subpasses := subpasses p; draws := S (draws p) |}.

(** The render pass instances of a command buffer, in order. There is
    none ([None]) when a pass begins inside another, when a pass ends or
    moves to its next sub-pass without having begun, when something is
    drawn outside a pass, or when a pass is left open. *)
Fixpoint scan (open : option PassInstance) (cs : list command) : option (list PassInstance) :=
  match cs with
  | [] => match open with None => Some [] | Some _ => None end
  | c :: cs =>
      match c, open with
      | vkCmdBeginRenderPass p fb cv, None =>
          scan (Some {| pass := p; framebuffer := fb; clear_values := cv;
                        subpasses := 1; draws := 0 |}) cs
      | vkCmdBeginRenderPass _ _ _, Some _ => None
      | vkCmdEndRenderPass, Some p => option_map (cons p) (scan None cs)
      | vkCmdEndRenderPass, None => None
      | vkCmdNextSubpass, Some p => scan (Some (next_subpass p)) cs
      | vkCmdNextSubpass, None => None
      | vkCmdDrawIndexed _ _ _ _ _, Some p => scan (Some (one_more_draw p)) cs
      | vkCmdDraw _ _ _ _, Some p => scan (Some (one_more_draw p)) cs
      | draw_ui, Some p => scan (Some (one_more_draw p)) cs
      | vkCmdDrawIndexed _ _ _ _ _, None => None
      | vkCmdDraw _ _ _ _, None => None
      | draw_ui, None => None
      | _, _ => scan open cs
      end
  end.

Definition more_draws (k : nat) (p : PassInstance) : PassInstance :=
  {| pass := pass p; framebuffer := framebuffer p; clear_values := clear_values p;
     subpasses := subpasses p; draws := k + draws p |}.
End Scope.

Section Scopes.
Variable env : Env.
Import Vk.

(** The commands of the models, inside a pass: one draw for each model. *)
Lemma scan_model_commands n i (h : nat → nat) (l : list Model) p rest :
  Scope.scan (Some p)
    (flat_map (λ '(k, model), model_commands n i k model)
              (imap (λ k model, (h k, model)) l) ++ rest)
  = Scope.scan (Some (Scope.more_draws (length l) p)) rest.
Proof.
  revert h p. induction l as [|m l IH]; intros h p.
  - destruct p; reflexivity.
  - rewrite imap_cons. cbn [flat_map]. unfold model_commands at 1.
    cbn [app Scope.scan].
    change (imap ((λ k model, (h k, model)) ∘ S) l)
      with (imap (λ k model, ((h ∘ S) k, model)) l).
    rewrite IH. destruct p; cbn. unfold Scope.more_draws. cbn.
    rewrite Nat.add_succ_r. reflexivity.
Qed.

(** The render pass that [update_render_pass_nerf] creates for the flag. *)
Definition render_pass_info_of (n : Nerf) : VkRenderPassCreateInfo :=
  if use_deferred n then render_pass_nerf_baseline_info env (feature_map_format n)
  else render_pass_nerf_forward_info env.

Lemma update_render_pass_nerf_run n :
  update_render_pass_nerf env n
  = Ok tt (set_gpu (gpu n ++ [vkCreateRenderPass (render_pass_info_of n)])
             (set_render_pass_nerf (Some (render_pass_info_of n)) n)).
Proof.
  unfold update_render_pass_nerf, render_pass_info_of,
    update_render_pass_nerf_baseline, update_render_pass_nerf_forward.
  cbv [mbind M_bind bind get modify ret gpu_call].
  destruct (use_deferred n); reflexivity.
Qed.

Lemma scan_frame_commands n i :
  Scope.scan None (frame_commands env n i)
  = Some [ {| Scope.pass := render_pass_nerf_ref; Scope.framebuffer := i;
              Scope.clear_values := attachmentCount (render_pass_info_of n);
              Scope.subpasses := subpassCount (render_pass_info_of n);
              Scope.draws := length (models n) + (subpassCount (render_pass_info_of n) - 1) |};
           {| Scope.pass := render_pass_ui; Scope.framebuffer := i;
              Scope.clear_values := 2; Scope.subpasses := 1; Scope.draws := 1 |} ].
Proof.
  unfold frame_commands. cbn [app Scope.scan].
  rewrite (scan_model_commands n i (λ k, k)).
  unfold render_pass_info_of.
  destruct (use_deferred n); cbn;
    unfold Scope.one_more_draw, Scope.next_subpass, Scope.more_draws; cbn;
    repeat f_equal; lia.
Qed.
End Scopes.

(** ** [Nerf::prepare]: invariants of its steps *)

Lemma keeps_triple {St A} (I : St → Prop) (c : M St A) :
  keeps I c → triple I c (λ _, I) (λ _ _, True).
Proof.
  intros Hc. apply (triple_conseq I I c (λ _, I) (λ _, I) (λ _ _, True) (λ _, I) Hc); auto.
Qed.

Ltac head_of t :=
  lazymatch t with
  | ?f _ => head_of f
  | _ => t
  end.

(** The steps of [prepare], one after the other: a command made of them
    keeps [I] when [tac] shows that every change of the state does. *)
Ltac keeps_all tac :=
  lazymatch goal with
  | |- keeps _ (_ ≫= _) => apply keeps_bind; [keeps_all tac | intros ?; keeps_all tac]
  | |- keeps _ (let _ := _ in _) => cbv zeta; keeps_all tac
  | |- keeps _ (if ?b then _ else _) => destruct b; keeps_all tac
  | |- keeps _ (logf _ _ _) => apply keeps_modify; tac
  | |- keeps _ (gpu_call _) => apply keeps_modify; tac
  | |- keeps _ (modify _) => apply keeps_modify; tac
  | |- keeps _ (cmd _ _) => apply keeps_modify; tac
  | |- keeps _ (vkBeginCommandBuffer _) => apply keeps_modify; tac
  | |- keeps _ (lift _) => apply keeps_lift
  | |- keeps _ get => apply keeps_get
  | |- keeps _ (ret _) => apply keeps_ret
  | |- keeps _ (stop _) => apply keeps_stop
  | |- keeps _ (vec_at _ _) => apply keeps_vec_at
  | |- keeps _ (for_range _ _ _) => apply keeps_for_range; intros ?; keeps_all tac
  | |- keeps _ (for_each _ _) => apply keeps_for_each; intros ?; keeps_all tac
  | |- keeps _ (for_range_with _ _ _ _) =>
      apply keeps_for_range_with; intros ? ?; keeps_all tac
  | |- keeps _ (on_model_mlp _ _) => apply keeps_on_model_mlp; tac
  | |- keeps _ (load_raw_asset_map ?e) =>
      unfold load_raw_asset_map; destruct (nerf_json_file e) as [[?|]|]; keeps_all tac
  | |- keeps _ (initialize_mlp_uniform_buffers ?e _) =>
      unfold initialize_mlp_uniform_buffers;
      apply keeps_bind; [apply keeps_get | intros ?];
      apply keeps_bind; [apply keeps_vec_at | intros ?]; cbv zeta;
      destruct (read_json_file e _); keeps_all tac
  | |- keeps _ (prepare_instance_data) =>
      unfold prepare_instance_data;
      apply keeps_bind; [apply keeps_get | intros ?]; cbv zeta;
      destruct (instance_offsets _ _ _) as [? [? ?]|? ?]; keeps_all tac
  | |- keeps _ (on_model _ _) => apply keeps_on_model; tac
  | |- keeps _ (vec_at_int _ _) => apply keeps_vec_at_int
  | |- keeps _ (match ?x with Some _ => _ | None => _ end) => destruct x; keeps_all tac
  | |- keeps _ (match ?x with (_, _) => _ end) => destruct x; keeps_all tac
  | |- keeps _ ?c =>
      let h := head_of c in
      unfold h; keeps_all tac
  end.

Lemma triple_exists {St A X} (P : X → St → Prop) (c : M St A) Q E :
  (∀ x, triple (P x) c Q E) → triple (λ s, ∃ x, P x s) c Q E.
Proof. intros H s [x Hs]. apply (H x s Hs). Qed.

Definition is_framebuffer (c : Vk.call) : bool :=
  match c with
  | Vk.vkCreateFramebuffer _ => true
  | _ => false
  end.

(** The framebuffers among the GPU objects created. *)
Definition framebuffers (l : list Vk.call) : list Vk.call := List.filter is_framebuffer l.

Lemma framebuffers_app l1 l2 : framebuffers (l1 ++ l2) = framebuffers l1 ++ framebuffers l2.
Proof. apply List.filter_app. Qed.

(** The views of a framebuffer of the pass: one for each attachment. *)
Definition views_of (deferred : bool) : nat := if deferred then 5%nat else 2%nat.

(** The object before [prepare] has finished: the flag is [d], the
    framebuffers created so far are [c]. *)
Definition preparing (d : bool) (c : list Vk.call) (s : Nerf) : Prop :=
  prepared s = false ∧ use_deferred s = d ∧ framebuffers (gpu s) = c.

(** A change of the state that creates no framebuffer and leaves the two
    flags alone. *)
Ltac preparing_tac :=
  intros;
  lazymatch goal with
  | Hs : preparing _ _ _ |- _ =>
      destruct Hs as (Hp & Hd & Hc);
      split; [exact Hp | split; [exact Hd |]];
      first [ exact Hc
            | cbn [gpu set_gpu]; rewrite framebuffers_app, Hc; apply app_nil_r ]
  end.

Section PrepareSteps.
Context `{NerfHeader}.
Variable env : Env.

Lemma load_mlps_preparing d c : keeps (preparing d c) (load_mlps env).
Proof. keeps_all preparing_tac. Qed.

Lemma load_shaders_preparing d c : keeps (preparing d c) load_shaders.
Proof. keeps_all preparing_tac. Qed.

Lemma update_render_pass_nerf_preparing d c :
  keeps (preparing d c) (update_render_pass_nerf env).
Proof. keeps_all preparing_tac. Qed.

Lemma load_models_preparing d c : keeps (preparing d c) (load_models env).
Proof. keeps_all preparing_tac. Qed.
End PrepareSteps.

(** ** The framebuffers of the render pass *)

Lemma flat_map_const {A B} (l : list B) (xs : list A) :
  flat_map (λ _, l) xs = concat (replicate (length xs) l).
Proof. induction xs as [|x xs IH]; cbn; [reflexivity | rewrite IH; reflexivity]. Qed.

Lemma framebuffers_concat_replicate k l :
  framebuffers (concat (replicate k l)) = concat (replicate k (framebuffers l)).
Proof.
  induction k as [|k IH]; cbn; [reflexivity |].
  rewrite framebuffers_app, IH. reflexivity.
Qed.

Lemma concat_replicate_nil {A} k : concat (replicate k (@nil A)) = [].
Proof. induction k as [|k IH]; cbn; [reflexivity | exact IH]. Qed.

Lemma concat_replicate_singleton {A} k (x : A) : concat (replicate k [x]) = replicate k x.
Proof. induction k as [|k IH]; cbn; [reflexivity | rewrite IH; reflexivity]. Qed.

Section Framebuffers.
Variable env : Env.
Import Vk.

(** What [setup_nerf_framebuffer_baseline] creates: in the deferred
    topology three attachments for every frame, then in both topologies
    one framebuffer for every frame. *)
Definition framebuffer_setup_calls (n : Nerf) : list Vk.call :=
  (if use_deferred n
   then flat_map (λ _ : nat, [setup_attachment (feature_map_format n)] ++
                             [setup_attachment (feature_map_format n)] ++
                             [setup_attachment VK_FORMAT_R16G16B16A16_SFLOAT])
                 (seq 0 (swapchain_image_count env))
   else []) ++
  flat_map (λ _ : nat, [vkCreateFramebuffer (views_of (use_deferred n))])
           (seq 0 (swapchain_image_count env)).

Lemma setup_nerf_framebuffer_baseline_run n :
  setup_nerf_framebuffer_baseline env n
  = Ok tt (set_gpu (gpu n ++ framebuffer_setup_calls n) n).
Proof.
  unfold setup_nerf_framebuffer_baseline, framebuffer_setup_calls, views_of, mbind, M_bind.
  rewrite run_get.
  refine (emits_bind _ _ _ _ _ _ n).
  - destruct (use_deferred n).
    + apply emits_for_range. intros j.
      refine (emits_bind [_] _ _ _ (emits_gpu_call _) _).
      refine (emits_bind [_] [_] _ _ (emits_gpu_call _) (emits_gpu_call _)).
    + apply emits_ret.
  - apply emits_for_range. intros j. apply emits_gpu_call.
Qed.

Lemma framebuffers_of_setup n :
  framebuffers (framebuffer_setup_calls n)
  = replicate (swapchain_image_count env) (vkCreateFramebuffer (views_of (use_deferred n))).
Proof.
  unfold framebuffer_setup_calls. rewrite framebuffers_app.
  rewrite (flat_map_const [vkCreateFramebuffer _]), framebuffers_concat_replicate.
  cbn [framebuffers List.filter is_framebuffer].
  rewrite concat_replicate_singleton, length_seq.
  destruct (use_deferred n); [| reflexivity].
  rewrite (flat_map_const ([_] ++ [_] ++ [_])), framebuffers_concat_replicate.
  cbn [framebuffers List.filter is_framebuffer app].
  rewrite concat_replicate_nil. reflexivity.
Qed.

(** What a recording creates: nothing once the object is prepared, the
    framebuffers again before. *)
Definition recording_calls (n : Nerf) : list Vk.call :=
  if prepared n then [] else framebuffer_setup_calls n.

(** A recording leaves in [gpu] what was there and what it creates. *)
Lemma build_command_buffers_baseline_gpu n :
  gpu (final (build_command_buffers_baseline env n)) = gpu n ++ recording_calls n.
Proof.
  unfold build_command_buffers_baseline, mbind, M_bind. rewrite run_get.
  assert ((if negb (prepared n)
           then bind (setup_nerf_framebuffer_baseline env)
                  (λ _, if use_deferred n then update_descriptor_sets_baseline
                        else ret tt)
           else ret tt) n = Ok tt (set_gpu (gpu n ++ recording_calls n) n)) as Hpre.
  { unfold recording_calls. destruct (prepared n); cbn [negb].
    - apply emits_ret.
    - unfold bind. rewrite setup_nerf_framebuffer_baseline_run.
      destruct (use_deferred n); reflexivity. }
  rewrite (bind_Ok _ _ _ _ _ Hpre). cbv zeta.
  apply (keeps_final (λ s, gpu s = gpu n ++ recording_calls n)); [| reflexivity].
  apply keeps_for_range. intros i. unfold keeps.
  change (keeps (λ s, gpu s = gpu n ++ recording_calls n)
            (vkBeginCommandBuffer i ≫= λ _,
             cmd i (vkCmdBeginRenderPass render_pass_nerf_ref i
                      (if use_deferred n then 5%nat else 2%nat)) ≫= λ _,
             cmd i (vkCmdSetViewport (width env) (height env)) ≫= λ _,
             cmd i (vkCmdSetScissor (width env) (height env)) ≫= λ _,
             for_each (imap (λ k model, (k, model)) (models n))
               (λ '(k, model),
                  cmd i (vkCmdBindPipeline (pipeline_first_pass k)) ≫= λ _,
                  cmd i (vkCmdBindDescriptorSets
                           (descriptor_set_first_pass k
                              (if use_deferred n then 0 else Z.of_nat i))) ≫= λ _,
                  cmd i (vkCmdBindVertexBuffers 0 (vertex_buffer k)) ≫= λ _,
                  cmd i (vkCmdBindVertexBuffers 1 instance_buffer_ref) ≫= λ _,
                  cmd i (vkCmdBindIndexBuffer (index_buffer k)) ≫= λ _,
                  cmd i (vkCmdDrawIndexed
                           (Int.uwrap (Int.uwrap (Z.of_nat (length (indices model))) * 3))
                           (Int.uwrap (lattice_size (dim (instancing_info n))))
                           0 0 0)) ≫= λ _,
             (if use_deferred n then
                cmd i vkCmdNextSubpass ≫= λ _,
                cmd i (vkCmdBindPipeline pipeline_baseline) ≫= λ _,
                cmd i (vkCmdBindDescriptorSets (descriptor_set_baseline i)) ≫= λ _,
                cmd i (vkCmdDraw 3 1 0 0) ≫= λ _,
                cmd i vkCmdEndRenderPass
              else cmd i vkCmdEndRenderPass) ≫= λ _,
             cmd i (vkCmdBeginRenderPass render_pass_ui i 2) ≫= λ _,
             cmd i draw_ui ≫= λ _,
             cmd i vkCmdEndRenderPass)).
  keeps_all ltac:(intros; assumption).
Qed.

(** The closed form of a recording. *)
Lemma build_command_buffers_baseline_closed n :
  build_command_buffers_baseline env n
  = Ok tt (set_draw_cmd_buffers
             (imap (λ i _, frame_commands env n i) (draw_cmd_buffers n))
             (set_gpu (gpu n ++ recording_calls n) n)).
Proof.
  destruct (build_command_buffers_baseline_run env n) as (cs & Hrun).
  pose proof (build_command_buffers_baseline_gpu n) as Hgpu.
  rewrite Hrun in Hgpu. cbn in Hgpu. apply app_inv_head in Hgpu. subst cs.
  exact Hrun.
Qed.
End Framebuffers.

Section RecordingExtras.
Variable env : Env.
Import Vk.

Lemma attachments_of_pass n :
  attachmentCount (render_pass_info_of env n) = views_of (use_deferred n).
Proof. unfold render_pass_info_of, views_of. destruct (use_deferred n); reflexivity. Qed.

(** X11: the frames that are recorded fit the render pass that
    [update_render_pass_nerf] has created for the same flag. Every command
    buffer holds exactly two render pass instances, one after the other
    and both closed, with every draw inside one of them: first the NeRF
    pass, begun with as many clear values as the pass has attachments,
    ended in the last of its sub-passes, with one draw for each model and
    one more for the second sub-pass when there is one; then the UI pass.
    The framebuffers that a first recording sets up have as many views as
    the pass has attachments, one framebuffer for each swapchain image. *)
Theorem recorded_frames_fit_the_render_pass (n : Nerf) :
  ∃ n1 info s,
    update_render_pass_nerf env n = Ok tt n1 ∧
    render_pass_nerf n1 = Some info ∧
    build_command_buffers_baseline env n1 = Ok tt s ∧
    length (draw_cmd_buffers s) = length (draw_cmd_buffers n) ∧
    (∀ i b, draw_cmd_buffers s !! i = Some b →
       Scope.scan None b
       = Some [ {| Scope.pass := render_pass_nerf_ref; Scope.framebuffer := i;
                   Scope.clear_values := attachmentCount info;
                   Scope.subpasses := subpassCount info;
                   Scope.draws := length (models n) + (subpassCount info - 1) |};
                {| Scope.pass := render_pass_ui; Scope.framebuffer := i;
                   Scope.clear_values := 2; Scope.subpasses := 1; Scope.draws := 1 |} ]) ∧
    (prepared n = false →
     framebuffers (gpu s)
     = framebuffers (gpu n) ++
       replicate (swapchain_image_count env) (vkCreateFramebuffer (attachmentCount info))).
Proof.
  eexists _, (render_pass_info_of env n), _.
  split; [apply update_render_pass_nerf_run |]. split; [reflexivity |].
  split; [apply build_command_buffers_baseline_closed |].
  split; [cbn; apply length_imap |]. split.
  - intros i b Hb. cbn in Hb. rewrite list_lookup_imap in Hb.
    destruct (draw_cmd_buffers n !! i); [| discriminate Hb].
    cbn in Hb. injection Hb as <-.
    exact (scan_frame_commands env n i).
  - intros Hp. cbn [gpu set_gpu set_draw_cmd_buffers set_render_pass_nerf].
    unfold recording_calls. cbn [prepared set_gpu set_render_pass_nerf]. rewrite Hp.
    rewrite !framebuffers_app. cbn [framebuffers List.filter is_framebuffer].
    rewrite app_nil_r. f_equal.
    rewrite attachments_of_pass. exact (framebuffers_of_setup env n).
Qed.

Lemma imap_imap_const {A B} (f : nat → B) (g : nat → A → B) (l : list A) :
  imap (λ i _, f i) (imap g l) = imap (λ i _, f i) l.
Proof.
  apply list_eq. intros i. rewrite !list_lookup_imap.
  destruct (l !! i); reflexivity.
Qed.

(** X12: once the object is prepared, a recording creates nothing on the
    GPU, and recording once more changes nothing at all: every command
    buffer is recorded from its start, so the commands do not pile up. *)
Theorem recording_again_changes_nothing (n : Nerf) :
  prepared n = true →
  ∃ s, build_command_buffers_baseline env n = Ok tt s ∧
       gpu s = gpu n ∧
       build_command_buffers_baseline env s = Ok tt s.
Proof.
  intros Hp. eexists. split; [apply build_command_buffers_baseline_closed |].
  unfold recording_calls. rewrite Hp, app_nil_r. split; [reflexivity |].
  rewrite build_command_buffers_baseline_closed.
  unfold recording_calls. cbn [prepared set_draw_cmd_buffers set_gpu]. rewrite Hp.
  cbn [gpu set_draw_cmd_buffers set_gpu draw_cmd_buffers]. rewrite app_nil_r.
  rewrite (imap_imap_const (λ i, frame_commands env _ i)).
  reflexivity.
Qed.

(** X13: the view-port size of the configuration never reaches a command
    buffer: whatever width and height the object holds, and whether it uses
    the native screen size or not, [build_command_buffers] records the
    same commands, whose viewport and scissor are the size of the window. *)
Theorem recording_ignores_the_view_port (n : Nerf) (w h : Z) (native : bool) :
  let n' := set_use_native_screen_size native
              (set_view_port_width w (set_view_port_height h n)) in
  draw_cmd_buffers (final (build_command_buffers env n'))
  = draw_cmd_buffers (final (build_command_buffers env n)) ∧
  ∀ i b, draw_cmd_buffers (final (build_command_buffers env n)) !! i = Some b →
    b !! 1%nat = Some (vkCmdSetViewport (width env) (height env)) ∧
    b !! 2%nat = Some (vkCmdSetScissor (width env) (height env)).
Proof.
  intros n'.
  assert (∀ m, draw_cmd_buffers (final (build_command_buffers env m))
               = imap (λ i _, frame_commands env m i) (draw_cmd_buffers m)) as Hrec.
  { intros m. unfold build_command_buffers, mbind, M_bind. rewrite run_get.
    destruct (use_native_screen_size m).
    - rewrite !bind_assoc, !run_modify, build_command_buffers_baseline_closed. reflexivity.
    - unfold bind at 1. cbn [ret]. rewrite build_command_buffers_baseline_closed.
      reflexivity. }
  split.
  - rewrite !Hrec. reflexivity.
  - intros i b Hb. rewrite Hrec, list_lookup_imap in Hb.
    destruct (draw_cmd_buffers n !! i); [| discriminate Hb].
    cbn in Hb. injection Hb as <-. split; reflexivity.
Qed.
End RecordingExtras.

(** The object with three command buffers when [prepare] has returned. *)
Definition prepared_state : Nerf :=
  set_prepared true (set_draw_cmd_buffers [[]; []; []] Nerf_new).

Lemma recording_again_changes_nothing_witness :
  ∃ s, build_command_buffers_baseline compiled_in_env prepared_state = Ok tt s ∧
       gpu s = gpu prepared_state ∧
       build_command_buffers_baseline compiled_in_env s = Ok tt s.
Proof. exact (recording_again_changes_nothing compiled_in_env prepared_state eq_refl). Defined.

(** A step that keeps the invariant, then the rest. *)
Ltac kstep tac :=
  eapply triple_bind; [apply keeps_triple; keeps_all tac | intros ?].

Lemma triple_pre {St A} (P P' : St → Prop) (c : M St A) Q E :
  (∀ s, P s → P' s) → triple P' c Q E → triple P c Q E.
Proof. intros HP Hc s Hs. apply (Hc s (HP s Hs)). Qed.

Section PrepareFramebuffers.
Context `{NerfHeader}.
Variable env : Env.
Import Vk.

(** The framebuffers of one setup. *)
Definition framebuffers_of_frames (d : bool) : list Vk.call :=
  replicate (swapchain_image_count env) (vkCreateFramebuffer (views_of d)).

Lemma setup_preparing d c :
  triple (preparing d c) (setup_nerf_framebuffer_baseline env)
    (λ _, preparing d (c ++ framebuffers_of_frames d)) (λ _ _, True).
Proof.
  intros s (Hp & Hd & Hc). rewrite setup_nerf_framebuffer_baseline_run.
  split; [exact Hp |]. split; [exact Hd |].
  cbn [gpu set_gpu]. rewrite framebuffers_app, Hc, framebuffers_of_setup, Hd. reflexivity.
Qed.

Lemma build_command_buffers_preparing d c :
  triple (preparing d c) (build_command_buffers env)
    (λ _, preparing d (c ++ framebuffers_of_frames d)) (λ _ _, True).
Proof.
  assert (∀ s, preparing d c s →
            match build_command_buffers_baseline env s with
            | Ok _ s' => preparing d (c ++ framebuffers_of_frames d) s'
            | Halt _ _ => True
            end) as Hbase.
  { intros s (Hp & Hd & Hc). rewrite build_command_buffers_baseline_closed.
    split; [exact Hp |]. split; [exact Hd |].
    cbn [gpu set_gpu set_draw_cmd_buffers]. unfold recording_calls. rewrite Hp.
    rewrite framebuffers_app, Hc, framebuffers_of_setup, Hd. reflexivity. }
  intros s Hs. unfold build_command_buffers, mbind, M_bind. rewrite run_get.
  destruct (use_native_screen_size s).
  - rewrite !bind_assoc, !run_modify. apply Hbase. exact Hs.
  - unfold bind at 1. cbn [ret]. apply Hbase. exact Hs.
Qed.

Lemma prepare_framebuffers c :
  triple (λ s, prepared s = false ∧ framebuffers (gpu s) = c) (prepare env)
    (λ b s', b = true →
       prepared s' = true ∧
       framebuffers (gpu s')
       = c ++ framebuffers_of_frames (use_deferred s') ++
              framebuffers_of_frames (use_deferred s'))
    (λ _ _, True).
Proof.
  unfold prepare.
  eapply triple_bind.
  { apply keeps_triple, read_json_map_keeps.
    intros s t Hst [Hp Hc].
    pose proof (f_equal snd Hst) as Hgpu.
    pose proof (f_equal (λ p, snd (fst (fst p))) Hst) as Hprepared.
    cbn in Hgpu, Hprepared. split; congruence. }
  intros ?.
  apply (triple_pre _ (λ s, ∃ d, preparing d c s));
    [intros s [Hp Hc]; exists (use_deferred s); repeat split; assumption |].
  apply triple_exists. intros d.
  kstep preparing_tac. kstep preparing_tac.
  destruct (negb (framework_prepare_ok env)).
  { apply triple_ret. intros s _ Hb. discriminate Hb. }
  do 5 kstep preparing_tac.
  eapply triple_bind; [apply setup_preparing | intros ?].
  do 12 kstep preparing_tac.
  eapply triple_bind; [apply build_command_buffers_preparing | intros ?].
  intros s (Hp & Hd & Hc). unfold mbind, M_bind. rewrite run_modify, run_logf.
  unfold ret. intros _. split; [reflexivity |].
  cbn [gpu use_deferred set_log set_prepared]. rewrite Hd, Hc, <- app_assoc. reflexivity.
Qed.

(** X14: a [prepare] that returns true on an object that was not
    prepared leaves it prepared, and has set up the framebuffers of the
    pass twice: once in its own course and once more when it records the
    command buffers, the object not being prepared yet. Every one of them
    has as many views as the pass has attachments. *)
Theorem prepare_sets_up_the_framebuffers_twice (n n' : Nerf) :
  prepared n = false →
  prepare env n = Ok true n' →
  prepared n' = true ∧
  framebuffers (gpu n')
  = framebuffers (gpu n) ++
    replicate (2 * swapchain_image_count env)
      (vkCreateFramebuffer (attachmentCount (render_pass_info_of env n'))).
Proof.
  intros Hp Hrun.
  pose proof (prepare_framebuffers (framebuffers (gpu n)) n (conj Hp eq_refl)) as Hpost.
  rewrite Hrun in Hpost. destruct (Hpost eq_refl) as [Hprepared Hfb].
  split; [exact Hprepared |]. rewrite Hfb, attachments_of_pass.
  unfold framebuffers_of_frames. rewrite <- replicate_add. do 2 f_equal. lia.
Qed.
End PrepareFramebuffers.

(** The scene of one model in the deferred topology, on a swapchain of
    three images. *)
Definition deferred_env : Env :=
  single_model_env true 1280 720 (Vk.VK_FORMAT_of_device 126) (Vk.VK_FORMAT_of_device 44) 256
    (λ eye _ _, (glm.Vec3 F32.zero F32.zero F32.zero, eye)).

Lemma deferred_prepare_returns :
  @prepare mobile_nerf_h deferred_env Nerf_new
  = Ok true (final (@prepare mobile_nerf_h deferred_env Nerf_new)).
Proof. vm_compute. reflexivity. Qed.

Lemma prepare_sets_up_the_framebuffers_twice_witness :
  let n' := final (@prepare mobile_nerf_h deferred_env Nerf_new) in
  prepared n' = true ∧
  framebuffers (gpu n')
  = framebuffers (gpu Nerf_new) ++
    replicate (2 * swapchain_image_count deferred_env)
      (Vk.vkCreateFramebuffer (Vk.attachmentCount (render_pass_info_of deferred_env n'))).
Proof.
  intros n'.
  exact (@prepare_sets_up_the_framebuffers_twice mobile_nerf_h deferred_env Nerf_new n'
           eq_refl deferred_prepare_returns).
Defined.

(** ** The objects that [prepare] creates for the recorded frames *)

(** What the last steps of [prepare] read of the object. *)
Definition core (n : Nerf) :=
  (use_deferred n, models n, instancing_info n, draw_cmd_buffers n, prepared n).

(** A step that, when it returns, has created [cs] and left the core of
    the object alone. *)
Definition creates (cs : list Vk.call) (c : M Nerf unit) (s : Nerf) : Prop :=
  on_return (c s) (λ _ s', gpu s' = gpu s ++ cs ∧ core s' = core s).

Lemma creates_ret s : creates [] (ret tt) s.
Proof. split; [symmetry; apply app_nil_r | reflexivity]. Qed.

Lemma creates_gpu_call c s : creates [c] (gpu_call c) s.
Proof. split; reflexivity. Qed.

Lemma creates_bind cs1 cs2 (c1 c2 : M Nerf unit) s :
  creates cs1 c1 s → (∀ s', core s' = core s → creates cs2 c2 s') →
  creates (cs1 ++ cs2) (bind c1 (λ _, c2)) s.
Proof.
  unfold creates, on_return, bind. intros H1 H2.
  destruct (c1 s) as [[] s1|]; [| exact I].
  destruct H1 as [Hg1 Hc1]. specialize (H2 s1 Hc1).
  destruct (c2 s1) as [[] s2|]; [| exact I].
  destruct H2 as [Hg2 Hc2]. split; [| congruence].
  rewrite Hg2, Hg1, app_assoc. reflexivity.
Qed.

Lemma creates_for_range (f : nat → list Vk.call) (body : nat → M Nerf unit) cnt i s :
  (∀ j s', core s' = core s → creates (f j) (body j) s') →
  creates (flat_map f (seq i cnt)) (for_range cnt i body) s.
Proof.
  revert i s. induction cnt as [|cnt IH]; intros i s Hbody; simpl.
  - apply creates_ret.
  - apply (creates_bind (f i) _ (body i) (for_range cnt (S i) body)).
    + apply Hbody. reflexivity.
    + intros s' Hs'. apply IH. intros j t Ht. apply Hbody. congruence.
Qed.

Section CreatedObjects.
Variable env : Env.
Import Vk.

(** The descriptor sets allocated for the first pass of model [k]: one in
    the deferred topology, one for each swapchain image otherwise. *)
Definition first_pass_sets (d : bool) (k : nat) : list Vk.call :=
  flat_map (λ i, [vkAllocateDescriptorSets (descriptor_set_first_pass k (Z.of_nat i))])
           (seq 0 (if d then 1%nat else swapchain_image_count env)).

Definition baseline_sets : list Vk.call :=
  flat_map (λ i, [vkAllocateDescriptorSets (descriptor_set_baseline i)])
           (seq 0 (swapchain_image_count env)).

Definition pipelines_of (d : bool) (count : nat) : list Vk.call :=
  flat_map (λ k, [vkCreateGraphicsPipelines (pipeline_first_pass k)]) (seq 0 count) ++
  (if d then [vkCreateGraphicsPipelines pipeline_baseline] else []).

Lemma create_descriptor_sets_first_pass_creates k s :
  creates (first_pass_sets (use_deferred s) k) (create_descriptor_sets_first_pass env k) s.
Proof.
  unfold creates, create_descriptor_sets_first_pass, mbind, M_bind. rewrite run_get.
  cbv zeta. apply creates_for_range. intros j s' _. apply creates_gpu_call.
Qed.

Lemma create_descriptor_sets_baseline_creates s :
  creates baseline_sets (create_descriptor_sets_baseline env) s.
Proof.
  unfold create_descriptor_sets_baseline. apply creates_for_range. intros j s' _.
  unfold creates, on_return, mbind, M_bind. unfold gpu_call. rewrite run_modify, run_get.
  unfold bind, vec_at. cbn [models set_gpu].
  destruct (models s' !! 0%nat); cbn; [split; reflexivity | exact I].
Qed.

Lemma prepare_pipelines_creates s :
  creates (pipelines_of (use_deferred s) (length (models s))) (prepare_pipelines) s.
Proof.
  unfold prepare_pipelines, pipelines_of, mbind, M_bind. unfold creates. rewrite run_get.
  apply creates_bind.
  - apply creates_for_range. intros j s' _. apply creates_gpu_call.
  - intros s' _. destruct (use_deferred s); [apply creates_gpu_call | apply creates_ret].
Qed.
End CreatedObjects.

Lemma elem_of_flat_map_seq {A} (f : nat → list A) (x : A) i count :
  (i < count)%nat → x ∈ f i → x ∈ flat_map f (seq 0 count).
Proof.
  intros Hi Hx. apply list_elem_of_In, in_flat_map. exists i. split.
  - apply in_seq. lia.
  - apply list_elem_of_In. exact Hx.
Qed.

Lemma creates_then {B} cs (c : M Nerf unit) (k : unit → M Nerf B) (Q : B → Nerf → Prop) s :
  creates cs c s →
  (∀ s', gpu s' = gpu s ++ cs → core s' = core s → on_return (k tt s') Q) →
  on_return (bind c k s) Q.
Proof.
  unfold creates, on_return, bind. intros Hc Hk.
  destruct (c s) as [[] s'|]; [| exact I].
  destruct Hc as [Hg Hcore]. exact (Hk s' Hg Hcore).
Qed.

Lemma core_eq s t :
  core s = core t →
  use_deferred s = use_deferred t ∧ models s = models t ∧
  instancing_info s = instancing_info t ∧ draw_cmd_buffers s = draw_cmd_buffers t ∧
  prepared s = prepared t.
Proof. unfold core. intros Hc. injection Hc as ? ? ? ? ?. auto. Qed.

Section PrepareTail.
Variable env : Env.
Import Vk.

(** What a command that binds an object needs: the object was created. *)
Definition bound_exists (g : list Vk.call) (c : command) : Prop :=
  match c with
  | vkCmdBindPipeline p => vkCreateGraphicsPipelines p ∈ g
  | vkCmdBindDescriptorSets d => vkAllocateDescriptorSets d ∈ g
  | _ => True
  end.

(** The object when [prepare] has recorded the frames: it is prepared,
    every command buffer holds its frame, and the pipelines and descriptor
    sets of the models and of the second sub-pass are there. *)
Record frames_ready (s : Nerf) : Prop := {
  fr_prepared : prepared s = true;
  fr_count : length (draw_cmd_buffers s) = swapchain_image_count env;
  fr_frames : ∀ i, (i < swapchain_image_count env)%nat →
    draw_cmd_buffers s !! i = Some (frame_commands env s i);
  fr_pipelines : ∀ k, (k < length (models s))%nat →
    vkCreateGraphicsPipelines (pipeline_first_pass k) ∈ gpu s;
  fr_sets : ∀ k idx, (k < length (models s))%nat →
    (idx < if use_deferred s then 1 else swapchain_image_count env)%nat →
    vkAllocateDescriptorSets (descriptor_set_first_pass k (Z.of_nat idx)) ∈ gpu s;
  fr_baseline : use_deferred s = true →
    vkCreateGraphicsPipelines pipeline_baseline ∈ gpu s ∧
    ∀ i, (i < swapchain_image_count env)%nat →
      vkAllocateDescriptorSets (descriptor_set_baseline i) ∈ gpu s
}.

Lemma build_command_buffers_then {B} (k : unit → M Nerf B) (Q : B → Nerf → Prop) s :
  (∀ s', gpu s' = gpu s ++ recording_calls env s →
         draw_cmd_buffers s'
         = imap (λ i _, frame_commands env s i) (draw_cmd_buffers s) →
         (use_deferred s', models s', instancing_info s', prepared s')
         = (use_deferred s, models s, instancing_info s, prepared s) →
         on_return (k tt s') Q) →
  on_return (bind (build_command_buffers env) k s) Q.
Proof.
  intros Hk. unfold build_command_buffers, mbind, M_bind. rewrite bind_assoc, run_get.
  destruct (use_native_screen_size s).
  - rewrite !bind_assoc, !run_modify.
    rewrite (bind_Ok _ _ _ _ _ (build_command_buffers_baseline_closed env _)).
    apply Hk; reflexivity.
  - rewrite bind_assoc. unfold bind at 1. cbn [ret].
    rewrite (bind_Ok _ _ _ _ _ (build_command_buffers_baseline_closed env _)).
    apply Hk; reflexivity.
Qed.

(** The last steps of [prepare] (lines 473-488), from a state whose
    command buffers are the ones [prepare] has made. *)
Lemma prepare_tail s :
  draw_cmd_buffers s = replicate (swapchain_image_count env) [] →
  on_return
    ((n ← get;
      for_range (length (models n)) 0 (create_descriptor_sets_first_pass env);;
      (if use_deferred n then create_descriptor_sets_baseline env else ret tt);;
      prepare_pipelines;;
      build_command_buffers env;;
      modify (set_prepared true);;
      logf LOGI "Prepare Done!" [];;
      ret true) s)
    (λ b s', b = true ∧ frames_ready s').
Proof.
  intros Hdraw. unfold mbind, M_bind. rewrite run_get.
  apply (creates_then (flat_map (first_pass_sets env (use_deferred s))
                         (seq 0 (length (models s))))).
  { apply creates_for_range. intros k s' Hs'.
    destruct (core_eq _ _ Hs') as (Hd' & _). rewrite <- Hd'.
    apply create_descriptor_sets_first_pass_creates. }
  intros s1 Hg1 Hc1. destruct (core_eq _ _ Hc1) as (Hd1 & Hm1 & _).
  apply (creates_then (if use_deferred s then baseline_sets env else [])).
  { destruct (use_deferred s);
      [apply create_descriptor_sets_baseline_creates | apply creates_ret]. }
  intros s2 Hg2 Hc2. destruct (core_eq _ _ Hc2) as (Hd2 & Hm2 & _).
  apply (creates_then (pipelines_of (use_deferred s) (length (models s)))).
  { rewrite <- Hd1, <- Hd2, <- Hm1, <- Hm2. apply prepare_pipelines_creates. }
  intros s3 Hg3 Hc3.
  assert (core s3 = core s) as Hcore by congruence.
  destruct (core_eq _ _ Hcore) as (Hd & Hm & Hii & Hdr & Hp).
  apply build_command_buffers_then. intros s4 Hg4 Hdr4 Hsame.
  injection Hsame as Hd4 Hm4 Hii4 Hp4.
  rewrite run_modify, run_logf. unfold on_return, ret.
  split; [reflexivity |].
  assert (∀ c, c ∈ gpu s3 → c ∈ gpu s4) as Hlater
    by (intros c Hc; rewrite Hg4; apply elem_of_app; left; exact Hc).
  constructor; cbn [prepared draw_cmd_buffers models use_deferred gpu set_log set_prepared].
  - reflexivity.
  - rewrite Hdr4, length_imap, Hdr, Hdraw. apply length_replicate.
  - intros i Hi. rewrite Hdr4, list_lookup_imap, Hdr, Hdraw.
    rewrite lookup_replicate_2 by exact Hi. cbn. f_equal.
    unfold frame_commands, model_commands. cbn [use_deferred models instancing_info
      set_log set_prepared]. rewrite Hd4, Hm4, Hii4. reflexivity.
  - intros k Hk. apply Hlater. rewrite Hg3. apply elem_of_app. right.
    unfold pipelines_of. apply elem_of_app. left.
    apply (elem_of_flat_map_seq _ _ k); [congruence | apply list_elem_of_singleton; reflexivity].
  - intros k idx Hk Hidx. apply Hlater. rewrite Hg3, Hg2, Hg1.
    apply elem_of_app. left. apply elem_of_app. left. apply elem_of_app. right.
    apply (elem_of_flat_map_seq _ _ k); [congruence |].
    unfold first_pass_sets.
    apply (elem_of_flat_map_seq _ _ idx); [| apply list_elem_of_singleton; reflexivity].
    rewrite Hd4, Hd in Hidx. exact Hidx.
  - intros Hdef. assert (use_deferred s = true) as Hds by congruence. split.
    + apply Hlater. rewrite Hg3. apply elem_of_app. right.
      unfold pipelines_of. apply elem_of_app. right. rewrite Hds.
      apply list_elem_of_singleton. reflexivity.
    + intros i Hi. apply Hlater. rewrite Hg3, Hg2.
      apply elem_of_app. left. apply elem_of_app. right. rewrite Hds.
      apply (elem_of_flat_map_seq _ _ i); [exact Hi | apply list_elem_of_singleton; reflexivity].
Qed.
End PrepareTail.

Lemma keeps_True {St A} (c : M St A) : keeps (λ _, True) c.
Proof. intros s _. destruct (c s); exact I. Qed.

Section PrepareFrames.
Context `{NerfHeader}.
Variable env : Env.
Import Vk.

(** A [prepare] that returns true has recorded the frames and created
    what they bind. *)
Lemma prepare_frames_ready :
  triple (λ _, True) (prepare env) (λ b s', b = true → frames_ready env s') (λ _ _, True).
Proof.
  unfold prepare.
  do 3 (eapply triple_bind; [apply keeps_triple, keeps_True | intros ?]).
  destruct (negb (framework_prepare_ok env)).
  { apply triple_ret. intros s _ Hb. discriminate Hb. }
  eapply (triple_bind _ _ _
            (λ _ s, draw_cmd_buffers s = replicate (swapchain_image_count env) [])).
  { apply triple_modify. intros s _. reflexivity. }
  intros ?.
  do 13 kstep ltac:(intros; assumption).
  intros s Hdraw.
  apply (on_return_weaken _ _ _ (prepare_tail env s Hdraw)).
  intros b s' [_ Hready] _. exact Hready.
Qed.

Lemma prepare_ready n n' : prepare env n = Ok true n' → frames_ready env n'.
Proof.
  intros Hrun. pose proof (prepare_frames_ready n I) as Hpost.
  rewrite Hrun in Hpost. exact (Hpost eq_refl).
Qed.

(** The models a frame goes over, with their places. *)
Lemma model_of_frame (n : Nerf) k model :
  In (k, model) (imap (λ k model, (k, model)) (models n)) → (k < length (models n))%nat.
Proof.
  intros Hin. apply list_elem_of_In, list_elem_of_lookup in Hin. destruct Hin as [j Hj].
  rewrite list_lookup_imap in Hj.
  destruct (models n !! j) as [m|] eqn:Hm; [| discriminate Hj].
  cbn in Hj. injection Hj as <- _. apply lookup_lt_Some in Hm. exact Hm.
Qed.

Lemma frame_commands_bound s i c :
  frames_ready env s → (i < swapchain_image_count env)%nat →
  c ∈ frame_commands env s i → bound_exists (gpu s) c.
Proof.
  intros Hready Hi Hc. unfold frame_commands in Hc.
  repeat (apply elem_of_app in Hc; destruct Hc as [Hc|Hc]);
    try (apply list_elem_of_singleton in Hc; subst c; exact I).
  - apply list_elem_of_In, in_flat_map in Hc. destruct Hc as ([k model] & Hin & Hc).
    apply model_of_frame in Hin. unfold model_commands in Hc. cbn [In] in Hc.
    destruct Hc as [<-|[<-|[<-|[<-|[<-|[<-|[]]]]]]]; cbn; try exact I.
    + apply (fr_pipelines env s Hready k Hin).
    + destruct (use_deferred s) eqn:Hd.
      * apply (fr_sets env s Hready k 0 Hin). rewrite Hd. lia.
      * apply (fr_sets env s Hready k i Hin). rewrite Hd. exact Hi.
  - destruct (use_deferred s) eqn:Hd.
    + destruct (fr_baseline env s Hready Hd) as [Hpipe Hsets].
      repeat (apply elem_of_app in Hc; destruct Hc as [Hc|Hc]);
        apply list_elem_of_singleton in Hc; subst c; cbn; try exact I.
      * exact Hpipe.
      * apply Hsets. exact Hi.
    + apply list_elem_of_singleton in Hc. subst c. exact I.
Qed.

(** X15: when [prepare] returns true the object is prepared and has one
    command buffer for each swapchain image; every one of them holds the
    frame recorded from the models and the lattice the object ends with:
    its indexed draws are, in the order of the models, one for each model,
    with the lattice size as instance count. *)
Theorem prepare_records_every_frame (n n' : Nerf) :
  prepare env n = Ok true n' →
  prepared n' = true ∧
  length (draw_cmd_buffers n') = swapchain_image_count env ∧
  ∀ i b, draw_cmd_buffers n' !! i = Some b →
    b = frame_commands env n' i ∧
    List.filter is_indexed_draw b = map (indexed_draw n') (models n').
Proof.
  intros Hrun. pose proof (prepare_ready n n' Hrun) as Hready.
  split; [exact (fr_prepared env n' Hready) |].
  split; [exact (fr_count env n' Hready) |].
  intros i b Hb.
  assert (i < swapchain_image_count env)%nat as Hi
    by (rewrite <- (fr_count env n' Hready); apply (lookup_lt_Some _ _ _ Hb)).
  rewrite (fr_frames env n' Hready i Hi) in Hb. injection Hb as <-.
  split; [reflexivity | apply indexed_draws_of_frame].
Qed.

(** X16: when [prepare] returns true, every pipeline and every descriptor
    set that a recorded command buffer binds has been created before: the
    first-pass pipeline and descriptor set of every model, at the
    descriptor index the frame uses, and in the deferred topology the
    pipeline and the descriptor set of the second sub-pass. *)
Theorem prepare_creates_what_the_frames_bind (n n' : Nerf) :
  prepare env n = Ok true n' →
  ∀ i b c, draw_cmd_buffers n' !! i = Some b → c ∈ b → bound_exists (gpu n') c.
Proof.
  intros Hrun i b c Hb Hc. pose proof (prepare_ready n n' Hrun) as Hready.
  assert (i < swapchain_image_count env)%nat as Hi
    by (rewrite <- (fr_count env n' Hready); apply (lookup_lt_Some _ _ _ Hb)).
  rewrite (fr_frames env n' Hready i Hi) in Hb. injection Hb as <-.
  exact (frame_commands_bound n' i c Hready Hi Hc).
Qed.
End PrepareFrames.

Lemma prepare_records_every_frame_witness :
  let n' := final (@prepare mobile_nerf_h deferred_env Nerf_new) in
  prepared n' = true ∧
  length (draw_cmd_buffers n') = swapchain_image_count deferred_env ∧
  ∀ i b, draw_cmd_buffers n' !! i = Some b →
    b = frame_commands deferred_env n' i ∧
    List.filter is_indexed_draw b = map (indexed_draw n') (models n').
Proof.
  intros n'.
  exact (@prepare_records_every_frame mobile_nerf_h deferred_env Nerf_new n'
           deferred_prepare_returns).
Defined.

Lemma prepare_creates_what_the_frames_bind_witness :
  let n' := final (@prepare mobile_nerf_h deferred_env Nerf_new) in
  ∃ b, draw_cmd_buffers n' !! 0%nat = Some b ∧ Forall (bound_exists (gpu n')) b.
Proof.
  intros n'.
  destruct (draw_cmd_buffers n' !! 0%nat) as [b|] eqn:Hb.
  - exists b. split; [reflexivity |]. apply Forall_forall. intros c Hc.
    exact (@prepare_creates_what_the_frames_bind mobile_nerf_h deferred_env Nerf_new n'
             deferred_prepare_returns 0%nat b c Hb Hc).
  - vm_compute in Hb. discriminate Hb.
Defined.

(** ** [Nerf::prepare] when the framework cannot be prepared *)

(** What [prepare] has not touched before the framework is prepared. *)
Definition beyond_loading (n : Nerf) :=
  (render_pass_nerf n, descriptor_set_first_pass_layout n, descriptor_set_layout_baseline n,
   weights_buffers n, instance_buffer n, draw_cmd_buffers n, camera n, prepared n,
   use_native_screen_size n, gpu n).

Section PrepareFailure.
Context `{NerfHeader}.
Variable env : Env.

Lemma loading_keeps (I : Nerf → Prop) :
  (∀ s t, beyond_loading s = beyond_loading t → I s → I t) →
  keeps I (read_json_map env ≫= λ _, load_mlps env).
Proof.
  intros HI. apply keeps_bind; [| intros _].
  - unfold read_json_map, read_scene, read_instancing.
    keeps_all ltac:(intros; eapply HI; [| eassumption]; reflexivity).
  - keeps_all ltac:(intros; eapply HI; [| eassumption]; reflexivity).
Qed.

(** X17: when the framework cannot be prepared, [prepare] never returns
    true. If it returns, it returns false, and the only thing done on the
    GPU is the attempt to prepare the framework; if it has stopped before,
    while reading the configuration or the weights, nothing is. In either
    case no render pass, layout, buffer or command buffer has been made,
    the camera is as it was and the object is not marked as prepared. *)
Theorem prepare_stops_when_the_framework_fails (n : Nerf) :
  framework_prepare_ok env = false →
  let r := prepare env n in
  match r with
  | Ok b n' =>
      b = false ∧
      beyond_loading n' = beyond_loading (set_gpu (gpu n ++ [Vk.framework_prepare]) n)
  | Halt _ n' => beyond_loading n' = beyond_loading n
  end.
Proof.
  intros Hok r. subst r. unfold prepare. rewrite Hok. cbn [negb].
  pose proof (loading_keeps (λ s, beyond_loading s = beyond_loading n)
                ltac:(intros s t Hst Hs; congruence) n eq_refl) as Hload.
  unfold mbind, M_bind in *. rewrite <- !bind_assoc.
  unfold bind at 1. unfold bind at 1.
  destruct (bind (read_json_map env) (λ _, load_mlps env) n) as [[] s|h s].
  - cbn. split; [reflexivity |].
    unfold beyond_loading in *. cbn. injection Hload as -> -> -> -> -> -> -> -> -> ->.
    reflexivity.
  - exact Hload.
Qed.
End PrepareFailure.

(** The scene of one model when the framework fails. *)
Definition failing_framework_env : Env :=
  {| asset_base := "assets/";
     nerf_json_file := Some (Some (single_model_json false));
     read_json_file := λ path,
       if String.eqb path "assets/scenes/morpheus_team/lego_ball_phone/mlp.json"
       then Some single_model_mlp else None;
     framework_prepare_ok := false;
     width := 1280; height := 720;
     swapchain_image_count := 3;
     depth_format := Vk.VK_FORMAT_of_device 126;
     swapchain_format := Vk.VK_FORMAT_of_device 44;
     sizeof_global_uniform := 256;
     read_scene_from_file := λ _, Some one_triangle;
     look_at_decompose := λ eye _ _, (glm.Vec3 F32.zero F32.zero F32.zero, eye) |}.

Lemma prepare_stops_when_the_framework_fails_witness :
  match @prepare mobile_nerf_h failing_framework_env Nerf_new with
  | Ok b n' =>
      b = false ∧
      beyond_loading n'
      = beyond_loading (set_gpu (gpu Nerf_new ++ [Vk.framework_prepare]) Nerf_new)
  | Halt _ n' => beyond_loading n' = beyond_loading Nerf_new
  end.
Proof.
  exact (@prepare_stops_when_the_framework_fails mobile_nerf_h failing_framework_env
           Nerf_new eq_refl).
Defined.

(** ** CopyBuffer: the buffers it copies *)

(** X18: for an element type of non-zero size, [CopyBuffer] of a name that
    is absent returns the empty vector; of a buffer whose size is a positive
    multiple of the element size it returns one element for each
    [sizeof(T)] bytes, in the order of the bytes, and leaves every buffer as
    it was, mapped or not; of any other buffer, empty or with a remainder of
    bytes, it leaves the vector it fills. *)
Theorem CopyBuffer_returns_the_elements {T} `{Pod T}
    (buffers : gmap string Buffer) (name : string) :
  (0 < sizeof)%nat →
  (buffers !! name = None → CopyBuffer name buffers = Ok [] buffers) ∧
  (∀ b, buffers !! name = Some b →
     let aligned := (0 < get_size b)%nat ∧ (get_size b mod sizeof = 0)%nat in
     (aligned →
      CopyBuffer name buffers = Ok (elements b) buffers ∧
      length (elements b) = (get_size b / sizeof)%nat ∧
      ∀ i, (i < get_size b / sizeof)%nat →
        elements b !! i = Some (of_bytes (take sizeof (drop (i * sizeof) (contents b))))) ∧
     (¬ aligned → ∃ what s, CopyBuffer name buffers = Halt (Undefined what) s)).
Proof.
  intros Hsize. destruct (CopyBuffer_returns buffers name) as [Hnone Hsome].
  split; [exact Hnone |]. intros b Hb aligned. split.
  - intros [Hpos Hmod].
    assert (get_size b = (get_size b / sizeof * sizeof)%nat) as Hk.
    { pose proof (Nat.div_mod_eq (get_size b) sizeof) as Hdm. rewrite Hmod in Hdm. lia. }
    assert (0 < get_size b / sizeof)%nat as Hkpos
      by (destruct (get_size b / sizeof)%nat; [lia | lia]).
    exact (Hsome b (get_size b / sizeof)%nat Hb Hsize Hkpos Hk).
  - intros Hbad. apply (CopyBuffer_overruns buffers name b Hb Hsize).
    destruct (decide (get_size b = 0)%nat) as [Hz|Hz]; [right; exact Hz | left].
    intros Hmod. apply Hbad. split; [lia | exact Hmod].
Qed.

(** The vertex buffer of a sub-mesh of 3 positions of 4 bytes each. *)
Definition position_buffers : gmap string Buffer :=
  {[ "position" := {| contents := replicate 12 Byte.x00; mapped := false |} ]}.

Lemma CopyBuffer_returns_the_elements_witness :
  CopyBuffer (H := Pod_raw 4) "position" position_buffers
  = Ok (replicate 3 (replicate 4 Byte.x00)) position_buffers.
Proof.
  destruct (CopyBuffer_returns_the_elements (H := Pod_raw 4) position_buffers "position")
    as [_ Hsome]; [cbn; lia |].
  destruct (Hsome {| contents := replicate 12 Byte.x00; mapped := false |}) as [Hok _];
    [reflexivity |].
  destruct Hok as [Hrun _]; [split; [cbn; lia | reflexivity] |].
  exact Hrun.
Defined.

(** ** [Nerf::load_scene]: the geometry of a sub-model *)

Lemma for_range_with_inv {St A} (P : nat → A → St → Prop)
    (body : nat → A → M St A) cnt i a s :
  P i a s →
  (∀ j b t, (i ≤ j < i + cnt)%nat → P j b t → ∃ b' t', body j b t = Ok b' t' ∧ P (S j) b' t') →
  ∃ a' s', for_range_with cnt i body a s = Ok a' s' ∧ P (i + cnt)%nat a' s'.
Proof.
  revert i a s. induction cnt as [|cnt IH]; intros i a s Hi Hstep; simpl.
  - exists a, s. rewrite Nat.add_0_r. split; [reflexivity | assumption].
  - destruct (Hstep i a s) as (b & t & Hb & Ht); [lia | assumption |].
    destruct (IH (S i) b t) as (a' & s' & Hr & Hs'); [assumption | |].
    + intros j c u Hj Hu. apply Hstep; [lia | assumption].
    + exists a', s'. split.
      * erewrite bind_Ok by eassumption. exact Hr.
      * replace (i + S cnt)%nat with (S i + cnt)%nat by lia. exact Hs'.
Qed.

(** Writing element [j] of a vector that is filled from its place
    [length pre] on. *)
Lemma fill_step {A} (pre new rest : list A) j x :
  new !! j = Some x → (j < length rest)%nat →
  <[(length pre + j)%nat := x]> (pre ++ take j new ++ drop j rest)
  = pre ++ take (S j) new ++ drop (S j) rest.
Proof.
  intros Hx Hj.
  assert (length (take j new) = j) as Hlen
    by (rewrite length_take; apply lookup_lt_Some in Hx; lia).
  destruct (lookup_lt_is_Some_2 rest j Hj) as [r Hr].
  rewrite insert_app_r_alt by lia.
  replace (length pre + j - length pre)%nat with j by lia.
  rewrite insert_app_r_alt by lia. rewrite Hlen, Nat.sub_diag.
  rewrite (drop_S _ _ _ Hr), (take_S_r _ _ _ Hx). cbn.
  rewrite <- app_assoc. reflexivity.
Qed.

Lemma fill_lookup {A} (pre new rest : list A) j :
  (j ≤ length new)%nat → (j < length rest)%nat →
  (pre ++ take j new ++ drop j rest) !! (length pre + j)%nat = rest !! j.
Proof.
  intros Hnew Hj.
  rewrite lookup_app_r by lia.
  replace (length pre + j - length pre)%nat with j by lia.
  rewrite lookup_app_r by (rewrite length_take; lia).
  rewrite length_take, Nat.min_l, Nat.sub_diag by lia.
  rewrite lookup_drop, Nat.add_0_r. reflexivity.
Qed.

(** A vector resized from a place [start] inside it keeps what is before
    [start]. *)
Lemma resize_from {A} (start k : nat) (d : A) (v : list A) :
  (start ≤ length v)%nat →
  ∃ rest, resize (start + k) d v = take start v ++ rest ∧ length rest = k.
Proof.
  intros Hstart. exists (drop start (resize (start + k) d v)). split.
  - rewrite <- (take_drop start (resize (start + k) d v)) at 1. f_equal.
    unfold resize. rewrite take_app_le by (rewrite length_take; lia).
    rewrite take_take. f_equal. lia.
  - rewrite length_drop, resized_length. lia.
Qed.

Lemma uwrap_size (k : nat) : (Z.to_nat (Int.uwrap (Z.of_nat k)) ≤ k)%nat.
Proof.
  unfold Int.uwrap.
  pose proof (Z.mod_le (Z.of_nat k) 4294967296 ltac:(lia) ltac:(lia)).
  pose proof (Z.mod_pos_bound (Z.of_nat k) 4294967296 ltac:(lia)). lia.
Qed.

Lemma run_call_on {S T A B} (t : T) (c : M T A) a t' (k : A * T → M S B) s :
  c t = Ok a t' → bind (call_on t c) k s = k (a, t') s.
Proof. intros Hc. unfold bind, call_on. rewrite Hc. reflexivity. Qed.

(** A triangle as an element type: three 32-bit indices. *)
Definition Pod_triangle : Pod (Z * Z * Z) :=
  {| sizeof := 12;
     value_initialized := (0, 0, 0);
     of_bytes := λ l, (le_number (take 4 l), le_number (take 4 (drop 4 l)),
                       le_number (take 4 (drop 8 l))) |}.

(** The size of the buffer is a positive multiple of [size]. *)
Definition buffer_aligned (size : nat) (b : Buffer) : bool :=
  (0 <? get_size b)%nat && (get_size b mod size =? 0)%nat.

(** The buffer [name], if there is one, can be copied. *)
Definition vertex_buffer_ok (size : nat) (buffers : gmap string Buffer) (name : string)
    : bool :=
  match buffers !! name with
  | Some b => buffer_aligned size b
  | None => true
  end.

(** What the buffer [name] holds; nothing if it is absent. *)
Definition buffer_elements {T} `{Pod T} (buffers : gmap string Buffer) (name : string)
    : list T :=
  match buffers !! name with
  | Some b => elements b
  | None => []
  end.

Lemma buffer_aligned_size size b :
  (0 < size)%nat → buffer_aligned size b = true →
  (0 < get_size b / size)%nat ∧ get_size b = (get_size b / size * size)%nat.
Proof.
  intros Hsize [Hpos Hmod]%andb_prop.
  apply Nat.ltb_lt in Hpos. apply Nat.eqb_eq in Hmod.
  pose proof (Nat.div_mod_eq (get_size b) size) as Hdm.
  rewrite Hmod, Nat.add_0_r, Nat.mul_comm in Hdm.
  split; [| exact Hdm].
  destruct (get_size b / size)%nat; lia.
Qed.

Lemma CopyBuffer_ok {T} `{Pod T} (buffers : gmap string Buffer) name :
  (0 < sizeof)%nat → vertex_buffer_ok sizeof buffers name = true →
  CopyBuffer name buffers = Ok (buffer_elements buffers name) buffers.
Proof.
  intros Hsize Hok. unfold vertex_buffer_ok, buffer_elements in *.
  destruct (CopyBuffer_returns buffers name) as [Hnone Hsome].
  destruct (buffers !! name) as [b|] eqn:Hb; [| apply Hnone; reflexivity].
  destruct (buffer_aligned_size _ _ Hsize Hok) as [Hk Hsz].
  apply (Hsome b _ eq_refl Hsize Hk Hsz).
Qed.

(** The vertex that [load_scene] makes of a position and a texture
    coordinate: the second coordinate is flipped. *)
Definition vertex_of (p : glm.vec3) (t : glm.vec2) : Vertex :=
  {| position := p; tex_coord := (t.1, F32.sub f32_one t.2) |}.

Definition sub_mesh_positions (sub_mesh : sg.SubMesh) : list glm.vec3 :=
  buffer_elements (H := Pod_vec3) (sg.vertex_buffers sub_mesh) "position".
Definition sub_mesh_texcoords (sub_mesh : sg.SubMesh) : list glm.vec2 :=
  buffer_elements (H := Pod_vec2) (sg.vertex_buffers sub_mesh) "texcoord_0".

(** The vertices of a sub-mesh, and its triangles when its vertices start
    at [vertex_start_index]. *)
Definition sub_mesh_vertices (sub_mesh : sg.SubMesh) : list Vertex :=
  zip_with vertex_of (sub_mesh_positions sub_mesh) (sub_mesh_texcoords sub_mesh).

Definition shifted (vertex_start_index : Z) (t : Z * Z * Z) : Z * Z * Z :=
  (Int.uwrap (vertex_start_index + t.1.1), Int.uwrap (vertex_start_index + t.1.2),
   Int.uwrap (vertex_start_index + t.2)).

Definition index_buffer_triangles (vertex_start_index : Z) (b : Buffer) : list (Z * Z * Z) :=
  map (shifted vertex_start_index) (elements (H := Pod_triangle) b).

(** The sub-mesh can be loaded: its vertex buffers can be copied, every
    position has a texture coordinate, and the index buffer, if there is
    one, holds whole triangles of 32-bit indices and is mapped. *)
Definition sub_mesh_ok (sub_mesh : sg.SubMesh) : bool :=
  vertex_buffer_ok 12 (sg.vertex_buffers sub_mesh) "position" &&
  vertex_buffer_ok 8 (sg.vertex_buffers sub_mesh) "texcoord_0" &&
  (length (sub_mesh_positions sub_mesh) <=? length (sub_mesh_texcoords sub_mesh))%nat &&
  match sg.index_buffer sub_mesh with
  | None => true
  | Some b =>
      bool_decide (sg.index_type sub_mesh = VK_INDEX_TYPE_UINT32) && mapped b &&
      buffer_aligned 12 b
  end.

(** The model with the sub-mesh added: its vertices after those of the
    model, its triangles after those of the model, the indices counted
    from the first vertex of the sub-mesh. Counts are those of a
    [uint32_t]. *)
Definition Model_add_sub_mesh (sub_mesh : sg.SubMesh) (m : Model) : Model :=
  let vertex_start_index := Z.to_nat (Int.uwrap (Z.of_nat (length (vertices m)))) in
  let triangle_start_index := Z.to_nat (Int.uwrap (Z.of_nat (length (indices m)))) in
  {| model_index := model_index m;
     sub_model_num := sub_model_num m;
     vertices := take vertex_start_index (vertices m) ++ sub_mesh_vertices sub_mesh;
     indices :=
       match sg.index_buffer sub_mesh with
       | None => indices m
       | Some b =>
           take triangle_start_index (indices m) ++
           index_buffer_triangles (Z.of_nat vertex_start_index) b
       end |}.

Section SubMeshRun.
(** One turn of the vertex loop. *)
Definition copy_vertex (pts_ : list glm.vec3) (texcoord_ : list glm.vec2)
    (vertex_start_index i : nat) : M Model unit :=
  p ← vec_at pts_ i;
  model ← get;
  v ← vec_at (vertices model) (vertex_start_index + i);
  modify (set_vertices (<[(vertex_start_index + i)%nat :=
                           {| position := p; tex_coord := tex_coord v |}]>
                          (vertices model)));;
  t ← vec_at texcoord_ i;
  model ← get;
  v ← vec_at (vertices model) (vertex_start_index + i);
  modify (set_vertices (<[(vertex_start_index + i)%nat :=
                           {| position := position v;
                              tex_coord := (t.1, F32.sub f32_one t.2) |}]>
                          (vertices model))).

Lemma copy_vertex_data_loop pts_ texcoord_ vertex_start_index m :
  copy_vertex_data pts_ texcoord_ vertex_start_index m
  = (model ← get;
     modify (set_vertices
               (resize (vertex_start_index + length pts_) Vertex_zero (vertices model)));;
     for_range (length pts_) 0 (copy_vertex pts_ texcoord_ vertex_start_index)) m.
Proof. reflexivity. Qed.

(** The model in the loop before vertex [j]. *)
Definition vertices_copied (pre rest : list Vertex) (pts_ : list glm.vec3)
    (texcoord_ : list glm.vec2) (m : Model) (j : nat) : Model :=
  set_vertices (pre ++ take j (zip_with vertex_of pts_ texcoord_) ++ drop j rest) m.

Lemma copy_vertex_run pre rest pts_ texcoord_ m j :
  (j < length pts_)%nat → (j < length texcoord_)%nat → (j < length rest)%nat →
  copy_vertex pts_ texcoord_ (length pre) j (vertices_copied pre rest pts_ texcoord_ m j)
  = Ok tt (vertices_copied pre rest pts_ texcoord_ m (S j)).
Proof.
  intros Hpts Htex Hrest. unfold copy_vertex, vertices_copied, mbind, M_bind.
  set (new := zip_with vertex_of pts_ texcoord_).
  assert (j < length new)%nat as Hnew
    by (subst new; rewrite length_zip_with; lia).
  destruct (lookup_lt_is_Some_2 pts_ j Hpts) as [p Hp].
  destruct (lookup_lt_is_Some_2 texcoord_ j Htex) as [tc Htc].
  destruct (lookup_lt_is_Some_2 rest j Hrest) as [r Hr].
  assert (new !! j = Some (vertex_of p tc)) as Hj.
  { subst new. rewrite lookup_zip_with, Hp. cbn. rewrite Htc. reflexivity. }
  rewrite (run_vec_at _ _ _ _ _ Hp), run_get.
  cbn [vertices set_vertices].
  erewrite run_vec_at; [| rewrite fill_lookup by lia; exact Hr].
  rewrite run_modify, (run_vec_at _ _ _ _ _ Htc), run_get.
  cbn [vertices set_vertices].
  assert (length pre + j < length (pre ++ take j new ++ drop j rest))%nat as Hin
    by (rewrite !length_app, length_take, length_drop; lia).
  erewrite run_vec_at; [| apply list_lookup_insert_eq; exact Hin].
  unfold modify, set_vertices. cbn. do 2 f_equal.
  rewrite list_insert_insert_eq. apply fill_step; [exact Hj | lia].
Qed.

(** A position without a texture coordinate: the position is written,
    then [texcoord_] is read past its end. *)
Lemma copy_vertex_overruns pre rest pts_ texcoord_ m j :
  (j < length pts_)%nat → length texcoord_ = j → (j < length rest)%nat →
  ∃ m', copy_vertex pts_ texcoord_ (length pre) j
          (vertices_copied pre rest pts_ texcoord_ m j)
        = Halt (Undefined "vector subscript out of range") m'.
Proof.
  intros Hpts Htex Hrest. unfold copy_vertex, vertices_copied, mbind, M_bind.
  set (new := zip_with vertex_of pts_ texcoord_).
  assert (length new = j) as Hnew
    by (subst new; rewrite length_zip_with; lia).
  destruct (lookup_lt_is_Some_2 pts_ j Hpts) as [p Hp].
  destruct (lookup_lt_is_Some_2 rest j Hrest) as [r Hr].
  rewrite (run_vec_at _ _ _ _ _ Hp), run_get.
  cbn [vertices set_vertices].
  erewrite run_vec_at; [| rewrite fill_lookup by lia; exact Hr].
  rewrite run_modify.
  unfold bind, vec_at. rewrite (lookup_ge_None_2 texcoord_ j) by lia.
  eexists. reflexivity.
Qed.

(** The vertex loop fills the places after [vertex_start_index], one
    vertex for each position. *)
Lemma copy_vertex_data_run (pts_ : list glm.vec3) (texcoord_ : list glm.vec2)
    (vertex_start_index : nat) (m : Model) :
  (length pts_ ≤ length texcoord_)%nat →
  (vertex_start_index ≤ length (vertices m))%nat →
  copy_vertex_data pts_ texcoord_ vertex_start_index m
  = Ok tt (set_vertices (take vertex_start_index (vertices m) ++
                         zip_with vertex_of pts_ texcoord_) m).
Proof.
  intros Htex Hstart. rewrite copy_vertex_data_loop. unfold mbind, M_bind.
  rewrite run_get, run_modify.
  destruct (resize_from vertex_start_index (length pts_) Vertex_zero (vertices m) Hstart)
    as (rest & -> & Hrest).
  set (pre := take vertex_start_index (vertices m)).
  assert (length pre = vertex_start_index) as Hpre
    by (subst pre; rewrite length_take; lia).
  rewrite <- Hpre.
  destruct (for_range_inv (λ j u, u = vertices_copied pre rest pts_ texcoord_ m j)
              (copy_vertex pts_ texcoord_ (length pre)) (length pts_) 0
              (set_vertices (pre ++ rest) m)) as (t' & Hrun & Ht).
  - unfold vertices_copied. rewrite take_0, drop_0. reflexivity.
  - intros j t Hj ->. eexists. split; [| reflexivity].
    apply copy_vertex_run; lia.
  - rewrite Hrun. cbn [Nat.add] in Ht. rewrite Ht. unfold vertices_copied. do 3 f_equal.
    rewrite take_ge by (rewrite length_zip_with; lia).
    rewrite drop_ge by lia. apply app_nil_r.
Qed.

(** With fewer texture coordinates than positions the loop stops at the
    first position that has none. *)
Lemma copy_vertex_data_overruns (pts_ : list glm.vec3) (texcoord_ : list glm.vec2)
    (vertex_start_index : nat) (m : Model) :
  (length texcoord_ < length pts_)%nat →
  (vertex_start_index ≤ length (vertices m))%nat →
  ∃ m', copy_vertex_data pts_ texcoord_ vertex_start_index m
        = Halt (Undefined "vector subscript out of range") m'.
Proof.
  intros Htex Hstart. rewrite copy_vertex_data_loop. unfold mbind, M_bind.
  rewrite run_get, run_modify.
  destruct (resize_from vertex_start_index (length pts_) Vertex_zero (vertices m) Hstart)
    as (rest & -> & Hrest).
  set (pre := take vertex_start_index (vertices m)).
  assert (length pre = vertex_start_index) as Hpre
    by (subst pre; rewrite length_take; lia).
  rewrite <- Hpre.
  apply (for_range_halts (λ j u, u = vertices_copied pre rest pts_ texcoord_ m j)
           (copy_vertex pts_ texcoord_ (length pre)) (length pts_) 0
           (set_vertices (pre ++ rest) m) (length texcoord_)).
  - unfold vertices_copied. rewrite take_0, drop_0. reflexivity.
  - lia.
  - intros j t Hj ->. eexists. split; [| reflexivity].
    apply copy_vertex_run; lia.
  - intros t ->. apply copy_vertex_overruns; [lia | reflexivity | lia].
Qed.

Lemma run_ret {St A B} (a : A) (k : A → M St B) s : bind (ret a) k s = k a s.
Proof. reflexivity. Qed.

(** The three numbers of triangle [i] are the numbers [3 i], [3 i + 1]
    and [3 i + 2] of the buffer. *)
Lemma triangle_of_chunk (c : list Byte.byte) i :
  of_bytes (Pod := Pod_triangle) (take 12 (drop (i * 12) c))
  = (le_number (take 4 (drop (3 * i * 4) c)),
     le_number (take 4 (drop ((3 * i + 1) * 4) c)),
     le_number (take 4 (drop ((3 * i + 2) * 4) c))).
Proof.
  cbn [of_bytes Pod_triangle].
  rewrite take_take. rewrite <- (take_drop_commute _ 8 4), take_take, drop_drop.
  rewrite <- (take_drop_commute _ 4 8), take_take, drop_drop.
  replace (3 * i * 4)%nat with (i * 12)%nat by lia.
  replace ((3 * i + 1) * 4)%nat with (i * 12 + 4)%nat by lia.
  replace ((3 * i + 2) * 4)%nat with (i * 12 + 8)%nat by lia.
  reflexivity.
Qed.

(** The index loop fills the places after [triangle_start_index], one
    triangle for each twelve bytes of the index buffer. *)
Lemma copy_index_data_run (sub_mesh : sg.SubMesh) (vertex_start_index : nat) (m : Model) :
  match sg.index_buffer sub_mesh with
  | None => True
  | Some b =>
      sg.index_type sub_mesh = VK_INDEX_TYPE_UINT32 ∧ mapped b = true ∧
      buffer_aligned 12 b = true
  end →
  copy_index_data sub_mesh vertex_start_index m
  = Ok tt match sg.index_buffer sub_mesh with
          | None => m
          | Some b =>
              set_indices
                (take (Z.to_nat (Int.uwrap (Z.of_nat (length (indices m))))) (indices m) ++
                 index_buffer_triangles (Z.of_nat vertex_start_index) b) m
          end.
Proof.
  unfold copy_index_data. destruct (sg.index_buffer sub_mesh) as [b|]; [| reflexivity].
  intros (Htype & Hmapped & Haligned).
  destruct (buffer_aligned_size 12 b ltac:(lia) Haligned) as [Hk Hsz].
  set (k := (get_size b / 12)%nat) in *.
  assert (get_size b / 4 / 3 = k)%nat as Hn
    by (rewrite Nat.Div0.div_div; reflexivity).
  unfold mbind, M_bind. rewrite decide_True by exact Htype.
  rewrite run_ret. cbv zeta. rewrite Hn, run_get, run_modify, Hmapped, run_ret.
  rewrite decide_False by lia. rewrite run_ret.
  rewrite decide_False by lia. rewrite run_ret.
  set (start := Z.to_nat (Int.uwrap (Z.of_nat (length (indices m))))).
  destruct (resize_from start k (0, 0, 0) (indices m) (uwrap_size _))
    as (rest & -> & Hrest).
  set (pre := take start (indices m)).
  set (new := index_buffer_triangles (Z.of_nat vertex_start_index) b).
  assert (length pre = start) as Hpre
    by (subst pre; rewrite length_take; pose proof (uwrap_size (length (indices m))); lia).
  assert (length new = k) as Hnew.
  { subst new. unfold index_buffer_triangles, elements.
    rewrite !length_map, chunks_length. reflexivity. }
  match goal with
  | |- for_range ?cnt ?i ?body ?s0 = _ =>
      destruct (for_range_inv
        (λ j u, u = set_indices (pre ++ take j new ++ drop j rest) m) body cnt i s0)
        as (t' & Hrun & Ht)
  end.
  - rewrite take_0, drop_0. reflexivity.
  - intros j t Hj ->.
    destruct (lookup_lt_is_Some_2 rest j) as [r Hr]; [lia |].
    assert (∀ q, (q < k * 3)%nat →
              map le_number (chunks (k * 3) 4 (contents b)) !! q
              = Some (le_number (take 4 (drop (q * 4) (contents b))))) as Htemp.
    { intros q Hq. rewrite list_lookup_fmap, chunks_lookup by exact Hq. reflexivity. }
    rewrite (run_vec_at _ _ _ _ _ (Htemp (3 * j)%nat ltac:(lia))).
    rewrite (run_vec_at _ _ _ _ _ (Htemp (3 * j + 1)%nat ltac:(lia))).
    rewrite (run_vec_at _ _ _ _ _ (Htemp (3 * j + 2)%nat ltac:(lia))).
    rewrite run_get. cbn [indices set_indices]. rewrite <- Hpre.
    erewrite run_vec_at; [| rewrite fill_lookup by lia; exact Hr].
    eexists. split; [reflexivity |].
    unfold set_indices. cbn [model_index sub_model_num vertices indices]. f_equal.
    apply fill_step; [| lia].
    subst new. unfold index_buffer_triangles, elements.
    change (get_size b / sizeof)%nat with k. change (@sizeof _ Pod_triangle) with 12%nat.
    rewrite !list_lookup_fmap, chunks_lookup by lia. cbn [fmap option_fmap option_map].
    rewrite triangle_of_chunk. reflexivity.
  - rewrite Hrun. cbn [Nat.add] in Ht. rewrite Ht. do 3 f_equal.
    rewrite <- Hnew, firstn_all, drop_ge by lia. apply app_nil_r.
Qed.

(** A sub-mesh that can be loaded is added to the model. *)
Lemma load_sub_mesh_run (sub_mesh : sg.SubMesh) (m : Model) :
  sub_mesh_ok sub_mesh = true →
  load_sub_mesh sub_mesh m = Ok tt (Model_add_sub_mesh sub_mesh m).
Proof.
  intros Hok. unfold sub_mesh_ok in Hok.
  apply andb_prop in Hok as [Hok Hindex].
  apply andb_prop in Hok as [Hok Hcount].
  apply andb_prop in Hok as [Hpos Htex].
  apply Nat.leb_le in Hcount.
  unfold load_sub_mesh, mbind, M_bind.
  rewrite (run_call_on _ _ _ _ _ _
             (CopyBuffer_ok (H := Pod_vec3) _ "position" ltac:(cbn; lia) Hpos)).
  rewrite (run_call_on _ _ _ _ _ _
             (CopyBuffer_ok (H := Pod_vec2) _ "texcoord_0" ltac:(cbn; lia) Htex)).
  rewrite run_get. cbv zeta.
  erewrite bind_Ok; [| apply copy_vertex_data_run; [exact Hcount | apply uwrap_size]].
  rewrite copy_index_data_run.
  - unfold Model_add_sub_mesh, set_vertices, set_indices. cbn.
    destruct (sg.index_buffer sub_mesh); reflexivity.
  - destruct (sg.index_buffer sub_mesh) as [b|]; [| exact I].
    apply andb_prop in Hindex as [Hindex Haligned].
    apply andb_prop in Hindex as [Htype Hmapped].
    apply bool_decide_eq_true in Htype. repeat split; assumption.
Qed.
End SubMeshRun.

(** X22: [load_sub_mesh], the body of the loops of [load_scene] (lines
    853-894), on a sub-mesh whose position buffer can be copied. If the
    sub-mesh can be loaded the model gets its vertices and triangles. If
    its [texcoord_0] buffer is empty or does not hold whole pairs of
    32-bit numbers, copying it leaves the vector that is filled, and the
    model is as it was. If it has fewer texture coordinates than positions,
    or no [texcoord_0] buffer at all, [texcoord_] is read past its end. If
    it has as many, and an index buffer whose indices are not 32-bit ones,
    the assertion fails when the vertices have been added. *)
Theorem load_sub_mesh_needs_texture_coordinates (sub_mesh : sg.SubMesh) (m : Model) :
  vertex_buffer_ok 12 (sg.vertex_buffers sub_mesh) "position" = true →
  let texcoords_ok := vertex_buffer_ok 8 (sg.vertex_buffers sub_mesh) "texcoord_0" in
  let positions := length (sub_mesh_positions sub_mesh) in
  let texcoords := length (sub_mesh_texcoords sub_mesh) in
  let vertex_start_index := Z.to_nat (Int.uwrap (Z.of_nat (length (vertices m)))) in
  (sub_mesh_ok sub_mesh = true →
   load_sub_mesh sub_mesh m = Ok tt (Model_add_sub_mesh sub_mesh m)) ∧
  (texcoords_ok = false →
   ∃ what, load_sub_mesh sub_mesh m = Halt (Undefined what) m) ∧
  (texcoords_ok = true → (texcoords < positions)%nat →
   ∃ m', load_sub_mesh sub_mesh m = Halt (Undefined "vector subscript out of range") m') ∧
  (texcoords_ok = true → (positions ≤ texcoords)%nat →
   is_Some (sg.index_buffer sub_mesh) →
   sg.index_type sub_mesh ≠ VK_INDEX_TYPE_UINT32 →
   load_sub_mesh sub_mesh m
   = Halt AssertFailed
       (set_vertices (take vertex_start_index (vertices m) ++ sub_mesh_vertices sub_mesh) m)).
Proof.
  intros Hpos texcoords_ok positions texcoords vertex_start_index.
  split; [apply load_sub_mesh_run |].
  pose proof (CopyBuffer_ok (H := Pod_vec3) _ "position" ltac:(cbn; lia) Hpos) as Hpts.
  split; [| split].
  - intros Hbad. subst texcoords_ok. unfold vertex_buffer_ok in Hbad.
    destruct (sg.vertex_buffers sub_mesh !! "texcoord_0") as [b|] eqn:Hb; [| discriminate].
    destruct (CopyBuffer_overruns (H := Pod_vec2) (sg.vertex_buffers sub_mesh)
                "texcoord_0" b Hb ltac:(cbn; lia)) as (what & s & Hrun).
    { unfold buffer_aligned in Hbad. apply andb_false_iff in Hbad as [Hz|Hmod].
      - right. apply Nat.ltb_ge in Hz. lia.
      - left. apply Nat.eqb_neq in Hmod. exact Hmod. }
    exists what. unfold load_sub_mesh, mbind, M_bind.
    rewrite (run_call_on _ _ _ _ _ _ Hpts).
    unfold bind, call_on. rewrite Hrun. reflexivity.
  - intros Htex Hfew. unfold load_sub_mesh, mbind, M_bind.
    rewrite (run_call_on _ _ _ _ _ _ Hpts).
    rewrite (run_call_on _ _ _ _ _ _
               (CopyBuffer_ok (H := Pod_vec2) _ "texcoord_0" ltac:(cbn; lia) Htex)).
    rewrite run_get. cbv zeta.
    destruct (copy_vertex_data_overruns
                (buffer_elements (H := Pod_vec3) (sg.vertex_buffers sub_mesh) "position")
                (buffer_elements (H := Pod_vec2) (sg.vertex_buffers sub_mesh) "texcoord_0")
                vertex_start_index m Hfew (uwrap_size _)) as (m' & Hrun).
    exists m'. fold vertex_start_index. unfold bind. rewrite Hrun. reflexivity.
  - intros Htex Hcount [b Hb] Htype. unfold load_sub_mesh, mbind, M_bind.
    rewrite (run_call_on _ _ _ _ _ _ Hpts).
    rewrite (run_call_on _ _ _ _ _ _
               (CopyBuffer_ok (H := Pod_vec2) _ "texcoord_0" ltac:(cbn; lia) Htex)).
    rewrite run_get. cbv zeta.
    erewrite bind_Ok; [| apply copy_vertex_data_run; [exact Hcount | apply uwrap_size]].
    unfold copy_index_data. rewrite Hb.
    destruct (decide (sg.index_type sub_mesh = VK_INDEX_TYPE_UINT32)) as [Heq|_];
      [contradiction | reflexivity].
Qed.

(** A sub-mesh of three positions and no texture coordinates. *)
Definition bare_triangle : sg.SubMesh :=
  {| sg.vertex_buffers :=
       {[ "position" := {| contents := replicate 36 Byte.x00; mapped := false |} ]};
     sg.index_buffer := None;
     sg.index_type := VK_INDEX_TYPE_UINT32 |}.

Lemma load_sub_mesh_needs_texture_coordinates_witness :
  halted (load_sub_mesh bare_triangle (Model_of 0 0))
  = Some (Undefined "vector subscript out of range").
Proof.
  destruct (load_sub_mesh_needs_texture_coordinates bare_triangle (Model_of 0 0) eq_refl)
    as (_ & _ & Hfew & _).
  destruct Hfew as (m' & Hrun); [reflexivity | vm_compute; lia |].
  rewrite Hrun. reflexivity.
Defined.

(** ** [Nerf::prepare], lines 450-464: the geometry of every sub-model *)

Lemma for_each_app {St A} (xs ys : list A) (body : A → M St unit) s :
  for_each (xs ++ ys) body s = bind (for_each xs body) (λ _, for_each ys body) s.
Proof.
  revert s. induction xs as [|x xs IH]; intros s; cbn [for_each app]; [reflexivity |].
  unfold bind. destruct (body x s) as [[] s'|h s']; [exact (IH s') | reflexivity].
Qed.

(** A loop over the elements of the elements is a loop over all of them. *)
Lemma for_each_flatten {St A B} (f : A → list B) (xs : list A) (body : B → M St unit) s :
  for_each xs (λ x, for_each (f x) body) s = for_each (concat (map f xs)) body s.
Proof.
  revert s. induction xs as [|x xs IH]; intros s; cbn [for_each map concat]; [reflexivity |].
  rewrite for_each_app. unfold bind. destruct (for_each (f x) body s); [apply IH | reflexivity].
Qed.

(** The sub-meshes of a scene, mesh after mesh. *)
Definition scene_sub_meshes (scene : sg.Scene) : list sg.SubMesh :=
  concat (map sg.get_submeshes (sg.meshes scene)).

(** [t] is [s] but for the log, the GPU objects and [models]. *)
Definition same_scene (s t : Nerf) : Prop :=
  model_path t = model_path s ∧
  using_original_nerf_models t = using_original_nerf_models s.

Lemma set_models_twice a b t : set_models a (set_models b t) = set_models a t.
Proof. reflexivity. Qed.

Lemma set_models_same t : set_models (models t) t = t.
Proof. destruct t; reflexivity. Qed.

(** The sub-meshes of a scene are added to the model one after the other. *)
Lemma on_model_sub_meshes (sms : list sg.SubMesh) e t m :
  forallb sub_mesh_ok sms = true →
  models t !! e = Some m →
  for_each sms (λ sub_mesh, on_model e (load_sub_mesh sub_mesh)) t
  = Ok tt (set_models (<[e := foldl (λ m sm, Model_add_sub_mesh sm m) m sms]> (models t)) t).
Proof.
  revert t m. induction sms as [|sm sms IH]; intros t m Hok Hm; cbn [for_each foldl].
  - rewrite (list_insert_id _ _ _ Hm), set_models_same. reflexivity.
  - cbn [forallb] in Hok. apply andb_prop in Hok as [Hsm Hok].
    erewrite bind_Ok;
      [| unfold on_model; rewrite Hm, (load_sub_mesh_run _ _ Hsm); reflexivity].
    rewrite (IH _ (Model_add_sub_mesh sm m) Hok).
    + cbn [models set_models]. rewrite list_insert_insert_eq. reflexivity.
    + cbn [models set_models]. apply list_lookup_insert_eq.
      apply (lookup_lt_Some _ _ _ Hm).
Qed.

Section LoadEntry.
Variable env : Env.

(** The number of files of a sub-model. *)
Definition files_of (original : bool) : nat := if original then 8%nat else 1%nat.

(** The sub-meshes of file [k] of the sub-model: none when the loader
    gives no scene. *)
Definition file_sub_meshes (path : string) (original : bool) (sub_model_index k : nat)
    : list sg.SubMesh :=
  match read_scene_from_file env (inputfile path sub_model_index (files_of original) k) with
  | Some scene => scene_sub_meshes scene
  | None => []
  end.

(** Every file of the sub-model gives a scene, whose sub-meshes can all
    be loaded. *)
Definition files_ok (path : string) (original : bool) (sub_model_index : nat) : bool :=
  forallb (λ k,
    match read_scene_from_file env
            (inputfile path sub_model_index (files_of original) k) with
    | Some scene => forallb sub_mesh_ok (scene_sub_meshes scene)
    | None => false
    end) (seq 0 (files_of original)).

(** The model of a sub-model when the meshes of its files are loaded. *)
Definition loaded_model (path : string) (original : bool) (sub_model_index : nat)
    (m : Model) : Model :=
  foldl (λ m sm, Model_add_sub_mesh sm m) m
    (flat_map (file_sub_meshes path original sub_model_index) (seq 0 (files_of original))).

Lemma load_scene_run mi si e s m o p :
  models s !! e = Some m →
  using_original_nerf_models s !! mi = Some o →
  model_path s !! mi = Some p →
  files_ok p o si = true →
  ∃ s', load_scene env mi si e s = Ok tt s' ∧
        models s' = <[e := loaded_model p o si m]> (models s) ∧ same_scene s s'.
Proof.
  intros Hm Ho Hp Hfiles. unfold load_scene, mbind, M_bind.
  rewrite run_get, (run_vec_at _ _ _ _ _ Hm), (run_vec_at _ _ _ _ _ Ho). cbv zeta.
  fold (files_of o).
  set (added := λ j, foldl (λ m sm, Model_add_sub_mesh sm m) m
                       (flat_map (file_sub_meshes p o si) (seq 0 j))).
  match goal with
  | |- ∃ s', for_range ?cnt ?i ?body ?s0 = _ ∧ _ =>
      destruct (for_range_inv
        (λ j t, models t = <[e := added j]> (models s) ∧ same_scene s t) body cnt i s0)
        as (s1 & Hrun & Hmodels & Hsame)
  end.
  - split; [| split; reflexivity].
    subst added. cbn. symmetry. apply list_insert_id. exact Hm.
  - intros j t Hj (Hmt & Hpt & Hut).
    rewrite (run_vec_at _ _ _ _ _ Hp), run_logf.
    unfold gpu_call at 1. rewrite run_modify.
    unfold files_ok in Hfiles. rewrite forallb_forall in Hfiles.
    specialize (Hfiles j ltac:(apply in_seq; lia)).
    assert (file_sub_meshes p o si j
            = match read_scene_from_file env (inputfile p si (files_of o) j) with
              | Some scene => scene_sub_meshes scene
              | None => []
              end) as Hfile by reflexivity.
    destruct (read_scene_from_file env (inputfile p si (files_of o) j)) as [scene|];
      [| discriminate].
    rewrite for_each_flatten. fold (scene_sub_meshes scene).
    rewrite (on_model_sub_meshes _ e _ (added j) Hfiles).
    + eexists. split; [reflexivity |]. split; [| split; assumption].
      cbn [models set_models set_gpu set_log]. rewrite Hmt, list_insert_insert_eq.
      f_equal. subst added. cbn beta.
      rewrite seq_S, flat_map_app, foldl_app. cbn [flat_map Nat.add].
      rewrite Hfile, app_nil_r. reflexivity.
    + cbn [models set_models set_gpu set_log]. rewrite Hmt.
      apply list_lookup_insert_eq. apply (lookup_lt_Some _ _ _ Hm).
  - exists s1. split; [exact Hrun |]. split; [exact Hmodels | exact Hsame].
Qed.

Lemma create_texture_run mi si e s m p :
  models s !! e = Some m → model_path s !! mi = Some p →
  ∃ s', create_texture mi si e s = Ok tt s' ∧ models s' = models s ∧ same_scene s s'.
Proof.
  intros Hm Hp. unfold create_texture, mbind, M_bind.
  rewrite run_get, (run_vec_at _ _ _ _ _ Hp), run_logf, (run_vec_at _ _ _ _ _ Hm).
  eexists. split; [reflexivity |]. split; [reflexivity | split; reflexivity].
Qed.

Lemma create_static_object_buffers_run mi si e s m :
  models s !! e = Some m →
  ∃ s', create_static_object_buffers mi si e s = Ok tt s' ∧
        models s' = models s ∧ same_scene s s'.
Proof.
  intros Hm. unfold create_static_object_buffers, mbind, M_bind.
  rewrite run_logf, run_get. cbn [models set_log].
  rewrite (run_vec_at _ _ _ _ _ Hm).
  eexists. split; [reflexivity |]. split; [reflexivity | split; reflexivity].
Qed.

(** One turn of the inner loop: the entry gets its mesh. *)
Lemma load_entry_run mi si e s m o p :
  models s !! e = Some m →
  using_original_nerf_models s !! mi = Some o →
  model_path s !! mi = Some p →
  files_ok p o si = true →
  ∃ s', (load_scene env mi si e;;
         create_texture mi si e;;
         create_static_object_buffers mi si e;;
         ret (S e)) s = Ok (S e) s' ∧
        models s' = <[e := loaded_model p o si m]> (models s) ∧ same_scene s s'.
Proof.
  intros Hm Ho Hp Hfiles.
  destruct (load_scene_run mi si e s m o p Hm Ho Hp Hfiles)
    as (s1 & Hrun1 & Hm1 & Hp1 & Hu1).
  assert (models s1 !! e = Some (loaded_model p o si m)) as Hm1'
    by (rewrite Hm1; apply list_lookup_insert_eq; apply (lookup_lt_Some _ _ _ Hm)).
  destruct (create_texture_run mi si e s1 _ p Hm1') as (s2 & Hrun2 & Hm2 & Hp2 & Hu2);
    [rewrite Hp1; exact Hp |].
  destruct (create_static_object_buffers_run mi si e s2 (loaded_model p o si m))
    as (s3 & Hrun3 & Hm3 & Hp3 & Hu3); [rewrite Hm2; exact Hm1' |].
  exists s3. split; [| split; [congruence | split; congruence]].
  unfold mbind, M_bind.
  rewrite (bind_Ok _ _ _ _ _ Hrun1), (bind_Ok _ _ _ _ _ Hrun2), (bind_Ok _ _ _ _ _ Hrun3).
  reflexivity.
Qed.
End LoadEntry.

Lemma block_step {A} (f : nat → A) (m0 : A) (j k : nat) :
  (j < k)%nat →
  <[j := f j]> (map f (seq 0 j) ++ replicate (k - j) m0)
  = map f (seq 0 (S j)) ++ replicate (k - S j) m0.
Proof.
  intros Hj.
  assert (length (map f (seq 0 j)) = j) as Hlen by (rewrite length_map; apply length_seq).
  rewrite insert_app_r_alt by lia. rewrite Hlen, Nat.sub_diag.
  replace (k - j)%nat with (S (k - S j)) by lia. cbn [replicate].
  rewrite seq_S, map_app. cbn. rewrite <- app_assoc. reflexivity.
Qed.

Lemma for_range_with_halts {St A} (P : nat → A → St → Prop)
    (body : nat → A → M St A) cnt i a s k h :
  P i a s →
  (i ≤ k < i + cnt)%nat →
  (∀ j b t, (i ≤ j < k)%nat → P j b t → ∃ b' t', body j b t = Ok b' t' ∧ P (S j) b' t') →
  (∀ b t, P k b t → ∃ t', body k b t = Halt h t') →
  ∃ s', for_range_with cnt i body a s = Halt h s'.
Proof.
  revert i a s. induction cnt as [|cnt IH]; intros i a s Hi Hk Hstep Hhalt; simpl.
  - lia.
  - destruct (decide (i = k)) as [->|Hne].
    + destruct (Hhalt a s Hi) as (t' & Hb). exists t'.
      erewrite bind_Halt by eassumption. reflexivity.
    + destruct (Hstep i a s) as (b & t & Hb & Ht); [lia | assumption |].
      destruct (IH (S i) b t) as (s' & Hr); [assumption | lia | | assumption |].
      * intros j c u Hj Hu. apply Hstep; [lia | assumption].
      * exists s'. erewrite bind_Ok by eassumption. exact Hr.
Qed.

Section LoadModels.
Variable env : Env.

(** The entries of the sub-models of model [i], as
    [initialize_mlp_uniform_buffers] leaves them and as [load_scene] does. *)
Definition unloaded (i : nat) (c : Z) : list Model :=
  replicate (Z.to_nat c) (Model_of (Z.of_nat i) c).

(** The path and the flag of model [i] of the scene. *)
Definition path_of (n : Nerf) (i : nat) : string := default "" (model_path n !! i).
Definition original_of (n : Nerf) (i : nat) : bool :=
  default false (using_original_nerf_models n !! i).

Definition loaded (n : Nerf) (i : nat) (c : Z) : list Model :=
  map (λ j, loaded_model env (path_of n i) (original_of n i) j (Model_of (Z.of_nat i) c))
    (seq 0 (Z.to_nat c)).

Lemma loaded_length n i c : length (loaded n i c) = Z.to_nat c.
Proof. unfold loaded. rewrite length_map. apply length_seq. Qed.

(** The files of every sub-model of model [i] can be loaded. *)
Definition model_files_ok (n : Nerf) (i : nat) (c : Z) : bool :=
  forallb (files_ok env (path_of n i) (original_of n i)) (seq 0 (Z.to_nat c)).

(** The files of every sub-model of every model can be. *)
Definition scene_files_ok (n : Nerf) (counts : list Z) : Prop :=
  ∀ i c, counts !! i = Some c → model_files_ok n i c = true.

(** The inner loop: the entries of one model get their meshes. *)
Lemma load_block_run i c pre post s o p :
  models s = pre ++ unloaded i c ++ post →
  using_original_nerf_models s !! i = Some o →
  model_path s !! i = Some p →
  forallb (files_ok env p o) (seq 0 (Z.to_nat c)) = true →
  ∃ s', for_range_with (Z.to_nat c) 0
          (λ sub_model_index models_entry,
             load_scene env i sub_model_index models_entry;;
             create_texture i sub_model_index models_entry;;
             create_static_object_buffers i sub_model_index models_entry;;
             ret (S models_entry)) (length pre) s
        = Ok (length pre + Z.to_nat c)%nat s' ∧
        models s' = pre ++ map (λ j, loaded_model env p o j (Model_of (Z.of_nat i) c))
                               (seq 0 (Z.to_nat c)) ++ post ∧
        same_scene s s'.
Proof.
  intros Hmodels Ho Hp Hfiles. rewrite forallb_forall in Hfiles.
  set (k := Z.to_nat c) in *. set (m0 := Model_of (Z.of_nat i) c).
  set (f := λ j, loaded_model env p o j m0).
  destruct (for_range_with_inv
    (λ j e t, e = (length pre + j)%nat ∧
              models t = pre ++ (map f (seq 0 j) ++ replicate (k - j) m0) ++ post ∧
              same_scene s t)
    (λ sub_model_index models_entry,
       load_scene env i sub_model_index models_entry;;
       create_texture i sub_model_index models_entry;;
       create_static_object_buffers i sub_model_index models_entry;;
       ret (S models_entry)) k 0 (length pre) s) as (e & s' & Hrun & He & Hs' & Hsame).
  - split; [lia |]. split; [| split; reflexivity].
    rewrite Nat.sub_0_r. exact Hmodels.
  - intros j e t Hj (-> & Ht & Hpt & Hut).
    assert (length (map f (seq 0 j)) = j) as Hlen by (rewrite length_map; apply length_seq).
    assert (models t !! (length pre + j)%nat = Some m0) as Hm.
    { rewrite Ht, lookup_app_r by lia.
      replace (length pre + j - length pre)%nat with j by lia.
      rewrite lookup_app_l by (rewrite length_app, Hlen, length_replicate; lia).
      rewrite lookup_app_r by lia. rewrite Hlen, Nat.sub_diag.
      apply lookup_replicate_2. lia. }
    destruct (load_entry_run env i j (length pre + j) t m0 o p Hm)
      as (t' & Hrun' & Hm' & Hp' & Hu');
      [rewrite Hut; exact Ho | rewrite Hpt; exact Hp
      | apply Hfiles, in_seq; lia |].
    exists (S (length pre + j)), t'. split; [exact Hrun' |].
    split; [lia |]. split; [| split; congruence].
    rewrite Hm', Ht, insert_app_r_alt by lia.
    replace (length pre + j - length pre)%nat with j by lia.
    rewrite insert_app_l by (rewrite length_app, Hlen, length_replicate; lia).
    fold (f j). rewrite block_step by lia. reflexivity.
  - exists s'. cbn [Nat.add] in He, Hs'. subst e.
    split; [exact Hrun |]. split; [| exact Hsame].
    rewrite Hs', Nat.sub_diag. cbn [replicate]. rewrite app_nil_r. reflexivity.
Qed.

(** The state of the outer loop before model [i]. *)
Definition models_loaded (n : Nerf) (counts : list Z) (i e : nat) (t : Nerf) : Prop :=
  e = length (concat (imap (loaded n) (take i counts))) ∧
  models t = concat (imap (loaded n) (take i counts)) ++
             concat (imap (λ j, unloaded (i + j)) (drop i counts)) ∧
  same_scene n t.

(** The body of the outer loop of lines 452-464. *)
Local Abbreviation model_body :=
  (λ model_index models_entry,
     bind get (λ n0, bind (vec_at (models n0) models_entry) (λ m,
       for_range_with (Z.to_nat (sub_model_num m)) 0
         (λ sub_model_index models_entry0,
            bind (load_scene env model_index sub_model_index models_entry0) (λ _,
            bind (create_texture model_index sub_model_index models_entry0) (λ _,
            bind (create_static_object_buffers model_index sub_model_index
                    models_entry0) (λ _, ret (S models_entry0)))))
         models_entry))).

(** One turn of the outer loop, for a model that has a sub-model. *)
Lemma load_model_step n counts i e t c :
  counts !! i = Some c → 1 ≤ c →
  (i < length (model_path n))%nat →
  (i < length (using_original_nerf_models n))%nat →
  model_files_ok n i c = true →
  models_loaded n counts i e t →
  ∃ e' t', model_body i e t = Ok e' t' ∧ models_loaded n counts (S i) e' t'.
Proof.
  intros Hc Hc1 Hip Hiu Hfiles (-> & Ht & Hpt & Hut).
  destruct (lookup_lt_is_Some_2 (model_path n) i Hip) as [p Hp].
  destruct (lookup_lt_is_Some_2 (using_original_nerf_models n) i Hiu) as [o Ho].
  pose proof (lookup_lt_Some _ _ _ Hc) as Hi.
  unfold model_files_ok, path_of, original_of in Hfiles.
  rewrite Hp, Ho in Hfiles. cbn [default] in Hfiles.
  assert (loaded n i c
          = map (λ j, loaded_model env p o j (Model_of (Z.of_nat i) c))
              (seq 0 (Z.to_nat c))) as Hloaded.
  { unfold loaded, path_of, original_of. rewrite Hp, Ho. reflexivity. }
  set (pre := concat (imap (loaded n) (take i counts))) in *.
  set (post := concat (imap (λ j, unloaded (S i + j)) (drop (S i) counts))).
  assert (models t = pre ++ unloaded i c ++ post) as Ht'.
  { rewrite Ht, (drop_S _ _ _ Hc), imap_cons. cbn [concat].
    rewrite Nat.add_0_r. do 3 f_equal. apply imap_ext. intros j x _. cbn.
    f_equal. lia. }
  assert (models t !! length pre = Some (Model_of (Z.of_nat i) c)) as Hm.
  { rewrite Ht', lookup_app_r by lia. rewrite Nat.sub_diag.
    rewrite lookup_app_l by (unfold unloaded; rewrite length_replicate; lia).
    apply lookup_replicate_2. lia. }
  rewrite run_get, (run_vec_at _ _ _ _ _ Hm). cbn [sub_model_num Model_of].
  destruct (load_block_run i c pre post t o p Ht')
    as (t' & Hrun' & Hm' & Hp' & Hu');
    [rewrite Hut; exact Ho | rewrite Hpt; exact Hp | exact Hfiles |].
  rewrite <- Hloaded in Hm'.
  unfold mbind, M_bind in Hrun'.
  exists (length pre + Z.to_nat c)%nat, t'. split; [exact Hrun' |].
  assert (concat (imap (loaded n) (take (S i) counts)) = pre ++ loaded n i c) as Hnext.
  { rewrite (take_S_r _ _ _ Hc), imap_app, concat_app. cbn.
    rewrite length_take_le by lia. rewrite Nat.add_0_r, app_nil_r. reflexivity. }
  split; [rewrite Hnext, length_app, loaded_length; reflexivity |].
  split; [| split; congruence].
  rewrite Hm', Hnext, <- app_assoc. reflexivity.
Qed.

Lemma models_loaded_start n counts :
  models n = concat (imap unloaded counts) → models_loaded n counts 0 0 n.
Proof.
  intros Hmodels. split; [reflexivity |]. split; [| split; reflexivity].
  rewrite take_0, drop_0. exact Hmodels.
Qed.

Lemma load_models_run n counts :
  length counts = length (model_path n) →
  length (using_original_nerf_models n) = length (model_path n) →
  Forall (λ c, 1 ≤ c) counts →
  models n = concat (imap unloaded counts) →
  scene_files_ok n counts →
  ∃ n', load_models env n = Ok tt n' ∧
        models n' = concat (imap (loaded n) counts) ∧ same_scene n n'.
Proof.
  intros Hcounts Husing Hpos Hmodels Hfiles. unfold load_models, mbind, M_bind.
  rewrite run_get.
  destruct (for_range_with_inv (models_loaded n counts) model_body
              (length (model_path n)) 0 0%nat n) as (e & n' & Hrun & _ & Hn' & Hsame).
  - apply models_loaded_start. exact Hmodels.
  - intros i e t Hi Ht.
    destruct (lookup_lt_is_Some_2 counts i) as [c Hc]; [lia |].
    apply (load_model_step n counts i e t c Hc);
      [| lia | lia | exact (Hfiles i c Hc) | exact Ht].
    exact (Forall_lookup_1 _ _ _ _ Hpos Hc).
  - exists n'. cbn [Nat.add] in Hn'.
    rewrite (bind_Ok _ _ _ _ _ Hrun). split; [reflexivity |]. split; [| exact Hsame].
    rewrite Hn', take_ge, drop_ge by lia. cbn. apply app_nil_r.
Qed.

End LoadModels.


(** Where every file holds the scene [one_triangle], every file can be
    loaded. *)
Lemma one_triangle_files_ok path original sub_model_index :
  files_ok every_mlp_env path original sub_model_index = true.
Proof. destruct original; vm_compute; reflexivity. Qed.

Lemma one_triangle_scene_files_ok n counts : scene_files_ok every_mlp_env n counts.
Proof.
  intros i c _. unfold model_files_ok. apply forallb_forall.
  intros j _. apply one_triangle_files_ok.
Qed.

(** A scene of two models of one sub-model each, the weights loaded. *)
Definition two_sub_models_state : Nerf :=
  set_models [Model_of 0 1; Model_of 1 1]
    (set_using_original_nerf_models [false; false] two_paths_state).


(** A scene of two models, the second without a sub-model. *)
Definition missing_sub_model_state : Nerf :=
  set_models [Model_of 0 1]
    (set_using_original_nerf_models [false; false] two_paths_state).


(** ** [Nerf::prepare] on a scene that is in order *)

(** [safe I c]: from a state that satisfies [I], the command [c] returns,
    and [I] holds again. *)
Definition safe {A} (I : Nerf → Prop) (c : M Nerf A) : Prop :=
  triple I c (λ _, I) (λ _ _, False).

Lemma safe_ret {A} (I : Nerf → Prop) (a : A) : safe I (ret a).
Proof. intros s Hs. exact Hs. Qed.

Lemma safe_bind {A B} (I : Nerf → Prop) (c : M Nerf A) (k : A → M Nerf B) :
  safe I c → (∀ a, safe I (k a)) → safe I (c ≫= k).
Proof. intros Hc Hk. exact (triple_bind _ _ _ _ _ _ Hc Hk). Qed.

Lemma safe_get_bind {B} (I : Nerf → Prop) (k : Nerf → M Nerf B) :
  (∀ n, I n → safe I (k n)) → safe I (get ≫= k).
Proof. intros Hk s Hs. exact (Hk s Hs s Hs). Qed.

Lemma triple_get_bind {B} (P : Nerf → Prop) (k : Nerf → M Nerf B) Q E :
  (∀ n, P n → triple P (k n) Q E) → triple P (get ≫= k) Q E.
Proof. intros Hk s Hs. exact (Hk s Hs s Hs). Qed.

Lemma safe_modify (I : Nerf → Prop) (f : Nerf → Nerf) :
  (∀ s, I s → I (f s)) → safe I (modify f).
Proof. intros Hf s Hs. apply Hf, Hs. Qed.

Lemma safe_vec_at {A} (I : Nerf → Prop) (v : list A) i :
  is_Some (v !! i) → safe I (vec_at v i).
Proof. intros [a Ha] s Hs. unfold vec_at. rewrite Ha. exact Hs. Qed.

Lemma safe_for_range (I : Nerf → Prop) (body : nat → M Nerf unit) cnt i :
  (∀ j, safe I (body j)) → safe I (for_range cnt i body).
Proof.
  intros Hbody. revert i. induction cnt as [|cnt IH]; intros i; simpl.
  - apply safe_ret.
  - apply (safe_bind I (body i) (λ _, for_range cnt (S i) body)); [apply Hbody |].
    intros _. apply IH.
Qed.

Lemma safe_triple {A} (I : Nerf → Prop) (c : M Nerf A) :
  safe I c → triple I c (λ _, I) (λ _ _, False).
Proof. intros Hc. exact Hc. Qed.

(** A command made of steps that cannot stop is safe, when [tac] shows that
    every change of the state keeps [I] and [look] that every element read
    from a vector is there. *)
Ltac safe_all tac look :=
  lazymatch goal with
  | |- safe _ (get ≫= _) => apply safe_get_bind; intros ? ?; safe_all tac look
  | |- safe _ (_ ≫= _) => apply safe_bind; [safe_all tac look | intros ?; safe_all tac look]
  | |- safe _ (let _ := _ in _) => cbv zeta; safe_all tac look
  | |- safe _ (if ?b then _ else _) => destruct b; safe_all tac look
  | |- safe _ (logf _ _ _) => apply safe_modify; tac
  | |- safe _ (gpu_call _) => apply safe_modify; tac
  | |- safe _ (modify _) => apply safe_modify; tac
  | |- safe _ (ret _) => apply safe_ret
  | |- safe _ (vec_at _ _) => apply safe_vec_at; look
  | |- safe _ (for_range _ _ _) => apply safe_for_range; intros ?; safe_all tac look
  | |- safe _ ?c =>
      let h := head_of c in
      unfold h; safe_all tac look
  end.

(** What the steps of [prepare] after the weights rely on: the scene is
    the one of [n0], the weights are [ws], the lattice is [ii], the models
    are [ms] and the weights buffers [wb]. *)
Definition scene_inv (n0 : Nerf) (ws : list MLP_Weights) (ii : InstancingInfo)
    (ms : list Model) (wb : list (list float)) (s : Nerf) : Prop :=
  model_path s = model_path n0 ∧
  using_original_nerf_models s = using_original_nerf_models n0 ∧
  combo_mode s = combo_mode n0 ∧ mlp_weight_vector s = ws ∧
  instancing_info s = ii ∧ models s = ms ∧ weights_buffers s = wb.

Ltac scene_look :=
  lazymatch goal with
  | |- is_Some (?f ?n !! _) =>
      lazymatch goal with
      | Hn : scene_inv _ _ _ _ _ n |- _ =>
          let Ep := fresh in let Eu := fresh in let Ec := fresh in let Ew := fresh in
          let Ei := fresh in let Em := fresh in let Eb := fresh in
          pose proof Hn as (Ep & Eu & Ec & Ew & Ei & Em & Eb);
          rewrite ?Ep, ?Eu, ?Ew, ?Em; apply lookup_lt_is_Some_2; assumption
      end
  end.

Ltac sstep :=
  eapply triple_bind;
  [apply safe_triple;
   safe_all ltac:(idtac; intros ? Hs; exact Hs) ltac:(idtac; scene_look)
  | intros ?].

Lemma safe_for_each {A} (I : Nerf → Prop) (body : A → M Nerf unit) xs :
  (∀ x, safe I (body x)) → safe I (for_each xs body).
Proof.
  intros Hbody. induction xs as [|x xs IH]; simpl.
  - apply safe_ret.
  - apply (safe_bind I (body x) (λ _, for_each xs body)); [apply Hbody |].
    intros _. apply IH.
Qed.

Lemma elem_of_concat_imap {A B} (f : nat → A → list B) (l : list A) (b : B) :
  b ∈ concat (imap f l) → ∃ i a, l !! i = Some a ∧ b ∈ f i a.
Proof.
  revert f. induction l as [|a l IH]; intros f Hb.
  - cbn in Hb. apply elem_of_nil in Hb. contradiction.
  - rewrite imap_cons in Hb. cbn [concat] in Hb. apply elem_of_app in Hb as [Hb|Hb].
    + exists 0%nat, a. split; [reflexivity | exact Hb].
    + destruct (IH _ Hb) as (i & a' & Hi & Hb'). exists (S i), a'. split; assumption.
Qed.

Section PrepareReturns.
Context `{NerfHeader}.
Variable env : Env.

Lemma loaded_model_index path original si m :
  model_index (loaded_model env path original si m) = model_index m.
Proof.
  unfold loaded_model.
  generalize (flat_map (file_sub_meshes env path original si) (seq 0 (files_of original))).
  intros sms. revert m. induction sms as [|sm sms IH]; intros m; cbn [foldl];
    [reflexivity |].
  rewrite IH. reflexivity.
Qed.

(** Every entry of the loaded models names a model of the scene. *)
Lemma loaded_models_named n0 counts :
  Forall (λ m, 0 ≤ model_index m < Z.of_nat (length counts))
    (concat (imap (loaded env n0) counts)).
Proof.
  apply Forall_forall. intros m Hm.
  destruct (elem_of_concat_imap _ _ _ Hm) as (i & c & Hi & Hm').
  unfold loaded in Hm'. apply list_elem_of_fmap in Hm' as (j & -> & _).
  rewrite loaded_model_index. cbn. apply lookup_lt_Some in Hi. lia.
Qed.

Lemma scene_files_ok_same s t counts :
  model_path s = model_path t →
  using_original_nerf_models s = using_original_nerf_models t →
  scene_files_ok env t counts → scene_files_ok env s counts.
Proof.
  intros Hp Hu Hok i c Hc. specialize (Hok i c Hc).
  unfold model_files_ok, path_of, original_of in *. rewrite Hp, Hu. exact Hok.
Qed.

Lemma loaded_same s t i c :
  model_path s = model_path t →
  using_original_nerf_models s = using_original_nerf_models t →
  loaded env s i c = loaded env t i c.
Proof. intros Hp Hu. unfold loaded, path_of, original_of. rewrite Hp, Hu. reflexivity. Qed.

Lemma build_command_buffers_safe (I : Nerf → Prop) :
  (∀ s v, I s → I (set_view_port_height v s)) →
  (∀ s v, I s → I (set_view_port_width v s)) →
  (∀ s v, I s → I (set_gpu v s)) →
  (∀ s v, I s → I (set_draw_cmd_buffers v s)) →
  safe I (build_command_buffers env).
Proof.
  intros Hh Hw Hg Hd s Hs. unfold build_command_buffers, mbind, M_bind. rewrite run_get.
  destruct (use_native_screen_size s).
  - rewrite !bind_assoc, !run_modify, build_command_buffers_baseline_closed.
    apply Hd, Hg, Hw, Hh, Hs.
  - unfold bind at 1. cbn [ret]. rewrite build_command_buffers_baseline_closed.
    apply Hd, Hg, Hs.
Qed.

(** [prepare] from line 415 on, after the weights are loaded. *)
Definition after_loading : M Nerf bool :=
  gpu_call Vk.framework_prepare;;
  if negb (framework_prepare_ok env) then ret false
  else
    modify (set_draw_cmd_buffers (replicate (swapchain_image_count env) []));;
    n ← get;
    (if (view_port_width n =? 0) || (view_port_height n =? 0) then
       modify (set_view_port_width (width env));;
       modify (set_view_port_height (height env));;
       modify (set_use_native_screen_size true)
     else ret tt);;
    load_shaders;;
    update_render_pass_nerf env;;
    setup_nerf_framebuffer_baseline env;;
    gpu_call Vk.update_render_pass_flags;;
    place_camera;;
    look_at_origin env;;
    load_models env;;
    create_uniforms env;;
    prepare_instance_data;;
    create_pipeline_layouts;;
    create_descriptor_pool;;
    n ← get;
    for_range (length (models n)) 0 (create_descriptor_sets_first_pass env);;
    (if use_deferred n then create_descriptor_sets_baseline env else ret tt);;
    prepare_pipelines;;
    build_command_buffers env;;
    modify (set_prepared true);;
    logf LOGI "Prepare Done!" [];;
    ret true.

Lemma prepare_after n n1 n2 :
  read_json_map env n = Ok tt n1 → load_mlps env n1 = Ok tt n2 →
  prepare env n = after_loading n2.
Proof.
  intros Hread Hload. unfold prepare, mbind, M_bind.
  rewrite (bind_Ok _ _ _ _ _ Hread), (bind_Ok _ _ _ _ _ Hload). reflexivity.
Qed.

(** The steps of [prepare] after the weights are loaded, on a scene of
    at least one model, a combination of at most four, whose models all
    have a sub-model with files that can be loaded, and whose lattice has
    a size that fits [int]. *)
Lemma prepare_after_loading n0 ws ii counts wb :
  framework_prepare_ok env = true →
  (0 < length (model_path n0))%nat →
  length (using_original_nerf_models n0) = length (model_path n0) →
  length counts = length (model_path n0) →
  (length (model_path n0) ≤ length ws)%nat →
  (combo_mode n0 = true → (length (model_path n0) ≤ 4)%nat) →
  Forall (λ c, 1 ≤ c) counts →
  scene_files_ok env n0 counts →
  valid_dim (dim ii) →
  triple (scene_inv n0 ws ii (concat (imap unloaded counts)) wb)
    after_loading
    (λ b s', b = true ∧ prepared s' = true ∧
             scene_inv n0 ws ii (concat (imap (loaded env n0) counts))
               (map data (take (length (model_path n0)) ws)) s')
    (λ _ _, False).
Proof.
  intros Hok Hmp Hus Hcounts Hws Hcombo Hpos Hfiles Hvalid. unfold after_loading.
  assert (0 < length (using_original_nerf_models n0))%nat as Hus0 by lia.
  assert (0 < length (concat (imap (loaded env n0) counts)))%nat as Hms0.
  { destruct counts as [|c counts']; [cbn in Hcounts; lia |].
    rewrite imap_cons. cbn [concat]. rewrite length_app, loaded_length.
    pose proof (Forall_inv Hpos) as Hc. cbn in Hc. lia. }
  sstep. rewrite Hok. cbn [negb].
  sstep. apply triple_get_bind. intros n1 Hn1.
  do 7 sstep.
  eapply (triple_bind _ _ _
            (λ _, scene_inv n0 ws ii (concat (imap (loaded env n0) counts)) wb)).
  { intros s (Hp & Hu & Hc & Hw & Hi & Hm & Hb).
    destruct (load_models_run env s counts) as (s' & Hrun & Hm' & Hp' & Hu');
      [congruence | congruence | exact Hpos | exact Hm
      | exact (scene_files_ok_same s n0 counts Hp Hu Hfiles) |].
    pose proof (keeps_final
                  (λ t, combo_mode t = combo_mode n0 ∧ mlp_weight_vector t = ws ∧
                        instancing_info t = ii ∧ weights_buffers t = wb)
                  (load_models env) s
                  ltac:(keeps_all ltac:(intros; assumption))
                  (conj Hc (conj Hw (conj Hi Hb)))) as Hrest.
    rewrite Hrun in *. cbn [final] in Hrest. destruct Hrest as (Hc' & Hw' & Hi' & Hb').
    split; [congruence |]. split; [congruence |]. split; [exact Hc' |].
    split; [exact Hw' |]. split; [exact Hi' |]. split; [| exact Hb'].
    rewrite Hm'. f_equal. apply imap_ext. intros i c _. apply loaded_same; assumption. }
  intros ?.
  eapply (triple_bind _ _ _
            (λ _, scene_inv n0 ws ii (concat (imap (loaded env n0) counts))
                    (map data (take (length (model_path n0)) ws)))).
  { intros s (Hp & Hu & Hc & Hw & Hi & Hm & Hb).
    destruct (create_uniforms_run env s) as (l & Hrun).
    - rewrite Hp. exact Hmp.
    - rewrite Hp, Hw. exact Hws.
    - rewrite Hp, Hc. exact Hcombo.
    - rewrite Hp, Hm, <- Hcounts. apply loaded_models_named.
    - rewrite Hrun. rewrite Hp, Hw. repeat split; assumption. }
  intros ?.
  eapply (triple_bind _ _ _
            (λ _, scene_inv n0 ws ii (concat (imap (loaded env n0) counts))
                    (map data (take (length (model_path n0)) ws)))).
  { intros s Hs. pose proof Hs as (Hp & Hu & Hc & Hw & Hi & Hm & Hb).
    unfold prepare_instance_data, mbind, M_bind. rewrite run_get. cbv zeta.
    rewrite instance_offsets_run by (rewrite Hi; exact Hvalid).
    unfold gpu_call. rewrite !run_modify. exact Hs. }
  intros ?.
  do 2 sstep. apply triple_get_bind. intros n2 Hn2.
  do 3 sstep.
  eapply triple_bind.
  { apply safe_triple, build_command_buffers_safe; intros s v Hs; exact Hs. }
  intros ?.
  intros s Hs. unfold mbind, M_bind. rewrite run_modify, run_logf.
  split; [reflexivity | split; [reflexivity | exact Hs]].
Qed.
End PrepareReturns.

Section PrepareRun.
Context `{NerfHeader}.
Variable env : Env.

(** A scene that is in order: [read_json_map] has left, in [n1], at least
    one model path and as many flags as paths, a combination has at most
    four models, every path has an MLP description [ds] in range with at
    least one sub-model, the files of every sub-model can be loaded,
    [models] is still empty and the lattice size fits [int]. *)
Record scene_in_order (n1 : Nerf) (ds : list Description) : Prop := {
  so_paths : model_path n1 ≠ [];
  so_flags : length (using_original_nerf_models n1) = length (model_path n1);
  so_combo : combo_mode n1 = true → (length (model_path n1) ≤ 4)%nat;
  so_descriptions : Forall2 (describes env) (model_path n1) ds;
  so_sub_models : Forall (λ d, 1 ≤ d_obj_num d) ds;
  so_files : scene_files_ok env n1 (map d_obj_num ds);
  so_weights : Forall (λ w, length (data w) = MLP_TOTAL) (mlp_weight_vector n1);
  so_models : models n1 = [];
  so_lattice : valid_dim (dim (instancing_info n1))
}.

Lemma prepare_run (n n1 : Nerf) (ds : list Description) :
  read_json_map env n = Ok tt n1 →
  framework_prepare_ok env = true →
  scene_in_order n1 ds →
  ∃ n', prepare env n = Ok true n' ∧ prepared n' = true ∧
        scene_inv n1 (map packed_of ds) (instancing_info n1)
          (concat (imap (loaded env n1) (map d_obj_num ds)))
          (map data (map packed_of ds)) n'.
Proof.
  intros Hread Hok [Hne Hus Hcombo Hds Hpos Hfiles Hv Hm Hvalid].
  pose proof (Forall2_length _ _ _ Hds) as Hlen.
  destruct (load_mlps_run env n1 ds Hds Hv) as (n2 & Hload & Hp2 & Hm2 & Hw2).
  pose proof (keeps_final
                (λ t, using_original_nerf_models t = using_original_nerf_models n1 ∧
                      combo_mode t = combo_mode n1 ∧
                      instancing_info t = instancing_info n1)
                (load_mlps env) n1
                ltac:(keeps_all ltac:(intros; assumption))
                (conj eq_refl (conj eq_refl eq_refl))) as Hk.
  rewrite Hload in Hk. cbn [final] in Hk. destruct Hk as (Hu2 & Hc2 & Hi2).
  assert (concat (imap sub_models_of ds) = concat (imap unloaded (map d_obj_num ds)))
    as Hsub by (rewrite imap_fmap; reflexivity).
  pose proof (prepare_after_loading env n1 (map packed_of ds) (instancing_info n1)
                (map d_obj_num ds) (weights_buffers n2) Hok) as Htriple.
  specialize (Htriple ltac:(destruct (model_path n1); [congruence | cbn; lia]) Hus
                ltac:(rewrite length_map; lia) ltac:(rewrite length_map; lia) Hcombo
                ltac:(apply Forall_map; exact Hpos) Hfiles Hvalid n2).
  specialize (Htriple ltac:(repeat split;
                              [exact Hp2 | exact Hu2 | exact Hc2 | exact Hw2 | exact Hi2
                              | rewrite Hm2, Hm, Hsub; reflexivity])).
  rewrite (prepare_after env n n1 n2 Hread Hload).
  destruct (after_loading env n2) as [b s' |]; [| contradiction].
  destruct Htriple as (-> & Hprep & Hinv).
  exists s'. split; [reflexivity |]. split; [exact Hprep |].
  rewrite Hlen, <- (length_map packed_of ds), firstn_all in Hinv. exact Hinv.
Qed.
End PrepareRun.


Lemma compiled_in_paths :
  model_path (final (read_json_map every_mlp_env Nerf_new))
  = ["scenes/morpheus_team/lego_ball_phone/";
     "scenes/morpheus_team/lego_boba_fett_phone/";
     "scenes/morpheus_team/lego_monster_truck_phone/";
     "scenes/morpheus_team/lego_tractor_phone/"].
Proof. vm_compute. reflexivity. Qed.

Lemma every_mlp_scene_read :
  read_json_map every_mlp_env Nerf_new
  = Ok tt (final (read_json_map every_mlp_env Nerf_new)).
Proof. vm_compute. reflexivity. Qed.

(** The compiled-in scene, every model with the description [long_mlp] and
    every file with the scene [one_triangle], is in order. *)
Lemma every_mlp_scene_in_order :
  @scene_in_order mobile_nerf_h every_mlp_env
    (final (read_json_map every_mlp_env Nerf_new)) (replicate 4 long_description).
Proof.
  split.
  - rewrite compiled_in_paths. discriminate.
  - vm_compute. reflexivity.
  - intros _. rewrite compiled_in_paths. cbn. lia.
  - rewrite compiled_in_paths.
    repeat (constructor; [apply long_description_describes |]). constructor.
  - apply Forall_replicate. cbn. lia.
  - apply one_triangle_scene_files_ok.
  - vm_compute. constructor.
  - vm_compute. reflexivity.
  - vm_compute. split; [| split; [| split]]; discriminate.
Qed.


(** ** MLPWeightPacker: a count that differs is logged, and the buffer used *)

(** A log line that is there stays there. *)
Ltac log_grows :=
  intros;
  first [ assumption
        | cbn [log set_log]; apply elem_of_app; left; assumption ].

Section MismatchUse.
Context `{NerfHeader}.
Variable env : Env.

Lemma mismatch_level a e : (true, e) ∈ mismatches a → level e = LOGE.
Proof.
  intros He. unfold mismatches in He.
  repeat (apply elem_of_cons in He as [He|He]);
    try (apply elem_of_nil in He; contradiction);
    injection He as _ ->; reflexivity.
Qed.

Lemma initialize_log_grows e i :
  keeps (λ s, e ∈ log s) (initialize_mlp_uniform_buffers env i).
Proof. keeps_all log_grows. Qed.

Lemma after_loading_log_grows e : keeps (λ s, e ∈ log s) (after_loading env).
Proof. unfold after_loading. keeps_all log_grows. Qed.

(** The mismatches of every description are in the log when the weights
    are loaded. *)
Lemma load_mlps_logs n ds i d e :
  Forall2 (describes env) (model_path n) ds →
  Forall (λ w, length (data w) = MLP_TOTAL) (mlp_weight_vector n) →
  ds !! i = Some d → (true, e) ∈ mismatches (arrays_of d) →
  e ∈ log (final (load_mlps env n)).
Proof.
  intros Hds Hv Hd He. unfold load_mlps, mbind, M_bind. rewrite run_modify, run_get.
  set (s := set_mlp_weight_vector _ n).
  change (model_path s) with (model_path n).
  destruct (for_range_inv (λ j t, mlps_loaded n ds j t ∧ ((i < j)%nat → e ∈ log t))
              (λ i, initialize_mlp_uniform_buffers env i) (length (model_path n)) 0 s)
    as (t & Hrun & _ & Hlog).
  - split; [| lia].
    split; [reflexivity |]. split; [cbn; rewrite app_nil_r; reflexivity |].
    split; [| split].
    + subst s. cbn. apply resized_length.
    + intros k d' Hk. lia.
    + intros k w _ Hw. subst s. cbn in Hw.
      apply (resized_buffers_length _ _ _ _ Hv Hw).
  - intros j t Hj [Ht Hlogged].
    destruct (mlps_loaded_step env n ds j t Hds ltac:(lia) Ht) as (t' & Hstep & Ht').
    exists t'. split; [exact Hstep |]. split; [exact Ht' |]. intros Hij.
    destruct (decide (i = j)) as [->|Hne].
    + destruct Ht as (Hpath & Hmodels & Hlen & _ & _).
      destruct (lookup_lt_is_Some_2 (model_path n) j ltac:(lia)) as [path Hp].
      destruct (Forall2_lookup_l _ _ _ _ _ Hds Hp) as (d' & Hd' & Hf & Hreads & Hobj & _).
      rewrite Hd in Hd'. injection Hd' as <-.
      destruct (lookup_lt_is_Some_2 (mlp_weight_vector t) j ltac:(lia)) as [w Hw].
      destruct (mismatch_is_logged_and_packed env t j path (d_doc d) (d_obj_num d)
                  (d_weights_0 d) (d_weights_1 d) (d_weights_2 d)
                  (d_bias_0 d) (d_bias_1 d) (d_bias_2 d) w)
        as (_ & Hall & _);
        [rewrite Hpath; exact Hp | exact Hf | exact Hreads | lia | exact Hw
        | exists e; exact He |].
      specialize (Hall e He). rewrite Hstep in Hall. exact Hall.
    + pose proof (keeps_final _ _ t (initialize_log_grows e j) (Hlogged ltac:(lia)))
        as Hkept.
      rewrite Hstep in Hkept. exact Hkept.
  - rewrite Hrun. cbn [final]. apply Hlog.
    apply lookup_lt_Some in Hd. pose proof (Forall2_length _ _ _ Hds). lia.
Qed.
End MismatchUse.



(** The description of [single_model_mlp], but with a row less of layer-2
    weights: 45 numbers where the packing loop reads 48. *)
Definition short_mlp : json :=
  JObject [ ("obj_num", JInt 1);
            ("0_weights", JArray (replicate 11 (zeros 16)));
            ("1_weights", JArray (replicate 16 (zeros 16)));
            ("2_weights", JArray (replicate 15 (zeros 3)));
            ("0_bias", zeros 16);
            ("1_bias", zeros 16);
            ("2_bias", zeros 3) ].

Definition short_mlp_env : Env :=
  {| asset_base := "assets/";
     nerf_json_file := Some (Some (single_model_json false));
     read_json_file := λ path,
       if String.eqb path "assets/scenes/morpheus_team/lego_ball_phone/mlp.json"
       then Some short_mlp else None;
     framework_prepare_ok := true;
     width := 1280; height := 720;
     swapchain_image_count := 3;
     depth_format := Vk.VK_FORMAT_of_device 126;
     swapchain_format := Vk.VK_FORMAT_of_device 44;
     sizeof_global_uniform := 256;
     read_scene_from_file := λ _, Some one_triangle;
     look_at_decompose := λ eye _ _, (glm.Vec3 F32.zero F32.zero F32.zero, eye) |}.


(** ** The camera start position that [prepare] applies *)

(** A step of a command that keeps [I]; the command may stop there. *)
Lemma triple_keeps_bind {St A B} (I : St → Prop) (c : M St A) (k : A → M St B)
    (R : B → St → Prop) (E : halt → St → Prop) :
  keeps I c → (∀ h s, I s → E h s) → (∀ a, triple I (k a) R E) → triple I (c ≫= k) R E.
Proof.
  intros Hc HE Hk. apply (triple_bind I c k (λ _, I) R E); [| exact Hk].
  apply (triple_conseq I I c (λ _, I) (λ _, I) E (λ _, I) Hc); auto.
Qed.

Section CameraClaim.
Context `{NerfHeader}.
Variable env : Env.

Definition origin : glm.vec3 := glm.Vec3 F32.zero F32.zero F32.zero.
Definition up : glm.vec3 := glm.Vec3 F32.zero f32_one F32.zero.

(** The position with its y coordinate negated. *)
Definition flipped (p : glm.vec3) : glm.vec3 :=
  glm.Vec3 (glm.x p) (F32.neg (glm.y p)) (glm.z p).

(** The camera [c] put at the flipped position and turned to the origin. *)
Definition placed (c : Camera) (p : glm.vec3) : Camera :=
  camera_set_look_at env (Camera_set_position (flipped p) (Camera_set_type LookAt c))
    origin up.

(** The camera is untouched, the position is the configured one. *)
Definition camera_untouched (c : Camera) (p : glm.vec3) (s : Nerf) : Prop :=
  camera_pos s = p ∧ camera s = c.

(** The camera is placed, the position is the flipped one. *)
Definition camera_placed (c : Camera) (p : glm.vec3) (s : Nerf) : Prop :=
  camera_pos s = flipped p ∧ camera s = placed c p.

Lemma read_json_map_keeps_camera c : keeps (λ s, camera s = c) (read_json_map env).
Proof.
  unfold read_json_map, read_scene, read_instancing.
  keeps_all ltac:(intros; assumption).
Qed.

Lemma load_mlps_keeps_camera c p : keeps (camera_untouched c p) (load_mlps env).
Proof. keeps_all ltac:(intros; assumption). Qed.

Ltac before_camera :=
  eapply triple_keeps_bind;
  [keeps_all ltac:(intros; assumption) | intros ? ? ?; left; assumption | intros ?].

Ltac after_camera :=
  eapply triple_keeps_bind;
  [keeps_all ltac:(intros; assumption) | intros ? ? ?; right; assumption | intros ?].

(** From line 415 on: the camera is untouched until line 443, and placed
    at the flipped position from line 446 on. *)
Lemma after_loading_camera c p :
  triple (camera_untouched c p) (after_loading env)
    (λ b s, if b : bool then camera_placed c p s else camera_untouched c p s)
    (λ _ s, camera_untouched c p s ∨ camera_placed c p s).
Proof.
  unfold after_loading. before_camera.
  destruct (negb (framework_prepare_ok env)).
  { apply triple_ret. intros s Hs. exact Hs. }
  do 7 before_camera.
  eapply (triple_bind _ _ _
            (λ _ s, camera_pos s = flipped p ∧
                    camera s = Camera_set_position (flipped p)
                                 (Camera_set_type LookAt c))).
  { intros s [Hp Hc]. unfold place_camera, mbind, M_bind.
    rewrite !run_modify. unfold modify.
    cbn [camera_pos camera set_camera set_camera_pos]. rewrite Hp, Hc.
    split; reflexivity. }
  intros ?.
  eapply (triple_bind _ _ _ (λ _, camera_placed c p)).
  { intros s [Hp Hc]. unfold look_at_origin, modify.
    cbn [camera_pos camera set_camera]. rewrite Hc. split; [exact Hp | reflexivity]. }
  intros ?.
  do 12 after_camera.
  apply triple_ret. intros s Hs. exact Hs.
Qed.
End CameraClaim.

(** C10: the camera start position that [prepare] applies is the
    configured one with its y coordinate negated. Whatever position
    (x, y, z) [read_json_map] has configured (the three numbers under
    "camera" of the target scene, or the position the object had), a run of
    [prepare] that returns true has put the camera at (x, -y, z), kept that
    as the camera position of the scene, and computed from there the
    orientation that looks at the origin; a run that returns false has left
    the camera and the configured position alone; and a run that stops has
    done the one or the other, so the configured position is never applied
    as it is. The y coordinate applied differs from the configured one
    unless that is a NaN. *)
Theorem camera_y_is_negated `{NerfHeader} (env : Env) (n n1 : Nerf) :
  read_json_map env n = Ok tt n1 →
  let configured := camera_pos n1 in
  let applied :=
    glm.Vec3 (glm.x configured) (F32.neg (glm.y configured)) (glm.z configured) in
  let origin := glm.Vec3 F32.zero F32.zero F32.zero in
  let up := glm.Vec3 F32.zero f32_one F32.zero in
  let looking :=
    camera_set_look_at env
      (Camera_set_position applied (Camera_set_type LookAt (camera n))) origin up in
  (∃ asset_map, resolved_asset_map env = Some asset_map ∧
                camera_resolved asset_map (camera_pos n) configured) ∧
  match prepare env n with
  | Ok true n' => camera_pos n' = applied ∧ camera n' = looking
  | Ok false n' => camera_pos n' = configured ∧ camera n' = camera n
  | Halt _ n' =>
      (camera_pos n' = configured ∧ camera n' = camera n) ∨
      (camera_pos n' = applied ∧ camera n' = looking)
  end ∧
  cam_rotation looking = fst (look_at_decompose env applied origin up) ∧
  (glm.y configured ≠ S754_nan → glm.y applied ≠ glm.y configured).
Proof.
  intros Hread configured applied origin up looking.
  split; [| split; [| split]].
  - destruct (read_json_map_run env n n1 Hread)
      as (raw & asset_map & s & _ & Ham & Hscene & _ & l & Hn1).
    exists asset_map. split; [exact Ham |].
    subst configured. rewrite Hn1. exact (sr_camera _ _ _ _ Hscene).
  - assert (camera_untouched (camera n) configured n1) as Hn1.
    { split; [reflexivity |].
      pose proof (keeps_final _ _ n (read_json_map_keeps_camera env (camera n)) eq_refl)
        as Hkept.
      rewrite Hread in Hkept. exact Hkept. }
    pose proof (load_mlps_keeps_camera env (camera n) configured n1 Hn1) as Hload.
    unfold prepare, mbind, M_bind. rewrite (bind_Ok _ _ _ _ _ Hread).
    unfold bind at 1.
    destruct (load_mlps env n1) as [[] n2|h n2]; [| left; exact Hload].
    pose proof (after_loading_camera env (camera n) configured n2 Hload) as Hrest.
    change (match after_loading env n2 with
            | Ok true n' => camera_pos n' = applied ∧ camera n' = looking
            | Ok false n' => camera_pos n' = configured ∧ camera n' = camera n
            | Halt _ n' =>
                (camera_pos n' = configured ∧ camera n' = camera n) ∨
                (camera_pos n' = applied ∧ camera n' = looking)
            end).
    destruct (after_loading env n2) as [[] n'|h n']; exact Hrest.
  - subst looking. unfold camera_set_look_at.
    cbn [cam_position Camera_set_position Camera_set_type].
    destruct (look_at_decompose env applied origin up) as [rotation translation].
    reflexivity.
  - intros Hnan. apply neg_differs. exact Hnan.
Qed.

Lemma camera_y_is_negated_witness :
  let n1 := final (read_json_map every_mlp_env Nerf_new) in
  ∃ n', @prepare mobile_nerf_h every_mlp_env Nerf_new = Ok true n' ∧
        camera_pos n'
        = glm.Vec3 (glm.x (camera_pos n1)) (F32.neg (glm.y (camera_pos n1)))
            (glm.z (camera_pos n1)) ∧
        cam_position (camera n') = camera_pos n'.
Proof.
  intros n1.
  destruct (@camera_y_is_negated mobile_nerf_h every_mlp_env Nerf_new n1 every_mlp_scene_read)
    as (_ & Hrun & _).
  destruct (@prepare_run mobile_nerf_h every_mlp_env Nerf_new n1
              (replicate 4 long_description) every_mlp_scene_read eq_refl
              every_mlp_scene_in_order) as (n' & Hprepare & _).
  rewrite Hprepare in Hrun. destruct Hrun as [Hpos Hcam].
  exists n'. split; [exact Hprepare |]. split; [exact Hpos |].
  rewrite Hcam, Hpos. reflexivity.
Defined.
